(** * Cycle-count model notebook (model.ipynb): data frames, imputation,
      preprocessing, evaluation and prediction

    The notebook reads four prepared tables, fills missing values per
    hour of day, splits features from the target, builds a column
    transformer (one-hot encoding and standardisation), compares
    regressors by RMSE, runs a feature ablation, and writes the rounded
    predictions of the selected pipeline.

    Data frames are modelled column by column, as pandas stores them: a
    frame is an index and a list of named series.  A missing value (NaN)
    is [None].  Floating point numbers are idealised as real numbers.
    Failures (KeyError, ValueError, NotFittedError) are [None] in the
    option monad: they abort the run.  The behaviour of the libraries is
    that of pandas 1.5 and scikit-learn 1.1, the versions of the year of
    the notebook. *)

From Stdlib Require Import ZArith List Ascii String Reals Lra Lia.
From stdpp Require Import base option list gmap strings sorting.

Open Scope Z_scope.
Open Scope string_scope.
Open Scope list_scope.

(** ** Values, series and frames *)

(** A non-missing cell of a table read from CSV: an integer or a float. *)
Inductive value :=
  | VInt (z : Z)
  | VFloat (r : R).

(** A cell; [None] is NaN. *)
Abbreviation cell := (option value).

Inductive dtype := Int64 | Float64 | Object.

Record series := Series {
  name : string;
  dtype_of : dtype;
  values : list cell
}.

(** A frame with a DatetimeIndex, kept as pandas keeps it: 64-bit
    integers, nanoseconds since the epoch; the least of them is NaT, the
    timestamp that is missing. *)
Record frame := Frame {
  index : list Z;
  cols : list series
}.

Definition NaT : Z := -9223372036854775808.

(** A table as [pd.read_csv] returns it: the text column ['Dato + Tid']
    is kept apart from the other columns, since the first statement of
    [handleNullValues] moves it into the index.  A file without that
    column gives [None]; an empty field of the column is read as NaN,
    here [None] in the place of the text. *)
Record loaded := Loaded {
  dato_tid : option (list (option string));
  fields : list series
}.

(** The column ['Dato + Tid'] of a file that has a text in every row. *)
Definition texts (l : list string) : option (list (option string)) :=
  Some (Some <$> l).

Definition column_names (f : frame) : list string := name <$> cols f.

Definition has_col (n : string) (f : frame) : bool :=
  bool_decide (n ∈ column_names f).

(** [f[n]]: the series named [n]. *)
Definition get_col (n : string) (f : frame) : option series :=
  List.find (fun s => bool_decide (name s = n)) (cols f).

(** Every series of a frame is as long as its index. *)
Definition wf_frame (f : frame) : Prop :=
  Forall (fun s => length (values s) = length (index f)) (cols f).

Definition wf_loaded (t : loaded) : Prop :=
  forall labels, dato_tid t = Some labels ->
    Forall (fun s => length (values s) = length labels) (fields t).

(** ** Missing values: [handleNullValues] *)

(** [DatetimeIndex.hour] and the calendar day of a timestamp that is not
    NaT. *)
Definition hour (t : Z) : Z := (t / 3600000000000) mod 24.
Definition day (t : Z) : Z := t / 86400000000000.

(** One column of [groupby(keys).fillna(method='ffill')]: the rows are
    visited in table order, [last] holds for each group the last value
    that was present. *)
Fixpoint ffill_groups (keys : list Z) (vals : list cell)
    (last : gmap Z value) : list cell :=
  match keys, vals with
  | k :: ks, Some x :: vs => Some x :: ffill_groups ks vs (<[k := x]> last)
  | k :: ks, None :: vs => last !! k :: ffill_groups ks vs last
  | _, _ => []
  end.

(** The values present in group [k], in table order, and the last of
    them among the first [i] rows: the nearest preceding value of row [i]
    in its group. *)
Definition group_values (k : Z) (keys : list Z) (vals : list cell) : list value :=
  omap (fun '(k', c) => if decide (k' = k) then c else None) (zip keys vals).

Definition nearest_preceding (keys : list Z) (vals : list cell) (i : nat) : cell :=
  k ← keys !! i;
  last (group_values k (take i keys) (take i vals)).

(** The nearest preceding value, said with positions: row [j] is before
    row [i], in its group, holds [v], and every row of the group between
    them is missing. *)
Definition fills_from (keys : list Z) (vals : list cell) (i j : nat) (v : value)
    : Prop :=
  (j < i)%nat /\ keys !! j = keys !! i /\ vals !! j = Some (Some v) /\
  forall j', (j < j' < i)%nat -> keys !! j' = keys !! i -> vals !! j' = Some None.

Definition ffill_series (keys : list Z) (s : series) : series :=
  Series (name s) (dtype_of s) (ffill_groups keys (values s) ∅).

(** [take]: the rows at the positions given, in that order. *)
Definition take_cells {A} (rows : list nat) (l : list A) : list A :=
  omap (fun i => l !! i) rows.

Definition take_series (rows : list nat) (s : series) : series :=
  Series (name s) (dtype_of s) (take_cells rows (values s)).

Definition take_rows (rows : list nat) (f : frame) : frame :=
  Frame (take_cells rows (index f)) (take_series rows <$> cols f).

(** The rows group by group, the groups by increasing key and each in
    the order of the table: the positions of the rows, sorted by key
    with a stable sort. *)
Fixpoint insert_row (r : Z * nat) (rows : list (Z * nat)) : list (Z * nat) :=
  match rows with
  | [] => [r]
  | r' :: rows' =>
      if decide (r.1 <= r'.1) then r :: rows else r' :: insert_row r rows'
  end.

Definition group_order (keys : list Z) : list nat :=
  (foldr insert_row [] (zip keys (seq 0 (length keys)))).*2.

(** [labels.get_indexer_non_unique(targets)]: for each target in turn,
    the positions of the labels equal to it. *)
Definition get_indexer_non_unique (labels targets : list Z) : list nat :=
  concat ((fun t => filter (fun k => labels !! k = Some t)
                      (seq 0 (length labels))) <$> targets).

(** [unique1d]: every number once, where it stands first. *)
Fixpoint unique1d (l : list nat) : list nat :=
  match l with
  | [] => []
  | x :: l' => x :: filter (fun y => y <> x) (unique1d l')
  end.

(** [groupby(keys).fillna(method='ffill')] on a table whose rows all
    have a key, as the groupby of pandas computes it: the fill is applied
    to every group, the filled groups are put one after the other, and
    the rows are put back in the order of the table by their labels.
    When a label repeats and the groups are not already in the order of
    the table, the rows are taken label by label instead: the rows of a
    timestamp come to stand together, where that timestamp stands first
    (pandas/core/groupby/groupby.py, [_concat_objects]). *)
Definition groupby_apply_ffill (f : frame) : frame :=
  let keys := hour <$> index f in
  let filled := Frame (index f) (ffill_series keys <$> cols f) in
  let chunks := take_rows (group_order keys) filled in
  let ax := index f in
  if bool_decide (~ NoDup ax /\ index chunks <> ax) then
    let indexer := get_indexer_non_unique (index chunks) ax in
    take_rows (unique1d indexer) chunks
  else filled.

(** The rows that [groupby] puts in a group: a row whose key is NaN, the
    hour of NaT, is in none. *)
Definition grouped_rows (idx : list Z) : list nat :=
  filter (fun i => idx !! i <> Some NaT) (seq 0 (length idx)).

(** [reindex] brings a row of NaN into every column: a column of
    integers becomes a column of floats. *)
Definition upcast_value (v : value) : value :=
  match v with
  | VInt z => VFloat (IZR z)
  | VFloat r => VFloat r
  end.

Definition upcast_cell (c : cell) : cell := upcast_value <$> c.

Definition upcast_series (s : series) : series :=
  match dtype_of s with
  | Int64 => Series (name s) Float64 (upcast_cell <$> values s)
  | _ => s
  end.

(** The rows labelled with [positions], sorted by label and reindexed
    over the [n] rows of the table: a position that is no label gets a
    row of NaN. *)
Definition restore_cells (positions : list nat) (n : nat) (vals : list cell)
    : list cell :=
  (fun j => match list_find (fun p => p = j) positions with
            | Some (k, _) => default None (vals !! k)
            | None => None
            end) <$> seq 0 n.

Definition restore_series (positions : list nat) (n : nat) (s : series)
    : series :=
  upcast_series (Series (name s) (dtype_of s) (restore_cells positions n (values s))).

(** [dataset.groupby(dataset.index.hour).fillna(method='ffill')].  When
    every row has a timestamp this is the fill within the groups.  When
    a timestamp is NaT, the rows without a key are dropped, the others
    are filled, and the rows dropped are added back as rows of NaN under
    the index of the table ([_op_via_apply] with
    [_set_result_index_ordered]): the filled rows are labelled with the
    positions that the rows have group by group, and sorted by them. *)
Definition groupby_hour_ffill (f : frame) : frame :=
  if bool_decide (NaT ∈ index f) then
    let rows := grouped_rows (index f) in
    let grouped := take_rows rows f in
    let result := groupby_apply_ffill grouped in
    let original_positions :=
      take_cells (group_order (hour <$> index grouped)) rows in
    Frame (index f)
      (restore_series original_positions (length (index f)) <$> cols result)
  else groupby_apply_ffill f.

Definition astype_series (names : list string) (s : series) : series :=
  if bool_decide (name s ∈ names) then Series (name s) Object (values s) else s.

(** [dataset[names] = dataset[names].astype('object')]: KeyError when a
    name is not a column. *)
Definition astype_object (names : list string) (f : frame) : option frame :=
  if forallb (fun n => has_col n f) names then
    Some (Frame (index f) (astype_series names <$> cols f))
  else None.

Definition categorical_columns : list string := ["Hour"; "isWeekday"; "Month"].

Section Imputer.
(** [pd.to_datetime(_, format="%Y-%m-%d %H:%M:%S")] on one text: the
    timestamp, which is NaT for the texts that stand for a missing
    timestamp, and [None] when the text raises. *)
Variable to_datetime : string -> option Z.

(** The same on a label of the index: a label that is missing gives NaT
    and does not raise. *)
Definition to_datetime_label (label : option string) : option Z :=
  match label with
  | Some text => to_datetime text
  | None => Some NaT
  end.

Definition handleNullValues (dataset : loaded) : option frame :=
  (* set_index('Dato + Tid'): KeyError without that column *)
  labels ← dato_tid dataset;
  (* to_datetime on the new index *)
  idx ← mapM to_datetime_label labels;
  let dataset := Frame idx (fields dataset) in
  (* groupby(dataset.index.hour).fillna(method='ffill') *)
  let dataset := groupby_hour_ffill dataset in
  (* astype('object') on 'Hour', 'isWeekday', 'Month' *)
  astype_object categorical_columns dataset.
End Imputer.

(** The rows are in chronological order, and no two rows fall on the same
    hour of the same day. *)
Definition chronological (idx : list Z) : Prop := StronglySorted Z.le idx.

Definition one_row_per_hour (idx : list Z) : Prop :=
  NoDup ((fun t => (day t, hour t)) <$> idx).

(** ** Features and target: [splitSet] *)

(** [f.drop(labels, axis=1)]: KeyError when a label is not a column. *)
Definition drop_columns (labels : list string) (f : frame) : option frame :=
  if forallb (fun n => has_col n f) labels then
    Some (Frame (index f) (filter (fun s => name s ∉ labels) (cols f)))
  else None.

Definition splitSet (set : frame) : option (frame * series) :=
  X ← drop_columns ["Volum"] set;
  y ← get_col "Volum" set;
  Some (X, y).

(** [X.insert(pos, name, y)]: the series [y] becomes the column at
    position [pos]. *)
Definition insert_column (pos : nat) (y : series) (X : frame) : frame :=
  Frame (index X) (take pos (cols X) ++ y :: drop pos (cols X)).

(** ** Numbers *)

#[global] Instance R_eq_dec : EqDecision R := Req_dec_T.
#[global] Instance Rle_decision (x y : R) : Decision (x <= y)%R := Rle_dec x y.
#[global] Instance Rlt_decision (x y : R) : Decision (x < y)%R := Rlt_dec x y.

Definition to_float (v : value) : R :=
  match v with
  | VInt z => IZR z
  | VFloat r => r
  end.

(** Python's [==] and [<=] on numbers; integers compare as integers. *)
Definition value_eqb (v w : value) : bool :=
  match v, w with
  | VInt a, VInt b => Z.eqb a b
  | _, _ => bool_decide (to_float v = to_float w)
  end.

Definition value_leb (v w : value) : bool :=
  match v, w with
  | VInt a, VInt b => Z.leb a b
  | _, _ => bool_decide (to_float v <= to_float w)%R
  end.

Definition Rsum (xs : list R) : R := foldr Rplus 0%R xs.

Definition Rmean (xs : list R) : R := (Rsum xs / INR (length xs))%R.

Definition Rfloor (x : R) : Z := up x - 1.

(** [round(x)] of Python and [Series.round()]: to the nearest integer,
    a tie to the even one. *)
Definition round_half_even (x : R) : Z :=
  let f := Rfloor x in
  if decide (x - IZR f < 1 / 2)%R then f
  else if decide (1 / 2 < x - IZR f)%R then f + 1
  else if Z.even f then f else f + 1.

(** ** Transformers: [OneHotEncoder], [StandardScaler], [ColumnTransformer] *)

(** The design matrix, one list per sample. *)
Abbreviation matrix := (list (list (option R))).

Inductive handle_unknown := HU_error | HU_ignore.

(** Categories are compared as sklearn does: NaN is a category of its
    own and sorts last. *)
Definition cell_eqb (c d : cell) : bool :=
  match c, d with
  | None, None => true
  | Some v, Some w => value_eqb v w
  | _, _ => false
  end.

Definition cell_leb (c d : cell) : bool :=
  match c, d with
  | _, None => true
  | None, Some _ => false
  | Some v, Some w => value_leb v w
  end.

Fixpoint insert_category (c : cell) (cats : list cell) : list cell :=
  match cats with
  | [] => [c]
  | d :: cats' =>
      if cell_eqb c d then cats
      else if cell_leb c d then c :: cats
      else d :: insert_category c cats'
  end.

(** [OneHotEncoder.fit] on one column: the sorted distinct values. *)
Definition ohe_fit (vals : list cell) : list cell :=
  foldr insert_category [] vals.

Definition known_category (cats : list cell) (c : cell) : bool :=
  existsb (cell_eqb c) cats.

(** The indicator of a cell over the categories. *)
Definition indicator (cats : list cell) (c : cell) : list (option R) :=
  (fun d => Some (if cell_eqb c d then 1 else 0)%R) <$> cats.

(** [OneHotEncoder.transform] on one cell: the indicator of its category;
    a cell outside the categories raises unless unknown values are
    ignored. *)
Definition ohe_row (hu : handle_unknown) (cats : list cell) (c : cell)
    : option (list (option R)) :=
  if known_category cats c then Some (indicator cats c)
  else match hu with
       | HU_ignore => Some (indicator cats c)
       | HU_error => None
       end.

Definition ohe_transform (hu : handle_unknown) (cats : list cell)
    (vals : list cell) : option matrix :=
  mapM (ohe_row hu cats) vals.

Record scaler_params := ScalerParams {
  mean_ : option R;
  scale_ : option R
}.

(** [StandardScaler.fit] on one column: mean and population standard
    deviation of the values present; a zero deviation is replaced by 1;
    a column without any value gives NaN for both. *)
Definition scaler_fit (vals : list cell) : scaler_params :=
  let xs := omap (fmap to_float) vals in
  match xs with
  | [] => ScalerParams None None
  | _ =>
      let m := Rmean xs in
      let var := Rmean ((fun x => (x - m) * (x - m))%R <$> xs) in
      ScalerParams (Some m) (Some (if decide (var = 0%R) then 1%R else sqrt var))
  end.

Definition standardize (p : scaler_params) (c : cell) : option R :=
  x ← to_float <$> c;
  m ← mean_ p;
  s ← scale_ p;
  Some ((x - m) / s)%R.

Definition scaler_transform (p : scaler_params) (vals : list cell) : matrix :=
  (fun c => [standardize p c]) <$> vals.

(** [np.hstack]/[sparse.hstack] of blocks of [n] rows each. *)
Definition hstack (n : nat) (blocks : list matrix) : matrix :=
  foldr (zip_with app) (replicate n []) blocks.

(** [ColumnTransformer([('one-hot-encoder', OneHotEncoder(handle_unknown=hu),
    categorical), ('standard_scaler', StandardScaler(), numeric)])]. *)
Record column_transformer := ColumnTransformer {
  ct_handle_unknown : handle_unknown;
  ct_categorical : list string;
  ct_numeric : list string
}.

Record ct_params := CtParams {
  ct_spec : column_transformer;
  categories_ : list (list cell);
  scalers_ : list scaler_params
}.

(** Columns are selected by name; a missing column or a table without
    rows raises. *)
Definition select_columns (names : list string) (X : frame)
    : option (list (list cell)) :=
  mapM (fun n => values <$> get_col n X) names.

Definition ct_fit (spec : column_transformer) (X : frame) : option ct_params :=
  cat ← select_columns (ct_categorical spec) X;
  num ← select_columns (ct_numeric spec) X;
  if decide (length (index X) = 0%nat) then None
  else Some (CtParams spec (ohe_fit <$> cat) (scaler_fit <$> num)).

Definition ct_transform (p : ct_params) (X : frame) : option matrix :=
  cat ← select_columns (ct_categorical (ct_spec p)) X;
  num ← select_columns (ct_numeric (ct_spec p)) X;
  if decide (length (index X) = 0%nat) then None
  else
    cat_blocks ← mapM (fun '(cats, vals) =>
                         ohe_transform (ct_handle_unknown (ct_spec p)) cats vals)
                      (zip (categories_ p) cat);
    let num_blocks := zip_with scaler_transform (scalers_ p) num in
    Some (hstack (length (index X)) (cat_blocks ++ num_blocks)).

(** The column of the design matrix where the block of the [k]-th
    categorical feature starts, and the row of a block for a sample. *)
Definition block_offset (p : ct_params) (k : nat) : nat :=
  length (concat (take k (categories_ p))).

Definition row_at (i : nat) (block : matrix) : list (option R) :=
  default [] (block !! i).

(** ** The metric *)

(** [mean_squared_error(y_true, y_pred)]: raises on NaN, on no sample
    and on different lengths. *)
Definition mean_squared_error (y_true : list cell) (y_pred : list R)
    : option R :=
  ys ← mapM (fmap to_float) y_true;
  if decide (length ys = length y_pred ∧ length ys ≠ 0%nat) then
    Some (Rmean (zip_with (fun a b => (a - b) * (a - b))%R ys y_pred))
  else None.

(** ** Regressors *)

(** The estimators the notebook constructs, with the arguments it gives. *)
Inductive estimator :=
  | DummyRegressor
  | LinearRegression
  | ElasticNet
  | Lasso
  | Ridge (alpha : R)
  | SGDRegressor
  | KNeighborsRegressor
  | RandomForestRegressor.

(** A design matrix with a missing value. *)
Definition has_nan (X : matrix) : bool :=
  existsb (existsb (fun c => match c with None => true | Some _ => false end)) X.

(** The estimators that check the features given to them ([check_array]
    in [fit] and in [predict]); the dummy regressor does not look at the
    features. *)
Definition checks_input (e : estimator) : bool :=
  match e with
  | DummyRegressor => false
  | _ => true
  end.

(** The regressors of the statistics library, as the notebook uses them:
    [fit] gives the fitted state of an estimator from a design matrix and
    the targets, [predict] gives one number per sample.  Both may raise,
    and an estimator that checks its input raises on a missing value.
    An instance stands for the library in one run of the notebook: the
    random draws of [SGDRegressor] and [RandomForestRegressor], which the
    notebook builds without [random_state], are those of that run. *)
Class Regressors := {
  model : Type;
  fit : estimator -> matrix -> list cell -> option model;
  predict : model -> matrix -> option (list R);
  fit_checks_input : forall e Xt ys,
    checks_input e = true -> has_nan Xt = true -> fit e Xt ys = None;
  predict_checks_input : forall e Xt ys m Xe,
    checks_input e = true -> fit e Xt ys = Some m -> has_nan Xe = true ->
    predict m Xe = None
}.

(** [DummyRegressor(strategy="mean")]: it looks at the number of samples
    only; [fit] raises on a missing target, on no sample and on different
    lengths. *)
Definition dummy_fit (n_samples : nat) (y : list cell) : option R :=
  ys ← mapM (fmap to_float) y;
  if decide (length ys = n_samples ∧ length ys ≠ 0%nat) then Some (Rmean ys)
  else None.

Definition dummy_predict (m : R) (n_samples : nat) : list R :=
  replicate n_samples m.

(** The mean predictor in the place of every estimator, with the check
    of the input of the estimator it stands for: an instance to run the
    notebook on examples. *)
Definition mean_fit (e : estimator) (X : matrix) (y : list cell)
    : option (estimator * R) :=
  if checks_input e && has_nan X then None
  else m ← dummy_fit (length X) y; Some (e, m).

Definition mean_predict (m : estimator * R) (X : matrix) : option (list R) :=
  if checks_input m.1 && has_nan X then None
  else Some (dummy_predict m.2 (length X)).

Definition mean_regressors : Regressors.
Proof.
  refine {| model := (estimator * R)%type;
            fit := mean_fit; predict := mean_predict |}.
  - intros e Xt ys He Hnan. unfold mean_fit. by rewrite He, Hnan.
  - intros e Xt ys m Xe He Hfit Hnan. unfold mean_fit in Hfit.
    destruct (checks_input e && has_nan Xt); [done|].
    destruct (dummy_fit (length Xt) ys); [|done].
    injection Hfit as <-. unfold mean_predict. simpl. by rewrite He, Hnan.
Defined.

(** ** The notebook: objects, output and cells *)

Inductive line :=
  | Header (feature : string)
  | Report (e : estimator) (rmse : Z).

Section Notebook.
Context `{Regressors}.

(** The state of a run: the transformer and estimator objects (a
    pipeline refers to them, it does not copy them) and what was
    printed. *)
Record notebook := Notebook {
  transformers : gmap nat (column_transformer * option ct_params);
  estimators : gmap nat (estimator * option model);
  next_id : nat;
  stdout : list line
}.

Definition NB (A : Type) : Type := notebook -> option (A * notebook).

#[global] Instance NB_ret : MRet NB := fun A x s => Some (x, s).
#[global] Instance NB_bind : MBind NB :=
  fun A B f m s => match m s with Some (x, s') => f x s' | None => None end.

(** A pure step that may raise. *)
Definition lift {A} (o : option A) : NB A :=
  fun s => match o with Some x => Some (x, s) | None => None end.

Fixpoint for_each {A} (l : list A) (body : A -> NB unit) : NB unit :=
  match l with
  | [] => mret tt
  | x :: l' => body x ;; for_each l' body
  end.

Definition print (l : line) : NB unit :=
  fun s => Some (tt, Notebook (transformers s) (estimators s) (next_id s)
                              (stdout s ++ [l])).

Definition new_transformer (spec : column_transformer) : NB nat :=
  fun s => Some (next_id s,
                 Notebook (<[next_id s := (spec, None)]> (transformers s))
                          (estimators s) (S (next_id s)) (stdout s)).

Definition new_estimator (e : estimator) : NB nat :=
  fun s => Some (next_id s,
                 Notebook (transformers s)
                          (<[next_id s := (e, None)]> (estimators s))
                          (S (next_id s)) (stdout s)).

Definition repr (est : nat) : NB estimator :=
  fun s => match estimators s !! est with
           | Some (e, _) => Some (e, s)
           | None => None
           end.

(** [make_pipeline(pre, est)] keeps references to its two steps. *)
Definition pipeline : Type := nat * nat.

Definition make_pipeline (pre est : nat) : pipeline := (pre, est).

(** [pipe.fit(X, y)]: fits the transformer object on [X], transforms
    [X] with it and fits the estimator object on the result. *)
Definition pipeline_fit (pipe : pipeline) (X : frame) (y : series) : NB unit :=
  fun s =>
    '(spec, _) ← transformers s !! pipe.1;
    '(e, _) ← estimators s !! pipe.2;
    params ← ct_fit spec X;
    Xt ← ct_transform params X;
    m ← fit e Xt (values y);
    Some (tt, Notebook (<[pipe.1 := (spec, Some params)]> (transformers s))
                       (<[pipe.2 := (e, Some m)]> (estimators s))
                       (next_id s) (stdout s)).

(** [pipe.predict(X)]: NotFittedError when a step was never fitted. *)
Definition pipeline_predict (pipe : pipeline) (X : frame) : NB (list R) :=
  fun s =>
    '(_, fitted) ← transformers s !! pipe.1;
    params ← fitted;
    '(_, fitted_model) ← estimators s !! pipe.2;
    m ← fitted_model;
    Xt ← ct_transform params X;
    y_pred ← predict m Xt;
    Some (y_pred, s).

(** [pickle.dump(pipe, _)]: the written artifact holds the two steps as
    they are at that moment. *)
Definition pickle_dump (pipe : pipeline)
    : NB ((column_transformer * option ct_params) * (estimator * option model)) :=
  fun s =>
    pre ← transformers s !! pipe.1;
    est ← estimators s !! pipe.2;
    Some ((pre, est), s).

(** The evaluation of an estimator in plain words: fit the transformer
    and the estimator on one table, predict on another, and take the
    rounded square root of the mean squared error.  It gives the two
    fitted states with the number reported. *)
Definition evaluation (spec : column_transformer) (e : estimator)
    (X_fit : frame) (y_fit : series) (X_eval : frame) (y_eval : series)
    : option (ct_params * model * Z) :=
  params ← ct_fit spec X_fit;
  Xt ← ct_transform params X_fit;
  m ← fit e Xt (values y_fit);
  Xe ← ct_transform params X_eval;
  y_pred ← predict m Xe;
  MSE ← mean_squared_error (values y_eval) y_pred;
  Some (params, m, round_half_even (sqrt MSE)).

(** The notebook after a pipeline was fitted and its score printed. *)
Definition evaluated (s : notebook) (pipe : pipeline)
    (spec : column_transformer) (e : estimator)
    (r : ct_params * model * Z) : notebook :=
  Notebook (<[pipe.1 := (spec, Some r.1.1)]> (transformers s))
           (<[pipe.2 := (e, Some r.1.2)]> (estimators s))
           (next_id s) (stdout s ++ [Report e r.2]).

(** *** Preprocess *)

Definition preprocess (X_train : frame) : column_transformer :=
  let categorical_features := ["Hour"; "isWeekday"; "Month"] in
  let numeric_features := ["Globalstraling"; "Solskinstid"; "Lufttemperatur"] in
  ColumnTransformer HU_ignore categorical_features numeric_features.

(** *** Baseline model *)

Definition baseline (X_train : frame) (y_train : series)
    (X_validation : frame) (y_validation : series) : NB unit :=
  dummy ← lift (dummy_fit (length (index X_train)) (values y_train));
  let y_pred := dummy_predict dummy (length (index X_validation)) in
  MSE ← lift (mean_squared_error (values y_validation) y_pred);
  let RMSE := sqrt MSE in
  print (Report DummyRegressor (round_half_even RMSE)).

(** *** Comparing models *)

Definition compare_models (X_train_preprocessed : nat)
    (X_train : frame) (y_train : series)
    (X_validation : frame) (y_validation : series) (model : nat) : NB unit :=
  let model_pipe := make_pipeline X_train_preprocessed model in
  pipeline_fit model_pipe X_train y_train;;
  y_pred ← pipeline_predict model_pipe X_validation;
  MSE ← lift (mean_squared_error (values y_validation) y_pred);
  let RMSE := sqrt MSE in
  e ← repr model;
  print (Report e (round_half_even RMSE)).

Definition regression_models : list estimator :=
  [DummyRegressor; LinearRegression; ElasticNet; Lasso; Ridge (1 / 10);
   SGDRegressor; KNeighborsRegressor; RandomForestRegressor].

Definition compare_all (X_train : frame) (y_train : series)
    (X_validation : frame) (y_validation : series) : NB unit :=
  X_train_preprocessed ← new_transformer (preprocess X_train);
  models ← mapM new_estimator regression_models;
  for_each models
    (compare_models X_train_preprocessed X_train y_train X_validation y_validation).

(** *** Feature selection *)

(** [l.remove(x)]: removes the first occurrence, ValueError when there
    is none. *)
Fixpoint list_remove (x : string) (l : list string) : option (list string) :=
  match l with
  | [] => None
  | y :: l' => if decide (y = x) then Some l' else cons y <$> list_remove x l'
  end.

(** [try: l.remove(x) except: pass]. *)
Definition try_remove (x : string) (l : list string) : list string :=
  match list_remove x l with
  | Some l' => l'
  | None => l
  end.

Definition check_feature_process (X_train : frame) (feature_to_drop : string)
    : column_transformer :=
  let numeric_features := ["Lufttemperatur"; "Globalstraling"; "Solskinstid"] in
  let numeric_features := try_remove feature_to_drop numeric_features in
  let categorical_features := ["Hour"; "isWeekday"; "Month"] in
  let categorical_features := try_remove feature_to_drop categorical_features in
  ColumnTransformer HU_ignore categorical_features numeric_features.

Definition check_feature_compare (check_feature_preprocess : nat)
    (X_train_check_feature : frame) (y_train : series)
    (X_validation_check_feature : frame) (y_validation : series)
    (model : nat) : NB unit :=
  let check_feature_pipe := make_pipeline check_feature_preprocess model in
  pipeline_fit check_feature_pipe X_train_check_feature y_train;;
  y_pred ← pipeline_predict check_feature_pipe X_validation_check_feature;
  MSE ← lift (mean_squared_error (values y_validation) y_pred);
  let RMSE := sqrt MSE in
  e ← repr model;
  print (Report e (round_half_even RMSE)).

(** The body of the loop over [features_to_test]. *)
Definition check_feature (X_train : frame) (y_train : series)
    (X_validation : frame) (y_validation : series) (best_models : list nat)
    (n_feature : string) : NB unit :=
  X_train_check_feature ← lift (drop_columns [n_feature] X_train);
  X_validation_check_feature ← lift (drop_columns [n_feature] X_validation);
  print (Header n_feature);;
  check_feature_preprocess ←
    new_transformer (check_feature_process X_train_check_feature n_feature);
  for_each best_models
    (check_feature_compare check_feature_preprocess
       X_train_check_feature y_train X_validation_check_feature y_validation).

Definition features_to_test : list string :=
  ["Lufttemperatur"; "Globalstraling"; "Solskinstid"; "Hour"; "isWeekday"; "Month"].

Definition feature_selection (features : list string)
    (X_train : frame) (y_train : series)
    (X_validation : frame) (y_validation : series) : NB unit :=
  KNR ← new_estimator KNeighborsRegressor;
  RFR ← new_estimator RandomForestRegressor;
  let best_models := [KNR; RFR] in
  for_each features
    (check_feature X_train y_train X_validation y_validation best_models).

(** *** The selected features and the final model *)

Definition bad_features : list string := ["Globalstraling"; "Solskinstid"].

Definition preprocess_selected_features (X_train : frame) : column_transformer :=
  let numeric_features := ["Lufttemperatur"] in
  let categorical_features := ["Hour"; "isWeekday"; "Month"] in
  ColumnTransformer HU_ignore categorical_features numeric_features.

(** The second [compare_models] of the notebook, on the selected
    features. *)
Definition compare_models_selected (X_train_selected_preprocessed : nat)
    (X_train_selected_features : frame) (y_train : series)
    (X_validation_selected_features : frame) (y_validation : series)
    (model : nat) : NB unit :=
  let model_pipe := make_pipeline X_train_selected_preprocessed model in
  pipeline_fit model_pipe X_train_selected_features y_train;;
  y_pred ← pipeline_predict model_pipe X_validation_selected_features;
  MSE ← lift (mean_squared_error (values y_validation) y_pred);
  let RMSE := sqrt MSE in
  e ← repr model;
  print (Report e (round_half_even RMSE)).

(** What the cell of the selected features leaves to the next cells. *)
Record selected := Selected {
  X_train_selected_features : frame;
  X_train_selected_preprocessed : nat;
  KNR : nat
}.

Definition select_features (X_train : frame) (y_train : series)
    (X_validation : frame) (y_validation : series) : NB selected :=
  X_train_selected_features ← lift (drop_columns bad_features X_train);
  X_validation_selected_features ← lift (drop_columns bad_features X_validation);
  X_train_selected_preprocessed ←
    new_transformer (preprocess_selected_features X_train_selected_features);
  KNR ← new_estimator KNeighborsRegressor;
  RFR ← new_estimator RandomForestRegressor;
  let regression_models := [KNR; RFR] in
  for_each regression_models
    (compare_models_selected X_train_selected_preprocessed
       X_train_selected_features y_train
       X_validation_selected_features y_validation);;
  mret (Selected X_train_selected_features X_train_selected_preprocessed KNR).

(** The cell that fits, tests and saves [best_model]; it gives the
    pipeline and the content of [model.pkl]. *)
Definition fit_best_model (sel : selected) (y_train : series)
    (X_test : frame) (y_test : series)
    : NB (pipeline *
          ((column_transformer * option ct_params) * (estimator * option model))) :=
  let best_model := make_pipeline (X_train_selected_preprocessed sel) (KNR sel) in
  pipeline_fit best_model (X_train_selected_features sel) y_train;;
  X_test_selected_features ← lift (drop_columns bad_features X_test);
  y_pred ← pipeline_predict best_model X_test_selected_features;
  MSE ← lift (mean_squared_error (values y_test) y_pred);
  let RMSE := sqrt MSE in
  e ← repr (KNR sel);
  print (Report e (round_half_even RMSE));;
  model_pkl ← pickle_dump best_model;
  mret (best_model, model_pkl).

Definition replace_column (n : string) (dt : dtype) (vals : list cell)
    (s : series) : series :=
  if bool_decide (name s = n) then Series n dt vals else s.

(** [f.n = vals] where [vals] is an array: the column [n] is replaced
    (ValueError when the length differs); when [n] is not a column only
    an attribute of the object is set and the table stays as it is. *)
Definition setattr_column (n : string) (dt : dtype) (vals : list cell)
    (f : frame) : option frame :=
  if has_col n f then
    if decide (length vals = length (index f)) then
      Some (Frame (index f) (replace_column n dt vals <$> cols f))
    else None
  else Some f.

(** [Series.round()]. *)
Definition round_value (v : value) : value :=
  match v with
  | VInt z => VInt z
  | VFloat r => VFloat (IZR (round_half_even r))
  end.

Definition round_cell (c : cell) : cell :=
  match c with
  | Some v => Some (round_value v)
  | None => None
  end.

Definition round_series (s : series) : series :=
  Series (name s) (dtype_of s) (round_cell <$> values s).

(** [f.n]: the column [n]; when [n] is not a column, the attribute that
    an assignment [f.n = _] has set. *)
Definition getattr_column (n : string) (attribute : series) (f : frame) : series :=
  match get_col n f with
  | Some s => s
  | None => attribute
  end.

(** The prediction cell; it gives the table written to
    [predictions.csv]. *)
Definition predict_2022 (best_model : pipeline) (X_toPredict : frame)
    (toPredict_2022 : frame) : NB frame :=
  volum_prediction ← pipeline_predict best_model X_toPredict;
  let volum_prediction :=
    Series "Volum" Float64 ((fun r => Some (VFloat r)) <$> volum_prediction) in
  toPredict_2022 ← lift (setattr_column "Volum" Float64
                           (values volum_prediction) toPredict_2022);
  let Volum := getattr_column "Volum" volum_prediction toPredict_2022 in
  let Volum := round_series Volum in
  toPredict_2022 ← lift (setattr_column "Volum" (dtype_of Volum) (values Volum)
                           toPredict_2022);
  mret toPredict_2022.

(** *** The whole run *)

Record outputs := Outputs {
  model_pkl : (column_transformer * option ct_params) * (estimator * option model);
  predictions_csv : frame
}.

(** The cells of the selected features, of the final model and of the
    predictions. *)
Definition final_model (X_train : frame) (y_train : series)
    (X_validation : frame) (y_validation : series)
    (X_test : frame) (y_test : series)
    (X_toPredict : frame) (toPredict_2022 : frame) : NB outputs :=
  sel ← select_features X_train y_train X_validation y_validation;
  '(best_model, model_pkl) ← fit_best_model sel y_train X_test y_test;
  predictions ← predict_2022 best_model X_toPredict toPredict_2022;
  mret (Outputs model_pkl predictions).

Definition run (to_datetime : string -> option Z)
    (training_set validation_set test_set toPredict_2022 : loaded) : NB outputs :=
  training_set ← lift (handleNullValues to_datetime training_set);
  validation_set ← lift (handleNullValues to_datetime validation_set);
  test_set ← lift (handleNullValues to_datetime test_set);
  toPredict_2022 ← lift (handleNullValues to_datetime toPredict_2022);
  '(X_train, y_train) ← lift (splitSet training_set);
  '(X_validation, y_validation) ← lift (splitSet validation_set);
  '(X_test, y_test) ← lift (splitSet test_set);
  '(X_toPredict, y_toPredict) ← lift (splitSet toPredict_2022);
  baseline X_train y_train X_validation y_validation;;
  compare_all X_train y_train X_validation y_validation;;
  feature_selection features_to_test X_train y_train X_validation y_validation;;
  final_model X_train y_train X_validation y_validation X_test y_test
    X_toPredict toPredict_2022.

(** *** The cells in plain words *)

(** The table with its column [Volum] overwritten by the rounded
    predictions; a table without that column stays as it is. *)
Definition overwrite_target (f : frame) (y_pred : list R) : option frame :=
  if has_col "Volum" f then
    if decide (length y_pred = length (index f)) then
      let rounded := (fun r => Some (VFloat (IZR (round_half_even r)))) <$> y_pred in
      Some (Frame (index f) (replace_column "Volum" Float64 rounded <$> cols f))
    else None
  else Some f.

(** The final model in plain words: the two candidates are scored on
    the validation data and the nearest-neighbour pipeline is refit, all
    on the training data without the bad features; it is scored once on
    the test data and applied to the future data without the bad
    features; the rounded predictions are written.  It gives the outputs
    and the lines printed. *)
Definition final_model_spec (X_train : frame) (y_train : series)
    (X_validation : frame) (y_validation : series)
    (X_test : frame) (y_test : series)
    (X_toPredict : frame) (toPredict_2022 : frame)
    : option (outputs * list line) :=
  X_train_reduced ← drop_columns bad_features X_train;
  X_validation_reduced ← drop_columns bad_features X_validation;
  let spec := preprocess_selected_features X_train_reduced in
  knr ← evaluation spec KNeighborsRegressor
          X_train_reduced y_train X_validation_reduced y_validation;
  rfr ← evaluation spec RandomForestRegressor
          X_train_reduced y_train X_validation_reduced y_validation;
  X_test_reduced ← drop_columns bad_features X_test;
  best ← evaluation spec KNeighborsRegressor
           X_train_reduced y_train X_test_reduced y_test;
  X_toPredict_reduced ← drop_columns bad_features X_toPredict;
  Xp ← ct_transform best.1.1 X_toPredict_reduced;
  y_pred ← predict best.1.2 Xp;
  predictions ← overwrite_target toPredict_2022 y_pred;
  Some (Outputs ((spec, Some best.1.1), (KNeighborsRegressor, Some best.1.2))
                predictions,
        [Report KNeighborsRegressor knr.2;
         Report RandomForestRegressor rfr.2;
         Report KNeighborsRegressor best.2]).

(** The notebook after the transformer of the selected features and the
    two candidate estimators were constructed. *)
Definition with_candidates (s : notebook) (spec : column_transformer) : notebook :=
  Notebook (<[next_id s := (spec, None)]> (transformers s))
           (<[S (S (next_id s)) := (RandomForestRegressor, None)]>
              (<[S (next_id s) := (KNeighborsRegressor, None)]> (estimators s)))
           (S (S (S (next_id s)))) (stdout s).

(** The body of the ablation loop without the removal of the column:
    the run on every column of the tables. *)
Definition full_feature_run (X_train : frame) (y_train : series)
    (X_validation : frame) (y_validation : series) (best_models : list nat)
    (n_feature : string) : NB unit :=
  print (Header n_feature);;
  check_feature_preprocess ←
    new_transformer (check_feature_process X_train n_feature);
  for_each best_models
    (check_feature_compare check_feature_preprocess
       X_train y_train X_validation y_validation).

Definition empty_notebook : notebook := Notebook ∅ ∅ 0 [].

End Notebook.

(** ** Example data *)

(** A reader of timestamps to run the examples; the properties below
    are stated for every [to_datetime].  It reads a date, and after a
    space or a T the hour, the minute and the second as far as they are
    written, each with one or two digits, as the ISO 8601 reader does
    that pandas uses for the format ["%Y-%m-%d %H:%M:%S"]; the texts that
    stand for a missing timestamp give NaT; a timestamp outside the
    64 bits of nanoseconds raises.  Pandas reads more (fractions of a
    second, time zones, dates without hyphens): such texts are in no
    example. *)
Definition digit (a : ascii) : option Z :=
  let n := Z.of_N (N_of_ascii a) - 48 in
  if decide (0 <= n <= 9) then Some n else None.

Fixpoint digits_prefix (l : list ascii) : list ascii * list ascii :=
  match l with
  | a :: l' =>
      match digit a with
      | Some _ => let '(ds, rest) := digits_prefix l' in (a :: ds, rest)
      | None => ([], l)
      end
  | [] => ([], [])
  end.

Definition number (s : list ascii) : option Z :=
  foldl (fun acc a => n ← acc; d ← digit a; Some (10 * n + d)) (Some 0) s.

Definition days_in_month (y m : Z) : Z :=
  if decide (m = 2) then
    if decide (y mod 4 = 0 ∧ (y mod 100 ≠ 0 ∨ y mod 400 = 0)) then 29 else 28
  else if decide (m = 4 ∨ m = 6 ∨ m = 9 ∨ m = 11) then 30 else 31.

Definition days_from_civil (y m d : Z) : Z :=
  let y' := if decide (m <= 2) then y - 1 else y in
  let era := y' / 400 in
  let yoe := y' - era * 400 in
  let doy := (153 * (if decide (m <= 2) then m + 9 else m - 3) + 2) / 5 + d - 1 in
  era * 146097 + (yoe * 365 + yoe / 4 - yoe / 100 + doy) - 719468.

(** A field of one or two digits, and what follows it. *)
Definition read_field (l : list ascii) : option (Z * list ascii) :=
  let '(ds, rest) := digits_prefix l in
  if decide (1 <= length ds <= 2)%nat then n ← number ds; Some (n, rest)
  else None.

(** The time of the day: nothing, or a space or a T and the hour, with
    the minute and the second when they are written. *)
Definition read_time (l : list ascii) : option (Z * Z * Z) :=
  match l with
  | [] => Some (0, 0, 0)
  | sep :: l =>
      if decide (sep = " "%char \/ sep = "T"%char) then
        '(h, l) ← read_field l;
        match l with
        | [] => Some (h, 0, 0)
        | ":"%char :: l =>
            '(i, l) ← read_field l;
            match l with
            | [] => Some (h, i, 0)
            | ":"%char :: l =>
                '(s, l) ← read_field l;
                match l with
                | [] => Some (h, i, s)
                | _ => None
                end
            | _ => None
            end
        | _ => None
        end
      else None
  end.

Definition nat_strings : list string :=
  [EmptyString; "NaT"; "nat"; "NAT"; "nan"; "NaN"; "NAN"].

Definition to_datetime_fixed (text : string) : option Z :=
  if decide (text ∈ nat_strings) then Some NaT
  else
    let '(ys, l) := digits_prefix (String.list_ascii_of_string text) in
    if decide (length ys = 4%nat) then
      y ← number ys;
      match l with
      | "-"%char :: l =>
          '(m, l) ← read_field l;
          match l with
          | "-"%char :: l =>
              '(d, l) ← read_field l;
              '(h, i, s) ← read_time l;
              let ns := (days_from_civil y m d * 86400 + h * 3600 + i * 60 + s)
                        * 1000000000 in
              if decide (1 <= m <= 12 /\ 1 <= d <= days_in_month y m
                         /\ h < 24 /\ i < 60 /\ s < 60
                         /\ NaT < ns <= 9223372036854775807)
              then Some ns
              else None
          | _ => None
          end
      | _ => None
      end
    else None.

Definition ints (l : list Z) : list cell := (fun z => Some (VInt z)) <$> l.
Definition floats (l : list Z) : list cell := (fun z => Some (VFloat (IZR z))) <$> l.

(** Nanoseconds from seconds. *)
Definition seconds (l : list Z) : list Z := (fun t => t * 1000000000) <$> l.

(** Three days of two hours each; the temperature of the second day at
    five is missing. *)
Definition three_days : loaded :=
  Loaded (texts ["2022-01-01 05:00:00"; "2022-01-01 06:00:00";
                 "2022-01-02 05:00:00"; "2022-01-02 06:00:00";
                 "2022-01-03 05:00:00"; "2022-01-03 06:00:00"])
    [Series "Hour" Int64 (ints [5; 6; 5; 6; 5; 6]);
     Series "isWeekday" Int64 (ints [0; 0; 0; 0; 1; 1]);
     Series "Month" Int64 (ints [1; 1; 1; 1; 1; 1]);
     Series "Globalstraling" Int64 (ints [0; 3; 0; 4; 0; 5]);
     Series "Solskinstid" Float64 (floats [0; 1; 0; 2; 0; 1]);
     Series "Lufttemperatur" Float64
       [Some (VFloat 7); Some (VFloat 8); None; Some (VFloat 9);
        Some (VFloat 6); Some (VFloat 10)];
     Series "Volum" Int64 (ints [10; 20; 30; 40; 20; 30])].

(** The same hour of two days, the later day first: the temperature of
    the later day is missing in [later_day_first], that of the earlier
    day in [earlier_day_last]. *)
Definition later_day_first : loaded :=
  Loaded (texts ["2022-01-02 05:00:00"; "2022-01-01 05:00:00"])
    [Series "Hour" Int64 (ints [5; 5]);
     Series "isWeekday" Int64 (ints [0; 0]);
     Series "Month" Int64 (ints [1; 1]);
     Series "Lufttemperatur" Float64 [None; Some (VFloat 7)]].

Definition earlier_day_last : loaded :=
  Loaded (texts ["2022-01-02 05:00:00"; "2022-01-01 05:00:00"])
    [Series "Hour" Int64 (ints [5; 5]);
     Series "isWeekday" Int64 (ints [0; 0]);
     Series "Month" Int64 (ints [1; 1]);
     Series "Lufttemperatur" Float64 [Some (VFloat 7); None]].

(** Two days of two hours each; the first sunshine value at six is
    missing, and so is the temperature of the second day at five. *)
Definition gap_at_six : loaded :=
  Loaded (texts ["2022-01-01 05:00:00"; "2022-01-01 06:00:00";
                 "2022-01-02 05:00:00"; "2022-01-02 06:00:00"])
    [Series "Hour" Int64 (ints [5; 6; 5; 6]);
     Series "isWeekday" Int64 (ints [0; 0; 0; 0]);
     Series "Month" Int64 (ints [1; 1; 1; 1]);
     Series "Solskinstid" Float64
       [Some (VFloat 0); None; Some (VFloat 0); Some (VFloat 2)];
     Series "Lufttemperatur" Float64
       [Some (VFloat 7); Some (VFloat 8); None; Some (VFloat 9)]].

(** Two rows of the hour five; the field ['Dato + Tid'] of the second
    row is empty. *)
Definition missing_timestamp : loaded :=
  Loaded (Some [Some "2022-01-01 05:00:00"; None])
    [Series "Hour" Int64 (ints [5; 5]);
     Series "isWeekday" Int64 (ints [0; 0]);
     Series "Month" Int64 (ints [1; 1]);
     Series "Lufttemperatur" Float64 (floats [7; 8])].

(** A table without the column ['Dato + Tid']. *)
Definition no_timestamps : loaded :=
  Loaded None
    [Series "Hour" Int64 (ints [5]);
     Series "isWeekday" Int64 (ints [0]);
     Series "Month" Int64 (ints [1])].

(** A row at six, then three rows at five on two days: the timestamp
    of the first day at five stands twice, with the other day in
    between. *)
Definition repeated_timestamp : frame :=
  Frame (seconds [1641016800; 1641013200; 1641099600; 1641013200])
    [Series "Lufttemperatur" Float64
       [Some (VFloat 1); None; None; Some (VFloat 7)]].

Definition repeated_timestamp_filled : frame :=
  Frame (seconds [1641016800; 1641013200; 1641013200; 1641099600])
    [Series "Lufttemperatur" Float64
       [Some (VFloat 1); None; Some (VFloat 7); None]].

Definition repeated_timestamp_filled_twice : frame :=
  Frame (seconds [1641016800; 1641013200; 1641013200; 1641099600])
    [Series "Lufttemperatur" Float64
       [Some (VFloat 1); None; Some (VFloat 7); Some (VFloat 7)]].

(** What [handleNullValues] gives on the example tables. *)
Definition three_days_filled : frame :=
  Frame (seconds [1641013200; 1641016800; 1641099600; 1641103200;
                  1641186000; 1641189600])
    [Series "Hour" Object (ints [5; 6; 5; 6; 5; 6]);
     Series "isWeekday" Object (ints [0; 0; 0; 0; 1; 1]);
     Series "Month" Object (ints [1; 1; 1; 1; 1; 1]);
     Series "Globalstraling" Int64 (ints [0; 3; 0; 4; 0; 5]);
     Series "Solskinstid" Float64 (floats [0; 1; 0; 2; 0; 1]);
     Series "Lufttemperatur" Float64 (floats [7; 8; 7; 9; 6; 10]);
     Series "Volum" Int64 (ints [10; 20; 30; 40; 20; 30])].

Definition later_day_first_filled : frame :=
  Frame (seconds [1641099600; 1641013200])
    [Series "Hour" Object (ints [5; 5]);
     Series "isWeekday" Object (ints [0; 0]);
     Series "Month" Object (ints [1; 1]);
     Series "Lufttemperatur" Float64 [None; Some (VFloat 7)]].

Definition earlier_day_last_filled : frame :=
  Frame (seconds [1641099600; 1641013200])
    [Series "Hour" Object (ints [5; 5]);
     Series "isWeekday" Object (ints [0; 0]);
     Series "Month" Object (ints [1; 1]);
     Series "Lufttemperatur" Float64 (floats [7; 7])].

Definition gap_at_six_filled : frame :=
  Frame (seconds [1641013200; 1641016800; 1641099600; 1641103200])
    [Series "Hour" Object (ints [5; 6; 5; 6]);
     Series "isWeekday" Object (ints [0; 0; 0; 0]);
     Series "Month" Object (ints [1; 1; 1; 1]);
     Series "Solskinstid" Float64
       [Some (VFloat 0); None; Some (VFloat 0); Some (VFloat 2)];
     Series "Lufttemperatur" Float64 (floats [7; 8; 7; 9])].

Definition missing_timestamp_filled : frame :=
  Frame [1641013200000000000; NaT]
    [Series "Hour" Object [Some (VFloat 5); None];
     Series "isWeekday" Object [Some (VFloat 0); None];
     Series "Month" Object [Some (VFloat 1); None];
     Series "Lufttemperatur" Float64 [Some (VFloat 7); None]].

(** The features and the target of [three_days_filled], and one sample of
    an hour that [three_days_filled] does not have. *)
Definition three_days_X : frame :=
  Frame (index three_days_filled)
    [Series "Hour" Object (ints [5; 6; 5; 6; 5; 6]);
     Series "isWeekday" Object (ints [0; 0; 0; 0; 1; 1]);
     Series "Month" Object (ints [1; 1; 1; 1; 1; 1]);
     Series "Globalstraling" Int64 (ints [0; 3; 0; 4; 0; 5]);
     Series "Solskinstid" Float64 (floats [0; 1; 0; 2; 0; 1]);
     Series "Lufttemperatur" Float64 (floats [7; 8; 7; 9; 6; 10])].

Definition three_days_y : series :=
  Series "Volum" Int64 (ints [10; 20; 30; 40; 20; 30]).

Definition hour_seven_X : frame :=
  Frame (seconds [1641279600])
    [Series "Hour" Object (ints [7]);
     Series "isWeekday" Object (ints [1]);
     Series "Month" Object (ints [1]);
     Series "Globalstraling" Int64 (ints [2]);
     Series "Solskinstid" Float64 (floats [1]);
     Series "Lufttemperatur" Float64 (floats [8])].

(** A validation table of one sample whose target is the mean of the
    targets of [three_days_y], one whose target is 3 above it, and a
    notebook holding the preprocessor and the mean predictor. *)
Definition mean_y : series := Series "Volum" Int64 (ints [25]).

Definition high_y : series := Series "Volum" Int64 (ints [28]).

Definition one_pipeline : @notebook mean_regressors :=
  @Notebook mean_regressors
    {[0%nat := (preprocess three_days_X, None)]}
    {[1%nat := (DummyRegressor, None)]} 2 [].

(** The example tables with a column that no feature list names, and a
    notebook holding two estimators. *)
Definition three_days_wind_X : frame :=
  Frame (index three_days_X)
    (cols three_days_X
       ++ [Series "Vindstyrke" Float64 (floats [3; 4; 5; 6; 4; 5])]).

Definition hour_seven_wind_X : frame :=
  Frame (index hour_seven_X)
    (cols hour_seven_X ++ [Series "Vindstyrke" Float64 (floats [2])]).

Definition two_estimators : @notebook mean_regressors :=
  @Notebook mean_regressors ∅
    {[0%nat := (KNeighborsRegressor, None); 1%nat := (RandomForestRegressor, None)]}
    2 [].

(** The example tables without the bad features, the future table with
    its unknown target, and that table with the prediction written. *)
Definition three_days_reduced_X : frame :=
  Frame (index three_days_X)
    [Series "Hour" Object (ints [5; 6; 5; 6; 5; 6]);
     Series "isWeekday" Object (ints [0; 0; 0; 0; 1; 1]);
     Series "Month" Object (ints [1; 1; 1; 1; 1; 1]);
     Series "Lufttemperatur" Float64 (floats [7; 8; 7; 9; 6; 10])].

Definition hour_seven_reduced_X : frame :=
  Frame (index hour_seven_X)
    [Series "Hour" Object (ints [7]);
     Series "isWeekday" Object (ints [1]);
     Series "Month" Object (ints [1]);
     Series "Lufttemperatur" Float64 (floats [8])].

Definition hour_seven : frame :=
  Frame (index hour_seven_X)
    (cols hour_seven_X ++ [Series "Volum" Float64 [None]]).

Definition hour_seven_predicted : frame :=
  Frame (index hour_seven_X)
    (cols hour_seven_X ++ [Series "Volum" Float64 [Some (VFloat 25)]]).

(** ** The loops and the whole run in plain words *)

Section InWords.
Context `{Regressors}.

(** One line for each estimator of a list: the score of its
    evaluation. *)
Definition scores (spec : column_transformer) (models : list estimator)
    (X_fit : frame) (y_fit : series) (X_eval : frame) (y_eval : series)
    : option (list line) :=
  mapM (fun e => r ← evaluation spec e X_fit y_fit X_eval y_eval;
                 Some (Report e r.2)) models.

(** The line of the baseline cell: the mean of the training targets
    scored on the validation targets. *)
Definition baseline_line (X_train : frame) (y_train : series)
    (X_validation : frame) (y_validation : series) : option line :=
  dummy ← dummy_fit (length (index X_train)) (values y_train);
  MSE ← mean_squared_error (values y_validation)
          (dummy_predict dummy (length (index X_validation)));
  Some (Report DummyRegressor (round_half_even (sqrt MSE))).

(** The lines of one step of the ablation: the header and the scores
    of the two candidates on the tables without the column. *)
Definition ablation_step (X_train : frame) (y_train : series)
    (X_validation : frame) (y_validation : series) (n_feature : string)
    : option (list line) :=
  X_t ← drop_columns [n_feature] X_train;
  X_v ← drop_columns [n_feature] X_validation;
  lines ← scores (check_feature_process X_t n_feature)
             [KNeighborsRegressor; RandomForestRegressor]
             X_t y_train X_v y_validation;
  Some (Header n_feature :: lines).

Definition ablation (features : list string)
    (X_train : frame) (y_train : series)
    (X_validation : frame) (y_validation : series) : option (list line) :=
  @concat line <$>
    mapM (ablation_step X_train y_train X_validation y_validation) features.

(** The cells of the final model: the two candidates are scored on the
    validation data, the nearest-neighbour pipeline is refit and scored
    on the test data, all without the bad features, and applied to the
    future features as they are. *)
Definition final_cells (X_train : frame) (y_train : series)
    (X_validation : frame) (y_validation : series)
    (X_test : frame) (y_test : series)
    (X_toPredict : frame) (toPredict_2022 : frame)
    : option (outputs * list line) :=
  X_tr ← drop_columns bad_features X_train;
  X_v ← drop_columns bad_features X_validation;
  let spec := preprocess_selected_features X_tr in
  knr ← evaluation spec KNeighborsRegressor X_tr y_train X_v y_validation;
  rfr ← evaluation spec RandomForestRegressor X_tr y_train X_v y_validation;
  X_te ← drop_columns bad_features X_test;
  best ← evaluation spec KNeighborsRegressor X_tr y_train X_te y_test;
  Xp ← ct_transform best.1.1 X_toPredict;
  y_pred ← predict best.1.2 Xp;
  predictions ← overwrite_target toPredict_2022 y_pred;
  Some (Outputs ((spec, Some best.1.1), (KNeighborsRegressor, Some best.1.2))
                predictions,
        [Report KNeighborsRegressor knr.2;
         Report RandomForestRegressor rfr.2;
         Report KNeighborsRegressor best.2]).

(** The whole notebook as a function of the four tables read: the
    outputs and the lines printed. *)
Definition notebook_in_words (to_datetime : string -> option Z)
    (training_set validation_set test_set toPredict_2022 : loaded)
    : option (outputs * list line) :=
  training_set ← handleNullValues to_datetime training_set;
  validation_set ← handleNullValues to_datetime validation_set;
  test_set ← handleNullValues to_datetime test_set;
  toPredict_2022 ← handleNullValues to_datetime toPredict_2022;
  '(X_train, y_train) ← splitSet training_set;
  '(X_validation, y_validation) ← splitSet validation_set;
  '(X_test, y_test) ← splitSet test_set;
  '(X_toPredict, y_toPredict) ← splitSet toPredict_2022;
  first ← baseline_line X_train y_train X_validation y_validation;
  compared ← scores (preprocess X_train) regression_models
                X_train y_train X_validation y_validation;
  ablated ← ablation features_to_test X_train y_train X_validation y_validation;
  '(o, last) ← final_cells X_train y_train X_validation y_validation
                 X_test y_test X_toPredict toPredict_2022;
  Some (o, first :: compared ++ ablated ++ last).

(** Every estimator object of [s] is in [s'] an object of the same
    estimator, fitted or not. *)
Definition keeps_estimators (s s' : notebook) : Prop :=
  forall id e o, estimators s !! id = Some (e, o) ->
    exists o', estimators s' !! id = Some (e, o').

(** A step run from [s] raises when [lines] is [None], and otherwise
    prints [lines] and keeps the estimator objects. *)
Definition prints {A} (m : NB A) (s : notebook) (lines : option (list line))
    : Prop :=
  match m s, lines with
  | Some (_, s'), Some l => stdout s' = stdout s ++ l /\ keeps_estimators s s'
  | None, None => True
  | _, _ => False
  end.

End InWords.

Section OutputsInWords.
Context `{Regressors}.

(** The two outputs as a function of the training table and of the
    future table alone: the nearest-neighbour pipeline fitted on the
    training data without the bad features, and its rounded predictions
    written into the future table. *)
Definition outputs_in_words (to_datetime : string -> option Z)
    (training_set toPredict_2022 : loaded) : option outputs :=
  training_set ← handleNullValues to_datetime training_set;
  toPredict_2022 ← handleNullValues to_datetime toPredict_2022;
  '(X_train, y_train) ← splitSet training_set;
  '(X_toPredict, y_toPredict) ← splitSet toPredict_2022;
  X_tr ← drop_columns bad_features X_train;
  let spec := preprocess_selected_features X_tr in
  params ← ct_fit spec X_tr;
  Xt ← ct_transform params X_tr;
  m ← fit KNeighborsRegressor Xt (values y_train);
  Xp ← ct_transform params X_toPredict;
  y_pred ← predict m Xp;
  predictions ← overwrite_target toPredict_2022 y_pred;
  Some (Outputs ((spec, Some params), (KNeighborsRegressor, Some m))
                predictions).

End OutputsInWords.

(** ** The transformer, the metric and the fits in plain words *)

(** The mean and the standard deviation of numbers. *)
Definition mean_of (xs : list R) : R :=
  (fold_right Rplus 0 xs / INR (length xs))%R.

Definition deviation_of (xs : list R) : R :=
  sqrt (mean_of (map (fun x => (x - mean_of xs) ^ 2)%R xs)).

(** The numbers that a column holds. *)
Definition numbers_of (vals : list cell) : list R := omap (fmap to_float) vals.

(** A cell standardised with the mean and the deviation of the training
    column [train]: the deviation 0 of a constant column counts as 1;
    a missing cell stays missing, and so does every cell when the
    training column holds no number. *)
Definition standardized_in_words (train : list cell) (c : cell) : option R :=
  match c, numbers_of train with
  | Some v, _ :: _ =>
      let xs := numbers_of train in
      Some ((to_float v - mean_of xs) /
            (if decide (deviation_of xs = 0) then 1 else deviation_of xs))%R
  | _, _ => None
  end.

(** The parameters of the scaler of a training column. *)
Definition scaler_in_words (train : list cell) : scaler_params :=
  match numbers_of train with
  | [] => ScalerParams None None
  | xs =>
      ScalerParams (Some (mean_of xs))
        (Some (if decide (deviation_of xs = 0) then 1 else deviation_of xs)%R)
  end.

Definition cell_at (i : nat) (vals : list cell) : cell := default None (vals !! i).

(** The design matrix of a table [X] for a transformer fitted on the
    table [X_fit], row by row: for each categorical column the indicator
    of the cell over the distinct values of the training column, then
    for each numeric column the cell standardised with the mean and the
    deviation of the training column.  Nothing of [X] enters the
    parameters. *)
Definition design_in_words (spec : column_transformer) (X_fit X : frame)
    : option matrix :=
  cat_fit ← select_columns (ct_categorical spec) X_fit;
  num_fit ← select_columns (ct_numeric spec) X_fit;
  cat ← select_columns (ct_categorical spec) X;
  num ← select_columns (ct_numeric spec) X;
  if decide (length (index X_fit) = 0 \/ length (index X) = 0)%nat then None
  else
    Some ((fun i =>
             concat (zip_with (fun train vals =>
                                 indicator (ohe_fit train) (cell_at i vals))
                       cat_fit cat)
             ++ zip_with (fun train vals =>
                            standardized_in_words train (cell_at i vals))
                  num_fit num)
            <$> seq 0 (length (index X))).

(** The root of the mean of the squared differences between the targets
    and the predictions. *)
Fixpoint sum_of_squared_errors (y_true y_pred : list R) : R :=
  match y_true, y_pred with
  | t :: y_true, p :: y_pred =>
      ((t - p) ^ 2 + sum_of_squared_errors y_true y_pred)%R
  | _, _ => 0%R
  end.

Definition rmse_in_words (y_true y_pred : list R) : R :=
  sqrt (sum_of_squared_errors y_true y_pred / INR (length y_true)).

(** The table [X'] holds columns of the table [X], under its index. *)
Definition columns_of (X X' : frame) : Prop :=
  index X' = index X /\ forall s, s ∈ cols X' -> s ∈ cols X.

(** The columns named have no missing value. *)
Definition complete_columns (names : list string) (X : frame) : Prop :=
  forall n s, n ∈ names -> get_col n X = Some s -> Forall is_Some (values s).

(** The columns of a matrix in another order: column [k] of the result
    is the column [order !! k]. *)
Definition permute_columns (order : list nat) (X : matrix) : matrix :=
  take_cells order <$> X.

Section FitsInWords.
Context `{Regressors}.

(** A line that reports a score computed without anything but the
    training data entering a fit: the score is the rounded root mean
    squared error on the targets of a held-out table, of the mean of the
    training targets (the baseline) or of the predictions of an
    estimator that was fitted on the design matrix and the targets of
    the training data, for the design matrix that the held-out features
    get from the training data. *)
Definition scored_on_training (X_train : frame) (y_train : series)
    (held_out : list (frame * series)) (l : line) : Prop :=
  match l with
  | Header _ => True
  | Report e rmse =>
      exists X_eval y_eval targets y_pred,
        (X_eval, y_eval) ∈ held_out /\
        mapM (fmap to_float) (values y_eval) = Some targets /\
        length y_pred = length targets /\
        rmse = round_half_even (rmse_in_words targets y_pred) /\
        ((exists train_targets,
            e = DummyRegressor /\
            mapM (fmap to_float) (values y_train) = Some train_targets /\
            y_pred = replicate (length targets) (mean_of train_targets)) \/
         (exists spec X_fit X_eval' Xt m Xe,
            columns_of X_train X_fit /\ columns_of X_eval X_eval' /\
            design_in_words spec X_fit X_fit = Some Xt /\
            fit e Xt (values y_train) = Some m /\
            design_in_words spec X_fit X_eval' = Some Xe /\
            predict m Xe = Some y_pred))
  end.

(** The outputs come from the training data: the saved transformer
    holds the distinct values, the means and the deviations of training
    columns, the saved estimator is the nearest neighbours fitted on the
    design matrix and the targets of the training data, and the
    numbers written are its rounded predictions for the design matrix
    that the future features get from the training data. *)
Definition saved_from_training (X_train : frame) (y_train : series)
    (X_toPredict toPredict_2022 : frame) (o : outputs) : Prop :=
  exists spec X_fit cat_fit num_fit p Xt m Xp y_pred,
    columns_of X_train X_fit /\
    select_columns (ct_categorical spec) X_fit = Some cat_fit /\
    select_columns (ct_numeric spec) X_fit = Some num_fit /\
    p = CtParams spec (ohe_fit <$> cat_fit) (scaler_in_words <$> num_fit) /\
    design_in_words spec X_fit X_fit = Some Xt /\
    fit KNeighborsRegressor Xt (values y_train) = Some m /\
    model_pkl o = ((spec, Some p), (KNeighborsRegressor, Some m)) /\
    design_in_words spec X_fit X_toPredict = Some Xp /\
    predict m Xp = Some y_pred /\
    overwrite_target toPredict_2022 y_pred = Some (predictions_csv o).

(** The score that an evaluation reports. *)
Definition score (spec : column_transformer) (e : estimator)
    (X_fit : frame) (y_fit : series) (X_eval : frame) (y_eval : series)
    : option Z :=
  (fun r => r.2) <$> evaluation spec e X_fit y_fit X_eval y_eval.

(** An estimator whose predictions do not depend on the order of the
    columns of the design matrix. *)
Definition order_blind (e : estimator) : Prop :=
  forall width order Xt ys Xe,
    order ≡ₚ seq 0 width ->
    Forall (fun row => length row = width) Xt ->
    Forall (fun row => length row = width) Xe ->
    (m ← fit e (permute_columns order Xt) ys;
     predict m (permute_columns order Xe)) =
    (m ← fit e Xt ys; predict m Xe).

End FitsInWords.

(** Two columns of the same name that are the same column unless the
    name is [Volum]. *)
Definition same_but_target (s s' : series) : Prop :=
  name s' = name s /\ (name s <> "Volum" -> s' = s).

(** The number that a category is compared by (NaN has none), and the
    order of the categories: by number, NaN last. *)
Definition cell_key (c : cell) : option R := to_float <$> c.

Definition key_lt (a b : option R) : Prop :=
  match a, b with
  | Some x, Some y => (x < y)%R
  | Some _, None => True
  | None, _ => False
  end.

(** A line without its score. *)
Definition without_score (l : line) : line :=
  match l with
  | Header feature => Header feature
  | Report e _ => Report e 0
  end.

(** A header, or a report whose score is not negative. *)
Definition scored_from_zero (l : line) : Prop :=
  match l with
  | Header _ => True
  | Report _ rmse => 0 <= rmse
  end.

(** A cell holding a whole number as a float. *)
Definition whole_number (c : cell) : Prop :=
  exists z : Z, c = Some (VFloat (IZR z)).

(** The timestamps that [handleNullValues] makes the index of a table
    read. *)
Definition timestamps (to_datetime : string -> option Z) (t : loaded)
    : option (list Z) :=
  labels ← dato_tid t; mapM (to_datetime_label to_datetime) labels.

(** A label of the index that gives a timestamp: a text that
    [to_datetime] reads, and not as NaT. *)
Definition has_timestamp (to_datetime : string -> option Z)
    (label : option string) : Prop :=
  exists text t, label = Some text /\ to_datetime text = Some t /\ t <> NaT.

(** What a table must have for the notebook to run on it: for every
    row a timestamp in the format, the named columns, and a row. *)
Definition readable (to_datetime : string -> option Z) (names : list string)
    (t : loaded) : Prop :=
  exists labels, dato_tid t = Some labels /\
    Forall (has_timestamp to_datetime) labels /\
    names ⊆ name <$> fields t /\
    labels <> [].

(** The target of a table read can be filled everywhere: for every row
    there is a row of the same hour of the day, at or before it, whose
    [Volum] is present. *)
Definition target_can_be_filled (to_datetime : string -> option Z)
    (t : loaded) : Prop :=
  forall labels idx target,
    dato_tid t = Some labels ->
    mapM (to_datetime_label to_datetime) labels = Some idx ->
    get_col "Volum" (Frame idx (fields t)) = Some target ->
    forall i ti, idx !! i = Some ti ->
      exists j tj v, (j <= i)%nat /\ idx !! j = Some tj /\
        hour tj = hour ti /\ values target !! j = Some (Some v).

(** The column [n] of a table read can be filled everywhere: for every
    row there is a row of the same hour of the day, at or before it,
    whose cell in that column is present. *)
Definition column_can_be_filled (to_datetime : string -> option Z)
    (n : string) (t : loaded) : Prop :=
  forall labels idx column,
    dato_tid t = Some labels ->
    mapM (to_datetime_label to_datetime) labels = Some idx ->
    get_col n (Frame idx (fields t)) = Some column ->
    forall i ti, idx !! i = Some ti ->
      exists j tj v, (j <= i)%nat /\ idx !! j = Some tj /\
        hour tj = hour ti /\ values column !! j = Some (Some v).

(** Features with their target that a pipeline can be fitted on, or
    scored on: a row at least, the six features, and one target for
    every row, none missing. *)
Definition scorable (X : frame) (y : series) : Prop :=
  wf_frame X /\ length (index X) <> 0%nat /\
  features_to_test ⊆ column_names X /\
  length (values y) = length (index X) /\
  Forall is_Some (values y).

(** The sample of hour seven as a table read from a file, with its
    target known and unknown. *)
Definition hour_seven_scored : loaded :=
  Loaded (texts ["2022-01-04 07:00:00"])
    [Series "Hour" Int64 (ints [7]);
     Series "isWeekday" Int64 (ints [1]);
     Series "Month" Int64 (ints [1]);
     Series "Globalstraling" Int64 (ints [2]);
     Series "Solskinstid" Float64 (floats [1]);
     Series "Lufttemperatur" Float64 (floats [8]);
     Series "Volum" Int64 (ints [25])].

Definition hour_seven_future : loaded :=
  Loaded (texts ["2022-01-04 07:00:00"])
    [Series "Hour" Int64 (ints [7]);
     Series "isWeekday" Int64 (ints [1]);
     Series "Month" Int64 (ints [1]);
     Series "Globalstraling" Int64 (ints [2]);
     Series "Solskinstid" Float64 (floats [1]);
     Series "Lufttemperatur" Float64 (floats [8]);
     Series "Volum" Float64 [None]].

(** The future sample with a number in the place of the unknown target. *)
Definition hour_seven_guessed : loaded :=
  Loaded (texts ["2022-01-04 07:00:00"])
    [Series "Hour" Int64 (ints [7]);
     Series "isWeekday" Int64 (ints [1]);
     Series "Month" Int64 (ints [1]);
     Series "Globalstraling" Int64 (ints [2]);
     Series "Solskinstid" Float64 (floats [1]);
     Series "Lufttemperatur" Float64 (floats [8]);
     Series "Volum" Int64 (ints [99])].

Definition hour_seven_scored_filled : frame :=
  Frame (index hour_seven_X) (cols hour_seven_X ++ [mean_y]).

(** * Properties *)

(** ** Forward fill within groups *)

Section FfillGroups.
Implicit Types (keys : list Z) (vals : list cell) (last_seen : gmap Z value).

Lemma length_ffill_groups keys vals last_seen :
  length keys = length vals ->
  length (ffill_groups keys vals last_seen) = length vals.
Proof.
  revert vals last_seen.
  induction keys as [|k keys IH]; intros [|[x|] vals] last_seen Hlen;
    simpl in *; try done; f_equal; apply IH; lia.
Qed.

Lemma group_values_cons k k' c keys vals :
  group_values k (k' :: keys) (c :: vals) =
  match (if decide (k' = k) then c else None) with
  | Some x => x :: group_values k keys vals
  | None => group_values k keys vals
  end.
Proof. reflexivity. Qed.

(** The scan in terms of what it has seen: a missing cell takes the last
    value of its group among the rows before it, or what [last_seen]
    held for the group at the start. *)
Lemma ffill_groups_lookup keys vals last_seen i k c :
  keys !! i = Some k ->
  vals !! i = Some c ->
  ffill_groups keys vals last_seen !! i =
  Some (match c with
        | Some x => Some x
        | None =>
            match last (group_values k (take i keys) (take i vals)) with
            | Some v => Some v
            | None => last_seen !! k
            end
        end).
Proof.
  revert vals last_seen i.
  induction keys as [|k0 keys IH]; intros [|c0 vals] last_seen [|i] Hk Hc;
    simplify_eq/=.
  - by destruct c.
  - rewrite group_values_cons.
    destruct c0 as [x0|]; simpl.
    + erewrite IH by done. f_equal. destruct c as [x|]; [done|].
      case_decide as Hkk; subst.
      * rewrite last_cons. destruct (last (group_values _ _ _)); [done|].
        by rewrite lookup_insert_eq.
      * destruct (last (group_values _ _ _)); [done|].
        by rewrite lookup_insert_ne.
    + erewrite IH by done. f_equal. destruct c as [x|]; [done|].
      by case_decide.
Qed.

Lemma ffill_groups_spec keys vals i c :
  length keys = length vals ->
  vals !! i = Some c ->
  ffill_groups keys vals ∅ !! i =
  Some (match c with
        | Some x => Some x
        | None => nearest_preceding keys vals i
        end).
Proof.
  intros Hlen Hc.
  destruct (keys !! i) as [k|] eqn:Hk.
  - rewrite (ffill_groups_lookup _ _ _ _ _ _ Hk Hc). f_equal.
    unfold nearest_preceding. rewrite Hk. simpl.
    destruct c; [done|]. destruct (last _); [done|]. apply lookup_empty.
  - apply lookup_ge_None_1 in Hk. apply lookup_lt_Some in Hc. lia.
Qed.

Lemma last_group_values_cons k k0 c0 keys vals :
  last (group_values k (k0 :: keys) (c0 :: vals)) =
  match last (group_values k keys vals) with
  | Some v => Some v
  | None => if decide (k0 = k) then c0 else None
  end.
Proof.
  rewrite group_values_cons.
  destruct (decide (k0 = k)); [destruct c0 as [x|]|];
    simpl; try by destruct (last _).
  rewrite last_cons. by destruct (last _).
Qed.

Lemma last_group_values_None k keys vals :
  last (group_values k keys vals) = None <->
  forall j x, keys !! j = Some k -> vals !! j = Some (Some x) -> False.
Proof.
  revert vals. induction keys as [|k0 keys IH]; intros [|c0 vals];
    try (split; [by intros _ [|?] ? | done]).
  rewrite last_group_values_cons. split.
  - destruct (last _) eqn:Hl; [done|]. intros Hc [|j] x Hk Hv; simplify_eq/=.
    + by rewrite decide_True in Hc.
    + by eapply (proj1 (IH vals) Hl).
  - intros Hno. rewrite (proj2 (IH vals)).
    + case_decide; [subst|done]. destruct c0 as [x|]; [|done].
      exfalso. by apply (Hno 0%nat x).
    + intros j x ??. by apply (Hno (S j) x).
Qed.

Lemma last_group_values_Some k keys vals v :
  last (group_values k keys vals) = Some v <->
  exists j, keys !! j = Some k /\ vals !! j = Some (Some v) /\
    forall j' x, (j < j')%nat ->
      keys !! j' = Some k -> vals !! j' = Some (Some x) -> False.
Proof.
  revert vals. induction keys as [|k0 keys IH]; intros [|c0 vals];
    try (split; [done | by intros ([|?] & ? & ? & _)]).
  rewrite last_group_values_cons. split.
  - destruct (last _) eqn:Hl.
    + intros [= ->]. apply (proj1 (IH vals)) in Hl as (j & ? & ? & Hlater).
      exists (S j). split_and!; [done..|].
      intros [|j'] x ? ? ?; [lia|]. apply (Hlater j' x); [lia|done..].
    + case_decide; [subst|done]. intros ->. exists 0%nat. split_and!; [done..|].
      intros [|j'] x ? ? ?; [lia|].
      by eapply (proj1 (last_group_values_None k keys vals) Hl).
  - intros ([|j] & Hk & Hv & Hlater); simplify_eq/=.
    + rewrite (proj2 (last_group_values_None k keys vals)).
      * by rewrite decide_True.
      * intros j x ??. apply (Hlater (S j) x); [lia|done..].
    + rewrite (proj2 (IH vals)); [done|].
      exists j. split_and!; [done..|].
      intros j' x ???. apply (Hlater (S j') x); [lia|done..].
Qed.

Lemma nearest_preceding_Some keys vals i v :
  length keys = length vals ->
  (i < length keys)%nat ->
  nearest_preceding keys vals i = Some v <-> exists j, fills_from keys vals i j v.
Proof.
  intros Hlen Hi. apply lookup_lt_is_Some_2 in Hi as [k Hk].
  unfold nearest_preceding, fills_from. rewrite Hk. simpl.
  rewrite last_group_values_Some. split.
  - intros (j & Hkj & Hvj & Hlater).
    apply lookup_take_Some in Hkj as [Hkj Hji].
    apply lookup_take_Some in Hvj as [Hvj _].
    exists j. split_and!; [done..|].
    intros j' [??] Hkj'.
    destruct (vals !! j') as [[x|]|] eqn:Hvj'; [|done|].
    + exfalso. apply (Hlater j' x); [done|..]; by rewrite lookup_take_lt.
    + apply lookup_ge_None_1 in Hvj'. apply lookup_lt_Some in Hkj'. lia.
  - intros (j & Hji & Hkj & Hvj & Hbetween).
    exists j. split_and!; [by rewrite lookup_take_lt..|].
    intros j' x ? Hkj' Hvj'.
    apply lookup_take_Some in Hkj' as [Hkj' ?].
    apply lookup_take_Some in Hvj' as [Hvj' _].
    rewrite Hbetween in Hvj'; [done|lia|done].
Qed.

Lemma nearest_preceding_None keys vals i :
  (i < length keys)%nat ->
  nearest_preceding keys vals i = None <->
  forall j x, (j < i)%nat -> keys !! j = keys !! i -> vals !! j = Some (Some x) -> False.
Proof.
  intros Hi. apply lookup_lt_is_Some_2 in Hi as [k Hk].
  unfold nearest_preceding. rewrite Hk. simpl.
  rewrite last_group_values_None. split.
  - intros Hno j x ???. apply (Hno j x); by rewrite lookup_take_lt.
  - intros Hno j x Hkj Hvj.
    apply lookup_take_Some in Hkj as [Hkj ?].
    apply lookup_take_Some in Hvj as [Hvj _]. eauto.
Qed.

End FfillGroups.

(** ** Taking rows *)

Section TakeCells.
Context {A : Type}.
Implicit Types (l : list A) (rows : list nat).

Lemma take_cells_cons i rows l :
  take_cells (i :: rows) l =
  match l !! i with
  | Some x => x :: take_cells rows l
  | None => take_cells rows l
  end.
Proof. reflexivity. Qed.

Lemma take_cells_seq_drop l k n :
  (length l <= k + n)%nat -> take_cells (seq k n) l = drop k l.
Proof.
  revert k. induction n as [|n IH]; intros k Hlen.
  - simpl. symmetry. apply drop_ge. lia.
  - cbn [seq]. rewrite take_cells_cons.
    destruct (l !! k) as [x|] eqn:Hx.
    + rewrite IH by lia. symmetry. by apply drop_S.
    + rewrite IH by lia. apply lookup_ge_None_1 in Hx.
      rewrite !drop_ge; [done|lia..].
Qed.

Lemma take_cells_seq l n : (length l <= n)%nat -> take_cells (seq 0 n) l = l.
Proof. intros Hlen. by rewrite take_cells_seq_drop, drop_0 by lia. Qed.

Lemma take_cells_Permutation rows rows' l :
  rows ≡ₚ rows' -> take_cells rows l ≡ₚ take_cells rows' l.
Proof. unfold take_cells. by intros ->. Qed.

Lemma take_cells_all rows l :
  rows ≡ₚ seq 0 (length l) -> take_cells rows l ≡ₚ l.
Proof.
  intros Hrows. rewrite (take_cells_Permutation _ _ _ Hrows).
  by rewrite take_cells_seq.
Qed.

Lemma take_cells_lookup rows l k i :
  Forall (fun j => j < length l)%nat rows ->
  rows !! k = Some i -> take_cells rows l !! k = l !! i.
Proof.
  intros Hvalid. revert k.
  induction Hvalid as [|j rows Hj _ IH]; intros [|k] Hk;
    cbn [lookup list_lookup] in Hk; simplify_eq.
  - rewrite take_cells_cons.
    destruct (lookup_lt_is_Some_2 l i Hj) as [x Hx]. by rewrite Hx.
  - rewrite take_cells_cons.
    destruct (lookup_lt_is_Some_2 l j Hj) as [x Hx]. rewrite Hx.
    cbn [lookup list_lookup]. by apply IH.
Qed.

Lemma length_take_cells rows l :
  Forall (fun j => j < length l)%nat rows ->
  length (take_cells rows l) = length rows.
Proof.
  induction 1 as [|j rows Hj _ IH]; [done|].
  rewrite take_cells_cons.
  destruct (lookup_lt_is_Some_2 l j Hj) as [x ->]. simpl. by rewrite IH.
Qed.

End TakeCells.

Lemma take_cells_compose {A} (r q : list nat) (l : list A) :
  Forall (fun j => j < length l)%nat q ->
  take_cells r (take_cells q l) = take_cells (take_cells r q) l.
Proof.
  intros Hvalid. induction r as [|i r IH]; [done|].
  rewrite !take_cells_cons.
  destruct (q !! i) as [j|] eqn:Hj.
  - rewrite (take_cells_lookup _ _ _ _ Hvalid Hj), take_cells_cons.
    by destruct (l !! j); rewrite IH.
  - apply lookup_ge_None_1 in Hj.
    rewrite (lookup_ge_None_2 (take_cells q l)); [done|].
    by rewrite length_take_cells.
Qed.

Lemma Permutation_seq_valid (rows : list nat) n :
  rows ≡ₚ seq 0 n -> Forall (fun j => j < n)%nat rows.
Proof.
  intros Hrows. rewrite Hrows. apply Forall_forall.
  intros j Hj%elem_of_seq. lia.
Qed.

(** ** The order of the groups *)

Lemma insert_row_Permutation r rows : insert_row r rows ≡ₚ r :: rows.
Proof.
  induction rows as [|r' rows IH]; [done|]. simpl.
  case_decide; [done|]. rewrite IH. apply Permutation_swap.
Qed.

Lemma group_order_Permutation keys : group_order keys ≡ₚ seq 0 (length keys).
Proof.
  unfold group_order.
  assert (forall l : list (Z * nat), foldr insert_row [] l ≡ₚ l) as Hsort.
  { induction l as [|r l IH]; [done|]. simpl.
    by rewrite insert_row_Permutation, IH. }
  rewrite Hsort. rewrite snd_zip; [done|]. by rewrite length_seq.
Qed.

Lemma length_group_order keys : length (group_order keys) = length keys.
Proof. by rewrite (group_order_Permutation keys), length_seq. Qed.

Lemma elem_of_unique1d x l : x ∈ unique1d l <-> x ∈ l.
Proof.
  induction l as [|y l IH]; [done|]. simpl.
  rewrite !elem_of_cons, list_elem_of_filter, IH.
  destruct (decide (x = y)) as [->|Hne]; [tauto|]. tauto.
Qed.

Lemma NoDup_unique1d l : NoDup (unique1d l).
Proof.
  induction l as [|y l IH]; simpl; [constructor|].
  apply NoDup_cons. split.
  - rewrite list_elem_of_filter. by intros [Hne _].
  - by apply NoDup_filter.
Qed.

Lemma elem_of_get_indexer labels targets k :
  k ∈ get_indexer_non_unique labels targets <->
  exists t, t ∈ targets /\ labels !! k = Some t.
Proof.
  unfold get_indexer_non_unique. rewrite list_elem_of_In, in_concat. split.
  - intros (ks & Hks & Hk).
    apply (proj2 (list_elem_of_In _ _)) in Hks.
    apply (proj2 (list_elem_of_In _ _)) in Hk.
    apply list_elem_of_fmap in Hks as (t & -> & Ht).
    apply list_elem_of_filter in Hk as [Hk _]. by exists t.
  - intros (t & Ht & Hk). eexists. rewrite <-!list_elem_of_In. split.
    + by apply (list_elem_of_fmap_2 (fun t => filter _ _)).
    + apply list_elem_of_filter. split; [exact Hk|].
      apply elem_of_seq. apply lookup_lt_Some in Hk. lia.
Qed.

Lemma indexer_Permutation labels targets :
  labels ≡ₚ targets ->
  unique1d (get_indexer_non_unique labels targets) ≡ₚ seq 0 (length labels).
Proof.
  intros Hperm. apply NoDup_Permutation.
  - apply NoDup_unique1d.
  - apply NoDup_seq.
  - intros k. rewrite elem_of_unique1d, elem_of_get_indexer, elem_of_seq.
    split.
    + intros (t & _ & Hk). apply lookup_lt_Some in Hk. lia.
    + intros [_ Hk]. destruct (lookup_lt_is_Some_2 labels k) as [t Ht]; [lia|].
      exists t. split; [|done]. rewrite <-Hperm.
      by eapply list_elem_of_lookup_2.
Qed.

(** ** The fill within the groups, as [groupby] computes it *)

Lemma name_upcast_series s : name (upcast_series s) = name s.
Proof. unfold upcast_series. by destruct (dtype_of s). Qed.

Lemma name_restore_series positions n s :
  name (restore_series positions n s) = name s.
Proof. unfold restore_series. by rewrite name_upcast_series. Qed.

Lemma take_series_compose r q s :
  Forall (fun j => j < length (values s))%nat q ->
  take_series r (take_series q s) = take_series (take_cells r q) s.
Proof.
  intros Hvalid. unfold take_series. cbn [name dtype_of values].
  by rewrite take_cells_compose.
Qed.

Lemma take_series_seq n s :
  (length (values s) <= n)%nat -> take_series (seq 0 n) s = s.
Proof.
  intros Hlen. destruct s as [nm dt vals]. unfold take_series.
  cbn [name dtype_of values] in *. by rewrite take_cells_seq.
Qed.

Lemma length_ffill_groups_le keys vals (last_seen : gmap Z value) :
  (length (ffill_groups keys vals last_seen) <= length keys)%nat.
Proof.
  revert vals last_seen.
  induction keys as [|k keys IH]; intros [|[x|] vals] last_seen; simpl;
    try lia.
  - specialize (IH vals (<[k:=x]> last_seen)). lia.
  - specialize (IH vals last_seen). lia.
Qed.

(** The result of the fill is the table filled in place, with its rows
    in an order that the index alone decides; the rows of a table with
    distinct timestamps stay in the order of the table. *)
Lemma groupby_apply_ffill_rows idx :
  exists rows,
    rows ≡ₚ seq 0 (length idx) /\
    (NoDup idx -> rows = seq 0 (length idx)) /\
    forall l,
      index (groupby_apply_ffill (Frame idx l)) = take_cells rows idx /\
      (Forall (fun s => length (values s) = length idx) l ->
       cols (groupby_apply_ffill (Frame idx l)) =
       (fun s => take_series rows (ffill_series (hour <$> idx) s)) <$> l).
Proof.
  set (keys := hour <$> idx).
  assert (length keys = length idx) as Hkeys by (unfold keys; by rewrite length_fmap).
  pose proof (group_order_Permutation keys) as Hgroups. rewrite Hkeys in Hgroups.
  pose proof (Permutation_seq_valid _ _ Hgroups) as Hvalid.
  set (labels := take_cells (group_order keys) idx).
  assert (labels ≡ₚ idx) as Hlabels by by apply take_cells_all.
  destruct (decide (~ NoDup idx /\ labels <> idx)) as [Hdup|Hnodup].
  - pose proof (indexer_Permutation labels idx Hlabels) as Hindexer.
    assert (length labels = length idx) as Hlen by by rewrite Hlabels.
    rewrite Hlen in Hindexer.
    exists (take_cells (unique1d (get_indexer_non_unique labels idx))
              (group_order keys)).
    split_and!.
    + rewrite (take_cells_Permutation _ _ _ Hindexer).
      rewrite take_cells_seq; [done|]. by rewrite length_group_order, Hkeys.
    + intros Hnd. by destruct Hdup.
    + intros l. unfold groupby_apply_ffill, take_rows.
      cbn [index cols]. fold keys. fold labels.
      rewrite bool_decide_true by done. cbn [index cols]. split.
      * apply take_cells_compose. done.
      * intros Hwf. rewrite <-!list_fmap_compose. apply list_fmap_ext.
        intros ? s Hs. simpl. apply take_series_compose.
        cbn [ffill_series values].
        rewrite Forall_forall in Hwf.
        rewrite length_ffill_groups by (rewrite Hkeys, Hwf; [done|];
          by eapply list_elem_of_lookup_2).
        rewrite Hwf by (by eapply list_elem_of_lookup_2). done.
  - exists (seq 0 (length idx)). split_and!; [done..|].
    intros l. unfold groupby_apply_ffill, take_rows.
    cbn [index cols]. fold keys. fold labels.
    rewrite bool_decide_false by done. cbn [index cols]. split.
    + by rewrite take_cells_seq.
    + intros _. apply list_fmap_ext. intros ? s _.
      symmetry. apply take_series_seq. cbn [ffill_series values].
      rewrite <-Hkeys. apply length_ffill_groups_le.
Qed.

Lemma dtype_upcast_series s :
  dtype_of (upcast_series s) =
  match dtype_of s with Int64 => Float64 | d => d end.
Proof. unfold upcast_series. by destruct (dtype_of s) eqn:Hd. Qed.

(** Every column is computed on its own, in a way that the index alone
    decides; with a missing timestamp the columns of integers become
    columns of floats. *)
Lemma groupby_hour_ffill_typed idx :
  exists idx' (g : series -> series),
    length idx' = length idx /\
    (forall s, name (g s) = name s) /\
    (forall s, dtype_of (g s) =
               if bool_decide (NaT ∈ idx) then dtype_of (upcast_series s)
               else dtype_of s) /\
    forall l, groupby_hour_ffill (Frame idx l) = Frame idx' (g <$> l).
Proof.
  assert (forall idx0, exists idx' (g : series -> series),
            (forall s, name (g s) = name s) /\
            (forall s, dtype_of (g s) = dtype_of s) /\
            forall l, groupby_apply_ffill (Frame idx0 l) = Frame idx' (g <$> l))
    as Happly.
  { intros idx0. unfold groupby_apply_ffill, take_rows. cbn [index cols].
    set (keys := hour <$> idx0).
    destruct (bool_decide _).
    - eexists _, (fun s => take_series _ (take_series _ (ffill_series keys s))).
      split_and!; [done..|]. intros l. cbn [index cols].
      by rewrite <-!list_fmap_compose.
    - eexists _, (ffill_series keys). by split_and!. }
  unfold groupby_hour_ffill. cbn [index cols].
  destruct (bool_decide (NaT ∈ idx)).
  - unfold take_rows. cbn [index cols].
    destruct (Happly (take_cells (grouped_rows idx) idx))
      as (idx' & g & Hname & Hdtype & Hg).
    eexists idx, (fun s => restore_series _ (length idx)
                            (g (take_series (grouped_rows idx) s))).
    split_and!; [done| | |].
    + intros s. by rewrite name_restore_series, Hname.
    + intros s. unfold restore_series. rewrite !dtype_upcast_series.
      cbn [dtype_of]. by rewrite Hdtype.
    + intros l. rewrite Hg. cbn [cols]. by rewrite <-!list_fmap_compose.
  - destruct (groupby_apply_ffill_rows idx) as (rows & Hrows & _ & Hout).
    destruct (Happly idx) as (idx' & g & Hname & Hdtype & Hg).
    exists idx', g. split_and!; [|done..].
    destruct (Hout []) as [Hidx _]. rewrite Hg in Hidx. cbn [index] in Hidx.
    rewrite Hidx, length_take_cells, Hrows, length_seq; [done|].
    by apply Permutation_seq_valid.
Qed.

Lemma groupby_hour_ffill_columnwise idx :
  exists idx' (g : series -> series),
    length idx' = length idx /\
    (forall s, name (g s) = name s) /\
    forall l, groupby_hour_ffill (Frame idx l) = Frame idx' (g <$> l).
Proof.
  destruct (groupby_hour_ffill_typed idx) as (idx' & g & Hlen & Hname & _ & Hg).
  by exists idx', g.
Qed.

Lemma groupby_hour_ffill_names f :
  column_names (groupby_hour_ffill f) = column_names f /\
  length (index (groupby_hour_ffill f)) = length (index f).
Proof.
  destruct f as [idx l].
  destruct (groupby_hour_ffill_columnwise idx) as (idx' & g & Hlen & Hname & Hg).
  rewrite Hg. unfold column_names. cbn [index cols]. split; [|done].
  rewrite <-list_fmap_compose. apply list_fmap_ext. intros ? s _. apply Hname.
Qed.

(** A table with distinct timestamps, none of them NaT: the fill in
    place. *)
Lemma groupby_hour_ffill_distinct f :
  NaT ∉ index f -> NoDup (index f) ->
  groupby_hour_ffill f =
  Frame (index f) (ffill_series (hour <$> index f) <$> cols f).
Proof.
  intros Hnat Hnd. unfold groupby_hour_ffill, groupby_apply_ffill.
  rewrite bool_decide_false by done.
  rewrite bool_decide_false; [done|]. by intros [Hdup _].
Qed.

(** Without NaT: the table filled in place, its rows in an order. *)
Lemma groupby_hour_ffill_rows f :
  NaT ∉ index f -> wf_frame f ->
  exists rows,
    rows ≡ₚ seq 0 (length (index f)) /\
    (NoDup (index f) -> rows = seq 0 (length (index f))) /\
    groupby_hour_ffill f =
    take_rows rows (Frame (index f) (ffill_series (hour <$> index f) <$> cols f)).
Proof.
  intros Hnat Hwf. destruct f as [idx l]. cbn [index cols] in *.
  destruct (groupby_apply_ffill_rows idx) as (rows & Hrows & Hnd & Hout).
  exists rows. split_and!; [done..|].
  unfold groupby_hour_ffill. cbn [index]. rewrite bool_decide_false by done.
  destruct (Hout l) as [Hidx Hcols]. specialize (Hcols Hwf).
  destruct (groupby_apply_ffill (Frame idx l)) as [idx' l']. cbn [index cols] in *.
  subst. unfold take_rows. cbn [index cols]. f_equal.
  by rewrite <-list_fmap_compose.
Qed.

(** A row without a timestamp comes out with every cell missing. *)
Lemma restore_cells_blank positions n vals i :
  (i < n)%nat -> i ∉ positions ->
  restore_cells positions n vals !! i = Some None.
Proof.
  intros Hi Hnot. unfold restore_cells.
  rewrite list_lookup_fmap, lookup_seq_lt by done. simpl.
  destruct (list_find _ positions) as [[k p]|] eqn:Hfind; [|done].
  apply list_find_Some in Hfind as (Hp & -> & _).
  destruct Hnot. by eapply list_elem_of_lookup_2.
Qed.

Lemma length_restore_series positions n s :
  length (values (restore_series positions n s)) = n.
Proof.
  unfold restore_series, upcast_series. cbn [dtype_of].
  destruct (dtype_of s); cbn [values]; unfold restore_cells;
    by rewrite ?length_fmap, length_seq.
Qed.

Lemma restore_series_blank positions n s i :
  (i < n)%nat -> i ∉ positions ->
  values (restore_series positions n s) !! i = Some None.
Proof.
  intros Hi Hnot. unfold restore_series, upcast_series. cbn [dtype_of].
  destruct (dtype_of s); cbn [values];
    rewrite ?list_lookup_fmap, restore_cells_blank; done.
Qed.

Lemma elem_of_take_cells {A} (rows : list nat) (l : list A) x :
  x ∈ take_cells rows l -> x ∈ l.
Proof.
  unfold take_cells. intros (i & _ & Hx)%list_elem_of_omap.
  by eapply list_elem_of_lookup_2.
Qed.

Lemma groupby_hour_ffill_NaT f i :
  index f !! i = Some NaT ->
  index (groupby_hour_ffill f) = index f /\
  wf_frame (groupby_hour_ffill f) /\
  forall s, s ∈ cols (groupby_hour_ffill f) -> values s !! i = Some None.
Proof.
  intros Hi. unfold groupby_hour_ffill.
  rewrite bool_decide_true by by eapply list_elem_of_lookup_2.
  cbn [index cols]. split_and!; [done| |].
  - unfold wf_frame. cbn [index cols]. apply Forall_fmap, Forall_forall.
    intros s _. simpl. apply length_restore_series.
  - intros s (s0 & -> & _)%list_elem_of_fmap.
    apply restore_series_blank; [by eapply lookup_lt_Some|].
    intros Hin%elem_of_take_cells.
    unfold grouped_rows in Hin. apply list_elem_of_filter in Hin as [Hne _].
    done.
Qed.

Example handleNullValues_three_days :
  handleNullValues to_datetime_fixed three_days = Some three_days_filled.
Proof. reflexivity. Qed.

Example handleNullValues_later_day_first :
  handleNullValues to_datetime_fixed later_day_first = Some later_day_first_filled.
Proof. reflexivity. Qed.

Example handleNullValues_earlier_day_last :
  handleNullValues to_datetime_fixed earlier_day_last =
  Some earlier_day_last_filled.
Proof. reflexivity. Qed.

Example handleNullValues_gap_at_six :
  handleNullValues to_datetime_fixed gap_at_six = Some gap_at_six_filled.
Proof. reflexivity. Qed.

Example handleNullValues_missing_timestamp :
  handleNullValues to_datetime_fixed missing_timestamp =
  Some missing_timestamp_filled.
Proof. reflexivity. Qed.

Example handleNullValues_no_timestamps :
  handleNullValues to_datetime_fixed no_timestamps = None.
Proof. reflexivity. Qed.

Example groupby_hour_ffill_repeated_timestamp :
  groupby_hour_ffill repeated_timestamp = repeated_timestamp_filled /\
  groupby_hour_ffill repeated_timestamp_filled = repeated_timestamp_filled_twice.
Proof. split; reflexivity. Qed.

Example to_datetime_fixed_examples :
  to_datetime_fixed "2022-01-01 05:00:00" = Some 1641013200000000000 /\
  to_datetime_fixed "2022-1-1 5:00:00" = Some 1641013200000000000 /\
  to_datetime_fixed "2022-01-01" = Some 1640995200000000000 /\
  to_datetime_fixed "NaT" = Some NaT /\
  to_datetime_fixed "3000-01-01 00:00:00" = None /\
  to_datetime_fixed "2022-02-30 00:00:00" = None /\
  to_datetime_fixed "yesterday" = None.
Proof. repeat split; reflexivity. Qed.

(** ** [handleNullValues] *)

Lemma name_astype_series names s : name (astype_series names s) = name s.
Proof. unfold astype_series. by case_bool_decide. Qed.

Lemma values_astype_series names s : values (astype_series names s) = values s.
Proof. unfold astype_series. by case_bool_decide. Qed.

Lemma has_col_elem_of n f : has_col n f = true <-> n ∈ column_names f.
Proof. unfold has_col. by rewrite bool_decide_eq_true. Qed.

Lemma astype_object_is_Some names f :
  names ⊆ column_names f -> is_Some (astype_object names f).
Proof.
  intros Hsub. unfold astype_object.
  rewrite (proj2 (forallb_forall _ _)); [done|].
  intros n Hn. apply has_col_elem_of, Hsub. by apply list_elem_of_In.
Qed.

Lemma astype_object_Some names f out :
  astype_object names f = Some out ->
  names ⊆ column_names f /\
  out = Frame (index f) (astype_series names <$> cols f).
Proof.
  unfold astype_object. destruct (forallb _ _) eqn:Hall; [|done].
  intros [= <-]. split; [|done]. rewrite forallb_forall in Hall.
  intros n Hn. apply has_col_elem_of, Hall. by apply list_elem_of_In.
Qed.

Lemma chronological_lookup idx i j ti tj :
  chronological idx -> (i < j)%nat ->
  idx !! i = Some ti -> idx !! j = Some tj -> ti <= tj.
Proof.
  unfold chronological. intros Hs. revert i j.
  induction Hs as [|t idx Hs IH Hall]; intros [|i] [|j] ? Hi Hj;
    simplify_eq/=; try lia.
  - rewrite Forall_forall in Hall. apply Hall.
    by eapply list_elem_of_lookup_2.
  - apply (IH i j); [lia|done..].
Qed.

Lemma one_row_per_hour_lookup idx i j ti tj :
  one_row_per_hour idx ->
  idx !! i = Some ti -> idx !! j = Some tj ->
  day ti = day tj -> hour ti = hour tj -> i = j.
Proof.
  unfold one_row_per_hour. intros Hnd Hi Hj Hd Hh.
  eapply NoDup_lookup; [done|..].
  - rewrite list_lookup_fmap, Hi. reflexivity.
  - rewrite list_lookup_fmap, Hj. simpl. by rewrite Hd, Hh.
Qed.

Section HandleNullValues.
Variable to_datetime : string -> option Z.

Lemma handleNullValues_timestamps t :
  handleNullValues to_datetime t =
  (idx ← timestamps to_datetime t;
   astype_object categorical_columns (groupby_hour_ffill (Frame idx (fields t)))).
Proof.
  unfold handleNullValues, timestamps.
  destruct (dato_tid t) as [labels|]; [|done]. simpl.
  by destruct (mapM _ labels).
Qed.

Lemma timestamps_Some t idx :
  timestamps to_datetime t = Some idx ->
  exists labels, dato_tid t = Some labels /\
    mapM (to_datetime_label to_datetime) labels = Some idx /\
    length idx = length labels.
Proof.
  unfold timestamps. destruct (dato_tid t) as [labels|]; [|done]. simpl.
  intros Hidx. exists labels. split_and!; [done..|].
  symmetry. by eapply length_mapM.
Qed.

(** The timestamps hold no NaT exactly when every label gives a
    timestamp. *)
Lemma timestamps_no_NaT t labels idx :
  dato_tid t = Some labels ->
  timestamps to_datetime t = Some idx ->
  NaT ∉ idx <-> Forall (has_timestamp to_datetime) labels.
Proof.
  unfold timestamps. intros ->. simpl. intros Hidx.
  apply mapM_Some_1 in Hidx. split.
  - intros Hnat. apply Forall_lookup. intros i label Hlabel.
    destruct (Forall2_lookup_l _ _ _ _ _ Hidx Hlabel) as (ti & Hti & Hread).
    destruct label as [text|]; simpl in Hread.
    + exists text, ti. split_and!; [done..|]. intros ->.
      apply Hnat. by eapply list_elem_of_lookup_2.
    + injection Hread as <-. destruct Hnat. by eapply list_elem_of_lookup_2.
  - intros Hall Hin. apply list_elem_of_lookup_1 in Hin as [i Hi].
    destruct (Forall2_lookup_r _ _ _ _ _ Hidx Hi) as (label & Hlabel & Hread).
    rewrite Forall_lookup in Hall.
    destruct (Hall i label Hlabel) as (text & ti & -> & Hti & Hne).
    simpl in Hread. congruence.
Qed.

Lemma has_timestamp_timestamps t labels :
  dato_tid t = Some labels ->
  Forall (has_timestamp to_datetime) labels ->
  exists idx, timestamps to_datetime t = Some idx /\ NaT ∉ idx.
Proof.
  intros Hlabels Hall.
  assert (is_Some (timestamps to_datetime t)) as [idx Hidx].
  { unfold timestamps. rewrite Hlabels. simpl. apply mapM_is_Some_2.
    eapply Forall_impl; [exact Hall|].
    intros label (text & ti & -> & Hti & _). simpl. by eexists. }
  exists idx. split; [done|]. by apply (timestamps_no_NaT t labels idx).
Qed.

Lemma wf_loaded_frame t idx :
  wf_loaded t -> timestamps to_datetime t = Some idx ->
  wf_frame (Frame idx (fields t)).
Proof.
  intros Hwf (labels & Hlabels & _ & Hlen)%timestamps_Some.
  unfold wf_frame. cbn [index cols]. rewrite Hlen. by apply Hwf.
Qed.

Lemma handleNullValues_Some t out :
  handleNullValues to_datetime t = Some out ->
  exists idx,
    timestamps to_datetime t = Some idx /\
    categorical_columns ⊆ name <$> fields t /\
    out = Frame (index (groupby_hour_ffill (Frame idx (fields t))))
            (astype_series categorical_columns <$>
               cols (groupby_hour_ffill (Frame idx (fields t)))) /\
    length (index out) = length idx /\
    column_names out = name <$> fields t.
Proof.
  rewrite handleNullValues_timestamps.
  destruct (timestamps to_datetime t) as [idx|]; [|done]. simpl.
  intros [Hcats ->]%astype_object_Some.
  destruct (groupby_hour_ffill_names (Frame idx (fields t))) as [Hnames Hlen].
  rewrite Hnames in Hcats.
  exists idx. split_and!; [done|exact Hcats|done|done|].
  unfold column_names in *. cbn [cols index] in *.
  rewrite <-Hnames, <-list_fmap_compose. apply list_fmap_ext.
  intros ? s _. apply name_astype_series.
Qed.

Lemma handleNullValues_is_Some t idx :
  timestamps to_datetime t = Some idx ->
  categorical_columns ⊆ name <$> fields t ->
  is_Some (handleNullValues to_datetime t).
Proof.
  intros Hidx Hcats. rewrite handleNullValues_timestamps, Hidx. simpl.
  apply astype_object_is_Some.
  by destruct (groupby_hour_ffill_names (Frame idx (fields t))) as [-> _].
Qed.

(** Without NaT the result is the table filled in place, its rows in an
    order that is the order of the table when no timestamp repeats. *)
Lemma handleNullValues_rows t idx out :
  wf_loaded t ->
  timestamps to_datetime t = Some idx -> NaT ∉ idx ->
  handleNullValues to_datetime t = Some out ->
  exists rows,
    rows ≡ₚ seq 0 (length idx) /\
    (NoDup idx -> rows = seq 0 (length idx)) /\
    index out = take_cells rows idx /\
    cols out =
      (fun s => astype_series categorical_columns
                  (take_series rows (ffill_series (hour <$> idx) s)))
        <$> fields t.
Proof.
  intros Hwf Hidx Hnat Hrun.
  apply handleNullValues_Some in Hrun as (idx' & Hidx' & _ & -> & _).
  assert (idx' = idx) as -> by congruence.
  destruct (groupby_hour_ffill_rows (Frame idx (fields t)) Hnat)
    as (rows & Hrows & Hnd & ->); [by apply wf_loaded_frame|].
  exists rows. cbn [index cols take_rows]. split_and!; [done..|].
  by rewrite <-!list_fmap_compose.
Qed.

(** With distinct timestamps: the fill in place. *)
Lemma handleNullValues_distinct t idx out :
  timestamps to_datetime t = Some idx -> NaT ∉ idx -> NoDup idx ->
  handleNullValues to_datetime t = Some out ->
  index out = idx /\
  cols out =
    (fun s => astype_series categorical_columns
                (ffill_series (hour <$> idx) s)) <$> fields t.
Proof.
  intros Hidx Hnat Hnd Hrun.
  apply handleNullValues_Some in Hrun as (idx' & Hidx' & _ & -> & _).
  assert (idx' = idx) as -> by congruence.
  rewrite groupby_hour_ffill_distinct by done. cbn [index cols].
  split; [done|]. by rewrite <-list_fmap_compose.
Qed.

(** A row without a timestamp comes out with every cell missing. *)
Lemma handleNullValues_NaT t idx out i :
  timestamps to_datetime t = Some idx -> idx !! i = Some NaT ->
  handleNullValues to_datetime t = Some out ->
  index out = idx /\ wf_frame out /\
  forall s, s ∈ cols out -> values s !! i = Some None.
Proof.
  intros Hidx Hi Hrun.
  apply handleNullValues_Some in Hrun as (idx' & Hidx' & _ & -> & _).
  assert (idx' = idx) as -> by congruence.
  destruct (groupby_hour_ffill_NaT (Frame idx (fields t)) i Hi)
    as (Hindex & Hwf & Hblank).
  cbn [index cols]. split_and!; [done| |].
  - unfold wf_frame in *. cbn [index cols]. apply Forall_fmap.
    eapply Forall_impl; [exact Hwf|]. intros s Hs. simpl.
    by rewrite values_astype_series.
  - intros s (s0 & -> & Hs0)%list_elem_of_fmap.
    rewrite values_astype_series. by apply Hblank.
Qed.

(** A column without a missing value: no row was without a timestamp. *)
Lemma handleNullValues_complete_column t idx out s :
  timestamps to_datetime t = Some idx ->
  handleNullValues to_datetime t = Some out ->
  s ∈ cols out -> Forall is_Some (values s) -> NaT ∉ idx.
Proof.
  intros Hidx Hrun Hs Hall Hin.
  apply list_elem_of_lookup_1 in Hin as [i Hi].
  destruct (handleNullValues_NaT _ _ _ _ Hidx Hi Hrun) as (_ & _ & Hblank).
  rewrite Forall_lookup in Hall.
  by destruct (Hall i None (Hblank s Hs)).
Qed.

(** The column at a position of a table with distinct timestamps: same
    name, and the values of the forward fill over the hours of the
    index. *)
Lemma handleNullValues_column t idx out c s :
  wf_loaded t ->
  timestamps to_datetime t = Some idx -> NaT ∉ idx -> NoDup idx ->
  handleNullValues to_datetime t = Some out ->
  fields t !! c = Some s ->
  length (values s) = length idx /\
  exists s', cols out !! c = Some s' /\ name s' = name s /\
    values s' = ffill_groups (hour <$> idx) (values s) ∅.
Proof.
  intros Hwf Hidx Hnat Hnd Hrun Hs.
  destruct (handleNullValues_distinct _ _ _ Hidx Hnat Hnd Hrun) as [_ Hcols].
  split.
  - pose proof (wf_loaded_frame _ _ Hwf Hidx) as Hwf'.
    unfold wf_frame in Hwf'. rewrite Forall_lookup in Hwf'.
    by apply (Hwf' c s).
  - eexists. rewrite Hcols, list_lookup_fmap, Hs. simpl. split; [done|].
    by rewrite name_astype_series, values_astype_series.
Qed.

Lemma handleNullValues_cell t idx out c s i x :
  wf_loaded t ->
  timestamps to_datetime t = Some idx -> NaT ∉ idx -> NoDup idx ->
  handleNullValues to_datetime t = Some out ->
  fields t !! c = Some s ->
  values s !! i = Some x ->
  exists s', cols out !! c = Some s' /\ name s' = name s /\
    length (values s') = length (values s) /\
    values s' !! i =
      Some (match x with
            | Some v => Some v
            | None => nearest_preceding (hour <$> idx) (values s) i
            end).
Proof.
  intros Hwf Hidx Hnat Hnd Hrun Hs Hx.
  destruct (handleNullValues_column _ _ _ _ _ Hwf Hidx Hnat Hnd Hrun Hs)
    as (Hlen & s' & Hs' & Hname & Hvals).
  exists s'. split_and!; [done..| |].
  - rewrite Hvals. apply length_ffill_groups. by rewrite length_fmap.
  - rewrite Hvals. apply ffill_groups_spec; [|done]. by rewrite length_fmap.
Qed.

Lemma day_before_fills idx vals i j ti tj v :
  length idx = length vals ->
  chronological idx -> one_row_per_hour idx ->
  idx !! i = Some ti -> idx !! j = Some tj ->
  hour tj = hour ti -> day tj = day ti - 1 ->
  vals !! j = Some (Some v) ->
  fills_from (hour <$> idx) vals i j v.
Proof.
  intros Hlen Hchr Huniq Hi Hj Hh Hd Hv.
  assert (forall a b ta tb, (a < b)%nat -> idx !! a = Some ta ->
            idx !! b = Some tb -> day ta <= day tb) as Hmono.
  { intros a b ta tb ???. unfold day. apply Z.div_le_mono; [lia|].
    by eapply chronological_lookup. }
  assert (j < i)%nat as Hji.
  { destruct (lt_eq_lt_dec j i) as [[?| ->]|Hij]; [done|..].
    - simplify_eq. lia.
    - specialize (Hmono i j ti tj Hij Hi Hj). lia. }
  unfold fills_from. rewrite !list_lookup_fmap, Hi, Hj. simpl.
  split_and!; [done|by rewrite Hh|done|].
  intros j' [??] Hk. rewrite list_lookup_fmap in Hk.
  destruct (idx !! j') as [tj'|] eqn:Hj'; [|done].
  injection Hk as Hk.
  assert (day tj <= day tj') by by eapply (Hmono j j').
  assert (day tj' <= day ti) by by eapply (Hmono j' i).
  assert (day tj' = day tj \/ day tj' = day ti) as [Hday|Hday] by lia.
  - assert (j' = j); [|lia].
    eapply one_row_per_hour_lookup; [done..|congruence].
  - assert (j' = i); [|lia]. by eapply one_row_per_hour_lookup.
Qed.

(** C9 (as amended). On a table whose every row has a timestamp,
    [handleNullValues] keeps the rows and the columns: the result has as
    many rows, each row of the table once, with its timestamp, in the
    order of the table when no timestamp repeats; a cell that holds a
    value keeps it, and only a missing cell can differ. *)
Theorem handleNullValues_keeps_present t labels :
  wf_loaded t ->
  dato_tid t = Some labels ->
  Forall (has_timestamp to_datetime) labels ->
  categorical_columns ⊆ name <$> fields t ->
  exists idx out rows,
    timestamps to_datetime t = Some idx /\
    handleNullValues to_datetime t = Some out /\
    rows ≡ₚ seq 0 (length labels) /\
    (NoDup idx -> rows = seq 0 (length labels)) /\
    index out = take_cells rows idx /\
    length (index out) = length labels /\
    column_names out = name <$> fields t /\
    wf_frame out /\
    forall c s, fields t !! c = Some s ->
      exists s', cols out !! c = Some s' /\ name s' = name s /\
        length (values s') = length (values s) /\
        (forall k i v, rows !! k = Some i ->
           values s !! i = Some (Some v) ->
           values s' !! k = Some (Some v)) /\
        (forall k i, rows !! k = Some i ->
           values s' !! k <> values s !! i ->
           values s !! i = Some None).
Proof.
  intros Hwf Hlabels Hall Hcats.
  destruct (has_timestamp_timestamps _ _ Hlabels Hall) as (idx & Hidx & Hnat).
  destruct (handleNullValues_is_Some t idx Hidx Hcats) as [out Hrun].
  destruct (handleNullValues_rows _ _ _ Hwf Hidx Hnat Hrun)
    as (rows & Hrows & Hnd & Hindex & Hcols).
  destruct (handleNullValues_Some _ _ Hrun)
    as (idx0 & Hidx0 & _ & _ & Hlen & Hnames).
  assert (idx0 = idx) as -> by congruence.
  destruct (timestamps_Some _ _ Hidx) as (labels' & Hlabels' & _ & Hlen').
  assert (labels' = labels) as -> by congruence.
  rewrite Hlen' in *.
  pose proof (Permutation_seq_valid _ _ Hrows) as Hvalid.
  pose proof (wf_loaded_frame _ _ Hwf Hidx) as Hwf'.
  unfold wf_frame in Hwf'. cbn [index cols] in Hwf'. rewrite Hlen' in Hwf'.
  assert (forall s, s ∈ fields t ->
            length (ffill_groups (hour <$> idx) (values s) ∅) = length labels)
    as Hfilled.
  { intros s Hs. rewrite Forall_forall in Hwf'.
    rewrite length_ffill_groups; [by apply Hwf'|].
    rewrite length_fmap, Hlen'. symmetry. by apply Hwf'. }
  assert (forall c s, fields t !! c = Some s ->
            exists s', cols out !! c = Some s' /\ name s' = name s /\
              length (values s') = length (values s) /\
              forall k i x, rows !! k = Some i -> values s !! i = Some x ->
                values s' !! k =
                  Some (match x with
                        | Some v => Some v
                        | None => nearest_preceding (hour <$> idx) (values s) i
                        end)) as Hcol.
  { intros c s Hs. pose proof (list_elem_of_lookup_2 _ _ _ Hs) as Hin.
    eexists. rewrite Hcols, list_lookup_fmap, Hs. simpl. split; [done|].
    rewrite name_astype_series, values_astype_series.
    cbn [take_series ffill_series name values]. split_and!; [done| |].
    - rewrite length_take_cells by (by rewrite Hfilled).
      rewrite Hrows, length_seq. rewrite Forall_forall in Hwf'.
      symmetry. by apply Hwf'.
    - intros k i x Hk Hx.
      rewrite (take_cells_lookup _ _ _ _ ltac:(by rewrite Hfilled) Hk).
      apply ffill_groups_spec; [|done].
      rewrite length_fmap, Hlen'. rewrite Forall_forall in Hwf'.
      symmetry. by apply Hwf'. }
  exists idx, out, rows. split_and!; try done.
  - unfold wf_frame. apply Forall_lookup. intros c s' Hs'.
    rewrite Hcols, list_lookup_fmap in Hs'.
    destruct (fields t !! c) as [s|] eqn:Hs; [|done].
    destruct (Hcol c s Hs) as (s'' & Hs'' & _ & Hlens & _).
    rewrite Hcols, list_lookup_fmap, Hs in Hs''. simplify_eq/=.
    rewrite Hlens, Hlen. rewrite Forall_forall in Hwf'. apply Hwf'.
    by eapply list_elem_of_lookup_2.
  - intros c s Hs. destruct (Hcol c s Hs) as (s' & Hs' & Hname & Hlens & Hcell).
    exists s'. split_and!; [done..| |].
    + intros k i v Hk Hv. by rewrite (Hcell k i _ Hk Hv).
    + intros k i Hk Hne.
      destruct (values s !! i) as [[v|]|] eqn:Hv; [|done|].
      * by rewrite (Hcell k i _ Hk Hv) in Hne.
      * apply lookup_ge_None_1 in Hv.
        assert (i < length labels)%nat as Hi.
        { rewrite Forall_lookup in Hvalid. by apply (Hvalid k). }
        rewrite Forall_forall in Hwf'.
        rewrite Hwf' in Hv by (by eapply list_elem_of_lookup_2). lia.
Qed.

End HandleNullValues.

(** The table [three_days] is accepted. *)
Lemma three_days_accepted :
  wf_loaded three_days /\
  Forall (has_timestamp to_datetime_fixed)
    (Some <$> ["2022-01-01 05:00:00"; "2022-01-01 06:00:00";
               "2022-01-02 05:00:00"; "2022-01-02 06:00:00";
               "2022-01-03 05:00:00"; "2022-01-03 06:00:00"]) /\
  categorical_columns ⊆ name <$> fields three_days.
Proof.
  split_and!.
  - intros labels [= <-]. repeat constructor.
  - repeat constructor; eexists _, _; (split_and!; [reflexivity..|done]).
  - by apply (bool_decide_unpack _).
Qed.

Lemma three_days_timestamps :
  timestamps to_datetime_fixed three_days = Some (index three_days_filled) /\
  (NaT ∉ index three_days_filled) /\ NoDup (index three_days_filled).
Proof.
  split_and!; [reflexivity|by apply (bool_decide_unpack _)..].
Qed.

(** On [three_days] the rows stay in the order of the table, and the
    temperature 8 of the first day at six is kept. *)
Lemma handleNullValues_keeps_present_witness :
  exists out s',
    handleNullValues to_datetime_fixed three_days = Some out /\
    index out = index three_days_filled /\
    cols out !! 5%nat = Some s' /\
    values s' !! 1%nat = Some (Some (VFloat 8)).
Proof.
  destruct three_days_accepted as (Hwf & Hall & Hcats).
  destruct (handleNullValues_keeps_present to_datetime_fixed three_days _
              Hwf eq_refl Hall Hcats)
    as (idx & out & rows & Hidx & Hrun & _ & Hnd & Hindex & _ & _ & _ & Hcol).
  destruct three_days_timestamps as (Htimes & _ & Hdistinct).
  rewrite Htimes in Hidx. injection Hidx as <-.
  specialize (Hnd Hdistinct). subst rows.
  destruct (Hcol 5%nat _ eq_refl) as (s' & Hs' & _ & _ & Hkeep & _).
  exists out, s'. split_and!; [exact Hrun|exact Hindex|exact Hs'|].
  exact (Hkeep 1%nat 1%nat _ eq_refl eq_refl).
Defined.

(** A row without a timestamp: its temperature 8 comes out missing. *)
Lemma missing_timestamp_row_blanked :
  exists out s s',
    handleNullValues to_datetime_fixed missing_timestamp = Some out /\
    length (index out) = 2%nat /\
    fields missing_timestamp !! 3%nat = Some s /\
    cols out !! 3%nat = Some s' /\
    values s !! 1%nat = Some (Some (VFloat 8)) /\
    values s' !! 1%nat = Some None.
Proof.
  eexists _, _, _. rewrite handleNullValues_missing_timestamp.
  split_and!; reflexivity.
Qed.

(** C1. The later day stands first in the table [later_day_first]: its
    gap at five is not filled, although the day before holds 7 at
    five. *)
Lemma later_day_first_not_filled :
  exists out s',
    handleNullValues to_datetime_fixed later_day_first = Some out /\
    index out = seconds [1641099600; 1641013200] /\
    day 1641013200000000000 = day 1641099600000000000 - 1 /\
    hour 1641013200000000000 = hour 1641099600000000000 /\
    cols out !! 3%nat = Some s' /\
    values s' = [None; Some (VFloat 7)].
Proof.
  eexists _, _. rewrite handleNullValues_later_day_first.
  split_and!; reflexivity.
Qed.

(** C4. The earlier day stands last in the table [earlier_day_last]:
    its gap at five, the earliest row of the hour, is filled with the 7
    of the later day. *)
Lemma earlier_day_filled_from_later_day :
  exists s out s',
    fields earlier_day_last !! 3%nat = Some s /\
    values s = [Some (VFloat 7); None] /\
    handleNullValues to_datetime_fixed earlier_day_last = Some out /\
    index out = seconds [1641099600; 1641013200] /\
    cols out !! 3%nat = Some s' /\
    values s' = [Some (VFloat 7); Some (VFloat 7)].
Proof.
  eexists _, _, _. rewrite handleNullValues_earlier_day_last.
  split_and!; reflexivity.
Qed.

(** ** [splitSet] *)

Lemma get_col_Some n f s :
  get_col n f = Some s -> name s = n /\ s ∈ cols f.
Proof.
  unfold get_col. intros Hfind. apply find_some in Hfind as [Hin Hname].
  apply bool_decide_eq_true in Hname. by rewrite <-list_elem_of_In in Hin.
Qed.

Lemma get_col_is_Some n f : n ∈ column_names f -> is_Some (get_col n f).
Proof.
  unfold column_names, get_col. intros Hn.
  apply list_elem_of_fmap in Hn as (s & -> & Hs).
  destruct (List.find _ _) eqn:Hfind; [done|].
  apply list_elem_of_In in Hs. apply (find_none _ _ Hfind) in Hs.
  by apply bool_decide_eq_false in Hs.
Qed.

Lemma get_col_None n f : n ∉ column_names f -> get_col n f = None.
Proof.
  intros Hn. destruct (get_col n f) as [s|] eqn:Hs; [|done].
  apply get_col_Some in Hs as [<- Hs]. destruct Hn.
  by apply list_elem_of_fmap_2.
Qed.

Lemma get_col_filter (labels : list string) n idx idx' l :
  n ∉ labels ->
  get_col n (Frame idx (filter (fun s => name s ∉ labels) l)) =
  get_col n (Frame idx' l).
Proof.
  intros Hn. unfold get_col. simpl.
  induction l as [|s l IH]; [done|].
  rewrite filter_cons. simpl. case_bool_decide as Hs.
  - rewrite decide_True by by rewrite Hs. simpl. by rewrite bool_decide_true.
  - case_decide; [|done]. simpl. by rewrite bool_decide_false.
Qed.

Lemma drop_columns_Some labels f X :
  drop_columns labels f = Some X <->
  labels ⊆ column_names f /\
  X = Frame (index f) (filter (fun s => name s ∉ labels) (cols f)).
Proof.
  unfold drop_columns. destruct (forallb _ _) eqn:Hall.
  - rewrite forallb_forall in Hall. split.
    + intros [= <-]. split; [|done]. intros n Hn.
      apply has_col_elem_of, Hall. by apply list_elem_of_In.
    + by intros [_ ->].
  - split; [done|]. intros [Hsub _].
    rewrite (proj2 (forallb_forall _ _)) in Hall; [done|].
    intros n Hn. apply has_col_elem_of, Hsub. by apply list_elem_of_In.
Qed.

Lemma get_col_drop_columns labels f X n :
  drop_columns labels f = Some X -> n ∉ labels -> get_col n X = get_col n f.
Proof.
  intros [_ ->]%drop_columns_Some Hn. destruct f as [idx l].
  by apply get_col_filter.
Qed.

Lemma names_filter (labels : list string) (l : list series) :
  name <$> filter (fun s => name s ∉ labels) l =
  filter (fun n => n ∉ labels) (name <$> l).
Proof.
  induction l as [|a l IH]; [done|].
  rewrite fmap_cons, !filter_cons. case_decide; csimpl; by rewrite IH.
Qed.

Lemma filter_not_named n (l : list series) :
  n ∉ name <$> l -> filter (fun s => name s ∉ [n]) l = l.
Proof.
  induction l as [|a l IH]; [done|]. intros Hn.
  rewrite fmap_cons, not_elem_of_cons in Hn. destruct Hn as [Hna Hn].
  rewrite filter_cons_True by by rewrite list_elem_of_singleton. f_equal. by apply IH.
Qed.

Lemma insert_filtered_column n pos y (l : list series) :
  NoDup (name <$> l) -> l !! pos = Some y -> name y = n ->
  (take pos (filter (fun s => name s ∉ [n]) l) ++
     y :: drop pos (filter (fun s => name s ∉ [n]) l))%list = l.
Proof.
  revert pos. induction l as [|a l IH]; intros [|pos] Hnd Hy Hn;
    simplify_eq/=; apply NoDup_cons in Hnd as [Hnotin Hnd].
  - rewrite filter_cons_False by (rewrite list_elem_of_singleton; tauto). simpl.
    rewrite drop_0. f_equal. by apply filter_not_named.
  - assert (name a <> name y) as Hne.
    { intros Heq. apply Hnotin. rewrite Heq.
      apply list_elem_of_fmap_2. by eapply list_elem_of_lookup_2. }
    rewrite filter_cons_True by by rewrite list_elem_of_singleton. simpl. f_equal. by apply IH.
Qed.

(** C10. On a table with a column [Volum], [splitSet] gives the table
    without that column, the other columns and all rows kept in order,
    and the column [Volum] itself; with distinct column names, putting
    the column back at its place gives the table again.  The table given
    is a value and is not changed. *)
Theorem splitSet_partitions set :
  "Volum" ∈ column_names set ->
  exists X y pos,
    splitSet set = Some (X, y) /\
    index X = index set /\
    cols X = filter (fun s => name s <> "Volum") (cols set) /\
    column_names X = filter (fun n => n <> "Volum") (column_names set) /\
    (forall n, n <> "Volum" -> get_col n X = get_col n set) /\
    get_col "Volum" set = Some y /\
    name y = "Volum" /\
    cols set !! pos = Some y /\
    (NoDup (column_names set) -> insert_column pos y X = set).
Proof.
  intros Hin.
  destruct (get_col_is_Some _ _ Hin) as [y Hy].
  destruct (get_col_Some _ _ _ Hy) as [Hname Hy_in].
  apply list_elem_of_lookup_1 in Hy_in as [pos Hpos].
  assert (drop_columns ["Volum"] set =
          Some (Frame (index set)
                  (filter (fun s => name s ∉ ["Volum"]) (cols set)))) as Hdrop.
  { apply drop_columns_Some. split; [|done].
    intros n ->%list_elem_of_singleton. done. }
  eexists _, y, pos. unfold splitSet. rewrite Hdrop, Hy. simpl.
  split_and!; try done.
  - apply list_filter_iff. intros s. by rewrite list_elem_of_singleton.
  - unfold column_names. cbn [cols].
    rewrite names_filter.
    apply list_filter_iff. intros n. by rewrite list_elem_of_singleton.
  - intros n Hn. apply (get_col_drop_columns ["Volum"]); [done|].
    by rewrite list_elem_of_singleton.
  - intros Hnd. unfold insert_column. simpl. destruct set as [idx l].
    simpl in *. f_equal. by apply insert_filtered_column.
Qed.

(** On [three_days_filled] the target is the last column, and putting it
    back after the six features gives the table. *)
Lemma splitSet_partitions_witness :
  exists X y,
    splitSet three_days_filled = Some (X, y) /\
    column_names X = ["Hour"; "isWeekday"; "Month";
                      "Globalstraling"; "Solskinstid"; "Lufttemperatur"] /\
    values y = ints [10; 20; 30; 40; 20; 30] /\
    insert_column 6 y X = three_days_filled.
Proof.
  destruct (splitSet_partitions three_days_filled)
    as (X & y & pos & Hsplit & _ & _ & Hnames & _ & _ & _ & Hpos & Hback).
  { by apply (bool_decide_unpack _). }
  assert (splitSet three_days_filled = Some (three_days_X, three_days_y)) as Hrun
    by reflexivity.
  rewrite Hrun in Hsplit. injection Hsplit as <- <-.
  exists three_days_X, three_days_y. split_and!; [done..|].
  assert (pos = 6%nat) as ->.
  { apply (NoDup_lookup (cols three_days_filled) pos 6 three_days_y);
      [|done..].
    apply (NoDup_fmap_1 name). by apply (bool_decide_unpack _). }
  apply Hback. by apply (bool_decide_unpack _).
Defined.

(** ** The column transformer *)

Lemma insert_category_elem_of c d cats :
  c ∈ insert_category d cats -> c = d \/ c ∈ cats.
Proof.
  induction cats as [|e cats IH]; simpl.
  - intros ->%list_elem_of_singleton. by left.
  - destruct (cell_eqb d e); [by right|].
    destruct (cell_leb d e); rewrite !elem_of_cons; [tauto|].
    intros [->|Hc]; [tauto|]. apply IH in Hc. tauto.
Qed.

Lemma ohe_fit_elem_of vals c : c ∈ ohe_fit vals -> c ∈ vals.
Proof.
  induction vals as [|d vals IH]; simpl; [done|].
  intros [->|?]%insert_category_elem_of; [left|right; auto].
Qed.

Lemma ohe_row_ignore cats c : ohe_row HU_ignore cats c = Some (indicator cats c).
Proof. unfold ohe_row. by case_match. Qed.

Lemma indicator_unseen cats c :
  (forall d, d ∈ cats -> cell_eqb c d = false) ->
  indicator cats c = replicate (length cats) (Some 0%R).
Proof.
  unfold indicator. induction cats as [|d cats IH]; intros Hunseen; [done|].
  csimpl. rewrite Hunseen by left. f_equal. apply IH. intros; apply Hunseen.
  by right.
Qed.

Lemma length_indicator cats c : length (indicator cats c) = length cats.
Proof. unfold indicator. by rewrite length_fmap. Qed.

Lemma mapM_total {A B} (f : A -> option B) (g : A -> B) (l : list A) :
  (forall x, f x = Some (g x)) -> mapM f l = Some (g <$> l).
Proof.
  intros Hf. apply mapM_Some. induction l; constructor; auto.
Qed.

Lemma ohe_transform_ignore cats vals :
  ohe_transform HU_ignore cats vals = Some (indicator cats <$> vals).
Proof. apply mapM_total, ohe_row_ignore. Qed.

Lemma hstack_lookup n (blocks : list matrix) i :
  (i < n)%nat ->
  Forall (fun b => length b = n) blocks ->
  hstack n blocks !! i = Some (concat (row_at i <$> blocks)).
Proof.
  intros Hi Hlen. unfold hstack.
  induction Hlen as [|b blocks Hb _ IH]; csimpl.
  - by apply lookup_replicate_2.
  - destruct (lookup_lt_is_Some_2 b i) as [r Hr]; [lia|].
    apply lookup_zip_with_Some. exists r, (concat (row_at i <$> blocks)).
    unfold row_at at 1. by rewrite Hr.
Qed.

Lemma select_columns_lookup names X cols k n :
  select_columns names X = Some cols ->
  names !! k = Some n ->
  exists s, get_col n X = Some s /\ cols !! k = Some (values s).
Proof.
  unfold select_columns. intros Hsel Hn.
  apply mapM_Some_1 in Hsel.
  destruct (Forall2_lookup_l _ _ _ _ _ Hsel Hn) as (vals & Hvals & Hget).
  destruct (get_col n X) as [s|]; simplify_eq/=. by exists s.
Qed.

Lemma select_columns_is_Some names X :
  names ⊆ column_names X -> is_Some (select_columns names X).
Proof.
  intros Hsub. apply mapM_is_Some_2, Forall_forall. intros n Hn. simpl.
  destruct (get_col_is_Some n X (Hsub n Hn)) as [s ->]. by eexists.
Qed.

Lemma select_columns_length names X cols :
  wf_frame X ->
  select_columns names X = Some cols ->
  Forall (fun vals => length vals = length (index X)) cols.
Proof.
  unfold select_columns. intros Hwf Hsel. apply mapM_Some_1 in Hsel.
  induction Hsel as [|n vals names cols Hget _ IH]; constructor; [|done].
  destruct (get_col n X) as [s|] eqn:Hs; simplify_eq/=.
  apply get_col_Some in Hs as [_ Hs].
  unfold wf_frame in Hwf. rewrite Forall_forall in Hwf. by apply Hwf.
Qed.

Lemma ct_transform_ignore p X cat num :
  ct_handle_unknown (ct_spec p) = HU_ignore ->
  select_columns (ct_categorical (ct_spec p)) X = Some cat ->
  select_columns (ct_numeric (ct_spec p)) X = Some num ->
  length (index X) <> 0%nat ->
  ct_transform p X =
  Some (hstack (length (index X))
          (zip_with (fun cats vals => indicator cats <$> vals) (categories_ p) cat
           ++ zip_with scaler_transform (scalers_ p) num)).
Proof.
  intros Hhu Hcat Hnum Hrows. unfold ct_transform.
  rewrite Hcat, Hnum, Hhu. simpl. rewrite decide_False by done.
  rewrite (mapM_total _ (fun '(cats, vals) => indicator cats <$> vals)).
  - simpl. rewrite (zip_with_zip (fun cats vals => indicator cats <$> vals)).
    do 3 f_equal.
  - intros [cats vals]. apply ohe_transform_ignore.
Qed.

Lemma row_at_indicator cats vals i x :
  vals !! i = Some x -> row_at i (indicator cats <$> vals) = indicator cats x.
Proof. intros Hx. unfold row_at. by rewrite list_lookup_fmap, Hx. Qed.

Lemma length_rows_before (cs : list (list cell)) (vs : list (list cell)) i k :
  Forall (fun vals => i < length vals)%nat vs ->
  (k <= length vs)%nat ->
  length (concat (row_at i <$>
            take k (zip_with (fun cats vals => indicator cats <$> vals) cs vs))) =
  length (concat (take k cs)).
Proof.
  intros Hvs. revert cs k.
  induction Hvs as [|vals vs Hi _ IH]; intros [|cats cs] [|k] Hk;
    simpl in *; try done; try lia.
  apply lookup_lt_is_Some_2 in Hi as [x Hx].
  rewrite (row_at_indicator _ _ _ _ Hx), !length_app, length_indicator.
  f_equal. apply IH. lia.
Qed.

(** The row of the design matrix of a sample whose [k]-th categorical
    cell was not among the values of the fit. *)
Lemma ct_transform_unseen p Xfit X n k sfit s i x :
  ct_handle_unknown (ct_spec p) = HU_ignore ->
  ct_fit (ct_spec p) Xfit = Some p ->
  wf_frame X ->
  ct_categorical (ct_spec p) ++ ct_numeric (ct_spec p) ⊆ column_names X ->
  ct_categorical (ct_spec p) !! k = Some n ->
  get_col n Xfit = Some sfit ->
  get_col n X = Some s ->
  values s !! i = Some x ->
  (forall c, c ∈ values sfit -> cell_eqb x c = false) ->
  exists M before cats after,
    ct_transform p X = Some M /\
    categories_ p !! k = Some cats /\
    M !! i = Some (before ++ replicate (length cats) (Some 0%R) ++ after)%list /\
    length before = block_offset p k.
Proof.
  intros Hhu Hfit Hwf Hcols Hk Hsfit Hs Hx Hunseen.
  assert (i < length (index X))%nat as Hi.
  { apply get_col_Some in Hs as [_ Hs]. unfold wf_frame in Hwf.
    rewrite Forall_forall in Hwf. rewrite <-(Hwf s Hs).
    by eapply lookup_lt_Some. }
  destruct (select_columns_is_Some (ct_categorical (ct_spec p)) X)
    as [cat Hcat]; [set_solver|].
  destruct (select_columns_is_Some (ct_numeric (ct_spec p)) X)
    as [num Hnum]; [set_solver|].
  pose proof (select_columns_length _ _ _ Hwf Hcat) as Hcat_len.
  pose proof (select_columns_length _ _ _ Hwf Hnum) as Hnum_len.
  (* the categories of the fit *)
  unfold ct_fit in Hfit.
  destruct (select_columns (ct_categorical (ct_spec p)) Xfit)
    as [cat_fit|] eqn:Hcat_fit; [|done].
  destruct (select_columns (ct_numeric (ct_spec p)) Xfit)
    as [num_fit|] eqn:Hnum_fit; [|done].
  simpl in Hfit. case_decide; [done|]. injection Hfit as Hp.
  destruct (select_columns_lookup _ _ _ _ _ Hcat_fit Hk)
    as (sfit' & Hsfit' & Hkfit).
  destruct (select_columns_lookup _ _ _ _ _ Hcat Hk) as (s' & Hs' & Hkcat).
  simplify_eq.
  set (cats := ohe_fit (values sfit)).
  assert (categories_ p = ohe_fit <$> cat_fit) as Hcats by by rewrite <-Hp.
  assert (categories_ p !! k = Some cats) as Hkcats.
  { by rewrite Hcats, list_lookup_fmap, Hkfit. }
  set (blocks := zip_with (fun cats vals => indicator cats <$> vals)
                   (categories_ p) cat).
  set (rest := zip_with scaler_transform (scalers_ p) num).
  assert (blocks !! k = Some (indicator cats <$> values s)) as Hblock.
  { apply lookup_zip_with_Some. by exists cats, (values s). }
  assert (Forall (fun b : matrix => length b = length (index X)) (blocks ++ rest))
    as Hlen.
  { apply Forall_app. split.
    - apply Forall_lookup. intros j b Hb.
      apply lookup_zip_with_Some in Hb as (c & vals & -> & _ & Hvals).
      rewrite length_fmap. rewrite Forall_lookup in Hcat_len.
      by apply (Hcat_len j).
    - apply Forall_lookup. intros j b Hb.
      apply lookup_zip_with_Some in Hb as (sp & vals & -> & _ & Hvals).
      unfold scaler_transform. rewrite length_fmap.
      rewrite Forall_lookup in Hnum_len. by apply (Hnum_len j). }
  exists (hstack (length (index X)) (blocks ++ rest)),
    (concat (row_at i <$> take k blocks)), cats,
    (concat (row_at i <$> drop (S k) blocks) ++ concat (row_at i <$> rest))%list.
  split_and!.
  - apply ct_transform_ignore; [done..|lia].
  - done.
  - rewrite (hstack_lookup _ _ _ Hi Hlen). f_equal.
    rewrite <-(take_drop_middle _ _ _ Hblock) at 1.
    rewrite !fmap_app, fmap_cons, !concat_app, concat_cons.
    rewrite (row_at_indicator _ _ _ _ Hx).
    rewrite indicator_unseen.
    + by rewrite <-!app_assoc.
    + intros d Hd. apply Hunseen. by apply ohe_fit_elem_of.
  - unfold block_offset. apply length_rows_before.
    + eapply Forall_impl; [exact Hcat_len|]. simpl. intros ? ->. done.
    + apply lookup_lt_Some in Hkcat. lia.
Qed.

Lemma ct_fit_spec spec X p : ct_fit spec X = Some p -> ct_spec p = spec.
Proof.
  unfold ct_fit. intros Hfit.
  destruct (select_columns (ct_categorical spec) X); [|done].
  destruct (select_columns (ct_numeric spec) X); [|done].
  simpl in Hfit. case_decide; [done|]. by injection Hfit as <-.
Qed.

Lemma ct_fit_is_Some spec X :
  ct_categorical spec ++ ct_numeric spec ⊆ column_names X ->
  length (index X) <> 0%nat ->
  is_Some (ct_fit spec X).
Proof.
  intros Hcols Hrows. unfold ct_fit.
  destruct (select_columns_is_Some (ct_categorical spec) X) as [cat ->];
    [set_solver|].
  destruct (select_columns_is_Some (ct_numeric spec) X) as [num ->];
    [set_solver|].
  simpl. by rewrite decide_False.
Qed.

(** With [handle_unknown="error"] the same cell raises. *)
Lemma ohe_row_error_unseen cats c :
  (forall d, d ∈ cats -> cell_eqb c d = false) -> ohe_row HU_error cats c = None.
Proof.
  intros Hunseen. unfold ohe_row.
  destruct (known_category cats c) eqn:Hknown; [|done].
  apply existsb_exists in Hknown as (d & Hd & Heq).
  apply list_elem_of_In in Hd. by rewrite Hunseen in Heq.
Qed.

(** C5. The preprocessor of [preprocess], fitted on a table, transforms
    every table that has the six feature columns; a sample whose value in
    a categorical column was not among the values of that column at the
    fit gets zeros in the whole block of that column. *)
Theorem preprocess_unseen_category X_train X p n k sfit s i x :
  ct_fit (preprocess X_train) X_train = Some p ->
  wf_frame X ->
  ["Hour"; "isWeekday"; "Month";
   "Globalstraling"; "Solskinstid"; "Lufttemperatur"] ⊆ column_names X ->
  ["Hour"; "isWeekday"; "Month"] !! k = Some n ->
  get_col n X_train = Some sfit ->
  get_col n X = Some s ->
  values s !! i = Some x ->
  (forall c, c ∈ values sfit -> cell_eqb x c = false) ->
  exists M before cats after,
    ct_transform p X = Some M /\
    categories_ p !! k = Some cats /\
    M !! i = Some (before ++ replicate (length cats) (Some 0%R) ++ after) /\
    length before = block_offset p k.
Proof.
  intros Hfit Hwf Hcols Hk Hsfit Hs Hx Hunseen.
  pose proof (ct_fit_spec _ _ _ Hfit) as Hspec.
  eapply (ct_transform_unseen p X_train X n k sfit s i x);
    rewrite ?Hspec; done.
Qed.

Lemma preprocess_unseen_category_witness :
  exists p M before cats after,
    ct_fit (preprocess three_days_X) three_days_X = Some p /\
    ct_transform p hour_seven_X = Some M /\
    categories_ p !! 0%nat = Some cats /\
    M !! 0%nat = Some (before ++ replicate (length cats) (Some 0%R) ++ after) /\
    length before = block_offset p 0.
Proof.
  destruct (ct_fit_is_Some (preprocess three_days_X) three_days_X) as [p Hp].
  { by apply (bool_decide_unpack _). }
  { done. }
  assert (wf_frame hour_seven_X) as Hwf by repeat constructor.
  assert (["Hour"; "isWeekday"; "Month";
           "Globalstraling"; "Solskinstid"; "Lufttemperatur"]
          ⊆ column_names hour_seven_X) as Hcols by by apply (bool_decide_unpack _).
  assert (forall c : cell, c ∈ ints [5; 6; 5; 6; 5; 6] ->
            cell_eqb (Some (VInt 7)) c = false) as Hunseen.
  { intros c Hc.
    repeat (apply elem_of_cons in Hc as [->|Hc]; [reflexivity|]).
    by apply elem_of_nil in Hc. }
  destruct (preprocess_unseen_category three_days_X hour_seven_X p
              "Hour" 0%nat (Series "Hour" Object (ints [5; 6; 5; 6; 5; 6]))
              (Series "Hour" Object (ints [7])) 0%nat (Some (VInt 7))
              Hp Hwf Hcols eq_refl eq_refl eq_refl eq_refl Hunseen)
    as (M & before & cats & after & HM).
  by exists p, M, before, cats, after.
Defined.

Lemma length_hstack n (blocks : list matrix) :
  Forall (fun b => length b = n) blocks -> length (hstack n blocks) = n.
Proof.
  unfold hstack. induction 1 as [|b blocks Hb _ IH]; simpl.
  - apply length_replicate.
  - rewrite length_zip_with, IH. lia.
Qed.

Lemma ct_transform_length p X M :
  wf_frame X -> ct_transform p X = Some M -> length M = length (index X).
Proof.
  intros Hwf. unfold ct_transform.
  destruct (select_columns (ct_categorical (ct_spec p)) X) as [cat|] eqn:Hcat;
    [|done].
  destruct (select_columns (ct_numeric (ct_spec p)) X) as [num|] eqn:Hnum;
    [|done].
  simpl. case_decide; [done|].
  destruct (mapM _ _) as [cat_blocks|] eqn:Hblocks; [|done].
  simpl. intros [= <-]. apply length_hstack, Forall_app. split.
  - apply mapM_Some_1 in Hblocks.
    pose proof (select_columns_length _ _ _ Hwf Hcat) as Hlen.
    apply Forall_lookup. intros j b Hb.
    destruct (Forall2_lookup_r _ _ _ _ _ Hblocks Hb) as ([cats vals] & Hj & Hohe).
    apply lookup_zip_Some in Hj as [_ Hvals].
    unfold ohe_transform in Hohe. apply length_mapM in Hohe.
    rewrite Forall_lookup in Hlen. rewrite <-Hohe. by apply (Hlen j).
  - pose proof (select_columns_length _ _ _ Hwf Hnum) as Hlen.
    apply Forall_lookup. intros j b Hb.
    apply lookup_zip_with_Some in Hb as (sp & vals & -> & _ & Hvals).
    unfold scaler_transform. rewrite length_fmap.
    rewrite Forall_lookup in Hlen. by apply (Hlen j).
Qed.

Lemma ct_transform_is_Some p X :
  ct_handle_unknown (ct_spec p) = HU_ignore ->
  ct_categorical (ct_spec p) ++ ct_numeric (ct_spec p) ⊆ column_names X ->
  length (index X) <> 0%nat ->
  is_Some (ct_transform p X).
Proof.
  intros Hhu Hcols Hrows.
  destruct (select_columns_is_Some (ct_categorical (ct_spec p)) X)
    as [cat Hcat]; [set_solver|].
  destruct (select_columns_is_Some (ct_numeric (ct_spec p)) X)
    as [num Hnum]; [set_solver|].
  by erewrite ct_transform_ignore.
Qed.

(** ** The metric and the rounding *)

Lemma Rfloor_spec x : (IZR (Rfloor x) <= x < IZR (Rfloor x) + 1)%R.
Proof.
  unfold Rfloor. rewrite minus_IZR. destruct (archimed x). lra.
Qed.

Lemma Rfloor_IZR z : Rfloor (IZR z) = z.
Proof.
  unfold Rfloor. rewrite <-(up_tech (IZR z) z); [lia|lra|].
  rewrite plus_IZR. lra.
Qed.

Lemma round_half_even_IZR z : round_half_even (IZR z) = z.
Proof.
  unfold round_half_even. rewrite Rfloor_IZR.
  rewrite decide_True; [done|lra].
Qed.

(** [round_half_even] gives a nearest integer. *)
Lemma round_half_even_nearest x :
  (Rabs (IZR (round_half_even x) - x) <= 1 / 2)%R.
Proof.
  unfold round_half_even. pose proof (Rfloor_spec x) as [Hlo Hhi].
  repeat case_decide; try case_match; rewrite ?plus_IZR;
    apply Rabs_le; lra.
Qed.

Lemma Rsum_zero (xs : list R) : Forall (fun x => x = 0%R) xs -> Rsum xs = 0%R.
Proof.
  induction 1 as [|x xs -> _ IH]; simpl; [done|]. rewrite IH. lra.
Qed.

Lemma squared_errors_zero (ys : list R) :
  Forall (fun x => x = 0%R) (zip_with (fun a b => (a - b) * (a - b))%R ys ys).
Proof. induction ys as [|y ys IH]; constructor; [lra|done]. Qed.

(** Predictions equal to the targets have a mean squared error of 0. *)
Lemma mean_squared_error_exact (y_true : list cell) (y_pred : list R) :
  mapM (fmap to_float) y_true = Some y_pred ->
  y_pred <> [] ->
  mean_squared_error y_true y_pred = Some 0%R.
Proof.
  intros Hy Hne. unfold mean_squared_error. rewrite Hy. simpl.
  rewrite decide_True by by destruct y_pred.
  f_equal. unfold Rmean. rewrite Rsum_zero by apply squared_errors_zero.
  lra.
Qed.

(** The sum that [mean_squared_error] takes is the sum of the squared
    errors. *)
Lemma Rsum_squared_errors (ys ps : list R) :
  Rsum (zip_with (fun a b => (a - b) * (a - b))%R ys ps) =
  sum_of_squared_errors ys ps.
Proof.
  revert ps. induction ys as [|y ys IH]; intros [|p ps]; simpl; try done.
  rewrite IH. lra.
Qed.

Lemma sum_of_squared_errors_nonneg (ys ps : list R) :
  (0 <= sum_of_squared_errors ys ps)%R.
Proof.
  revert ps. induction ys as [|y ys IH]; intros [|p ps]; simpl; try lra.
  specialize (IH ps). pose proof (Rle_0_sqr (y - p)) as Hsq.
  unfold Rsqr in Hsq. lra.
Qed.

Lemma sum_of_squared_errors_zero (ys ps : list R) :
  length ps = length ys ->
  sum_of_squared_errors ys ps = 0%R <-> ps = ys.
Proof.
  revert ps. induction ys as [|y ys IH]; intros [|p ps] Hlen; simpl in *;
    try done.
  injection Hlen as Hlen. specialize (IH ps Hlen).
  pose proof (sum_of_squared_errors_nonneg ys ps) as Hpos.
  pose proof (Rle_0_sqr (y - p)) as Hsq. unfold Rsqr in Hsq.
  split.
  - intros Hsum.
    assert (sum_of_squared_errors ys ps = 0%R) as Hrest by lra.
    assert ((y - p) * (y - p) = 0)%R as Hzero by lra.
    apply Rmult_integral in Hzero.
    assert (p = y) as -> by lra. f_equal. by apply IH.
  - intros [= -> Hps]. apply IH in Hps. rewrite Hps. lra.
Qed.

Lemma mean_squared_error_in_words (y_true : list cell) (y_pred : list R) MSE :
  mean_squared_error y_true y_pred = Some MSE <->
  exists targets,
    mapM (fmap to_float) y_true = Some targets /\
    length y_pred = length targets /\ targets <> [] /\
    MSE = (sum_of_squared_errors targets y_pred / INR (length targets))%R.
Proof.
  unfold mean_squared_error.
  destruct (mapM (fmap to_float) y_true) as [ys|]; simpl.
  - case_decide as Hlen.
    + destruct Hlen as [Hlen Hne]. split.
      * intros [= <-]. exists ys. split_and!; [done|done|by destruct ys|].
        unfold Rmean. rewrite Rsum_squared_errors, length_zip_with.
        by rewrite <-Hlen, Nat.min_id.
      * intros (targets & [= <-] & _ & _ & ->). f_equal.
        unfold Rmean. rewrite Rsum_squared_errors, length_zip_with.
        by rewrite <-Hlen, Nat.min_id.
    + split; [done|]. intros (targets & [= <-] & Hlen' & Hne & _).
      destruct Hlen. split; [done|by destruct ys].
  - split; [done|]. by intros (targets & ? & _).
Qed.

(** The root mean squared error is 0 only for predictions equal to the
    targets. *)
Lemma rmse_in_words_zero (targets y_pred : list R) :
  length y_pred = length targets -> targets <> [] ->
  rmse_in_words targets y_pred = 0%R <-> y_pred = targets.
Proof.
  intros Hlen Hne. unfold rmse_in_words.
  assert (0 < INR (length targets))%R as Hn.
  { apply lt_0_INR. destruct targets; [done|simpl; lia]. }
  pose proof (sum_of_squared_errors_nonneg targets y_pred) as Hpos.
  rewrite <-(sum_of_squared_errors_zero _ _ Hlen). split.
  - intros Hsqrt. apply sqrt_eq_0 in Hsqrt.
    + apply (Rmult_eq_compat_r (INR (length targets))) in Hsqrt.
      unfold Rdiv in Hsqrt. rewrite Rmult_assoc, Rinv_l in Hsqrt; lra.
    + apply Rmult_le_pos; [lra|]. left. by apply Rinv_0_lt_compat.
  - intros ->. unfold Rdiv. rewrite Rmult_0_l. apply sqrt_0.
Qed.

Lemma rmse_in_words_nonneg (targets y_pred : list R) :
  (0 <= rmse_in_words targets y_pred)%R.
Proof. apply sqrt_pos. Qed.

(** ** The design matrix in plain words *)

Lemma Rmean_mean_of (xs : list R) : Rmean xs = mean_of xs.
Proof. reflexivity. Qed.

Lemma squares_in_words m (xs : list R) :
  (fun x => (x - m) * (x - m))%R <$> xs = map (fun x => (x - m) ^ 2)%R xs.
Proof. apply list_fmap_ext. intros _ x _. simpl. lra. Qed.

Lemma mean_of_squares_nonneg m (xs : list R) :
  (0 <= mean_of (map (fun x => (x - m) ^ 2)%R xs))%R.
Proof.
  unfold mean_of. rewrite length_map.
  assert (0 <= fold_right Rplus 0 (map (fun x => (x - m) ^ 2) xs))%R as Hsum.
  { induction xs as [|x xs IH]; cbn [map fold_right]; [lra|].
    pose proof (pow2_ge_0 (x - m)) as Hsq. lra. }
  destruct xs as [|x xs].
  - simpl. unfold Rdiv. rewrite Rmult_0_l. lra.
  - apply Rmult_le_pos; [done|]. left. apply Rinv_0_lt_compat.
    apply lt_0_INR. simpl. lia.
Qed.

Lemma scale_of_variance (var : R) :
  (0 <= var)%R ->
  (if decide (var = 0%R) then 1%R else sqrt var) =
  (if decide (sqrt var = 0%R) then 1%R else sqrt var).
Proof.
  intros Hpos.
  destruct (decide (var = 0%R)) as [Hvar|Hvar];
    destruct (decide (sqrt var = 0%R)) as [Hdev|Hdev]; try done.
  - destruct Hdev. rewrite Hvar. apply sqrt_0.
  - destruct Hvar. by apply sqrt_eq_0.
Qed.

(** The scale of [StandardScaler] is the deviation, 1 for the deviation
    0. *)
Lemma scale_in_words (xs : list R) :
  (if decide (Rmean ((fun x => (x - Rmean xs) * (x - Rmean xs))%R <$> xs) = 0%R)
   then 1%R
   else sqrt (Rmean ((fun x => (x - Rmean xs) * (x - Rmean xs))%R <$> xs))) =
  (if decide (deviation_of xs = 0%R) then 1%R else deviation_of xs).
Proof.
  unfold deviation_of. rewrite squares_in_words.
  apply scale_of_variance, (mean_of_squares_nonneg (mean_of xs) xs).
Qed.

Lemma scaler_fit_in_words (vals : list cell) :
  scaler_fit vals = scaler_in_words vals.
Proof.
  unfold scaler_fit, scaler_in_words, numbers_of.
  destruct (omap (fmap to_float) vals) as [|x xs]; [done|].
  by rewrite scale_in_words.
Qed.

Lemma standardize_in_words (train : list cell) (c : cell) :
  standardize (scaler_fit train) c = standardized_in_words train c.
Proof.
  rewrite scaler_fit_in_words.
  unfold standardize, standardized_in_words, scaler_in_words.
  destruct c as [v|]; [|done]. simpl.
  by destruct (numbers_of train).
Qed.

Lemma hstack_rows n (blocks : list matrix) :
  Forall (fun b => length b = n) blocks ->
  hstack n blocks = (fun i => concat (row_at i <$> blocks)) <$> seq 0 n.
Proof.
  intros Hlen. apply list_eq. intros i.
  rewrite list_lookup_fmap.
  destruct (decide (i < n)%nat) as [Hi|Hi].
  - rewrite hstack_lookup by done. by rewrite lookup_seq_lt.
  - rewrite lookup_ge_None_2 by (rewrite length_hstack by done; lia).
    by rewrite lookup_seq_ge by lia.
Qed.

Lemma rows_of_indicators i (cat_fit cat : list (list cell)) :
  Forall (fun vals => i < length vals)%nat cat ->
  row_at i <$> zip_with (fun cats vals => indicator cats <$> vals)
                 (ohe_fit <$> cat_fit) cat =
  zip_with (fun train vals => indicator (ohe_fit train) (cell_at i vals))
    cat_fit cat.
Proof.
  intros Hlen. revert cat_fit.
  induction Hlen as [|vals cat Hi _ IH]; intros [|train cat_fit]; csimpl;
    try done.
  rewrite IH. f_equal.
  destruct (lookup_lt_is_Some_2 vals i Hi) as [x Hx].
  rewrite (row_at_indicator _ _ _ _ Hx). unfold cell_at. by rewrite Hx.
Qed.

Lemma rows_of_scaled i (num_fit num : list (list cell)) :
  Forall (fun vals => i < length vals)%nat num ->
  concat (row_at i <$> zip_with scaler_transform (scaler_fit <$> num_fit) num) =
  zip_with (fun train vals => standardized_in_words train (cell_at i vals))
    num_fit num.
Proof.
  intros Hlen. revert num_fit.
  induction Hlen as [|vals num Hi _ IH]; intros [|train num_fit]; csimpl;
    try done.
  rewrite IH.
  destruct (lookup_lt_is_Some_2 vals i Hi) as [x Hx].
  unfold row_at, scaler_transform, cell_at.
  rewrite list_lookup_fmap, Hx. simpl. by rewrite standardize_in_words.
Qed.

(** The transformer fitted on a table gives every table the design matrix
    in plain words. *)
Lemma ct_transform_in_words spec X_fit p X :
  ct_handle_unknown spec = HU_ignore ->
  ct_fit spec X_fit = Some p ->
  wf_frame X ->
  ct_transform p X = design_in_words spec X_fit X.
Proof.
  intros Hhu Hfit Hwf. pose proof (ct_fit_spec _ _ _ Hfit) as Hspec.
  unfold ct_fit in Hfit. unfold design_in_words.
  destruct (select_columns (ct_categorical spec) X_fit) as [cat_fit|]; [|done].
  destruct (select_columns (ct_numeric spec) X_fit) as [num_fit|]; [|done].
  simpl in Hfit. case_decide as Hrows; [done|]. injection Hfit as <-.
  cbn [mbind option_bind].
  destruct (select_columns (ct_categorical spec) X) as [cat|] eqn:Hcat.
  2: { unfold ct_transform. simpl. by rewrite Hcat. }
  destruct (select_columns (ct_numeric spec) X) as [num|] eqn:Hnum.
  2: { unfold ct_transform. simpl. by rewrite Hcat, Hnum. }
  cbn [mbind option_bind].
  destruct (decide (length (index X) = 0%nat)) as [Hzero|Hzero].
  { unfold ct_transform. simpl. rewrite Hcat, Hnum. simpl.
    rewrite decide_True by done. by rewrite decide_True by by right. }
  rewrite decide_False by (intros [?|?]; done).
  rewrite (ct_transform_ignore _ X cat num) by done. simpl.
  pose proof (select_columns_length _ _ _ Hwf Hcat) as Hlcat.
  pose proof (select_columns_length _ _ _ Hwf Hnum) as Hlnum.
  f_equal. rewrite hstack_rows.
  - apply list_fmap_ext. intros k i [-> Hk]%lookup_seq.
    simpl. rewrite fmap_app, concat_app.
    rewrite rows_of_indicators, rows_of_scaled; [done|..];
      eapply Forall_impl; try eassumption; simpl; intros vals ->; lia.
  - apply Forall_app. split.
    + apply Forall_forall. intros b Hb.
      apply elem_of_lookup_zip_with in Hb as (k & cats & vals & -> & _ & Hvals).
      rewrite length_fmap.
      rewrite Forall_forall in Hlcat. apply Hlcat.
      by eapply list_elem_of_lookup_2.
    + apply Forall_forall. intros b Hb.
      apply elem_of_lookup_zip_with in Hb as (k & sp & vals & -> & _ & Hvals).
      unfold scaler_transform. rewrite length_fmap.
      rewrite Forall_forall in Hlnum. apply Hlnum.
      by eapply list_elem_of_lookup_2.
Qed.

Lemma has_nan_false (M : matrix) :
  has_nan M = false <-> Forall (Forall is_Some) M.
Proof.
  unfold has_nan. induction M as [|row M IH]; simpl.
  - split; [constructor|done].
  - rewrite orb_false_iff, IH, Forall_cons.
    apply and_iff_compat_r.
    induction row as [|c row IHrow]; simpl.
    + split; [constructor|done].
    + rewrite orb_false_iff, IHrow, Forall_cons.
      apply and_iff_compat_r. destruct c; split; try done.
Qed.

Lemma select_columns_lookup_r names X cols k vals :
  select_columns names X = Some cols ->
  cols !! k = Some vals ->
  exists n s, names !! k = Some n /\ get_col n X = Some s /\ vals = values s.
Proof.
  unfold select_columns. intros Hsel Hvals.
  apply mapM_Some_1 in Hsel.
  destruct (Forall2_lookup_r _ _ _ _ _ Hsel Hvals) as (n & Hn & Hget).
  destruct (get_col n X) as [s|] eqn:Hs; simplify_eq/=. by exists n, s.
Qed.

Lemma length_select_columns names X cols :
  select_columns names X = Some cols -> length cols = length names.
Proof.
  unfold select_columns. intros Hsel. apply mapM_Some_1 in Hsel.
  by apply Forall2_length in Hsel.
Qed.

Lemma numbers_of_complete (vals : list cell) :
  Forall is_Some vals -> length (numbers_of vals) = length vals.
Proof.
  unfold numbers_of. induction 1 as [|c vals [v ->] _ IH]; [done|].
  csimpl. by rewrite IH.
Qed.

Lemma complete_columns_get names X n s :
  complete_columns names X -> n ∈ names -> get_col n X = Some s ->
  Forall is_Some (values s).
Proof. intros Hall. apply Hall. Qed.

Lemma complete_columns_all names X :
  Forall (fun s => Forall is_Some (values s)) (cols X) ->
  complete_columns names X.
Proof.
  rewrite Forall_forall. intros Hall n s _ [_ Hs]%get_col_Some. by apply Hall.
Qed.

(** The design matrix of a table whose numeric features are all present,
    for a training table whose numeric features are all present, has no
    missing number. *)
Lemma design_no_nan spec X_fit X M :
  wf_frame X_fit -> wf_frame X ->
  complete_columns (ct_numeric spec) X_fit ->
  complete_columns (ct_numeric spec) X ->
  design_in_words spec X_fit X = Some M ->
  has_nan M = false.
Proof.
  intros Hwf_fit Hwf Hfit HX. unfold design_in_words.
  destruct (select_columns (ct_categorical spec) X_fit) as [cat_fit|]; [|done].
  destruct (select_columns (ct_numeric spec) X_fit) as [num_fit|] eqn:Hnum_fit;
    [|done].
  cbn [mbind option_bind].
  destruct (select_columns (ct_categorical spec) X) as [cat|]; [|done].
  destruct (select_columns (ct_numeric spec) X) as [num|] eqn:Hnum; [|done].
  cbn [mbind option_bind]. case_decide as Hrows; [done|]. intros [= <-].
  apply has_nan_false, Forall_fmap, Forall_forall.
  intros i [_ Hi]%elem_of_seq. simpl in Hi. cbn [compose].
  apply Forall_app. split.
  - apply Forall_concat, Forall_forall. intros row Hrow.
    apply elem_of_lookup_zip_with in Hrow as (k & train & vals & -> & _ & _).
    unfold indicator. apply Forall_fmap, Forall_forall. intros d _. simpl.
    by eexists.
  - apply Forall_forall. intros c Hc.
    apply elem_of_lookup_zip_with in Hc as (k & train & vals & -> & Htrain & Hvals).
    destruct (select_columns_lookup_r _ _ _ _ _ Hnum_fit Htrain)
      as (n & sfit & Hn & Hget_fit & ->).
    destruct (select_columns_lookup_r _ _ _ _ _ Hnum Hvals)
      as (n' & s & Hn' & Hget & ->).
    assert (n' = n) as -> by congruence.
    apply list_elem_of_lookup_2 in Hn.
    pose proof (complete_columns_get _ _ _ _ Hfit Hn Hget_fit) as Hall_fit.
    pose proof (complete_columns_get _ _ _ _ HX Hn Hget) as Hall.
    apply get_col_Some in Hget_fit as [_ Hin_fit].
    apply get_col_Some in Hget as [_ Hin].
    unfold wf_frame in Hwf_fit, Hwf. rewrite Forall_forall in Hwf_fit, Hwf.
    specialize (Hwf_fit _ Hin_fit). specialize (Hwf _ Hin).
    destruct (lookup_lt_is_Some_2 (values s) i) as [c Hc]; [lia|].
    rewrite Forall_forall in Hall.
    destruct (Hall c (list_elem_of_lookup_2 _ _ _ Hc)) as [v ->].
    unfold standardized_in_words, cell_at. rewrite Hc. simpl.
    pose proof (numbers_of_complete _ Hall_fit) as Hlen.
    destruct (numbers_of (values sfit)); [|by eexists].
    simpl in Hlen. lia.
Qed.

Lemma design_is_Some spec X_fit X :
  ct_categorical spec ++ ct_numeric spec ⊆ column_names X_fit ->
  ct_categorical spec ++ ct_numeric spec ⊆ column_names X ->
  length (index X_fit) <> 0%nat -> length (index X) <> 0%nat ->
  is_Some (design_in_words spec X_fit X).
Proof.
  intros Hfit HX Hrows_fit Hrows. unfold design_in_words.
  destruct (select_columns_is_Some (ct_categorical spec) X_fit) as [? ->];
    [set_solver|].
  destruct (select_columns_is_Some (ct_numeric spec) X_fit) as [? ->];
    [set_solver|].
  destruct (select_columns_is_Some (ct_categorical spec) X) as [? ->];
    [set_solver|].
  destruct (select_columns_is_Some (ct_numeric spec) X) as [? ->];
    [set_solver|].
  cbn [mbind option_bind]. rewrite decide_False by (intros [?|?]; done).
  by eexists.
Qed.

Lemma length_design spec X_fit X M :
  design_in_words spec X_fit X = Some M -> length M = length (index X).
Proof.
  unfold design_in_words.
  destruct (select_columns (ct_categorical spec) X_fit); [|done].
  destruct (select_columns (ct_numeric spec) X_fit); [|done].
  cbn [mbind option_bind].
  destruct (select_columns (ct_categorical spec) X); [|done].
  destruct (select_columns (ct_numeric spec) X); [|done].
  cbn [mbind option_bind]. case_decide; [done|]. intros [= <-].
  by rewrite length_fmap, length_seq.
Qed.

(** ** Columns that a transformer does not name *)

Lemma mapM_ext_elem_of {A B} (f g : A -> option B) (l : list A) :
  (forall x, x ∈ l -> f x = g x) -> mapM f l = mapM g l.
Proof.
  induction l as [|x l IH]; intros Hfg; [done|].
  change (mapM f (x :: l)) with (y ← f x; k ← mapM f l; mret (y :: k)).
  change (mapM g (x :: l)) with (y ← g x; k ← mapM g l; mret (y :: k)).
  rewrite Hfg by left. rewrite IH; [done|]. intros; apply Hfg. by right.
Qed.

Lemma select_columns_drop labels names X Xd :
  drop_columns labels X = Some Xd ->
  (forall n, n ∈ names -> n ∉ labels) ->
  select_columns names Xd = select_columns names X.
Proof.
  intros Hdrop Hnames. unfold select_columns.
  apply mapM_ext_elem_of. intros n Hn.
  by rewrite (get_col_drop_columns _ _ _ _ Hdrop) by by apply Hnames.
Qed.

Lemma index_drop_columns labels X Xd :
  drop_columns labels X = Some Xd -> index Xd = index X.
Proof. by intros [_ ->]%drop_columns_Some. Qed.

Lemma ct_fit_drop labels spec X Xd :
  drop_columns labels X = Some Xd ->
  (forall n, n ∈ ct_categorical spec ++ ct_numeric spec -> n ∉ labels) ->
  ct_fit spec Xd = ct_fit spec X.
Proof.
  intros Hdrop Hnames. unfold ct_fit.
  rewrite !(select_columns_drop _ _ _ _ Hdrop), (index_drop_columns _ _ _ Hdrop);
    [done|intros; apply Hnames; set_solver..].
Qed.

Lemma ct_transform_drop labels p X Xd :
  drop_columns labels X = Some Xd ->
  (forall n, n ∈ ct_categorical (ct_spec p) ++ ct_numeric (ct_spec p) ->
     n ∉ labels) ->
  ct_transform p Xd = ct_transform p X.
Proof.
  intros Hdrop Hnames. unfold ct_transform.
  rewrite !(select_columns_drop _ _ _ _ Hdrop), (index_drop_columns _ _ _ Hdrop);
    [done|intros; apply Hnames; set_solver..].
Qed.

Lemma list_remove_absent x l : x ∉ l -> list_remove x l = None.
Proof.
  induction l as [|y l IH]; [done|]. intros [Hne Hx]%not_elem_of_cons. simpl.
  rewrite decide_False by done. by rewrite IH.
Qed.

Lemma try_remove_absent x l : x ∉ l -> try_remove x l = l.
Proof. intros Hx. unfold try_remove. by rewrite list_remove_absent. Qed.

(** ** Writing a column *)

Lemma name_replace_column n dt vals s : name (replace_column n dt vals s) = name s.
Proof. unfold replace_column. by case_bool_decide. Qed.

Lemma column_names_replace n dt vals idx idx' l :
  column_names (Frame idx (replace_column n dt vals <$> l)) =
  column_names (Frame idx' l).
Proof.
  unfold column_names. simpl. rewrite <-list_fmap_compose.
  apply list_fmap_ext. intros ? s ?. apply name_replace_column.
Qed.

Lemma get_col_replace n dt vals idx l :
  n ∈ name <$> l ->
  get_col n (Frame idx (replace_column n dt vals <$> l)) = Some (Series n dt vals).
Proof.
  unfold get_col. simpl. induction l as [|s l IH]; [by intros ?%elem_of_nil|].
  intros Hn. csimpl. unfold replace_column.
  destruct (decide (name s = n)) as [Heq|Hne].
  - rewrite (bool_decide_true (name s = n)) by done. simpl.
    by rewrite bool_decide_true.
  - rewrite (bool_decide_false (name s = n)) by done. simpl.
    rewrite bool_decide_false by done.
    apply IH. rewrite fmap_cons, elem_of_cons in Hn. by destruct Hn.
Qed.

Lemma get_col_replace_ne n n' dt vals idx idx' l :
  n' <> n ->
  get_col n' (Frame idx (replace_column n dt vals <$> l)) = get_col n' (Frame idx' l).
Proof.
  intros Hne. unfold get_col. simpl. induction l as [|s l IH]; [done|].
  csimpl. unfold replace_column.
  destruct (decide (name s = n)) as [Heq|Hs].
  - rewrite (bool_decide_true (name s = n)) by done. simpl.
    rewrite !bool_decide_false by congruence. apply IH.
  - rewrite (bool_decide_false (name s = n)) by done.
    case_bool_decide; [done|apply IH].
Qed.

Lemma replace_column_twice n dt dt' vals vals' s :
  replace_column n dt' vals' (replace_column n dt vals s) =
  replace_column n dt' vals' s.
Proof.
  unfold replace_column. destruct (decide (name s = n)).
  - rewrite (bool_decide_true (name s = n)) by done. simpl.
    by rewrite bool_decide_true.
  - rewrite (bool_decide_false (name s = n)) by done.
    by rewrite (bool_decide_false (name s = n)) by done.
Qed.

(** The two assignments of the prediction cell write the rounded
    predictions. *)
Lemma write_rounded (f : frame) (y_pred : list R) :
  let attribute := Series "Volum" Float64 ((fun r => Some (VFloat r)) <$> y_pred) in
  (f1 ← setattr_column "Volum" Float64 (values attribute) f;
   let Volum := round_series (getattr_column "Volum" attribute f1) in
   setattr_column "Volum" (dtype_of Volum) (values Volum) f1) =
  overwrite_target f y_pred.
Proof.
  intros attribute. destruct f as [idx l].
  unfold setattr_column at 2, overwrite_target.
  destruct (has_col "Volum" (Frame idx l)) eqn:Hcol.
  - cbn [values attribute index cols]. rewrite length_fmap.
    case_decide as Hlen; [|done]. cbn [mbind option_bind].
    unfold getattr_column. rewrite get_col_replace
      by by apply (has_col_elem_of "Volum" (Frame idx l)).
    unfold setattr_column, has_col.
    rewrite (column_names_replace _ _ _ _ idx). fold (has_col "Volum" (Frame idx l)).
    rewrite Hcol.
    cbn [index cols round_series values dtype_of name].
    rewrite decide_True by by rewrite !length_fmap.
    rewrite <-!list_fmap_compose. do 2 f_equal.
    + apply list_fmap_ext. intros ? s ?. simpl. apply replace_column_twice.
  - cbn [mbind option_bind]. unfold getattr_column, setattr_column.
    rewrite (get_col_None "Volum" (Frame idx l)), Hcol; [done|].
    intros Hin. apply has_col_elem_of in Hin. congruence.
Qed.

Lemma overwrite_target_Some f y_pred out :
  overwrite_target f y_pred = Some out ->
  index out = index f /\
  column_names out = column_names f /\
  (forall pos c, cols f !! pos = Some c -> name c <> "Volum" ->
     cols out !! pos = Some c) /\
  (forall n, n <> "Volum" -> get_col n out = get_col n f) /\
  ("Volum" ∈ column_names f ->
     length y_pred = length (index f) /\
     get_col "Volum" out =
       Some (Series "Volum" Float64
               ((fun r => Some (VFloat (IZR (round_half_even r)))) <$> y_pred))) /\
  ("Volum" ∉ column_names f -> out = f).
Proof.
  destruct f as [idx l]. unfold overwrite_target.
  destruct (has_col "Volum" (Frame idx l)) eqn:Hcol.
  - apply has_col_elem_of in Hcol. cbn [index cols].
    case_decide as Hlen; [|done]. intros [= <-]. split_and!.
    + done.
    + apply column_names_replace.
    + intros pos c Hc Hne. cbn [cols]. rewrite list_lookup_fmap, Hc. simpl.
      unfold replace_column. by rewrite bool_decide_false.
    + intros n Hn. by apply get_col_replace_ne.
    + intros _. split; [done|]. by apply get_col_replace.
    + done.
  - intros [= <-]. split_and!; try done.
    intros Hin. apply has_col_elem_of in Hin. congruence.
Qed.

(** ** Pipelines in the notebook *)

Section PipelineSteps.
Context `{Regressors}.

Lemma pipeline_fit_run pipe X y s spec o1 e o2 :
  transformers s !! pipe.1 = Some (spec, o1) ->
  estimators s !! pipe.2 = Some (e, o2) ->
  pipeline_fit pipe X y s =
  (params ← ct_fit spec X;
   Xt ← ct_transform params X;
   m ← fit e Xt (values y);
   Some (tt, Notebook (<[pipe.1 := (spec, Some params)]> (transformers s))
                      (<[pipe.2 := (e, Some m)]> (estimators s))
                      (next_id s) (stdout s))).
Proof. intros Hpre Hest. unfold pipeline_fit. by rewrite Hpre, Hest. Qed.

Lemma pipeline_predict_run pipe X s spec params e m :
  transformers s !! pipe.1 = Some (spec, Some params) ->
  estimators s !! pipe.2 = Some (e, Some m) ->
  pipeline_predict pipe X s =
  (Xt ← ct_transform params X;
   y_pred ← predict m Xt;
   Some (y_pred, s)).
Proof. intros Hpre Hest. unfold pipeline_predict. by rewrite Hpre, Hest. Qed.

Lemma bind_run {A B} (m : NB A) (k : A -> NB B) s :
  (m ≫= k) s = match m s with Some (x, s') => k x s' | None => None end.
Proof. reflexivity. Qed.

Lemma lift_run {A} (o : option A) s :
  lift o s = match o with Some x => Some (x, s) | None => None end.
Proof. reflexivity. Qed.

Lemma mret_run {A} (x : A) s : mret (M := NB) x s = Some (x, s).
Proof. reflexivity. Qed.

Lemma for_each_cons {A} (x : A) l body s :
  for_each (x :: l) body s =
  match body x s with Some (_, s') => for_each l body s' | None => None end.
Proof. reflexivity. Qed.

Lemma for_each_nil {A} (body : A -> NB unit) s : for_each [] body s = Some (tt, s).
Proof. reflexivity. Qed.

End PipelineSteps.

(** One case of an evaluation: the next step of the run either raises or
    gives a value. *)
Ltac next_step :=
  match goal with
  | |- context [ct_fit ?spec ?X] => destruct (ct_fit spec X); simpl; [|done]
  | |- context [ct_transform ?p ?X] => destruct (ct_transform p X); simpl; [|done]
  | |- context [fit ?e ?X ?y] => destruct (fit e X y); simpl; [|done]
  | |- context [predict ?m ?X] => destruct (predict m X); simpl; [|done]
  | |- context [mean_squared_error ?y ?p] =>
      destruct (mean_squared_error y p); simpl; [|done]
  end.

Ltac run_evaluation Hpre Hest :=
  unfold evaluation, evaluated, make_pipeline, lift, repr, print;
  unfold mbind, NB_bind; simpl;
  erewrite pipeline_fit_run by (simpl; first [exact Hpre|exact Hest]); simpl;
  repeat (next_step;
          try (erewrite pipeline_predict_run
                 by (simpl; apply lookup_insert_eq); simpl));
  rewrite ?lookup_insert_eq; try done.

Section NotebookProperties.
Context `{Regressors}.

Lemma compare_models_run pre X_train y_train X_validation y_validation est
    s spec o1 e o2 :
  transformers s !! pre = Some (spec, o1) ->
  estimators s !! est = Some (e, o2) ->
  compare_models pre X_train y_train X_validation y_validation est s =
  (r ← evaluation spec e X_train y_train X_validation y_validation;
   Some (tt, evaluated s (pre, est) spec e r)).
Proof.
  intros Hpre Hest. unfold compare_models. run_evaluation Hpre Hest.
Qed.

Lemma check_feature_compare_run pre X_train y_train X_validation y_validation
    est s spec o1 e o2 :
  transformers s !! pre = Some (spec, o1) ->
  estimators s !! est = Some (e, o2) ->
  check_feature_compare pre X_train y_train X_validation y_validation est s =
  (r ← evaluation spec e X_train y_train X_validation y_validation;
   Some (tt, evaluated s (pre, est) spec e r)).
Proof.
  intros Hpre Hest. unfold check_feature_compare. run_evaluation Hpre Hest.
Qed.

Lemma compare_models_selected_run pre X_train y_train X_validation
    y_validation est s spec o1 e o2 :
  transformers s !! pre = Some (spec, o1) ->
  estimators s !! est = Some (e, o2) ->
  compare_models_selected pre X_train y_train X_validation y_validation est s =
  (r ← evaluation spec e X_train y_train X_validation y_validation;
   Some (tt, evaluated s (pre, est) spec e r)).
Proof.
  intros Hpre Hest. unfold compare_models_selected. run_evaluation Hpre Hest.
Qed.

(** An evaluation does not depend on columns that the transformer does
    not name. *)
Lemma evaluation_drop labels spec e X Xd y Xv Xvd yv :
  drop_columns labels X = Some Xd ->
  drop_columns labels Xv = Some Xvd ->
  (forall n, n ∈ ct_categorical spec ++ ct_numeric spec -> n ∉ labels) ->
  evaluation spec e Xd y Xvd yv = evaluation spec e X y Xv yv.
Proof.
  intros Hd Hdv Hnames. unfold evaluation.
  rewrite (ct_fit_drop _ _ _ _ Hd Hnames).
  destruct (ct_fit spec X) as [params|] eqn:Hfit; [|done]. simpl.
  apply ct_fit_spec in Hfit.
  rewrite (ct_transform_drop _ _ _ _ Hd), (ct_transform_drop _ _ _ _ Hdv);
    [done|by rewrite Hfit..].
Qed.

(** An evaluation gives a value when each of its steps does, and the
    score is then the rounded root mean squared error. *)
Lemma evaluation_Some_iff spec e X_fit y_fit X_eval y_eval r :
  evaluation spec e X_fit y_fit X_eval y_eval = Some r <->
  exists Xt Xe y_pred targets,
    ct_fit spec X_fit = Some r.1.1 /\
    ct_transform r.1.1 X_fit = Some Xt /\
    fit e Xt (values y_fit) = Some r.1.2 /\
    ct_transform r.1.1 X_eval = Some Xe /\
    predict r.1.2 Xe = Some y_pred /\
    mapM (fmap to_float) (values y_eval) = Some targets /\
    length y_pred = length targets /\ targets <> [] /\
    r.2 = round_half_even (rmse_in_words targets y_pred).
Proof.
  unfold evaluation. split.
  - intros Hr.
    destruct (ct_fit spec X_fit) as [params|]; [|done]. simpl in Hr.
    destruct (ct_transform params X_fit) as [Xt|] eqn:HXt; [|done]. simpl in Hr.
    destruct (fit e Xt (values y_fit)) as [m|] eqn:Hm; [|done]. simpl in Hr.
    destruct (ct_transform params X_eval) as [Xe|] eqn:HXe; [|done]. simpl in Hr.
    destruct (predict m Xe) as [y_pred|] eqn:Hpred; [|done]. simpl in Hr.
    destruct (mean_squared_error _ _) as [MSE|] eqn:Hmse; [|done]. simpl in Hr.
    injection Hr as <-.
    apply mean_squared_error_in_words in Hmse
      as (targets & Htargets & Hlen & Hne & ->).
    by exists Xt, Xe, y_pred, targets.
  - intros (Xt & Xe & y_pred & targets & Hfit & HXt & Hm & HXe & Hpred
            & Htargets & Hlen & Hne & Hscore).
    rewrite Hfit. simpl. rewrite HXt. simpl. rewrite Hm. simpl.
    rewrite HXe. simpl. rewrite Hpred. simpl.
    rewrite (proj2 (mean_squared_error_in_words _ _ _)
               (ex_intro _ targets (conj Htargets (conj Hlen (conj Hne eq_refl))))).
    simpl. destruct r as [[params m] score]. simpl in *. by rewrite Hscore.
Qed.

(** C7. [compare_models] fits the pipeline of an estimator on the
    training data, predicts on the validation features and prints the
    rounding of the root mean squared error against the validation
    targets: the square root of the sum of the squared differences
    divided by the number of samples.  The number printed is within a
    half of that root; the root is 0 exactly for predictions equal to
    the targets, which print 0. *)
Theorem compare_models_reports_rmse pre X_train y_train X_validation
    y_validation est s spec o1 e o2 :
  transformers s !! pre = Some (spec, o1) ->
  estimators s !! est = Some (e, o2) ->
  (forall s',
     compare_models pre X_train y_train X_validation y_validation est s =
       Some (tt, s') <->
     exists params Xt m Xv y_pred targets,
       ct_fit spec X_train = Some params /\
       ct_transform params X_train = Some Xt /\
       fit e Xt (values y_train) = Some m /\
       ct_transform params X_validation = Some Xv /\
       predict m Xv = Some y_pred /\
       mapM (fmap to_float) (values y_validation) = Some targets /\
       length y_pred = length targets /\ targets <> [] /\
       s' = evaluated s (pre, est) spec e
              (params, m, round_half_even (rmse_in_words targets y_pred)) /\
       stdout s' =
         stdout s ++ [Report e (round_half_even (rmse_in_words targets y_pred))]) /\
  (forall targets y_pred,
     (Rabs (IZR (round_half_even (rmse_in_words targets y_pred)) -
            rmse_in_words targets y_pred) <= 1 / 2)%R) /\
  (forall targets y_pred,
     length y_pred = length targets -> targets <> [] ->
     (rmse_in_words targets y_pred = 0%R <-> y_pred = targets) /\
     (y_pred = targets ->
      round_half_even (rmse_in_words targets y_pred) = 0)).
Proof.
  intros Hpre Hest. split_and!.
  - intros s'.
    rewrite (compare_models_run _ _ _ _ _ _ _ _ _ _ _ Hpre Hest).
    split.
    + intros Hrun.
      destruct (evaluation _ _ _ _ _ _) as [r|] eqn:Hr; [|done].
      injection Hrun as <-.
      apply evaluation_Some_iff in Hr
        as (Xt & Xv & y_pred & targets & Hfit & HXt & Hm & HXv & Hpred
            & Htargets & Hlen & Hne & Hscore).
      exists r.1.1, Xt, r.1.2, Xv, y_pred, targets.
      destruct r as [[params m] score]. simpl in *. subst score.
      by split_and!.
    + intros (params & Xt & m & Xv & y_pred & targets & Hfit & HXt & Hm & HXv
              & Hpred & Htargets & Hlen & Hne & -> & _).
      rewrite (proj2 (evaluation_Some_iff spec e X_train y_train X_validation
                        y_validation
                        (params, m,
                         round_half_even (rmse_in_words targets y_pred)))).
      * done.
      * by exists Xt, Xv, y_pred, targets.
  - intros targets y_pred. apply round_half_even_nearest.
  - intros targets y_pred Hlen Hne.
    pose proof (rmse_in_words_zero _ _ Hlen Hne) as Hzero.
    split; [done|]. intros Hsame. apply Hzero in Hsame. rewrite Hsame.
    apply (round_half_even_IZR 0).
Qed.

(** *** The final model *)

Lemma select_features_run X_train y_train X_validation y_validation s :
  select_features X_train y_train X_validation y_validation s =
  (X_tr ← drop_columns bad_features X_train;
   X_v ← drop_columns bad_features X_validation;
   let spec := preprocess_selected_features X_tr in
   let pre := next_id s in
   knr ← evaluation spec KNeighborsRegressor X_tr y_train X_v y_validation;
   rfr ← evaluation spec RandomForestRegressor X_tr y_train X_v y_validation;
   Some (Selected X_tr pre (S pre),
         evaluated
           (evaluated (with_candidates s spec) (pre, S pre)
              spec KNeighborsRegressor knr)
           (pre, S (S pre)) spec RandomForestRegressor rfr)).
Proof.
  unfold select_features.
  rewrite bind_run, lift_run.
  destruct (drop_columns bad_features X_train) as [X_tr|]; [|done].
  rewrite bind_run, lift_run.
  destruct (drop_columns bad_features X_validation) as [X_v|]; [|done].
  cbn [mbind option_bind].
  rewrite bind_run. unfold new_transformer at 1.
  rewrite bind_run. unfold new_estimator at 1.
  rewrite bind_run. unfold new_estimator at 1.
  cbn [next_id transformers estimators stdout].
  rewrite bind_run, for_each_cons.
  erewrite compare_models_selected_run;
    [|apply lookup_insert_eq
     |cbn [estimators]; rewrite lookup_insert_ne by lia; apply lookup_insert_eq].
  fold (with_candidates s (preprocess_selected_features X_tr)).
  destruct (evaluation _ KNeighborsRegressor _ _ _ _) as [knr|]; [|done].
  cbn [mbind option_bind]. rewrite for_each_cons.
  erewrite compare_models_selected_run;
    [|apply lookup_insert_eq
     |cbn [evaluated estimators snd];
      rewrite lookup_insert_ne by lia; apply lookup_insert_eq].
  destruct (evaluation _ RandomForestRegressor _ _ _ _) as [rfr|]; [|done].
  reflexivity.
Qed.

Lemma fit_best_model_run sel y_train X_test y_test s spec o1 e o2 :
  transformers s !! X_train_selected_preprocessed sel = Some (spec, o1) ->
  estimators s !! KNR sel = Some (e, o2) ->
  fit_best_model sel y_train X_test y_test s =
  (X_te ← drop_columns bad_features X_test;
   best ← evaluation spec e (X_train_selected_features sel) y_train X_te y_test;
   let pipe := (X_train_selected_preprocessed sel, KNR sel) in
   Some ((pipe, ((spec, Some best.1.1), (e, Some best.1.2))),
         evaluated s pipe spec e best)).
Proof.
  intros Hpre Hest. unfold fit_best_model, evaluation, make_pipeline.
  rewrite bind_run.
  erewrite pipeline_fit_run by (simpl; first [exact Hpre|exact Hest]).
  destruct (ct_fit _ _) as [params|];
    [|by destruct (drop_columns bad_features X_test)].
  cbn [mbind option_bind].
  destruct (ct_transform params _) as [Xt|];
    [|by destruct (drop_columns bad_features X_test)].
  cbn [mbind option_bind].
  destruct (fit _ _ _) as [m|];
    [|by destruct (drop_columns bad_features X_test)].
  cbn [mbind option_bind].
  rewrite bind_run, lift_run.
  destruct (drop_columns bad_features X_test) as [X_te|]; [|done].
  cbn [mbind option_bind].
  rewrite bind_run.
  erewrite pipeline_predict_run by (cbn; apply lookup_insert_eq).
  destruct (ct_transform params X_te) as [Xe|]; [|done].
  cbn [mbind option_bind].
  destruct (predict m Xe) as [y_pred|]; [|done].
  cbn [mbind option_bind].
  rewrite bind_run, lift_run.
  destruct (mean_squared_error _ _) as [MSE|]; [|done].
  rewrite bind_run. unfold repr at 1. cbn [estimators].
  rewrite lookup_insert_eq.
  rewrite bind_run. unfold print at 1.
  rewrite bind_run. unfold pickle_dump at 1.
  cbn [transformers estimators fst snd]. rewrite !lookup_insert_eq.
  reflexivity.
Qed.

Lemma predict_2022_run best_model X_toPredict toPredict_2022 s :
  predict_2022 best_model X_toPredict toPredict_2022 s =
  match pipeline_predict best_model X_toPredict s with
  | Some (y_pred, s') =>
      out ← overwrite_target toPredict_2022 y_pred; Some (out, s')
  | None => None
  end.
Proof.
  unfold predict_2022. rewrite bind_run.
  destruct (pipeline_predict _ _ _) as [[y_pred s']|]; [|done].
  rewrite <-write_rounded. rewrite bind_run, lift_run.
  destruct (setattr_column "Volum" Float64 _ toPredict_2022) as [f1|]; [|done].
  cbn [mbind option_bind]. rewrite bind_run, lift_run.
  by destruct (setattr_column _ _ _ f1).
Qed.

Lemma evaluation_Some spec e X_fit y_fit X_eval y_eval r :
  evaluation spec e X_fit y_fit X_eval y_eval = Some r ->
  exists Xt Xe y_pred MSE,
    ct_fit spec X_fit = Some r.1.1 /\
    ct_transform r.1.1 X_fit = Some Xt /\
    fit e Xt (values y_fit) = Some r.1.2 /\
    ct_transform r.1.1 X_eval = Some Xe /\
    predict r.1.2 Xe = Some y_pred /\
    mean_squared_error (values y_eval) y_pred = Some MSE /\
    r.2 = round_half_even (sqrt MSE).
Proof.
  unfold evaluation. intros Hr.
  destruct (ct_fit spec X_fit) as [params|]; [|done]. simpl in Hr.
  destruct (ct_transform params X_fit) as [Xt|] eqn:HXt; [|done]. simpl in Hr.
  destruct (fit e Xt (values y_fit)) as [m|] eqn:Hm; [|done]. simpl in Hr.
  destruct (ct_transform params X_eval) as [Xe|] eqn:HXe; [|done]. simpl in Hr.
  destruct (predict m Xe) as [y_pred|] eqn:Hpred; [|done]. simpl in Hr.
  destruct (mean_squared_error _ _) as [MSE|] eqn:Hmse; [|done]. simpl in Hr.
  injection Hr as <-. by exists Xt, Xe, y_pred, MSE.
Qed.

Lemma bad_features_not_selected X n :
  n ∈ ct_categorical (preprocess_selected_features X) ++
      ct_numeric (preprocess_selected_features X) ->
  n ∉ bad_features.
Proof.
  unfold bad_features. simpl. rewrite !list_elem_of_In. simpl.
  intros Hn [<-|[<-|[]]]; intuition discriminate.
Qed.

(** The cells of the final model, run from any notebook. *)
Lemma final_model_run X_train y_train X_validation y_validation X_test y_test
    X_toPredict toPredict_2022 s :
  final_model X_train y_train X_validation y_validation X_test y_test
    X_toPredict toPredict_2022 s =
  (X_tr ← drop_columns bad_features X_train;
   X_v ← drop_columns bad_features X_validation;
   let spec := preprocess_selected_features X_tr in
   let pre := next_id s in
   knr ← evaluation spec KNeighborsRegressor X_tr y_train X_v y_validation;
   rfr ← evaluation spec RandomForestRegressor X_tr y_train X_v y_validation;
   X_te ← drop_columns bad_features X_test;
   best ← evaluation spec KNeighborsRegressor X_tr y_train X_te y_test;
   Xp ← ct_transform best.1.1 X_toPredict;
   y_pred ← predict best.1.2 Xp;
   predictions ← overwrite_target toPredict_2022 y_pred;
   Some (Outputs ((spec, Some best.1.1), (KNeighborsRegressor, Some best.1.2))
                 predictions,
         evaluated
           (evaluated
              (evaluated (with_candidates s spec) (pre, S pre)
                 spec KNeighborsRegressor knr)
              (pre, S (S pre)) spec RandomForestRegressor rfr)
           (pre, S pre) spec KNeighborsRegressor best)).
Proof.
  unfold final_model.
  rewrite bind_run, select_features_run.
  destruct (drop_columns bad_features X_train) as [X_tr|]; [|done].
  destruct (drop_columns bad_features X_validation) as [X_v|]; [|done].
  cbn [mbind option_bind].
  destruct (evaluation _ KNeighborsRegressor X_tr y_train X_v y_validation)
    as [knr|]; [|done].
  cbn [mbind option_bind].
  destruct (evaluation _ RandomForestRegressor _ _ _ _) as [rfr|]; [|done].
  cbn [mbind option_bind].
  rewrite bind_run.
  erewrite fit_best_model_run;
    [|cbn; apply lookup_insert_eq
     |cbn; rewrite lookup_insert_ne by lia; apply lookup_insert_eq].
  destruct (drop_columns bad_features X_test) as [X_te|]; [|done].
  cbn [mbind option_bind X_train_selected_features].
  destruct (evaluation _ KNeighborsRegressor X_tr y_train X_te y_test)
    as [best|]; [|done].
  cbn [mbind option_bind X_train_selected_preprocessed KNR].
  rewrite bind_run, predict_2022_run.
  erewrite pipeline_predict_run by (cbn; apply lookup_insert_eq).
  destruct (ct_transform best.1.1 X_toPredict) as [Xp|]; [|done].
  cbn [mbind option_bind].
  destruct (predict best.1.2 Xp) as [y_pred|]; [|done].
  cbn [mbind option_bind].
  by destruct (overwrite_target toPredict_2022 y_pred).
Qed.

(** C2. The pipeline of the nearest neighbours is refit on the training
    data without the bad features, scored once on the test data, and
    applied to the future data: what the cells give and print is what
    [final_model_spec] gives, where the pipeline is applied to the future
    data without the bad features.  The numbers written are roundings to
    a nearest integer. *)
Theorem final_model_refines_spec X_train y_train X_validation y_validation
    X_test y_test X_toPredict toPredict_2022 s :
  bad_features ⊆ column_names X_toPredict ->
  (fun '(o, s') => (o, stdout s')) <$>
    final_model X_train y_train X_validation y_validation X_test y_test
      X_toPredict toPredict_2022 s =
  (fun '(o, lines) => (o, stdout s ++ lines)) <$>
    final_model_spec X_train y_train X_validation y_validation X_test y_test
      X_toPredict toPredict_2022 /\
  (forall r, Rabs (IZR (round_half_even r) - r) <= 1 / 2)%R.
Proof.
  intros Hbad. split; [|apply round_half_even_nearest].
  rewrite final_model_run. unfold final_model_spec.
  destruct (drop_columns bad_features X_train) as [X_tr|]; [|done].
  destruct (drop_columns bad_features X_validation) as [X_v|]; [|done].
  cbn [mbind option_bind].
  destruct (evaluation _ KNeighborsRegressor X_tr y_train X_v y_validation)
    as [knr|]; [|done].
  cbn [mbind option_bind].
  destruct (evaluation _ RandomForestRegressor _ _ _ _) as [rfr|]; [|done].
  cbn [mbind option_bind].
  destruct (drop_columns bad_features X_test) as [X_te|]; [|done].
  cbn [mbind option_bind].
  destruct (evaluation _ KNeighborsRegressor X_tr y_train X_te y_test)
    as [best|] eqn:Hbest; [|done].
  cbn [mbind option_bind].
  assert (exists X_p, drop_columns bad_features X_toPredict = Some X_p)
    as [X_p HX_p].
  { eexists. by apply drop_columns_Some. }
  rewrite HX_p. cbn [mbind option_bind].
  apply evaluation_Some in Hbest as (? & ? & ? & ? & Hfit & _).
  apply ct_fit_spec in Hfit.
  rewrite (ct_transform_drop bad_features best.1.1 X_toPredict X_p HX_p).
  2:{ rewrite Hfit. apply bad_features_not_selected. }
  destruct (ct_transform best.1.1 X_toPredict) as [Xp|]; [|done].
  cbn [mbind option_bind].
  destruct (predict best.1.2 Xp) as [y_pred|]; [|done].
  cbn [mbind option_bind].
  destruct (overwrite_target toPredict_2022 y_pred) as [predictions|]; [|done].
  cbn. by rewrite <-!app_assoc.
Qed.

(** C8. The table that the prediction cell writes is the future table
    with its column [Volum] overwritten by the rounded predictions of the
    pipeline: the index, the names and the order of the columns, and
    every other column are those of the table given. *)
Theorem predict_2022_overwrites_target best_model X_toPredict toPredict_2022 s :
  predict_2022 best_model X_toPredict toPredict_2022 s =
    match pipeline_predict best_model X_toPredict s with
    | Some (y_pred, s') =>
        out ← overwrite_target toPredict_2022 y_pred; Some (out, s')
    | None => None
    end /\
  (forall y_pred out,
     overwrite_target toPredict_2022 y_pred = Some out ->
     index out = index toPredict_2022 /\
     column_names out = column_names toPredict_2022 /\
     (forall pos c, cols toPredict_2022 !! pos = Some c -> name c <> "Volum" ->
        cols out !! pos = Some c) /\
     (forall n, n <> "Volum" -> get_col n out = get_col n toPredict_2022) /\
     ("Volum" ∈ column_names toPredict_2022 ->
        length y_pred = length (index toPredict_2022) /\
        get_col "Volum" out =
          Some (Series "Volum" Float64
                  ((fun r => Some (VFloat (IZR (round_half_even r))))
                     <$> y_pred)))).
Proof.
  split; [apply predict_2022_run|].
  intros y_pred out Hout.
  destruct (overwrite_target_Some _ _ _ Hout) as (? & ? & ? & ? & ? & _).
  done.
Qed.

(** *** Where the fitted states come from *)

Lemma compare_models_Some pre X_train y_train X_validation y_validation est
    s spec o1 e o2 s' :
  transformers s !! pre = Some (spec, o1) ->
  estimators s !! est = Some (e, o2) ->
  compare_models pre X_train y_train X_validation y_validation est s =
    Some (tt, s') ->
  exists params Xt m Xv y_pred,
    ct_fit spec X_train = Some params /\
    ct_transform params X_train = Some Xt /\
    fit e Xt (values y_train) = Some m /\
    transformers s' !! pre = Some (spec, Some params) /\
    estimators s' !! est = Some (e, Some m) /\
    ct_transform params X_validation = Some Xv /\
    predict m Xv = Some y_pred.
Proof.
  intros Hpre Hest Hrun.
  rewrite (compare_models_run _ _ _ _ _ _ _ _ _ _ _ Hpre Hest) in Hrun.
  destruct (evaluation _ _ _ _ _ _) as [r|] eqn:Hr; [|done].
  injection Hrun as <-.
  apply evaluation_Some in Hr
    as (Xt & Xv & y_pred & MSE & Hfit & HXt & Hm & HXv & Hpred & _).
  exists r.1.1, Xt, r.1.2, Xv, y_pred.
  split_and!; try done; apply lookup_insert_eq.
Qed.

Lemma final_model_Some X_train y_train X_validation y_validation X_test y_test
    X_toPredict toPredict_2022 s o s' :
  final_model X_train y_train X_validation y_validation X_test y_test
    X_toPredict toPredict_2022 s = Some (o, s') ->
  exists X_tr params Xt m,
    drop_columns bad_features X_train = Some X_tr /\
    ct_fit (preprocess_selected_features X_tr) X_tr = Some params /\
    ct_transform params X_tr = Some Xt /\
    fit KNeighborsRegressor Xt (values y_train) = Some m /\
    model_pkl o = ((preprocess_selected_features X_tr, Some params),
                   (KNeighborsRegressor, Some m)) /\
    transformers s' !! next_id s =
      Some (preprocess_selected_features X_tr, Some params) /\
    estimators s' !! S (next_id s) = Some (KNeighborsRegressor, Some m) /\
    (exists X_te Xe y_test_pred,
       drop_columns bad_features X_test = Some X_te /\
       ct_transform params X_te = Some Xe /\
       predict m Xe = Some y_test_pred) /\
    (exists Xp y_pred,
       ct_transform params X_toPredict = Some Xp /\
       predict m Xp = Some y_pred /\
       overwrite_target toPredict_2022 y_pred = Some (predictions_csv o)).
Proof.
  rewrite final_model_run. intros Hrun.
  destruct (drop_columns bad_features X_train) as [X_tr|]; [|done].
  destruct (drop_columns bad_features X_validation) as [X_v|]; [|done].
  cbn [mbind option_bind] in Hrun.
  destruct (evaluation _ KNeighborsRegressor X_tr y_train X_v y_validation)
    as [knr|]; [|done].
  cbn [mbind option_bind] in Hrun.
  destruct (evaluation _ RandomForestRegressor _ _ _ _) as [rfr|]; [|done].
  cbn [mbind option_bind] in Hrun.
  destruct (drop_columns bad_features X_test) as [X_te|]; [|done].
  cbn [mbind option_bind] in Hrun.
  destruct (evaluation _ KNeighborsRegressor X_tr y_train X_te y_test)
    as [best|] eqn:Hbest; [|done].
  cbn [mbind option_bind] in Hrun.
  destruct (ct_transform best.1.1 X_toPredict) as [Xp|] eqn:HXp; [|done].
  cbn [mbind option_bind] in Hrun.
  destruct (predict best.1.2 Xp) as [y_pred|] eqn:Hpred; [|done].
  cbn [mbind option_bind] in Hrun.
  destruct (overwrite_target toPredict_2022 y_pred) as [predictions|] eqn:Hout;
    [|done].
  cbn [mbind option_bind] in Hrun. injection Hrun as <- <-.
  apply evaluation_Some in Hbest
    as (Xt & Xe & y_test_pred & MSE & Hfit & HXt & Hm & HXe & Htest & _).
  exists X_tr, best.1.1, Xt, best.1.2.
  split_and!; try done.
  - apply lookup_insert_eq.
  - apply lookup_insert_eq.
  - by exists X_te, Xe, y_test_pred.
  - by exists Xp, y_pred.
Qed.

(** After [compare_models] the transformer and the estimator hold what
    the training features and targets give, and the validation features
    go through that same fitted transformer.  In the final cells the
    saved pipeline is the fit on the training data without the bad
    features, and the test and the future features go through it
    unchanged.  The fitted transformer is the same for any targets and
    any validation, test and future data. *)
Lemma compare_and_final_fits X_train y_train :
  (forall pre X_validation y_validation est s spec o1 e o2 s',
     transformers s !! pre = Some (spec, o1) ->
     estimators s !! est = Some (e, o2) ->
     compare_models pre X_train y_train X_validation y_validation est s =
       Some (tt, s') ->
     exists params Xt m Xv y_pred,
       ct_fit spec X_train = Some params /\
       ct_transform params X_train = Some Xt /\
       fit e Xt (values y_train) = Some m /\
       transformers s' !! pre = Some (spec, Some params) /\
       estimators s' !! est = Some (e, Some m) /\
       ct_transform params X_validation = Some Xv /\
       predict m Xv = Some y_pred) /\
  (forall X_validation y_validation X_test y_test X_toPredict toPredict_2022
          s o s',
     final_model X_train y_train X_validation y_validation X_test y_test
       X_toPredict toPredict_2022 s = Some (o, s') ->
     (exists X_tr params Xt m,
        drop_columns bad_features X_train = Some X_tr /\
        ct_fit (preprocess_selected_features X_tr) X_tr = Some params /\
        ct_transform params X_tr = Some Xt /\
        fit KNeighborsRegressor Xt (values y_train) = Some m /\
        model_pkl o = ((preprocess_selected_features X_tr, Some params),
                       (KNeighborsRegressor, Some m)) /\
        (exists X_te Xe y_test_pred,
           drop_columns bad_features X_test = Some X_te /\
           ct_transform params X_te = Some Xe /\
           predict m Xe = Some y_test_pred) /\
        (exists Xp y_pred,
           ct_transform params X_toPredict = Some Xp /\
           predict m Xp = Some y_pred /\
           overwrite_target toPredict_2022 y_pred = Some (predictions_csv o))) /\
     (forall y_train' X_validation' y_validation' X_test' y_test' X_toPredict'
             toPredict_2022' s2 o' s2',
        final_model X_train y_train' X_validation' y_validation' X_test' y_test'
          X_toPredict' toPredict_2022' s2 = Some (o', s2') ->
        (model_pkl o').1 = (model_pkl o).1 /\
        (values y_train' = values y_train -> model_pkl o' = model_pkl o))).
Proof.
  split.
  - intros. by eapply compare_models_Some.
  - intros X_validation y_validation X_test y_test X_toPredict toPredict_2022
      s o s' Hrun.
    destruct (final_model_Some _ _ _ _ _ _ _ _ _ _ _ Hrun)
      as (X_tr & params & Xt & m & Hdrop & Hfit & HXt & Hm & Hpkl & _ & _
          & Htest & Hfuture).
    split; [by exists X_tr, params, Xt, m|].
    intros y_train' X_validation' y_validation' X_test' y_test' X_toPredict'
      toPredict_2022' s2 o' s2' Hrun'.
    destruct (final_model_Some _ _ _ _ _ _ _ _ _ _ _ Hrun')
      as (X_tr' & params' & Xt' & m' & Hdrop' & Hfit' & HXt' & Hm' & Hpkl' & _).
    simplify_eq. rewrite Hpkl, Hpkl'. split; [done|].
    intros Hy. rewrite Hy in Hm'. by simplify_eq.
Qed.

(** *** The ablation *)

Lemma check_feature_compare_drop labels pre X Xd y Xv Xvd yv est s spec o1 :
  transformers s !! pre = Some (spec, o1) ->
  drop_columns labels X = Some Xd ->
  drop_columns labels Xv = Some Xvd ->
  (forall n, n ∈ ct_categorical spec ++ ct_numeric spec -> n ∉ labels) ->
  check_feature_compare pre Xd y Xvd yv est s =
  check_feature_compare pre X y Xv yv est s.
Proof.
  intros Hpre Hd Hdv Hnames.
  destruct (estimators s !! est) as [[e o2]|] eqn:Hest.
  - rewrite !(check_feature_compare_run _ _ _ _ _ _ _ _ _ _ _ Hpre Hest).
    by rewrite (evaluation_drop _ _ _ _ _ _ _ _ _ Hd Hdv Hnames).
  - unfold check_feature_compare, mbind, NB_bind, pipeline_fit, make_pipeline.
    simpl. by rewrite Hpre, Hest.
Qed.

Lemma check_feature_compare_keeps_spec pre X y Xv yv est s spec o1 s' :
  transformers s !! pre = Some (spec, o1) ->
  check_feature_compare pre X y Xv yv est s = Some (tt, s') ->
  exists o1', transformers s' !! pre = Some (spec, o1').
Proof.
  intros Hpre Hrun.
  destruct (estimators s !! est) as [[e o2]|] eqn:Hest.
  - rewrite (check_feature_compare_run _ _ _ _ _ _ _ _ _ _ _ Hpre Hest) in Hrun.
    destruct (evaluation _ _ _ _ _ _) as [r|]; simplify_eq/=.
    eexists. apply lookup_insert_eq.
  - unfold check_feature_compare, mbind, NB_bind, pipeline_fit, make_pipeline
      in Hrun. simpl in Hrun. by rewrite Hpre, Hest in Hrun.
Qed.

Lemma for_each_check_feature_drop labels pre X Xd y Xv Xvd yv models s spec o1 :
  transformers s !! pre = Some (spec, o1) ->
  drop_columns labels X = Some Xd ->
  drop_columns labels Xv = Some Xvd ->
  (forall n, n ∈ ct_categorical spec ++ ct_numeric spec -> n ∉ labels) ->
  for_each models (check_feature_compare pre Xd y Xvd yv) s =
  for_each models (check_feature_compare pre X y Xv yv) s.
Proof.
  intros Hpre Hd Hdv Hnames. revert s o1 Hpre.
  induction models as [|est models IH]; intros s o1 Hpre; [done|].
  simpl. unfold mbind, NB_bind.
  rewrite (check_feature_compare_drop _ _ _ _ _ _ _ _ _ _ _ _ Hpre Hd Hdv Hnames).
  destruct (check_feature_compare pre X y Xv yv est s) as [[[] s']|] eqn:Hrun;
    [|done].
  destruct (check_feature_compare_keeps_spec _ _ _ _ _ _ _ _ _ _ Hpre Hrun)
    as [o1' Hpre'].
  by apply (IH s' o1').
Qed.

Lemma check_feature_process_absent X n_feature :
  n_feature ∉ ["Hour"; "isWeekday"; "Month"] ->
  n_feature ∉ ["Lufttemperatur"; "Globalstraling"; "Solskinstid"] ->
  check_feature_process X n_feature =
  ColumnTransformer HU_ignore ["Hour"; "isWeekday"; "Month"]
    ["Lufttemperatur"; "Globalstraling"; "Solskinstid"].
Proof.
  intros Hcat Hnum. unfold check_feature_process.
  by rewrite !try_remove_absent.
Qed.

(** For a feature name that is in neither list,
    [check_feature_process] leaves both lists as they are.  The step of
    the ablation loop first drops the column of that name from the
    training and the validation features: when the name is a column of
    both, the step is the step on the undropped tables; when it is not a
    column of one of them, the step raises. *)
Lemma check_feature_without_drop n_feature X_train y_train
    X_validation y_validation best_models s :
  n_feature ∉ ["Hour"; "isWeekday"; "Month"] ->
  n_feature ∉ ["Lufttemperatur"; "Globalstraling"; "Solskinstid"] ->
  check_feature_process X_train n_feature =
    ColumnTransformer HU_ignore ["Hour"; "isWeekday"; "Month"]
      ["Lufttemperatur"; "Globalstraling"; "Solskinstid"] /\
  (n_feature ∈ column_names X_train ->
   n_feature ∈ column_names X_validation ->
   check_feature X_train y_train X_validation y_validation best_models
     n_feature s =
   full_feature_run X_train y_train X_validation y_validation best_models
     n_feature s) /\
  (n_feature ∉ column_names X_train \/ n_feature ∉ column_names X_validation ->
   check_feature X_train y_train X_validation y_validation best_models
     n_feature s = None).
Proof.
  intros Hcat Hnum. split_and!.
  - by apply check_feature_process_absent.
  - intros Hin Hinv.
    assert (exists Xd, drop_columns [n_feature] X_train = Some Xd) as [Xd Hd].
    { eexists. apply drop_columns_Some. split; [|done].
      by intros ? ->%list_elem_of_singleton. }
    assert (exists Xvd, drop_columns [n_feature] X_validation = Some Xvd)
      as [Xvd Hdv].
    { eexists. apply drop_columns_Some. split; [|done].
      by intros ? ->%list_elem_of_singleton. }
    unfold check_feature, full_feature_run, mbind, NB_bind, lift, print,
      new_transformer.
    rewrite Hd, Hdv. simpl.
    rewrite !check_feature_process_absent by done.
    eapply for_each_check_feature_drop; [apply lookup_insert_eq|done..|].
    simpl. intros n Hn ->%list_elem_of_singleton.
    rewrite list_elem_of_In in Hn, Hcat, Hnum. simpl in *. tauto.
  - intros Hout. unfold check_feature, mbind, NB_bind, lift.
    destruct (drop_columns [n_feature] X_train) as [Xd|] eqn:Hd; [|done].
    destruct (drop_columns [n_feature] X_validation) as [Xvd|] eqn:Hdv; [|done].
    apply drop_columns_Some in Hd as [Hd _].
    apply drop_columns_Some in Hdv as [Hdv _].
    destruct Hout as [Hout|Hout]; destruct Hout; [apply Hd|apply Hdv];
      by apply list_elem_of_singleton.
Qed.

End NotebookProperties.

(** The preprocessor on the example tables. *)
Lemma three_days_preprocessed :
  exists params Xt Xv,
    ct_fit (preprocess three_days_X) three_days_X = Some params /\
    ct_transform params three_days_X = Some Xt /\ length Xt = 6%nat /\
    ct_transform params hour_seven_X = Some Xv /\ length Xv = 1%nat.
Proof.
  destruct (ct_fit_is_Some (preprocess three_days_X) three_days_X) as [params Hp].
  { by apply (bool_decide_unpack _). }
  { done. }
  pose proof (ct_fit_spec _ _ _ Hp) as Hspec.
  destruct (ct_transform_is_Some params three_days_X) as [Xt HXt].
  { by rewrite Hspec. }
  { rewrite Hspec. by apply (bool_decide_unpack _). }
  { done. }
  destruct (ct_transform_is_Some params hour_seven_X) as [Xv HXv].
  { by rewrite Hspec. }
  { rewrite Hspec. by apply (bool_decide_unpack _). }
  { done. }
  exists params, Xt, Xv. split_and!; [done..| |done|].
  - apply (ct_transform_length params three_days_X); [repeat constructor|done].
  - apply (ct_transform_length params hour_seven_X); [repeat constructor|done].
Qed.

Lemma mean_three_days_y : Rmean [10; 20; 30; 40; 20; 30]%R = 25%R.
Proof. unfold Rmean. simpl. lra. Qed.

Lemma rmse_high_y : round_half_even (rmse_in_words [28%R] [25%R]) = 3.
Proof.
  unfold rmse_in_words. simpl.
  replace ((28 - 25) * ((28 - 25) * 1) + 0)%R with (3 * 3)%R by lra.
  replace (3 * 3 / 1)%R with (3 * 3)%R by lra.
  rewrite sqrt_square by lra. apply (round_half_even_IZR 3).
Qed.

(** The mean predictor of the training targets, 25, scored on one
    sample whose target is 28, is reported with 3. *)
Lemma compare_models_reports_rmse_witness :
  exists s',
    compare_models (H := mean_regressors) 0 three_days_X three_days_y
      hour_seven_X high_y 1 one_pipeline = Some (tt, s') /\
    stdout s' = [Report DummyRegressor 3].
Proof.
  destruct three_days_preprocessed as (params & Xt & Xv & Hp & HXt & Hlt & HXv & Hlv).
  exists (evaluated one_pipeline (0%nat, 1%nat) (preprocess three_days_X)
            DummyRegressor (params, (DummyRegressor, 25%R), 3)).
  destruct (compare_models_reports_rmse (H := mean_regressors)
              0%nat three_days_X three_days_y hour_seven_X high_y 1%nat one_pipeline
              (preprocess three_days_X) None DummyRegressor None
              eq_refl eq_refl) as [Hrun _].
  split; [|reflexivity].
  apply Hrun.
  exists params, Xt, (DummyRegressor, 25%R), Xv, [25%R], [28%R].
  split_and!; try done.
  - simpl. unfold mean_fit, dummy_fit. simpl.
    rewrite decide_True by (rewrite Hlt; done).
    simpl. by rewrite mean_three_days_y.
  - simpl. unfold mean_predict, dummy_predict. simpl. by rewrite Hlv.
  - by rewrite rmse_high_y.
  - simpl. by rewrite rmse_high_y.
Defined.

(** ** The ablation on the example tables *)

(** Any transformer that ignores unknown categories, fitted on a table
    of six samples with the targets [three_days_y], with the mean
    predictor: the score on one sample with the target [mean_y] is 0. *)
Lemma mean_evaluation spec e X Xv params :
  ct_handle_unknown spec = HU_ignore ->
  ct_categorical spec ++ ct_numeric spec ⊆ column_names X ->
  ct_categorical spec ++ ct_numeric spec ⊆ column_names Xv ->
  wf_frame X -> wf_frame Xv ->
  complete_columns (ct_numeric spec) X ->
  complete_columns (ct_numeric spec) Xv ->
  length (index X) = 6%nat -> length (index Xv) = 1%nat ->
  ct_fit spec X = Some params ->
  evaluation (H := mean_regressors) spec e X three_days_y Xv mean_y =
  Some (params, (e, 25%R), 0).
Proof.
  intros Hhu Hcols Hcolsv Hwf Hwfv Hall Hallv Hrows Hrowsv Hp.
  pose proof (ct_fit_spec _ _ _ Hp) as Hspec.
  destruct (ct_transform_is_Some params X) as [Xt HXt];
    [by rewrite Hspec..|lia|].
  destruct (ct_transform_is_Some params Xv) as [Xe HXe];
    [by rewrite Hspec..|lia|].
  pose proof (ct_transform_length _ _ _ Hwf HXt) as Hlt.
  pose proof (ct_transform_length _ _ _ Hwfv HXe) as Hlv.
  assert (has_nan Xt = false) as Hnan.
  { apply (design_no_nan spec X X); try done.
    by rewrite <-(ct_transform_in_words spec X params X). }
  assert (has_nan Xe = false) as Hnanv.
  { apply (design_no_nan spec X Xv); try done.
    by rewrite <-(ct_transform_in_words spec X params Xv). }
  unfold evaluation. rewrite Hp. simpl. rewrite HXt. simpl.
  unfold mean_fit, dummy_fit. rewrite Hnan, andb_false_r. simpl.
  rewrite decide_True by (rewrite Hlt, Hrows; done).
  simpl. rewrite HXe. simpl. unfold mean_predict, dummy_predict.
  simpl. rewrite Hnanv, andb_false_r, Hlv, Hrowsv. simpl.
  rewrite mean_three_days_y.
  replace (Rmean [((25 - 25) * (25 - 25))%R]) with 0%R
    by (unfold Rmean; simpl; lra).
  rewrite sqrt_0. by rewrite (round_half_even_IZR 0).
Qed.

Lemma example_evaluation spec e :
  ct_handle_unknown spec = HU_ignore ->
  ct_categorical spec ++ ct_numeric spec ⊆ column_names three_days_X ->
  exists params,
    evaluation (H := mean_regressors) spec e
      three_days_X three_days_y hour_seven_X mean_y = Some (params, (e, 25%R), 0).
Proof.
  intros Hhu Hcols.
  destruct (ct_fit_is_Some spec three_days_X Hcols) as [params Hp]; [done|].
  exists params.
  apply mean_evaluation; try done; try (by repeat constructor);
    apply complete_columns_all; by apply (bool_decide_unpack _).
Qed.

(** ** The final model on the example tables *)

Lemma overwrite_hour_seven :
  overwrite_target hour_seven [25%R] = Some hour_seven_predicted.
Proof.
  unfold overwrite_target.
  replace (has_col "Volum" hour_seven) with true by reflexivity.
  rewrite decide_True by reflexivity. unfold hour_seven_predicted. f_equal.
  cbn. unfold replace_column. cbn. by rewrite (round_half_even_IZR 25).
Qed.

(** The steps of the final cells with the mean predictor: training on
    [three_days_X], validation and test on the sample of hour seven with
    the target [mean_y], prediction for that sample. *)
Lemma final_steps_example :
  exists params Xp,
    drop_columns bad_features three_days_X = Some three_days_reduced_X /\
    drop_columns bad_features hour_seven_X = Some hour_seven_reduced_X /\
    (forall e,
       evaluation (H := mean_regressors)
         (preprocess_selected_features three_days_reduced_X) e
         three_days_reduced_X three_days_y hour_seven_reduced_X mean_y =
       Some (params, (e, 25%R), 0)) /\
    ct_spec params = preprocess_selected_features three_days_reduced_X /\
    ct_transform params hour_seven_X = Some Xp /\
    predict (Regressors := mean_regressors) (KNeighborsRegressor, 25%R) Xp =
      Some [25%R].
Proof.
  set (spec := preprocess_selected_features three_days_reduced_X).
  destruct (ct_fit_is_Some spec three_days_reduced_X) as [params Hp];
    [by apply (bool_decide_unpack _)|done|].
  pose proof (ct_fit_spec _ _ _ Hp) as Hspec.
  destruct (ct_transform_is_Some params hour_seven_X) as [Xp HXp];
    [by rewrite Hspec|rewrite Hspec; by apply (bool_decide_unpack _)|done|].
  exists params, Xp. split_and!.
  - reflexivity.
  - reflexivity.
  - intros e. apply mean_evaluation; try done; try (by repeat constructor);
      try (apply complete_columns_all); by apply (bool_decide_unpack _).
  - done.
  - done.
  - assert (has_nan Xp = false) as Hnan.
    { apply (design_no_nan spec three_days_reduced_X hour_seven_X);
        try (by repeat constructor);
        try (apply complete_columns_all; by apply (bool_decide_unpack _)).
      rewrite <-(ct_transform_in_words spec three_days_reduced_X params);
        try done. repeat constructor. }
    simpl. unfold mean_predict, dummy_predict. simpl. rewrite Hnan. simpl.
    by rewrite (ct_transform_length params hour_seven_X Xp)
      by (try done; repeat constructor).
Qed.

Lemma final_model_example :
  exists params s',
    final_model (H := mean_regressors) three_days_X three_days_y
      hour_seven_X mean_y hour_seven_X mean_y hour_seven_X hour_seven
      empty_notebook =
    Some (Outputs (H := mean_regressors)
            ((preprocess_selected_features three_days_reduced_X, Some params),
                   (KNeighborsRegressor, Some (KNeighborsRegressor, 25%R)))
                  hour_seven_predicted, s').
Proof.
  destruct final_steps_example
    as (params & Xp & Hd & Hdv & Heval & Hspec & HXp & Hpred).
  exists params. eexists. rewrite final_model_run.
  rewrite Hd, Hdv. cbn [mbind option_bind]. rewrite !Heval.
  cbn [mbind option_bind fst snd]. rewrite HXp. cbn [mbind option_bind].
  rewrite Hpred. cbn [mbind option_bind]. rewrite overwrite_hour_seven.
  reflexivity.
Qed.

Lemma final_model_spec_example :
  exists params,
    final_model_spec (H := mean_regressors) three_days_X three_days_y
      hour_seven_X mean_y hour_seven_X mean_y hour_seven_X hour_seven =
    Some (Outputs (H := mean_regressors)
            ((preprocess_selected_features three_days_reduced_X, Some params),
                   (KNeighborsRegressor, Some (KNeighborsRegressor, 25%R)))
                  hour_seven_predicted,
          [Report KNeighborsRegressor 0; Report RandomForestRegressor 0;
           Report KNeighborsRegressor 0]).
Proof.
  destruct final_steps_example
    as (params & Xp & Hd & Hdv & Heval & Hspec & HXp & Hpred).
  exists params. unfold final_model_spec.
  rewrite Hd, Hdv. cbn [mbind option_bind]. rewrite !Heval.
  cbn [mbind option_bind fst snd].
  rewrite (ct_transform_drop bad_features params hour_seven_X _ Hdv).
  2:{ rewrite Hspec. apply bad_features_not_selected. }
  rewrite HXp. cbn [mbind option_bind].
  rewrite Hpred. cbn [mbind option_bind]. rewrite overwrite_hour_seven.
  reflexivity.
Qed.

(** On the example the final cells print three scores of 0 and write the
    prediction 25 for the sample of hour seven. *)
Lemma final_model_refines_spec_witness :
  exists params,
    (fun '(o, s') => (o, stdout s')) <$>
      final_model (H := mean_regressors) three_days_X three_days_y
        hour_seven_X mean_y hour_seven_X mean_y hour_seven_X hour_seven
        empty_notebook =
    Some (Outputs (H := mean_regressors)
            ((preprocess_selected_features three_days_reduced_X, Some params),
                   (KNeighborsRegressor, Some (KNeighborsRegressor, 25%R)))
                  hour_seven_predicted,
          [Report KNeighborsRegressor 0; Report RandomForestRegressor 0;
           Report KNeighborsRegressor 0]).
Proof.
  destruct final_model_spec_example as [params Hspec].
  exists params.
  destruct (final_model_refines_spec (H := mean_regressors)
              three_days_X three_days_y hour_seven_X mean_y hour_seven_X mean_y
              hour_seven_X hour_seven empty_notebook) as [Hrun _].
  - by apply (bool_decide_unpack _).
  - rewrite Hrun, Hspec. reflexivity.
Defined.

(** The predictions 25 written into the future table of the example. *)
Example hour_seven_prediction_written :
  forall (s : @notebook mean_regressors) best_model,
    pipeline_predict best_model hour_seven_X s = Some ([25%R], s) ->
    predict_2022 best_model hour_seven_X hour_seven s =
    Some (hour_seven_predicted, s).
Proof.
  intros s best_model Hpred.
  rewrite predict_2022_run, Hpred. by rewrite overwrite_hour_seven.
Qed.

(** * Further properties of the cells *)

(** ** The fill of [handleNullValues] *)

Lemma ffill_groups_idempotent keys vals (last_seen : gmap Z value) :
  ffill_groups keys (ffill_groups keys vals last_seen) last_seen =
  ffill_groups keys vals last_seen.
Proof.
  revert vals last_seen.
  induction keys as [|k keys IH]; intros [|[x|] vals] last_seen; simpl; try done.
  - by rewrite IH.
  - destruct (last_seen !! k) as [v|] eqn:Hk.
    + by rewrite (insert_id _ _ _ Hk), IH.
    + by rewrite IH.
Qed.

(** X1. Filling a filled table again changes nothing, for a table whose
    timestamps are all there and all different; with a timestamp that
    repeats out of order the second fill puts the rows in another order
    ([groupby_hour_ffill_repeated_timestamp]). *)
Theorem groupby_hour_ffill_idempotent f :
  NaT ∉ index f -> NoDup (index f) ->
  groupby_hour_ffill (groupby_hour_ffill f) = groupby_hour_ffill f.
Proof.
  intros Hnat Hnd. rewrite (groupby_hour_ffill_distinct f) by done.
  rewrite groupby_hour_ffill_distinct by done. cbn [index cols]. f_equal.
  rewrite <-list_fmap_compose. apply list_fmap_ext. intros ? s ?.
  unfold ffill_series. simpl. f_equal. apply ffill_groups_idempotent.
Qed.

Lemma groupby_hour_ffill_idempotent_witness :
  groupby_hour_ffill (groupby_hour_ffill three_days_filled) =
  groupby_hour_ffill three_days_filled.
Proof.
  apply groupby_hour_ffill_idempotent; by apply (bool_decide_unpack _).
Defined.

Section HandleNullValuesMore.
Variable to_datetime : string -> option Z.

(** X25. In a table whose rows all have a timestamp, no two the same, a
    missing cell is filled within its hour-of-day group in the order of
    the rows of the table (the rows are not sorted): it takes the value
    of the nearest row before it, in the same group, that has one.  When
    the rows are in chronological order with one row per hour, a gap at
    hour H of day D with a value at hour H of day D-1 takes that value. *)
Theorem handleNullValues_fills_within_group t idx :
  wf_loaded t ->
  timestamps to_datetime t = Some idx -> NaT ∉ idx -> NoDup idx ->
  categorical_columns ⊆ name <$> fields t ->
  exists out, handleNullValues to_datetime t = Some out /\
    index out = idx /\
    forall c s i, fields t !! c = Some s -> values s !! i = Some None ->
      exists s', cols out !! c = Some s' /\ name s' = name s /\
        (forall v, values s' !! i = Some (Some v) <->
           exists j, fills_from (hour <$> idx) (values s) i j v) /\
        (chronological idx -> one_row_per_hour idx ->
         forall j ti tj v,
           idx !! i = Some ti -> idx !! j = Some tj ->
           hour tj = hour ti -> day tj = day ti - 1 ->
           values s !! j = Some (Some v) ->
           values s' !! i = Some (Some v)).
Proof.
  intros Hwf Htimes Hnat Hnd Hcats.
  destruct (handleNullValues_is_Some _ t idx Htimes Hcats) as [out Hrun].
  exists out. split; [done|].
  split; [by destruct (handleNullValues_distinct _ _ _ _ Htimes Hnat Hnd Hrun)|].
  intros c s i Hs Hx.
  destruct (handleNullValues_cell _ _ _ _ _ _ _ _ Hwf Htimes Hnat Hnd Hrun Hs Hx)
    as (s' & Hs' & Hname & _ & Hcell).
  destruct (handleNullValues_column _ _ _ _ _ _ Hwf Htimes Hnat Hnd Hrun Hs)
    as [Hlen _].
  assert (forall v, values s' !! i = Some (Some v) <->
            exists j, fills_from (hour <$> idx) (values s) i j v) as Hfill.
  { intros v. rewrite Hcell. rewrite <-nearest_preceding_Some.
    - split; congruence.
    - by rewrite length_fmap.
    - rewrite length_fmap, <-Hlen. by eapply lookup_lt_Some. }
  exists s'. split_and!; [done..|].
  intros Hchr Huniq j ti tj v Hi Hj Hh Hd Hv.
  apply Hfill. exists j. by eapply day_before_fills.
Qed.

(** X26. In a table whose rows all have a timestamp, no two the same, a
    missing cell that is the first row of its hour-of-day group stays
    missing, and a cell that is filled takes a value that stands in an
    earlier row of the same hour-of-day group: nothing is filled from a
    later row or from another group.  In a table in chronological order
    the row of a group with the earliest timestamp is such a first row. *)
Theorem handleNullValues_no_backward_fill t idx :
  wf_loaded t ->
  timestamps to_datetime t = Some idx -> NaT ∉ idx -> NoDup idx ->
  categorical_columns ⊆ name <$> fields t ->
  exists out, handleNullValues to_datetime t = Some out /\
    index out = idx /\
    forall c s i ti,
      fields t !! c = Some s -> values s !! i = Some None ->
      idx !! i = Some ti ->
      exists s', cols out !! c = Some s' /\ name s' = name s /\
        ((forall j tj, (j < i)%nat -> idx !! j = Some tj ->
            hour tj <> hour ti) ->
         values s' !! i = Some None) /\
        (chronological idx ->
         (forall j tj, j <> i -> idx !! j = Some tj ->
            hour tj = hour ti -> ti < tj) ->
         values s' !! i = Some None) /\
        (forall v, values s' !! i = Some (Some v) ->
           exists j tj, (j < i)%nat /\ idx !! j = Some tj /\
             hour tj = hour ti /\ values s !! j = Some (Some v)).
Proof.
  intros Hwf Htimes Hnat Hnd Hcats.
  destruct (handleNullValues_is_Some _ t idx Htimes Hcats) as [out Hrun].
  exists out. split; [done|].
  split; [by destruct (handleNullValues_distinct _ _ _ _ Htimes Hnat Hnd Hrun)|].
  intros c s i ti Hs Hx Hi.
  destruct (handleNullValues_cell _ _ _ _ _ _ _ _ Hwf Htimes Hnat Hnd Hrun Hs Hx)
    as (s' & Hs' & Hname & _ & Hcell).
  assert (i < length (hour <$> idx))%nat as Hlt.
  { rewrite length_fmap. by eapply lookup_lt_Some. }
  assert ((forall j tj, (j < i)%nat -> idx !! j = Some tj ->
             hour tj <> hour ti) ->
          values s' !! i = Some None) as Hfirst_row.
  { intros Hfirst. rewrite Hcell. f_equal.
    apply nearest_preceding_None; [done|].
    intros j x Hji Hk _. rewrite !list_lookup_fmap, Hi in Hk.
    destruct (idx !! j) as [tj|] eqn:Hj; [|done].
    injection Hk as Hk. by apply (Hfirst j tj). }
  exists s'. split_and!; [done..| |].
  - intros Hchr Hearliest. apply Hfirst_row. intros j tj Hji Hj Hh.
    assert (ti < tj) by (apply (Hearliest j); [lia|done..]).
    assert (tj <= ti) by by eapply chronological_lookup.
    lia.
  - intros v Hv. rewrite Hcell in Hv. injection Hv as Hv.
    destruct (handleNullValues_column _ _ _ _ _ _ Hwf Htimes Hnat Hnd Hrun Hs)
      as [Hlen _].
    apply nearest_preceding_Some in Hv as (j & Hji & Hk & Hvj & _);
      [|by rewrite length_fmap|done].
    rewrite !list_lookup_fmap, Hi in Hk.
    destruct (idx !! j) as [tj|] eqn:Hj; [|done].
    injection Hk as Hk. by exists j, tj.
Qed.

(** X2. In a table whose rows all have a timestamp, no two the same, a
    cell of the result is missing exactly when the cell and every
    earlier cell of its hour-of-day group were missing; a column whose
    groups all start with a value comes out without a missing cell. *)
Theorem handleNullValues_still_missing t idx out :
  wf_loaded t ->
  timestamps to_datetime t = Some idx -> NaT ∉ idx -> NoDup idx ->
  handleNullValues to_datetime t = Some out ->
  index out = idx /\
  forall c s, fields t !! c = Some s ->
    exists s', cols out !! c = Some s' /\
      (forall i ti, idx !! i = Some ti ->
         (values s' !! i = Some None <->
          forall j tj, (j <= i)%nat -> idx !! j = Some tj ->
            hour tj = hour ti -> values s !! j = Some None)) /\
      ((forall i ti, idx !! i = Some ti ->
          exists j tj v, (j <= i)%nat /\ idx !! j = Some tj /\
            hour tj = hour ti /\ values s !! j = Some (Some v)) ->
       Forall is_Some (values s')).
Proof.
  intros Hwf Htimes Hnat Hnd Hrun.
  split; [by destruct (handleNullValues_distinct _ _ _ _ Htimes Hnat Hnd Hrun)|].
  intros c s Hs.
  destruct (handleNullValues_column _ _ _ _ _ _ Hwf Htimes Hnat Hnd Hrun Hs)
    as (Hlen & s' & Hs' & Hname & Hvals).
  assert (forall i ti, idx !! i = Some ti ->
            (values s' !! i = Some None <->
             forall j tj, (j <= i)%nat -> idx !! j = Some tj ->
               hour tj = hour ti -> values s !! j = Some None)) as Hmissing.
  { intros i ti Hi.
    assert (i < length (values s))%nat as Hlt
      by (rewrite Hlen; by eapply lookup_lt_Some).
    destruct (lookup_lt_is_Some_2 _ _ Hlt) as [x Hx].
    destruct (handleNullValues_cell _ _ _ _ _ _ _ _ Hwf Htimes Hnat Hnd Hrun Hs Hx)
      as (s'' & Hs'' & _ & _ & Hcell).
    assert (s'' = s') as -> by congruence.
    assert (i < length (hour <$> idx))%nat as Hlt'
      by (rewrite length_fmap, <-Hlen; done).
    rewrite Hcell. destruct x as [v|].
    - split; [done|]. intros Hall.
      by rewrite (Hall i ti) in Hx.
    - split.
      + intros Hnone j tj Hji Hj Hh.
        destruct (decide (j = i)) as [->|Hne]; [done|].
        injection Hnone as Hnone.
        pose proof (proj1 (nearest_preceding_None _ _ _ Hlt') Hnone) as Hno.
        destruct (values s !! j) as [[w|]|] eqn:Hw; [|done|].
        * exfalso. apply (Hno j w); [lia| |done].
          rewrite !list_lookup_fmap, Hi, Hj. simpl. by rewrite Hh.
        * apply lookup_ge_None_1 in Hw. apply lookup_lt_Some in Hj. lia.
      + intros Hall. f_equal. apply nearest_preceding_None; [done|].
        intros j w Hji Hk Hw. rewrite !list_lookup_fmap, Hi in Hk.
        destruct (idx !! j) as [tj|] eqn:Hj; [|done].
        injection Hk as Hk.
        rewrite (Hall j tj) in Hw; [done|lia|done..]. }
  exists s'. split_and!; [done..|].
  intros Hstart. apply Forall_lookup. intros i x Hx.
  assert (i < length idx)%nat as Hlt.
  { rewrite <-Hlen, <-(length_ffill_groups (hour <$> idx) (values s) ∅),
      <-Hvals by (by rewrite length_fmap).
    by eapply lookup_lt_Some. }
  destruct (lookup_lt_is_Some_2 _ _ Hlt) as [ti Hi].
  destruct x as [v|]; [done|].
  destruct (Hstart i ti Hi) as (j & tj & v & Hji & Hj & Hh & Hv).
  rewrite (proj1 (Hmissing i ti Hi) Hx j tj Hji Hj Hh) in Hv. done.
Qed.

Lemma timestamps_None_iff t :
  timestamps to_datetime t = None <->
  dato_tid t = None \/
  (exists labels text, dato_tid t = Some labels /\ Some text ∈ labels /\
     to_datetime text = None).
Proof.
  unfold timestamps. destruct (dato_tid t) as [labels|]; simpl.
  - split.
    + intros Hnone. right. exists labels.
      destruct (decide (Forall (fun label => is_Some (to_datetime_label to_datetime label))
                          labels)) as [Hall|Hnot].
      * apply mapM_is_Some in Hall as [idx Hidx]. congruence.
      * apply not_Forall_Exists in Hnot; [|apply _].
        apply Exists_exists in Hnot as ([text|] & Hin & Hno).
        -- exists text. split_and!; [done..|]. simpl in Hno.
           destruct (to_datetime text); [|done]. destruct Hno. by eexists.
        -- destruct Hno. by eexists.
    + intros [?|(labels' & text & [= <-] & Hin & Hno)]; [done|].
      destruct (mapM _ labels) as [idx|] eqn:Hidx; [|done].
      apply mapM_Some_1 in Hidx.
      apply list_elem_of_lookup_1 in Hin as [i Hi].
      destruct (Forall2_lookup_l _ _ _ _ _ Hidx Hi) as (ti & _ & Hti).
      simpl in Hti. congruence.
  - split; [by left|done].
Qed.

Lemma handleNullValues_None_iff t :
  handleNullValues to_datetime t = None <->
  dato_tid t = None \/
  (exists labels text, dato_tid t = Some labels /\ Some text ∈ labels /\
     to_datetime text = None) \/
  (exists n, n ∈ categorical_columns /\ n ∉ name <$> fields t).
Proof.
  split.
  - intros Hnone.
    destruct (timestamps to_datetime t) as [idx|] eqn:Htimes.
    2: { apply timestamps_None_iff in Htimes as [?|?]; [by left|right; by left]. }
    right. right.
    destruct (decide (Forall (fun n => n ∈ name <$> fields t)
                        categorical_columns)) as [Hcats|Hcats].
    + rewrite Forall_forall in Hcats.
      destruct (handleNullValues_is_Some _ t idx Htimes Hcats) as [out Hout].
      congruence.
    + apply not_Forall_Exists in Hcats; [|apply _].
      apply Exists_exists in Hcats as (n & Hn & Hnot). by exists n.
  - intros [Hnone|[Hnone|(n & Hn & Hnot)]].
    + rewrite handleNullValues_timestamps.
      by rewrite (proj2 (timestamps_None_iff t) (or_introl Hnone)).
    + rewrite handleNullValues_timestamps.
      by rewrite (proj2 (timestamps_None_iff t) (or_intror Hnone)).
    + destruct (handleNullValues to_datetime t) as [out|] eqn:Hrun; [|done].
      apply handleNullValues_Some in Hrun as (idx & _ & Hcats & _).
      destruct Hnot. by apply Hcats.
Qed.

(** X3. [handleNullValues] raises exactly when the table has no column
    ['Dato + Tid'], when the text of a timestamp does not match the
    format, or when one of the three categorical columns is not there;
    an empty timestamp does not make it raise. *)
Theorem handleNullValues_raises t :
  handleNullValues to_datetime t = None <->
  dato_tid t = None \/
  (exists labels text, dato_tid t = Some labels /\ Some text ∈ labels /\
     to_datetime text = None) \/
  (exists n, n ∈ categorical_columns /\ n ∉ name <$> fields t).
Proof. apply handleNullValues_None_iff. Qed.

(** X4. The three categorical columns come out with the dtype [object];
    of the other columns, a column of integers becomes a column of
    floats when a row has no timestamp, and every other column keeps its
    dtype. *)
Theorem handleNullValues_dtypes t idx out :
  timestamps to_datetime t = Some idx ->
  handleNullValues to_datetime t = Some out ->
  forall c s, fields t !! c = Some s ->
    exists s', cols out !! c = Some s' /\ name s' = name s /\
      dtype_of s' =
        if bool_decide (name s ∈ categorical_columns) then Object
        else match dtype_of s with
             | Int64 => if bool_decide (NaT ∈ idx) then Float64 else Int64
             | d => d
             end.
Proof.
  intros Htimes Hrun c s Hs.
  apply handleNullValues_Some in Hrun as (idx' & Htimes' & _ & -> & _).
  assert (idx' = idx) as -> by congruence.
  destruct (groupby_hour_ffill_typed idx) as (idx' & g & _ & Hname & Hdtype & Hg).
  rewrite Hg. cbn [index cols].
  eexists. rewrite !list_lookup_fmap, Hs. simpl. split; [done|].
  rewrite name_astype_series, Hname. split; [done|].
  unfold astype_series. rewrite Hname.
  destruct (bool_decide (name s ∈ categorical_columns)); [done|].
  rewrite Hdtype, dtype_upcast_series.
  by destruct (bool_decide (NaT ∈ idx)), (dtype_of s).
Qed.

End HandleNullValuesMore.

Lemma gap_at_six_timestamps :
  wf_loaded gap_at_six /\
  timestamps to_datetime_fixed gap_at_six = Some (index gap_at_six_filled) /\
  (NaT ∉ index gap_at_six_filled) /\ NoDup (index gap_at_six_filled) /\
  categorical_columns ⊆ name <$> fields gap_at_six.
Proof.
  split_and!; [|reflexivity|by apply (bool_decide_unpack _)..].
  intros labels [= <-]. repeat constructor.
Qed.

(** On [gap_at_six] the temperature of the second day at five takes the
    7 of the first day at five. *)
Lemma handleNullValues_fills_within_group_witness :
  exists out s',
    handleNullValues to_datetime_fixed gap_at_six = Some out /\
    cols out !! 4%nat = Some s' /\
    values s' !! 2%nat = Some (Some (VFloat 7)).
Proof.
  destruct gap_at_six_timestamps as (Hwf & Htimes & Hnat & Hnd & Hcats).
  destruct (handleNullValues_fills_within_group to_datetime_fixed gap_at_six _
              Hwf Htimes Hnat Hnd Hcats) as (out & Hrun & _ & Hfill).
  destruct (Hfill 4%nat _ 2%nat eq_refl eq_refl) as (s' & Hs' & _ & _ & Hday).
  exists out, s'. split_and!; [exact Hrun|exact Hs'|].
  apply (Hday ltac:(by apply (bool_decide_unpack _))
              ltac:(by apply (bool_decide_unpack _))
              0%nat 1641099600000000000 1641013200000000000); reflexivity.
Defined.

(** On [gap_at_six] the first sunshine value at six is the first row of
    its group and stays missing. *)
Lemma handleNullValues_no_backward_fill_witness :
  exists out s',
    handleNullValues to_datetime_fixed gap_at_six = Some out /\
    cols out !! 3%nat = Some s' /\
    values s' !! 1%nat = Some None.
Proof.
  destruct gap_at_six_timestamps as (Hwf & Htimes & Hnat & Hnd & Hcats).
  destruct (handleNullValues_no_backward_fill to_datetime_fixed gap_at_six _
              Hwf Htimes Hnat Hnd Hcats) as (out & Hrun & _ & Hfill).
  destruct (Hfill 3%nat _ 1%nat 1641016800000000000 eq_refl eq_refl eq_refl)
    as (s' & Hs' & _ & Hfirst & _ & _).
  exists out, s'. split_and!; [exact Hrun|exact Hs'|]. apply Hfirst.
  intros [|[|j]] tj Hj Htj; [|lia..]. by injection Htj as <-.
Defined.

(** On [gap_at_six] the first sunshine value at six has nothing before it
    in its group and stays missing. *)
Lemma handleNullValues_still_missing_witness :
  exists s', cols gap_at_six_filled !! 3%nat = Some s' /\
    values s' !! 1%nat = Some None.
Proof.
  destruct gap_at_six_timestamps as (Hwf & Htimes & Hnat & Hnd & Hcats).
  destruct (handleNullValues_still_missing to_datetime_fixed gap_at_six _
              gap_at_six_filled Hwf Htimes Hnat Hnd handleNullValues_gap_at_six)
    as [_ Hcols].
  destruct (Hcols 3%nat _ eq_refl) as (s' & Hs' & Hmissing & _).
  exists s'. split; [exact Hs'|].
  apply (Hmissing 1%nat 1641016800000000000 eq_refl).
  intros [|[|j]] tj Hle Hj Hh; [|reflexivity|lia].
  injection Hj as <-. vm_compute in Hh. discriminate Hh.
Defined.

(** On [three_days] the column [Hour] comes out as [object] and the
    column [Volum] stays [int64]. *)
Lemma handleNullValues_dtypes_witness :
  (exists s', cols three_days_filled !! 0%nat = Some s' /\
     name s' = "Hour" /\ dtype_of s' = Object) /\
  (exists s', cols three_days_filled !! 6%nat = Some s' /\
     name s' = "Volum" /\ dtype_of s' = Int64).
Proof.
  destruct three_days_timestamps as (Htimes & _ & _).
  split.
  - exact (handleNullValues_dtypes to_datetime_fixed three_days _ three_days_filled
             Htimes handleNullValues_three_days 0%nat _ eq_refl).
  - exact (handleNullValues_dtypes to_datetime_fixed three_days _ three_days_filled
             Htimes handleNullValues_three_days 6%nat _ eq_refl).
Defined.

(** ** [splitSet] after [handleNullValues] *)

Lemma splitSet_None_iff set :
  splitSet set = None <-> "Volum" ∉ column_names set.
Proof.
  unfold splitSet. split.
  - intros Hnone Hin.
    destruct (get_col_is_Some _ _ Hin) as [y Hy]. rewrite Hy in Hnone.
    destruct (drop_columns ["Volum"] set) as [X|] eqn:Hd; [done|].
    assert (is_Some (drop_columns ["Volum"] set)) as [X HX]; [|congruence].
    eexists. apply drop_columns_Some. split; [|done].
    by intros n ->%list_elem_of_singleton.
  - intros Hout.
    destruct (drop_columns ["Volum"] set) as [X|] eqn:Hd; [|done].
    apply drop_columns_Some in Hd as [Hd _]. destruct Hout.
    apply Hd. by apply list_elem_of_singleton.
Qed.

(** X5. [splitSet] raises exactly on a table without a column [Volum]. *)
Theorem splitSet_raises set :
  splitSet set = None <-> "Volum" ∉ column_names set.
Proof. apply splitSet_None_iff. Qed.

Lemma get_col_fmap (f : series -> series) n idx idx' (l : list series) :
  (forall s, name (f s) = name s) ->
  get_col n (Frame idx (f <$> l)) = f <$> get_col n (Frame idx' l).
Proof.
  intros Hname. unfold get_col. cbn [cols].
  induction l as [|s l IH]; [done|]. csimpl. rewrite Hname.
  by case_bool_decide.
Qed.

Section SplitAfterFill.
Variable to_datetime : string -> option Z.

Lemma handleNullValues_wf t out :
  wf_loaded t -> handleNullValues to_datetime t = Some out -> wf_frame out.
Proof.
  intros Hwf Hrun.
  destruct (handleNullValues_Some _ _ _ Hrun) as (idx & Hidx & _ & _ & Hlen & _).
  destruct (decide (NaT ∈ idx)) as [Hin|Hnat].
  - apply list_elem_of_lookup_1 in Hin as [i Hi].
    by destruct (handleNullValues_NaT _ _ _ _ _ Hidx Hi Hrun) as (_ & ? & _).
  - destruct (handleNullValues_rows _ _ _ _ Hwf Hidx Hnat Hrun)
      as (rows & Hrows & _ & Hindex & Hcols).
    pose proof (Permutation_seq_valid _ _ Hrows) as Hvalid.
    pose proof (wf_loaded_frame _ _ _ Hwf Hidx) as Hwf'.
    unfold wf_frame in *. cbn [index cols] in Hwf'.
    rewrite Forall_forall in Hwf'.
    rewrite Hcols, Hindex. apply Forall_fmap, Forall_forall. intros s Hs.
    simpl. rewrite values_astype_series. cbn [take_series values ffill_series].
    rewrite !length_take_cells; [done|done|].
    rewrite length_ffill_groups; rewrite ?length_fmap, Hwf'; done.
Qed.

(** The columns of the imputed table keep their names; the categorical
    ones are objects. *)
Lemma handleNullValues_objects t out s :
  handleNullValues to_datetime t = Some out ->
  s ∈ cols out -> name s ∈ categorical_columns -> dtype_of s = Object.
Proof.
  intros (idx & _ & _ & -> & _)%handleNullValues_Some Hs Hcat.
  cbn [cols] in Hs. apply list_elem_of_fmap in Hs as (s0 & -> & _).
  rewrite name_astype_series in Hcat. unfold astype_series.
  by rewrite bool_decide_true.
Qed.

Lemma splitSet_filled t out :
  wf_loaded t ->
  handleNullValues to_datetime t = Some out ->
  "Volum" ∈ name <$> fields t ->
  exists X y,
    splitSet out = Some (X, y) /\
    index X = index out /\
    wf_frame X /\
    length (values y) = length (index X) /\
    categorical_columns ⊆ column_names X /\
    ("Volum" ∉ column_names X) /\
    (forall s, s ∈ cols X -> name s ∈ categorical_columns ->
       dtype_of s = Object) /\
    get_col "Volum" out = Some y /\
    name y = "Volum".
Proof.
  intros Hwf Hrun Hin.
  pose proof (handleNullValues_Some _ _ _ Hrun)
    as (idx & Hidx & Hcats & _ & _ & Hnames).
  pose proof (handleNullValues_wf _ _ Hwf Hrun) as Hwfout.
  destruct (get_col_is_Some "Volum" out) as [y Hy]; [by rewrite Hnames|].
  pose proof (get_col_Some _ _ _ Hy) as [Hyname Hyin].
  exists (Frame (index out) (filter (fun s => name s ∉ ["Volum"]) (cols out))), y.
  split_and!.
  - unfold splitSet.
    erewrite (proj2 (drop_columns_Some ["Volum"] out _)).
    + by rewrite Hy.
    + split; [|done]. intros n ->%list_elem_of_singleton. by rewrite Hnames.
  - done.
  - unfold wf_frame in *. cbn [cols index]. rewrite Forall_forall in Hwfout.
    apply Forall_forall. intros s [_ Hs]%list_elem_of_filter. by apply Hwfout.
  - cbn [index]. unfold wf_frame in Hwfout. rewrite Forall_forall in Hwfout.
    by apply Hwfout.
  - intros n Hn. pose proof (Hcats n Hn) as Hcol. rewrite <-Hnames in Hcol.
    unfold column_names in *. cbn [cols].
    apply list_elem_of_fmap in Hcol as (s & -> & Hs).
    apply list_elem_of_fmap_2, list_elem_of_filter. split; [|done].
    intros Heq%list_elem_of_singleton. rewrite Heq in Hn.
    revert Hn. by apply (bool_decide_unpack _).
  - unfold column_names. cbn [cols].
    intros (s & Hs & [Hne _]%list_elem_of_filter)%list_elem_of_fmap.
    apply Hne. by apply list_elem_of_singleton.
  - intros s [_ Hs]%list_elem_of_filter Hcat.
    by eapply handleNullValues_objects.
  - done.
  - done.
Qed.

(** X6. On an imputed table with a column [Volum], [splitSet] gives features
    and a target of one value per row; the three categorical columns are
    among the features, as objects; and, in a table whose rows all have
    a timestamp, no two the same, the target is itself forward filled:
    a missing target took the latest earlier target of the same hour of
    the day. *)
Theorem splitSet_after_handleNullValues t idx out :
  wf_loaded t ->
  timestamps to_datetime t = Some idx -> NaT ∉ idx -> NoDup idx ->
  handleNullValues to_datetime t = Some out ->
  "Volum" ∈ name <$> fields t ->
  exists X y target,
    splitSet out = Some (X, y) /\
    index X = idx /\
    wf_frame X /\
    length (values y) = length (index X) /\
    categorical_columns ⊆ column_names X /\
    ("Volum" ∉ column_names X) /\
    (forall s, s ∈ cols X -> name s ∈ categorical_columns ->
       dtype_of s = Object) /\
    get_col "Volum" (Frame idx (fields t)) = Some target /\
    name y = "Volum" /\
    dtype_of y = dtype_of target /\
    values y = ffill_groups (hour <$> idx) (values target) ∅.
Proof.
  intros Hwf Htimes Hnat Hnd Hrun Hin.
  destruct (splitSet_filled t out Hwf Hrun Hin)
    as (X & y & Hsplit & Hindex & HwfX & Hlen & Hcats & Hvol & Hobj & Hy & Hname).
  destruct (handleNullValues_distinct _ _ _ _ Htimes Hnat Hnd Hrun)
    as [Hidx Hcols].
  destruct (get_col_is_Some "Volum" (Frame idx (fields t)) Hin)
    as [target Htarget].
  pose proof (get_col_Some _ _ _ Htarget) as [Htname _].
  set (fill := fun s => astype_series categorical_columns
                          (ffill_series (hour <$> idx) s)) in *.
  assert (forall s, name (fill s) = name s) as Hfname
    by (intros s; unfold fill; by rewrite name_astype_series).
  assert (y = fill target) as ->.
  { destruct out as [idx' l]. cbn [cols index] in *. subst l.
    rewrite (get_col_fmap fill _ idx' idx), Htarget in Hy by done.
    by injection Hy. }
  exists X, (fill target), target.
  split_and!; try done.
  - by rewrite Hindex.
  - unfold fill, astype_series. simpl. rewrite Htname.
    by rewrite bool_decide_false by (by apply (bool_decide_unpack _)).
  - unfold fill. by rewrite values_astype_series.
Qed.

End SplitAfterFill.

(** On [three_days] the target after the fill and the split is the column
    [Volum] as it was read: it has no missing value. *)
Lemma splitSet_after_handleNullValues_witness :
  exists X y,
    splitSet three_days_filled = Some (X, y) /\
    wf_frame X /\ length (values y) = length (index X) /\
    categorical_columns ⊆ column_names X /\
    values y = ints [10; 20; 30; 40; 20; 30].
Proof.
  destruct three_days_timestamps as (Htimes & Hnat & Hnd).
  destruct (splitSet_after_handleNullValues to_datetime_fixed three_days _
              three_days_filled ltac:(intros labels [= <-]; repeat constructor)
              Htimes Hnat Hnd handleNullValues_three_days)
    as (X & y & target & Hsplit & _ & Hwf & Hlen & Hcats & _ & _
        & Htarget & _ & _ & Hvals).
  { by apply (bool_decide_unpack _). }
  exists X, y. split_and!; [done..|].
  injection Htarget as <-. rewrite Hvals. reflexivity.
Defined.

(** ** The loops over the models and over the features *)

Section Loops.
Context `{Regressors}.

Lemma scores_cons spec e es X y Xv yv :
  scores spec (e :: es) X y Xv yv =
  (r ← evaluation spec e X y Xv yv;
   lines ← scores spec es X y Xv yv;
   Some (Report e r.2 :: lines)).
Proof. unfold scores. csimpl. by destruct (evaluation _ _ _ _ _ _). Qed.

Lemma ablation_cons f fs X y Xv yv :
  ablation (f :: fs) X y Xv yv =
  (lines ← ablation_step X y Xv yv f;
   rest ← ablation fs X y Xv yv;
   Some (lines ++ rest)).
Proof.
  unfold ablation. csimpl.
  destruct (ablation_step _ _ _ _ _); [|done]. csimpl.
  by destruct (mapM _ _).
Qed.

Lemma keeps_estimators_refl s : keeps_estimators s s.
Proof. intros id e o Hid. by exists o. Qed.

Lemma keeps_estimators_trans s1 s2 s3 :
  keeps_estimators s1 s2 -> keeps_estimators s2 s3 -> keeps_estimators s1 s3.
Proof.
  intros H12 H23 id e o Hid. destruct (H12 _ _ _ Hid) as [o' Hid'].
  by eapply H23.
Qed.

Lemma keeps_estimators_evaluated s pre est spec e o2 r :
  estimators s !! est = Some (e, o2) ->
  keeps_estimators s (evaluated s (pre, est) spec e r).
Proof.
  intros Hest id e' o Hid. unfold evaluated. cbn [estimators snd].
  destruct (decide (id = est)) as [->|Hne].
  - rewrite lookup_insert_eq. rewrite Hest in Hid. injection Hid as <- <-.
    by eexists.
  - rewrite lookup_insert_ne by done. by eexists.
Qed.

Lemma prints_stdout {A} (m : NB A) s lines :
  prints m s lines ->
  (fun r => stdout r.2) <$> m s = app (stdout s) <$> lines.
Proof.
  unfold prints. destruct (m s) as [[x s']|], lines as [l|]; try done.
  intros [Hout _]. simpl. by rewrite Hout.
Qed.

(** A loop over estimator objects whose body is an evaluation with the
    transformer object [pre]: it prints the scores, in the order of the
    list. *)
Lemma for_each_prints (body : nat -> NB unit) pre X y Xv yv ids es s spec o1 :
  (forall est s spec o1 e o2,
     transformers s !! pre = Some (spec, o1) ->
     estimators s !! est = Some (e, o2) ->
     body est s = (r ← evaluation spec e X y Xv yv;
                   Some (tt, evaluated s (pre, est) spec e r))) ->
  transformers s !! pre = Some (spec, o1) ->
  Forall2 (fun id e => exists o2, estimators s !! id = Some (e, o2)) ids es ->
  prints (for_each ids body) s (scores spec es X y Xv yv).
Proof.
  intros Hbody. revert es s o1.
  induction ids as [|id ids IH]; intros es s o1 Hpre Hids.
  - apply Forall2_nil_inv_l in Hids as ->. unfold prints.
    rewrite for_each_nil. unfold scores. csimpl.
    split; [by rewrite app_nil_r|apply keeps_estimators_refl].
  - apply Forall2_cons_inv_l in Hids as (e & es' & [o2 Hest] & Hids & ->).
    unfold prints.
    rewrite for_each_cons, scores_cons, (Hbody _ _ _ _ _ _ Hpre Hest).
    destruct (evaluation spec e X y Xv yv) as [r|]; [|done].
    cbn [mbind option_bind].
    pose proof (keeps_estimators_evaluated s pre id spec e o2 r Hest) as Hkeep.
    assert (prints (for_each ids body) (evaluated s (pre, id) spec e r)
              (scores spec es' X y Xv yv)) as Hrest.
    { apply (IH es' _ (Some r.1.1)).
      - unfold evaluated. cbn [transformers fst]. apply lookup_insert_eq.
      - eapply Forall2_impl; [done|]. intros id' e' [o' Hid'].
        by apply (Hkeep id' e' o'). }
    unfold prints in Hrest. revert Hrest.
    destruct (for_each ids body _) as [[[] s']|],
      (scores spec es' X y Xv yv) as [l|]; try done.
    intros [Hout Hkeep']. split.
    + rewrite Hout. unfold evaluated. cbn [stdout]. by rewrite <-app_assoc.
    + by eapply keeps_estimators_trans.
Qed.

Lemma new_estimators_run es s :
  exists s',
    mapM new_estimator es s = Some (seq (next_id s) (length es), s') /\
    transformers s' = transformers s /\
    stdout s' = stdout s /\
    (forall k, (k < next_id s)%nat -> estimators s' !! k = estimators s !! k) /\
    Forall2 (fun id e => exists o2, estimators s' !! id = Some (e, o2))
      (seq (next_id s) (length es)) es.
Proof.
  revert s. induction es as [|e es IH]; intros s.
  - exists s. by split_and!.
  - set (s1 := Notebook (transformers s)
                 (<[next_id s := (e, None)]> (estimators s))
                 (S (next_id s)) (stdout s)).
    destruct (IH s1) as (s' & Hrun & Htr & Hout & Hold & Hids).
    exists s'. split_and!.
    + change (mapM new_estimator (e :: es))
        with (y ← new_estimator e; k ← mapM new_estimator es; mret (y :: k)).
      rewrite bind_run. unfold new_estimator at 1. fold s1.
      rewrite bind_run, Hrun. reflexivity.
    + done.
    + done.
    + intros k Hk. rewrite Hold by (simpl; lia). simpl.
      apply lookup_insert_ne. lia.
    + simpl. constructor; [|done].
      exists None. rewrite Hold by (simpl; lia). simpl.
      apply lookup_insert_eq.
Qed.

Lemma compare_all_stdout X_train y_train X_validation y_validation s :
  (fun r => stdout r.2) <$>
    compare_all X_train y_train X_validation y_validation s =
  app (stdout s) <$>
    scores (preprocess X_train) regression_models
      X_train y_train X_validation y_validation.
Proof.
  unfold compare_all. rewrite bind_run. unfold new_transformer at 1.
  set (s1 := Notebook _ _ _ _). rewrite bind_run.
  destruct (new_estimators_run regression_models s1)
    as (s2 & -> & Htr & Hout & _ & Hids).
  change (stdout s) with (stdout s1). rewrite <-Hout.
  apply prints_stdout.
  eapply (for_each_prints _ (next_id s)); [|by rewrite Htr; apply lookup_insert_eq|done].
  intros. by eapply compare_models_run.
Qed.

(** X7. The comparison cell prints one score for each of the eight
    estimators, in the order of [regression_models]: each is the
    evaluation of a pipeline fitted on the training data, whatever was
    fitted before it; the cell raises when one of them raises. *)
Theorem compare_all_prints X_train y_train X_validation y_validation s :
  (fun r => stdout r.2) <$>
    compare_all X_train y_train X_validation y_validation s =
  app (stdout s) <$>
    scores (preprocess X_train) regression_models
      X_train y_train X_validation y_validation.
Proof. apply compare_all_stdout. Qed.

Lemma check_feature_prints X y Xv yv knr rfr f s o1 o2 :
  estimators s !! knr = Some (KNeighborsRegressor, o1) ->
  estimators s !! rfr = Some (RandomForestRegressor, o2) ->
  prints (check_feature X y Xv yv [knr; rfr] f) s (ablation_step X y Xv yv f).
Proof.
  intros Hk Hr. unfold prints, check_feature, ablation_step.
  rewrite bind_run, lift_run.
  destruct (drop_columns [f] X) as [Xd|]; [|done].
  rewrite bind_run, lift_run. cbn [mbind option_bind].
  destruct (drop_columns [f] Xv) as [Xvd|]; [|done].
  cbn [mbind option_bind].
  rewrite bind_run. unfold print at 1.
  rewrite bind_run. unfold new_transformer at 1.
  cbn [next_id transformers estimators stdout].
  set (s1 := Notebook _ _ _ _).
  assert (prints (for_each [knr; rfr]
                    (check_feature_compare (next_id s) Xd y Xvd yv)) s1
            (scores (check_feature_process Xd f)
               [KNeighborsRegressor; RandomForestRegressor] Xd y Xvd yv))
    as Hloop.
  { eapply (for_each_prints _ (next_id s)).
    - intros. by eapply check_feature_compare_run.
    - apply lookup_insert_eq.
    - repeat constructor; by eexists. }
  unfold prints in Hloop. revert Hloop.
  destruct (for_each _ _ s1) as [[[] s']|], (scores _ _ _ _ _ _) as [l|];
    try done.
  intros [Hout Hkeep]. split.
  - rewrite Hout. subst s1. cbn [stdout]. by rewrite <-app_assoc.
  - intros id e o Hid. by apply (Hkeep id e o).
Qed.

Lemma ablation_prints features X y Xv yv knr rfr s o1 o2 :
  estimators s !! knr = Some (KNeighborsRegressor, o1) ->
  estimators s !! rfr = Some (RandomForestRegressor, o2) ->
  prints (for_each features (check_feature X y Xv yv [knr; rfr])) s
    (ablation features X y Xv yv).
Proof.
  revert s o1 o2. induction features as [|f fs IH]; intros s o1 o2 Hk Hr.
  - unfold prints. rewrite for_each_nil. unfold ablation. csimpl.
    split; [by rewrite app_nil_r|apply keeps_estimators_refl].
  - pose proof (check_feature_prints X y Xv yv knr rfr f s o1 o2 Hk Hr) as Hstep.
    unfold prints in *. rewrite for_each_cons, ablation_cons.
    revert Hstep.
    destruct (check_feature _ _ _ _ _ f s) as [[[] s1]|],
      (ablation_step X y Xv yv f) as [l|]; try done.
    intros [Hout Hkeep]. cbn [mbind option_bind].
    destruct (Hkeep _ _ _ Hk) as [o1' Hk'].
    destruct (Hkeep _ _ _ Hr) as [o2' Hr'].
    specialize (IH s1 o1' o2' Hk' Hr'). revert IH.
    destruct (for_each fs _ s1) as [[[] s2]|], (ablation fs X y Xv yv) as [ls|];
      try done.
    intros [Hout' Hkeep']. split.
    + rewrite Hout', Hout. by rewrite <-app_assoc.
    + by eapply keeps_estimators_trans.
Qed.

Lemma feature_selection_stdout features X_train y_train
    X_validation y_validation s :
  (fun r => stdout r.2) <$>
    feature_selection features X_train y_train X_validation y_validation s =
  app (stdout s) <$>
    ablation features X_train y_train X_validation y_validation.
Proof.
  unfold feature_selection.
  rewrite bind_run. unfold new_estimator at 1.
  rewrite bind_run. unfold new_estimator at 1.
  cbn [next_id transformers estimators stdout].
  set (s2 := Notebook _ _ _ _).
  change (stdout s) with (stdout s2).
  apply prints_stdout.
  eapply (ablation_prints _ _ _ _ _ (next_id s) (S (next_id s))).
  - subst s2. cbn [estimators]. rewrite lookup_insert_ne by lia.
    apply lookup_insert_eq.
  - subst s2. cbn [estimators]. apply lookup_insert_eq.
Qed.

(** X8. The ablation cell prints, for each feature in the order given, the
    header and the scores of the nearest neighbours and of the random
    forest on the tables without that column; every step starts from
    the full tables; the cell raises when a step raises. *)
Theorem feature_selection_prints features X_train y_train
    X_validation y_validation s :
  (fun r => stdout r.2) <$>
    feature_selection features X_train y_train X_validation y_validation s =
  app (stdout s) <$>
    ablation features X_train y_train X_validation y_validation.
Proof. apply feature_selection_stdout. Qed.

End Loops.

(** ** The whole run *)

Section WholeRun.
Context `{Regressors}.

Lemma baseline_prints X y Xv yv s :
  (fun r => stdout r.2) <$> baseline X y Xv yv s =
  (fun l => stdout s ++ [l]) <$> baseline_line X y Xv yv.
Proof.
  unfold baseline, baseline_line. rewrite bind_run, lift_run.
  destruct (dummy_fit _ _) as [dummy|]; [|done]. cbn [mbind option_bind].
  rewrite bind_run, lift_run.
  by destruct (mean_squared_error _ _) as [MSE|].
Qed.

Lemma final_model_prints X_train y_train X_validation y_validation
    X_test y_test X_toPredict toPredict_2022 s :
  (fun '(o, s') => (o, stdout s')) <$>
    final_model X_train y_train X_validation y_validation X_test y_test
      X_toPredict toPredict_2022 s =
  (fun '(o, lines) => (o, stdout s ++ lines)) <$>
    final_cells X_train y_train X_validation y_validation X_test y_test
      X_toPredict toPredict_2022.
Proof.
  rewrite final_model_run. unfold final_cells.
  destruct (drop_columns bad_features X_train) as [X_tr|]; [|done].
  destruct (drop_columns bad_features X_validation) as [X_v|]; [|done].
  cbn [mbind option_bind].
  destruct (evaluation _ KNeighborsRegressor X_tr y_train X_v y_validation)
    as [knr|]; [|done].
  cbn [mbind option_bind].
  destruct (evaluation _ RandomForestRegressor _ _ _ _) as [rfr|]; [|done].
  cbn [mbind option_bind].
  destruct (drop_columns bad_features X_test) as [X_te|]; [|done].
  cbn [mbind option_bind].
  destruct (evaluation _ KNeighborsRegressor X_tr y_train X_te y_test)
    as [best|]; [|done].
  cbn [mbind option_bind].
  destruct (ct_transform best.1.1 X_toPredict) as [Xp|]; [|done].
  cbn [mbind option_bind].
  destruct (predict best.1.2 Xp) as [y_pred|]; [|done].
  cbn [mbind option_bind].
  destruct (overwrite_target toPredict_2022 y_pred) as [predictions|]; [|done].
  cbn. by rewrite <-!app_assoc.
Qed.

Lemma run_stdout to_datetime training_set validation_set test_set
    toPredict_2022 s :
  (fun '(o, s') => (o, stdout s')) <$>
    run to_datetime training_set validation_set test_set toPredict_2022 s =
  (fun '(o, lines) => (o, stdout s ++ lines)) <$>
    notebook_in_words to_datetime training_set validation_set test_set
      toPredict_2022.
Proof.
  unfold run, notebook_in_words.
  rewrite bind_run, lift_run.
  destruct (handleNullValues to_datetime training_set) as [training|]; [|done].
  cbn [mbind option_bind]. rewrite bind_run, lift_run.
  destruct (handleNullValues to_datetime validation_set) as [validation|];
    [|done].
  cbn [mbind option_bind]. rewrite bind_run, lift_run.
  destruct (handleNullValues to_datetime test_set) as [test|]; [|done].
  cbn [mbind option_bind]. rewrite bind_run, lift_run.
  destruct (handleNullValues to_datetime toPredict_2022) as [future|]; [|done].
  cbn [mbind option_bind]. rewrite bind_run, lift_run.
  destruct (splitSet training) as [[X_train y_train]|]; [|done].
  cbn [mbind option_bind]. rewrite bind_run, lift_run.
  destruct (splitSet validation) as [[X_validation y_validation]|]; [|done].
  cbn [mbind option_bind]. rewrite bind_run, lift_run.
  destruct (splitSet test) as [[X_test y_test]|]; [|done].
  cbn [mbind option_bind]. rewrite bind_run, lift_run.
  destruct (splitSet future) as [[X_toPredict y_toPredict]|]; [|done].
  cbn [mbind option_bind]. rewrite bind_run.
  pose proof (baseline_prints X_train y_train X_validation y_validation s)
    as Hb. revert Hb.
  destruct (baseline _ _ _ _ s) as [[[] s1]|],
    (baseline_line _ _ _ _) as [b|]; try done.
  intros [= Hb]. cbn [mbind option_bind]. rewrite bind_run.
  pose proof (compare_all_stdout X_train y_train X_validation y_validation s1)
    as Hc. revert Hc.
  destruct (compare_all _ _ _ _ s1) as [[[] s2]|],
    (scores _ _ _ _ _ _) as [c|]; try done.
  intros [= Hc]. cbn [mbind option_bind]. rewrite bind_run.
  pose proof (feature_selection_stdout features_to_test
                X_train y_train X_validation y_validation s2) as Ha.
  revert Ha.
  destruct (feature_selection _ _ _ _ _ s2) as [[[] s3]|],
    (ablation _ _ _ _ _) as [a|]; try done.
  intros [= Ha]. cbn [mbind option_bind].
  rewrite final_model_prints.
  destruct (final_cells _ _ _ _ _ _ _ _) as [[o last]|]; [|done].
  cbn. rewrite Ha, Hc, Hb. by rewrite <-!app_assoc.
Qed.

(** X9. The run of the notebook does not depend on the objects that
    earlier cells have constructed or fitted: from any two states of the
    objects it gives the same outputs and prints the same lines, and it
    raises from both or from neither. *)
Theorem run_ignores_objects to_datetime training_set validation_set test_set
    toPredict_2022 s1 s2 :
  (fun '(o, s') => (o, drop (length (stdout s1)) (stdout s'))) <$>
    run to_datetime training_set validation_set test_set toPredict_2022 s1 =
  (fun '(o, s') => (o, drop (length (stdout s2)) (stdout s'))) <$>
    run to_datetime training_set validation_set test_set toPredict_2022 s2.
Proof.
  pose proof (run_stdout to_datetime training_set validation_set test_set
                toPredict_2022 s1) as H1.
  pose proof (run_stdout to_datetime training_set validation_set test_set
                toPredict_2022 s2) as H2.
  destruct (run _ _ _ _ _ s1) as [[o1 s1']|],
    (run _ _ _ _ _ s2) as [[o2 s2']|],
    (notebook_in_words _ _ _ _ _) as [[o lines]|]; try done.
  injection H1 as Ho1 Hs1. injection H2 as Ho2 Hs2. csimpl.
  by rewrite Ho1, Hs1, Ho2, Hs2, !drop_app_length.
Qed.

End WholeRun.

(** ** What a run needs, prints and writes *)

Lemma select_columns_Some_subset names X cols :
  select_columns names X = Some cols -> names ⊆ column_names X.
Proof.
  unfold select_columns. intros Hsel%mapM_Some_1 n Hn.
  apply list_elem_of_lookup_1 in Hn as [i Hi].
  destruct (Forall2_lookup_l _ _ _ _ _ Hsel Hi) as (vals & _ & Hget).
  destruct (get_col n X) as [s|] eqn:Hs; [|done].
  apply get_col_Some in Hs as [<- Hs]. by apply list_elem_of_fmap_2.
Qed.

Lemma ct_fit_Some_requires spec X p :
  ct_fit spec X = Some p ->
  ct_categorical spec ++ ct_numeric spec ⊆ column_names X /\
  length (index X) <> 0%nat.
Proof.
  unfold ct_fit. intros Hfit.
  destruct (select_columns (ct_categorical spec) X) as [cat|] eqn:Hcat; [|done].
  destruct (select_columns (ct_numeric spec) X) as [num|] eqn:Hnum; [|done].
  cbn [mbind option_bind] in Hfit. case_decide; [done|]. split; [|done].
  intros n [Hn|Hn]%elem_of_app;
    [by apply (select_columns_Some_subset _ _ _ Hcat)
    |by apply (select_columns_Some_subset _ _ _ Hnum)].
Qed.

Lemma ct_transform_Some_requires p X M :
  ct_transform p X = Some M ->
  ct_categorical (ct_spec p) ++ ct_numeric (ct_spec p) ⊆ column_names X /\
  length (index X) <> 0%nat.
Proof.
  unfold ct_transform. intros Hrun.
  destruct (select_columns (ct_categorical (ct_spec p)) X) as [cat|] eqn:Hcat;
    [|done].
  destruct (select_columns (ct_numeric (ct_spec p)) X) as [num|] eqn:Hnum;
    [|done].
  cbn [mbind option_bind] in Hrun. case_decide; [done|]. split; [|done].
  intros n [Hn|Hn]%elem_of_app;
    [by apply (select_columns_Some_subset _ _ _ Hcat)
    |by apply (select_columns_Some_subset _ _ _ Hnum)].
Qed.

Lemma splitSet_Some set X y :
  splitSet set = Some (X, y) ->
  drop_columns ["Volum"] set = Some X /\ get_col "Volum" set = Some y.
Proof.
  unfold splitSet. intros Hrun.
  destruct (drop_columns ["Volum"] set) as [X'|]; [|done].
  destruct (get_col "Volum" set) as [y'|]; [|done]. by simplify_eq/=.
Qed.

Lemma column_names_drop_columns labels f X :
  drop_columns labels f = Some X -> column_names X ⊆ column_names f.
Proof.
  intros [_ ->]%drop_columns_Some n. unfold column_names. cbn [cols].
  intros (s & -> & [_ Hs]%list_elem_of_filter)%list_elem_of_fmap.
  by apply list_elem_of_fmap_2.
Qed.

Lemma to_float_targets (cells : list cell) ys :
  mapM (fmap to_float) cells = Some ys -> Forall is_Some cells.
Proof.
  intros Hm%mapM_Some_1.
  induction Hm as [|c y ? ? Hc _ IH]; constructor; [|done].
  destruct c; [by eexists|done].
Qed.

(** A design matrix without a missing number comes from numeric columns
    without a missing value. *)
Lemma design_complete_columns spec X_fit X M n s :
  wf_frame X ->
  design_in_words spec X_fit X = Some M ->
  has_nan M = false ->
  n ∈ ct_numeric spec -> get_col n X = Some s ->
  Forall is_Some (values s).
Proof.
  intros Hwf HM Hnan Hn Hs. unfold design_in_words in HM.
  destruct (select_columns (ct_categorical spec) X_fit) as [cat_fit|]; [|done].
  destruct (select_columns (ct_numeric spec) X_fit) as [num_fit|] eqn:Hnum_fit;
    [|done].
  cbn [mbind option_bind] in HM.
  destruct (select_columns (ct_categorical spec) X) as [cat|]; [|done].
  destruct (select_columns (ct_numeric spec) X) as [num|] eqn:Hnum; [|done].
  cbn [mbind option_bind] in HM. case_decide as Hrows; [done|].
  injection HM as <-.
  apply has_nan_false in Hnan. rewrite Forall_fmap, Forall_forall in Hnan.
  apply list_elem_of_lookup_1 in Hn as [k Hk].
  destruct (select_columns_lookup _ _ _ _ _ Hnum Hk) as (s0 & Hs0 & Hvals).
  assert (s0 = s) as -> by congruence.
  destruct (lookup_lt_is_Some_2 num_fit k) as [train Htrain].
  { rewrite (length_select_columns _ _ _ Hnum_fit). by eapply lookup_lt_Some. }
  apply Forall_lookup. intros i c Hc.
  assert (i < length (index X))%nat as Hi.
  { apply get_col_Some in Hs as [_ Hin].
    unfold wf_frame in Hwf. rewrite Forall_forall in Hwf.
    rewrite <-(Hwf _ Hin). by eapply lookup_lt_Some. }
  specialize (Hnan i). cbn [compose] in Hnan.
  apply Forall_app in Hnan as [_ Hnan]; [|apply elem_of_seq; lia].
  rewrite Forall_lookup in Hnan.
  specialize (Hnan k (standardized_in_words train (cell_at i (values s)))).
  destruct Hnan as [z Hz].
  { apply lookup_zip_with_Some. by exists train, (values s). }
  unfold cell_at in Hz. rewrite Hc in Hz. simpl in Hz.
  destruct c; [by eexists|done].
Qed.

Section ReadTables.
Variable to_datetime : string -> option Z.

Lemma handleNullValues_column_names t out :
  handleNullValues to_datetime t = Some out ->
  column_names out = name <$> fields t.
Proof. by intros (idx & _ & _ & _ & _ & Hnames)%handleNullValues_Some. Qed.

(** A table that went through [handleNullValues] and [splitSet], whose
    rows all have a timestamp, and whose features have the columns
    [names] and a row, was readable. *)
Lemma readable_split names t out X y :
  handleNullValues to_datetime t = Some out ->
  splitSet out = Some (X, y) ->
  names ⊆ column_names X ->
  length (index X) <> 0%nat ->
  (forall idx, timestamps to_datetime t = Some idx -> NaT ∉ idx) ->
  readable to_datetime ("Volum" :: names) t.
Proof.
  intros Hrun [Hdrop Hy]%splitSet_Some Hnames Hrows Hnat.
  pose proof (handleNullValues_column_names _ _ Hrun) as Hcols.
  pose proof (handleNullValues_Some _ _ _ Hrun)
    as (idx & Hidx & _ & _ & Hlen & _).
  destruct (timestamps_Some _ _ _ Hidx) as (labels & Hlabels & _ & Hlen').
  exists labels. split_and!.
  - done.
  - apply (timestamps_no_NaT _ t labels idx); [done..|]. by apply Hnat.
  - rewrite <-Hcols. intros n [->|Hn]%elem_of_cons.
    + apply get_col_Some in Hy as [<- Hy]. by apply list_elem_of_fmap_2.
    + by eapply column_names_drop_columns, Hnames.
  - intros Hnil. apply Hrows.
    apply drop_columns_Some in Hdrop as [_ ->]. cbn [index].
    rewrite Hlen, Hlen', Hnil. done.
Qed.

(** A complete target: every row had a timestamp. *)
Lemma complete_target_timestamps t out X y ys idx :
  handleNullValues to_datetime t = Some out ->
  splitSet out = Some (X, y) ->
  mapM (fmap to_float) (values y) = Some ys ->
  timestamps to_datetime t = Some idx -> NaT ∉ idx.
Proof.
  intros Hrun [_ Hy]%splitSet_Some Hys Hidx.
  apply get_col_Some in Hy as [_ Hy].
  eapply handleNullValues_complete_column; [done..|].
  by eapply to_float_targets.
Qed.

End ReadTables.

Section RunProperties.
Context `{Regressors}.

Lemma scores_labels spec es X y Xv yv lines :
  scores spec es X y Xv yv = Some lines ->
  without_score <$> lines = (fun e => Report e 0) <$> es.
Proof.
  revert lines. induction es as [|e es IH]; intros lines.
  - unfold scores. csimpl. by intros [= <-].
  - rewrite scores_cons.
    destruct (evaluation _ _ _ _ _ _) as [r|]; [|done].
    cbn [mbind option_bind].
    destruct (scores spec es X y Xv yv) as [l|]; [|done].
    cbn [mbind option_bind]. intros [= <-]. csimpl. f_equal. by apply IH.
Qed.

Lemma ablation_step_labels X y Xv yv f lines :
  ablation_step X y Xv yv f = Some lines ->
  without_score <$> lines =
  [Header f; Report KNeighborsRegressor 0; Report RandomForestRegressor 0].
Proof.
  unfold ablation_step. intros Hstep.
  destruct (drop_columns [f] X) as [Xd|]; [|done].
  destruct (drop_columns [f] Xv) as [Xvd|]; [|done].
  cbn [mbind option_bind] in Hstep.
  destruct (scores _ _ _ _ _ _) as [l|] eqn:Hl; [|done].
  injection Hstep as <-. csimpl. f_equal.
  by apply (scores_labels _ _ _ _ _ _ _ Hl).
Qed.

Lemma ablation_labels fs X y Xv yv lines :
  ablation fs X y Xv yv = Some lines ->
  without_score <$> lines =
  concat ((fun f => [Header f; Report KNeighborsRegressor 0;
                     Report RandomForestRegressor 0]) <$> fs).
Proof.
  revert lines. induction fs as [|f fs IH]; intros lines.
  - unfold ablation. csimpl. by intros [= <-].
  - rewrite ablation_cons.
    destruct (ablation_step X y Xv yv f) as [l|] eqn:Hstep; [|done].
    cbn [mbind option_bind].
    destruct (ablation fs X y Xv yv) as [ls|]; [|done].
    cbn [mbind option_bind]. intros [= <-].
    rewrite fmap_app, (ablation_step_labels _ _ _ _ _ _ Hstep), (IH ls eq_refl).
    done.
Qed.

Lemma ablation_Some_columns fs X y Xv yv lines :
  ablation fs X y Xv yv = Some lines ->
  fs ⊆ column_names X /\ fs ⊆ column_names Xv.
Proof.
  revert lines. induction fs as [|f fs IH]; intros lines Hrun.
  - split; intros n Hn; by apply elem_of_nil in Hn.
  - rewrite ablation_cons in Hrun.
    destruct (ablation_step X y Xv yv f) as [l|] eqn:Hstep; [|done].
    cbn [mbind option_bind] in Hrun.
    destruct (ablation fs X y Xv yv) as [ls|]; [|done].
    destruct (IH ls eq_refl) as [HX HXv].
    unfold ablation_step in Hstep.
    destruct (drop_columns [f] X) as [Xd|] eqn:Hd; [|done].
    destruct (drop_columns [f] Xv) as [Xvd|] eqn:Hdv; [|done].
    apply drop_columns_Some in Hd as [Hd _].
    apply drop_columns_Some in Hdv as [Hdv _].
    split; intros n [->|Hn]%elem_of_cons; auto; [apply Hd|apply Hdv];
      by apply list_elem_of_singleton.
Qed.

Lemma evaluation_Some_requires spec e X y Xv yv r :
  evaluation spec e X y Xv yv = Some r ->
  (ct_categorical spec ++ ct_numeric spec ⊆ column_names X /\
   length (index X) <> 0%nat) /\
  (ct_categorical spec ++ ct_numeric spec ⊆ column_names Xv /\
   length (index Xv) <> 0%nat).
Proof.
  intros (Xt & Xe & ? & ? & Hfit & _ & _ & HXe & _)%evaluation_Some.
  pose proof (ct_fit_spec _ _ _ Hfit) as Hspec.
  split; [by eapply ct_fit_Some_requires|].
  apply ct_transform_Some_requires in HXe. by rewrite Hspec in HXe.
Qed.

Lemma final_cells_Some X_train y_train X_validation y_validation X_test y_test
    X_toPredict toPredict_2022 o last :
  final_cells X_train y_train X_validation y_validation X_test y_test
    X_toPredict toPredict_2022 = Some (o, last) ->
  exists X_tr X_v X_te knr rfr best Xp y_pred,
    drop_columns bad_features X_train = Some X_tr /\
    drop_columns bad_features X_validation = Some X_v /\
    drop_columns bad_features X_test = Some X_te /\
    evaluation (preprocess_selected_features X_tr) KNeighborsRegressor
      X_tr y_train X_v y_validation = Some knr /\
    evaluation (preprocess_selected_features X_tr) RandomForestRegressor
      X_tr y_train X_v y_validation = Some rfr /\
    evaluation (preprocess_selected_features X_tr) KNeighborsRegressor
      X_tr y_train X_te y_test = Some best /\
    ct_transform best.1.1 X_toPredict = Some Xp /\
    predict best.1.2 Xp = Some y_pred /\
    overwrite_target toPredict_2022 y_pred = Some (predictions_csv o) /\
    last = [Report KNeighborsRegressor knr.2;
            Report RandomForestRegressor rfr.2;
            Report KNeighborsRegressor best.2].
Proof.
  unfold final_cells. intros Hrun.
  destruct (drop_columns bad_features X_train) as [X_tr|]; [|done].
  destruct (drop_columns bad_features X_validation) as [X_v|]; [|done].
  cbn [mbind option_bind] in Hrun.
  destruct (evaluation _ KNeighborsRegressor X_tr y_train X_v y_validation)
    as [knr|] eqn:Hknr; [|done].
  cbn [mbind option_bind] in Hrun.
  destruct (evaluation _ RandomForestRegressor _ _ _ _) as [rfr|] eqn:Hrfr;
    [|done].
  cbn [mbind option_bind] in Hrun.
  destruct (drop_columns bad_features X_test) as [X_te|]; [|done].
  cbn [mbind option_bind] in Hrun.
  destruct (evaluation _ KNeighborsRegressor X_tr y_train X_te y_test)
    as [best|] eqn:Hbest; [|done].
  cbn [mbind option_bind] in Hrun.
  destruct (ct_transform best.1.1 X_toPredict) as [Xp|] eqn:HXp; [|done].
  cbn [mbind option_bind] in Hrun.
  destruct (predict best.1.2 Xp) as [y_pred|] eqn:Hpred; [|done].
  cbn [mbind option_bind] in Hrun.
  destruct (overwrite_target toPredict_2022 y_pred) as [predictions|] eqn:Hout;
    [|done].
  cbn [mbind option_bind] in Hrun. injection Hrun as <- <-.
  by exists X_tr, X_v, X_te, knr, rfr, best, Xp, y_pred.
Qed.

Lemma notebook_in_words_Some to_datetime training_set validation_set test_set
    toPredict_2022 o lines :
  notebook_in_words to_datetime training_set validation_set test_set
    toPredict_2022 = Some (o, lines) ->
  exists training validation test future
         X_train y_train X_validation y_validation
         X_test y_test X_toPredict y_toPredict
         first compared ablated last,
    handleNullValues to_datetime training_set = Some training /\
    handleNullValues to_datetime validation_set = Some validation /\
    handleNullValues to_datetime test_set = Some test /\
    handleNullValues to_datetime toPredict_2022 = Some future /\
    splitSet training = Some (X_train, y_train) /\
    splitSet validation = Some (X_validation, y_validation) /\
    splitSet test = Some (X_test, y_test) /\
    splitSet future = Some (X_toPredict, y_toPredict) /\
    baseline_line X_train y_train X_validation y_validation = Some first /\
    scores (preprocess X_train) regression_models
      X_train y_train X_validation y_validation = Some compared /\
    ablation features_to_test X_train y_train X_validation y_validation =
      Some ablated /\
    final_cells X_train y_train X_validation y_validation X_test y_test
      X_toPredict future = Some (o, last) /\
    lines = first :: compared ++ ablated ++ last.
Proof.
  unfold notebook_in_words. intros Hrun.
  destruct (handleNullValues to_datetime training_set) as [training|];
    [|done].
  cbn [mbind option_bind] in Hrun.
  destruct (handleNullValues to_datetime validation_set) as [validation|];
    [|done].
  cbn [mbind option_bind] in Hrun.
  destruct (handleNullValues to_datetime test_set) as [test|]; [|done].
  cbn [mbind option_bind] in Hrun.
  destruct (handleNullValues to_datetime toPredict_2022) as [future|]; [|done].
  cbn [mbind option_bind] in Hrun.
  destruct (splitSet training) as [[X_train y_train]|] eqn:H5; [|done].
  cbn [mbind option_bind] in Hrun.
  destruct (splitSet validation) as [[X_validation y_validation]|] eqn:H6;
    [|done].
  cbn [mbind option_bind] in Hrun.
  destruct (splitSet test) as [[X_test y_test]|] eqn:H7; [|done].
  cbn [mbind option_bind] in Hrun.
  destruct (splitSet future) as [[X_toPredict y_toPredict]|] eqn:H8; [|done].
  cbn [mbind option_bind] in Hrun.
  destruct (baseline_line _ _ _ _) as [first|] eqn:H9; [|done].
  cbn [mbind option_bind] in Hrun.
  destruct (scores _ _ _ _ _ _) as [compared|] eqn:H10; [|done].
  cbn [mbind option_bind] in Hrun.
  destruct (ablation _ _ _ _ _) as [ablated|] eqn:H11; [|done].
  cbn [mbind option_bind] in Hrun.
  destruct (final_cells _ _ _ _ _ _ _ _) as [[o' last]|] eqn:H12; [|done].
  cbn [mbind option_bind] in Hrun. injection Hrun as <- <-.
  by exists training, validation, test, future, X_train, y_train,
    X_validation, y_validation, X_test, y_test, X_toPredict, y_toPredict,
    first, compared, ablated, last.
Qed.

Lemma run_Some_in_words to_datetime training_set validation_set test_set
    toPredict_2022 s o s' :
  run to_datetime training_set validation_set test_set toPredict_2022 s =
    Some (o, s') ->
  exists lines,
    notebook_in_words to_datetime training_set validation_set test_set
      toPredict_2022 = Some (o, lines) /\
    stdout s' = stdout s ++ lines.
Proof.
  intros Hrun.
  pose proof (run_stdout to_datetime training_set validation_set test_set
                toPredict_2022 s) as Hsame.
  rewrite Hrun in Hsame.
  destruct (notebook_in_words _ _ _ _ _) as [[o' lines]|]; [|done].
  injection Hsame as <- ->. by exists lines.
Qed.

(** X10. A run that does not raise has printed thirty lines: the baseline,
    the eight estimators in their order, for each of the six features
    its header with the two candidates, and the two candidates with the
    final model. *)
Theorem run_prints_labels to_datetime training_set validation_set test_set
    toPredict_2022 s o s' :
  run to_datetime training_set validation_set test_set toPredict_2022 s =
    Some (o, s') ->
  exists lines,
    stdout s' = stdout s ++ lines /\
    length lines = 30%nat /\
    without_score <$> lines =
      [Report DummyRegressor 0] ++
      ((fun e => Report e 0) <$> regression_models) ++
      concat ((fun f => [Header f; Report KNeighborsRegressor 0;
                         Report RandomForestRegressor 0])
                <$> features_to_test) ++
      [Report KNeighborsRegressor 0; Report RandomForestRegressor 0;
       Report KNeighborsRegressor 0].
Proof.
  intros (lines & Hwords & Hout)%run_Some_in_words.
  exists lines. split; [done|].
  apply notebook_in_words_Some in Hwords
    as (training & validation & test & future & X_train & y_train
        & X_validation & y_validation & X_test & y_test & X_toPredict
        & y_toPredict & first & compared & ablated & last
        & _ & _ & _ & _ & _ & _ & _ & _ & Hfirst & Hcompared & Hablated
        & Hlast & ->).
  assert (without_score <$> first :: compared ++ ablated ++ last =
          [Report DummyRegressor 0] ++
          ((fun e => Report e 0) <$> regression_models) ++
          concat ((fun f => [Header f; Report KNeighborsRegressor 0;
                             Report RandomForestRegressor 0])
                    <$> features_to_test) ++
          [Report KNeighborsRegressor 0; Report RandomForestRegressor 0;
           Report KNeighborsRegressor 0]) as Hlabels.
  { rewrite fmap_cons, !fmap_app.
    rewrite (scores_labels _ _ _ _ _ _ _ Hcompared),
      (ablation_labels _ _ _ _ _ _ Hablated).
    apply final_cells_Some in Hlast
      as (? & ? & ? & ? & ? & ? & ? & ? & _ & _ & _ & _ & _ & _ & _ & _ & _ & ->).
    unfold baseline_line in Hfirst.
    destruct (dummy_fit _ _); [|done]. cbn [mbind option_bind] in Hfirst.
    destruct (mean_squared_error _ _); [|done]. by injection Hfirst as <-. }
  split; [|done].
  rewrite <-(length_fmap without_score), Hlabels. reflexivity.
Qed.

Lemma run_readable to_datetime training_set validation_set test_set
    toPredict_2022 s o s' :
  run to_datetime training_set validation_set test_set toPredict_2022 s =
    Some (o, s') ->
  readable to_datetime ("Volum" :: features_to_test) training_set /\
  readable to_datetime ("Volum" :: features_to_test) validation_set /\
  readable to_datetime ("Volum" :: features_to_test) test_set /\
  readable to_datetime ["Volum"; "Hour"; "isWeekday"; "Month"; "Lufttemperatur"]
    toPredict_2022.
Proof.
  intros (lines & Hwords & _)%run_Some_in_words.
  apply notebook_in_words_Some in Hwords
    as (training & validation & test & future & X_train & y_train
        & X_validation & y_validation & X_test & y_test & X_toPredict
        & y_toPredict & first & compared & ablated & last
        & Htr & Hva & Hte & Hfu & Hstr & Hsva & Hste & Hsfu
        & Hfirst & Hcompared & Hablated & Hlast & _).
  apply ablation_Some_columns in Hablated as [Hcols Hcolsv].
  unfold regression_models in Hcompared. rewrite scores_cons in Hcompared.
  destruct (evaluation _ DummyRegressor _ _ _ _) as [r|] eqn:Hr; [|done].
  apply evaluation_Some_requires in Hr as [[_ Hrows] [_ Hrowsv]].
  apply final_cells_Some in Hlast
    as (X_tr & X_v & X_te & knr & rfr & best & Xp & y_pred
        & _ & _ & Hdte & _ & _ & Hbest & HXp & Hpred & _).
  pose proof (proj1 (evaluation_Some_iff _ _ _ _ _ _ _) Hbest)
    as (Xt & Xte & y_test_pred & targets & Hfit & _ & Hm & _ & _ & Htargets & _).
  pose proof (ct_fit_spec _ _ _ Hfit) as Hspec.
  apply evaluation_Some_requires in Hbest as [_ [Hsel Hrowst]].
  pose proof (ct_transform_Some_requires _ _ _ HXp) as [Hself Hrowsf].
  rewrite Hspec in Hself.
  pose proof (column_names_drop_columns _ _ _ Hdte) as Hsub.
  pose proof (proj1 (proj1 (drop_columns_Some _ _ _) Hdte)) as Hbad.
  assert (index X_te = index X_test) as Hidx
    by (apply drop_columns_Some in Hdte as [_ ->]; done).
  rewrite Hidx in Hrowst.
  unfold baseline_line, dummy_fit, mean_squared_error in Hfirst.
  destruct (mapM (fmap to_float) (values y_train)) as [ys|] eqn:Hys; [|done].
  cbn [mbind option_bind] in Hfirst. case_decide; [|done].
  cbn [mbind option_bind] in Hfirst.
  destruct (mapM (fmap to_float) (values y_validation)) as [yv|] eqn:Hyv;
    [|done].
  split_and!.
  - eapply readable_split; [done..|]. intros idx.
    by eapply complete_target_timestamps.
  - eapply readable_split; [done..|]. intros idx.
    by eapply complete_target_timestamps.
  - eapply readable_split; [done|done| |done|].
    + intros n Hn. apply list_elem_of_In in Hn. simpl in Hn.
      destruct Hn as [<-|[<-|[<-|[<-|[<-|[<-|[]]]]]]];
        first [apply Hbad; by apply (bool_decide_unpack _)
              |apply Hsub, Hsel; by apply (bool_decide_unpack _)].
    + intros idx. by eapply complete_target_timestamps.
  - eapply readable_split; [done..| |done|].
    + intros n Hn. apply Hself. revert Hn. cbn [ct_categorical ct_numeric
        preprocess_selected_features]. rewrite !elem_of_app, !elem_of_cons.
      tauto.
    + intros idx Htimes Hin.
      apply list_elem_of_lookup_1 in Hin as [i Hi].
      destruct (handleNullValues_NaT _ _ _ _ _ Htimes Hi Hfu)
        as (_ & Hwfo & Hblank).
      assert (wf_frame X_toPredict) as Hwfp.
      { apply splitSet_Some in Hsfu as [[_ ->]%drop_columns_Some _].
        unfold wf_frame in *. cbn [index cols]. rewrite Forall_forall in Hwfo.
        apply Forall_forall. intros c [_ Hc]%list_elem_of_filter.
        by apply Hwfo. }
      assert (has_nan Xp = false) as Hnan.
      { destruct (has_nan Xp) eqn:Hnan; [|done].
        by rewrite (predict_checks_input KNeighborsRegressor _ _ _ _
                      eq_refl Hm Hnan) in Hpred. }
      destruct (get_col_is_Some "Lufttemperatur" X_toPredict) as [temp Htemp].
      { apply Hself. by apply (bool_decide_unpack _). }
      rewrite (ct_transform_in_words (preprocess_selected_features X_tr)
                 X_tr _ X_toPredict eq_refl Hfit Hwfp) in HXp.
      pose proof (design_complete_columns _ _ _ _ "Lufttemperatur" temp
                    Hwfp HXp Hnan ltac:(by apply (bool_decide_unpack _)) Htemp)
        as Hall.
      apply get_col_Some in Htemp as [_ Hin].
      apply splitSet_Some in Hsfu as [[_ ->]%drop_columns_Some _].
      cbn [cols] in Hin. apply list_elem_of_filter in Hin as [_ Hin].
      rewrite Forall_lookup in Hall.
      by destruct (Hall i None (Hblank temp Hin)).
Qed.

(** X11. A run that does not raise was given four readable tables: the
    timestamps are in the format and there is a row; the training, the
    validation and the test table have the six features and [Volum];
    the future table has [Volum], [Lufttemperatur] and the three
    categorical columns. *)
Theorem run_requires to_datetime training_set validation_set test_set
    toPredict_2022 s o s' :
  run to_datetime training_set validation_set test_set toPredict_2022 s =
    Some (o, s') ->
  readable to_datetime ("Volum" :: features_to_test) training_set /\
  readable to_datetime ("Volum" :: features_to_test) validation_set /\
  readable to_datetime ("Volum" :: features_to_test) test_set /\
  readable to_datetime ["Volum"; "Hour"; "isWeekday"; "Month"; "Lufttemperatur"]
    toPredict_2022.
Proof. apply run_readable. Qed.

(** X12. A run that does not raise writes the future table as it was
    imputed, with one change: the column [Volum] holds a whole number
    for every row, as a float, none missing. *)
Theorem run_writes_whole_numbers to_datetime training_set validation_set
    test_set toPredict_2022 s o s' :
  run to_datetime training_set validation_set test_set toPredict_2022 s =
    Some (o, s') ->
  exists future,
    handleNullValues to_datetime toPredict_2022 = Some future /\
    index (predictions_csv o) = index future /\
    column_names (predictions_csv o) = name <$> fields toPredict_2022 /\
    forall c imputed, cols future !! c = Some imputed ->
      exists column,
        cols (predictions_csv o) !! c = Some column /\
        name column = name imputed /\
        if bool_decide (name imputed = "Volum") then
          dtype_of column = Float64 /\
          length (values column) = length (index future) /\
          Forall whole_number (values column)
        else column = imputed.
Proof.
  intros (lines & Hwords & _)%run_Some_in_words.
  apply notebook_in_words_Some in Hwords
    as (training & validation & test & future & X_train & y_train
        & X_validation & y_validation & X_test & y_test & X_toPredict
        & y_toPredict & first & compared & ablated & last
        & _ & _ & _ & Hfu & _ & _ & _ & Hsfu & _ & _ & _ & Hlast & _).
  apply final_cells_Some in Hlast
    as (X_tr & X_v & X_te & knr & rfr & best & Xp & y_pred
        & _ & _ & _ & _ & _ & _ & _ & _ & Hout & _).
  pose proof (handleNullValues_column_names _ _ _ Hfu) as Hnames.
  apply splitSet_Some in Hsfu as [_ Hy].
  assert ("Volum" ∈ column_names future) as Hin.
  { apply get_col_Some in Hy as [<- Hy]. by apply list_elem_of_fmap_2. }
  unfold overwrite_target in Hout.
  rewrite (proj2 (has_col_elem_of _ _) Hin) in Hout.
  case_decide as Hlen; [|done]. injection Hout as Hout.
  exists future. rewrite <-Hout. cbn [index cols]. split_and!.
  - done.
  - done.
  - rewrite <-Hnames. destruct future as [idx l]. apply column_names_replace.
  - intros c imputed Himputed. eexists.
    rewrite list_lookup_fmap, Himputed. csimpl.
    split; [done|]. rewrite name_replace_column.
    split; [done|]. unfold replace_column.
    case_bool_decide; [|done]. cbn [dtype_of values]. split_and!.
    + done.
    + by rewrite length_fmap.
    + apply Forall_fmap, Forall_forall. intros r _. by eexists.
Qed.

End RunProperties.

(** ** The transformer of an ablation step *)

Lemma list_remove_Some_elem_of x l l' n :
  NoDup l -> list_remove x l = Some l' -> (n ∈ l' <-> n ∈ l /\ n <> x).
Proof.
  revert l'. induction l as [|y l IH]; intros l' Hnd Hrem; [done|].
  apply NoDup_cons in Hnd as [Hy Hnd]. simpl in Hrem. case_decide as Hyx.
  - subst y. injection Hrem as <-. rewrite elem_of_cons. split.
    + intros Hn. split; [by right|]. by intros ->.
    + by intros [[->|Hn] Hne].
  - destruct (list_remove x l) as [l''|] eqn:Hl; [|done].
    injection Hrem as <-.
    rewrite !elem_of_cons, (IH l'' Hnd eq_refl). split.
    + intros [->|[Hn Hne]]; split; auto.
    + intros [[->|Hn] Hne]; auto.
Qed.

Lemma list_remove_None_not_elem_of x l : list_remove x l = None -> x ∉ l.
Proof.
  induction l as [|y l IH]; intros Hrem; [by intros ?%elem_of_nil|].
  simpl in Hrem. case_decide as Hyx; [done|].
  destruct (list_remove x l); [done|].
  apply not_elem_of_cons. split; [done|]. by apply IH.
Qed.

Lemma try_remove_elem_of x l n :
  NoDup l -> (n ∈ try_remove x l <-> n ∈ l /\ n <> x).
Proof.
  intros Hnd. unfold try_remove.
  destruct (list_remove x l) as [l'|] eqn:Hrem.
  - by apply list_remove_Some_elem_of.
  - apply list_remove_None_not_elem_of in Hrem. split; [|by intros []].
    intros Hn. split; [done|]. by intros ->.
Qed.

Lemma check_feature_process_elem_of X f n :
  n ∈ ct_categorical (check_feature_process X f) ++
      ct_numeric (check_feature_process X f) <->
  n ∈ features_to_test /\ n <> f.
Proof.
  unfold check_feature_process. cbn [ct_categorical ct_numeric].
  rewrite elem_of_app, !try_remove_elem_of
    by (by apply (bool_decide_unpack _)).
  unfold features_to_test. rewrite !elem_of_cons, !elem_of_nil. tauto.
Qed.

(** X13. [check_feature_process] gives the transformer of the six features
    without the one named, whatever the name is: the name is in neither
    list, and every other feature stays in its list; unknown categories
    are ignored. *)
Theorem check_feature_process_removes X_train feature_to_drop :
  ct_handle_unknown (check_feature_process X_train feature_to_drop) = HU_ignore /\
  (forall n,
     n ∈ ct_categorical (check_feature_process X_train feature_to_drop) <->
     n ∈ ["Hour"; "isWeekday"; "Month"] /\ n <> feature_to_drop) /\
  (forall n,
     n ∈ ct_numeric (check_feature_process X_train feature_to_drop) <->
     n ∈ ["Lufttemperatur"; "Globalstraling"; "Solskinstid"] /\
     n <> feature_to_drop).
Proof.
  split_and!; [done|..]; intros n; unfold check_feature_process;
    cbn [ct_categorical ct_numeric];
    apply try_remove_elem_of; by apply (bool_decide_unpack _).
Qed.

Section AblationStep.
Context `{Regressors}.

Lemma check_feature_full_run n_feature X_train y_train
    X_validation y_validation best_models s :
  n_feature ∈ column_names X_train ->
  n_feature ∈ column_names X_validation ->
  check_feature X_train y_train X_validation y_validation best_models
    n_feature s =
  full_feature_run X_train y_train X_validation y_validation best_models
    n_feature s.
Proof.
  intros Hin Hinv.
  assert (exists Xd, drop_columns [n_feature] X_train = Some Xd) as [Xd Hd].
  { eexists. apply drop_columns_Some. split; [|done].
    by intros ? ->%list_elem_of_singleton. }
  assert (exists Xvd, drop_columns [n_feature] X_validation = Some Xvd)
    as [Xvd Hdv].
  { eexists. apply drop_columns_Some. split; [|done].
    by intros ? ->%list_elem_of_singleton. }
  unfold check_feature, full_feature_run, mbind, NB_bind, lift, print,
    new_transformer.
  rewrite Hd, Hdv. simpl.
  change (check_feature_process Xd n_feature)
    with (check_feature_process X_train n_feature).
  eapply for_each_check_feature_drop; [apply lookup_insert_eq|done..|].
  intros n [_ Hn]%check_feature_process_elem_of ->%list_elem_of_singleton.
  done.
Qed.

(** X14. In a step of the ablation loop the removal of the column from the
    tables changes nothing: for every name that is a column of the
    training and of the validation features, the step gives what the
    run on the full tables gives with the transformer of
    [check_feature_process]. *)
Theorem check_feature_drop_is_redundant n_feature X_train y_train
    X_validation y_validation best_models s :
  n_feature ∈ column_names X_train ->
  n_feature ∈ column_names X_validation ->
  check_feature X_train y_train X_validation y_validation best_models
    n_feature s =
  full_feature_run X_train y_train X_validation y_validation best_models
    n_feature s.
Proof. apply check_feature_full_run. Qed.

End AblationStep.

(** ** A feature name that is in neither list *)

(** The design matrix for the numeric features in another order is the
    design matrix with its columns in another order. *)
Lemma take_cells_app_l {A} (rows : list nat) (l1 l2 : list A) :
  Forall (fun j => j < length l1)%nat rows ->
  take_cells rows (l1 ++ l2) = take_cells rows l1.
Proof.
  induction 1 as [|j rows Hj _ IH]; [done|].
  by rewrite !take_cells_cons, lookup_app_l, IH.
Qed.

Lemma take_cells_app_seq {A} (l1 l2 : list A) (rest : list nat) :
  take_cells (seq 0 (length l1) ++ rest) (l1 ++ l2) =
  l1 ++ take_cells rest (l1 ++ l2).
Proof.
  unfold take_cells at 1. rewrite omap_app. f_equal.
  change (omap (fun i => (l1 ++ l2) !! i) (seq 0 (length l1)))
    with (take_cells (seq 0 (length l1)) (l1 ++ l2)).
  rewrite take_cells_app_l, take_cells_seq; [done..|].
  apply Forall_forall. intros j [_ ?]%elem_of_seq. lia.
Qed.

Lemma numeric_order_permutation c :
  seq 0 c ++ [c + 2; c; c + 1]%nat ≡ₚ seq 0 (c + 3).
Proof.
  rewrite seq_app. apply Permutation_app_head. simpl.
  replace (c + 2)%nat with (S (S c)) by lia.
  replace (c + 1)%nat with (S c) by lia.
  etrans; [apply Permutation_swap|]. apply perm_skip.
  apply Permutation_swap.
Qed.

Lemma length_indicators i (cat_fit cat : list (list cell)) :
  length cat = length cat_fit ->
  length (concat (zip_with (fun train vals =>
                              indicator (ohe_fit train) (cell_at i vals))
                    cat_fit cat)) =
  length (concat (ohe_fit <$> cat_fit)).
Proof.
  revert cat. induction cat_fit as [|train cat_fit IH]; intros [|vals cat] Hlen;
    simplify_eq/=; [done|].
  rewrite !length_app, length_indicator. f_equal. by apply IH.
Qed.

Lemma select_three a b d X :
  select_columns [a; b; d] X =
  (va ← values <$> get_col a X;
   vb ← values <$> get_col b X;
   vd ← values <$> get_col d X;
   Some [va; vb; vd]).
Proof.
  unfold select_columns. csimpl.
  by destruct (get_col a X), (get_col b X), (get_col d X).
Qed.

Lemma design_numeric_order hu cats a b d X_fit :
  exists width order,
    order ≡ₚ seq 0 width /\
    forall X,
      design_in_words (ColumnTransformer hu cats [d; a; b]) X_fit X =
      permute_columns order <$>
        design_in_words (ColumnTransformer hu cats [a; b; d]) X_fit X /\
      forall M,
        design_in_words (ColumnTransformer hu cats [a; b; d]) X_fit X = Some M ->
        Forall (fun row => length row = width) M.
Proof.
  destruct (select_columns cats X_fit) as [cat_fit|] eqn:Hcat_fit.
  2: { exists 0%nat, []. split; [done|]. intros X.
       unfold design_in_words. cbn [ct_categorical]. by rewrite Hcat_fit. }
  set (c := length (concat (ohe_fit <$> cat_fit))).
  exists (c + 3)%nat, (seq 0 c ++ [c + 2; c; c + 1])%nat.
  split; [apply numeric_order_permutation|].
  intros X. unfold design_in_words. cbn [ct_categorical ct_numeric].
  rewrite Hcat_fit. cbn [mbind option_bind].
  rewrite !select_three.
  destruct (get_col a X_fit) as [fa|], (get_col b X_fit) as [fb|],
    (get_col d X_fit) as [fd|];
    cbn [mbind option_bind fmap option_fmap option_map]; try (by split).
  destruct (select_columns cats X) as [cat|] eqn:Hcat;
    cbn [mbind option_bind fmap option_fmap option_map]; [|by split].
  destruct (get_col a X) as [sa|], (get_col b X) as [sb|],
    (get_col d X) as [sd|];
    cbn [mbind option_bind fmap option_fmap option_map]; try (by split).
  case_decide; [by split|].
  assert (length cat = length cat_fit) as Hlen.
  { by rewrite (length_select_columns _ _ _ Hcat),
      (length_select_columns _ _ _ Hcat_fit). }
  split.
  - cbn [fmap option_fmap option_map]. f_equal. unfold permute_columns.
    rewrite <-list_fmap_compose. apply list_fmap_ext. intros k i _. simpl.
    unfold c. rewrite <-(length_indicators i cat_fit cat Hlen).
    set (cs := concat _).
    rewrite take_cells_app_seq. f_equal.
    rewrite !take_cells_cons.
    rewrite !lookup_app_r by lia.
    replace (length cs + 2 - length cs)%nat with 2%nat by lia.
    replace (length cs - length cs)%nat with 0%nat by lia.
    replace (length cs + 1 - length cs)%nat with 1%nat by lia.
    done.
  - intros M [= <-]. apply Forall_fmap, Forall_forall. intros i _. simpl.
    rewrite length_app, (length_indicators i cat_fit cat Hlen). simpl.
    unfold c. lia.
Qed.

Section AbsentFeature.
Context `{Regressors}.

Lemma ct_fit_None_design spec X :
  ct_fit spec X = None -> design_in_words spec X X = None.
Proof.
  unfold ct_fit, design_in_words.
  destruct (select_columns (ct_categorical spec) X); [|done].
  destruct (select_columns (ct_numeric spec) X); [|done].
  cbn [mbind option_bind]. case_decide; [|done]. intros _.
  by rewrite decide_True by by left.
Qed.

(** The score of an evaluation in plain words. *)
Lemma score_in_words spec e X y Xv yv :
  ct_handle_unknown spec = HU_ignore ->
  wf_frame X -> wf_frame Xv ->
  score spec e X y Xv yv =
  (Xt ← design_in_words spec X X;
   Xe ← design_in_words spec X Xv;
   y_pred ← (m ← fit e Xt (values y); predict m Xe);
   MSE ← mean_squared_error (values yv) y_pred;
   Some (round_half_even (sqrt MSE))).
Proof.
  intros Hhu Hwf Hwfv. unfold score, evaluation.
  destruct (ct_fit spec X) as [p|] eqn:Hfit.
  - cbn [mbind option_bind].
    rewrite (ct_transform_in_words spec X p X Hhu Hfit Hwf).
    rewrite (ct_transform_in_words spec X p Xv Hhu Hfit Hwfv).
    destruct (design_in_words spec X X) as [Xt|]; [|done].
    cbn [mbind option_bind].
    destruct (fit e Xt (values y)) as [m|].
    + cbn [mbind option_bind].
      destruct (design_in_words spec X Xv) as [Xe|]; [|done].
      cbn [mbind option_bind].
      destruct (predict m Xe) as [y_pred|]; [|done].
      cbn [mbind option_bind].
      by destruct (mean_squared_error (values yv) y_pred).
    + cbn [mbind option_bind].
      by destruct (design_in_words spec X Xv).
  - by rewrite (ct_fit_None_design _ _ Hfit).
Qed.

Lemma score_numeric_order hu cats a b d e X y Xv yv :
  hu = HU_ignore ->
  wf_frame X -> wf_frame Xv ->
  order_blind e ->
  score (ColumnTransformer hu cats [d; a; b]) e X y Xv yv =
  score (ColumnTransformer hu cats [a; b; d]) e X y Xv yv.
Proof.
  intros -> Hwf Hwfv Hblind. rewrite !score_in_words by done.
  destruct (design_numeric_order HU_ignore cats a b d X)
    as (width & order & Horder & Hdesign).
  destruct (Hdesign X) as [-> Hwidth].
  destruct (Hdesign Xv) as [-> Hwidthv].
  destruct (design_in_words _ X X) as [Xt|]; [|done].
  destruct (design_in_words _ X Xv) as [Xe|]; [|done].
  cbn [fmap option_fmap option_map mbind option_bind].
  by rewrite (Hblind width order Xt (values y) Xe Horder
                (Hwidth Xt eq_refl) (Hwidthv Xe eq_refl)).
Qed.

Lemma ablation_step_absent n_feature X y Xv yv :
  n_feature ∉ ["Hour"; "isWeekday"; "Month"] ->
  n_feature ∉ ["Lufttemperatur"; "Globalstraling"; "Solskinstid"] ->
  n_feature ∈ column_names X ->
  n_feature ∈ column_names Xv ->
  ablation_step X y Xv yv n_feature =
  (k ← score (check_feature_process X n_feature) KNeighborsRegressor X y Xv yv;
   r ← score (check_feature_process X n_feature) RandomForestRegressor
         X y Xv yv;
   Some [Header n_feature; Report KNeighborsRegressor k;
         Report RandomForestRegressor r]).
Proof.
  intros Hcat Hnum Hin Hinv.
  assert (exists Xd, drop_columns [n_feature] X = Some Xd) as [Xd Hd].
  { eexists. apply drop_columns_Some. split; [|done].
    by intros ? ->%list_elem_of_singleton. }
  assert (exists Xvd, drop_columns [n_feature] Xv = Some Xvd) as [Xvd Hdv].
  { eexists. apply drop_columns_Some. split; [|done].
    by intros ? ->%list_elem_of_singleton. }
  unfold ablation_step. rewrite Hd, Hdv. cbn [mbind option_bind].
  change (check_feature_process Xd n_feature)
    with (check_feature_process X n_feature).
  rewrite !scores_cons.
  rewrite !(evaluation_drop [n_feature] _ _ X Xd _ Xv Xvd _ Hd Hdv).
  2,3: intros n [_ Hn]%check_feature_process_elem_of
         ->%list_elem_of_singleton; done.
  unfold score.
  destruct (evaluation _ KNeighborsRegressor X y Xv yv) as [k|]; [|done].
  cbn [fmap option_fmap option_map mbind option_bind].
  by destruct (evaluation _ RandomForestRegressor X y Xv yv) as [r|].
Qed.

(** C3 (as amended). For a feature name that is in neither list and is
    a column of the training and of the validation features,
    [check_feature_process] leaves both lists as they are and the step
    of the ablation loop does not raise on the removal: it prints the
    header and, for each of the two estimators, the score of its
    evaluation on the full tables.  For an estimator whose predictions
    do not depend on the order of the feature columns, that score is the
    score of the full-feature run, which [compare_models] prints with
    the transformer of [preprocess]. *)
Theorem check_feature_absent_feature n_feature X_train y_train
    X_validation y_validation knr rfr s o1 o2 :
  n_feature ∉ ["Hour"; "isWeekday"; "Month"] ->
  n_feature ∉ ["Lufttemperatur"; "Globalstraling"; "Solskinstid"] ->
  n_feature ∈ column_names X_train ->
  n_feature ∈ column_names X_validation ->
  wf_frame X_train -> wf_frame X_validation ->
  estimators s !! knr = Some (KNeighborsRegressor, o1) ->
  estimators s !! rfr = Some (RandomForestRegressor, o2) ->
  check_feature_process X_train n_feature =
    ColumnTransformer HU_ignore ["Hour"; "isWeekday"; "Month"]
      ["Lufttemperatur"; "Globalstraling"; "Solskinstid"] /\
  prints (check_feature X_train y_train X_validation y_validation [knr; rfr]
            n_feature) s
    (k ← score (check_feature_process X_train n_feature) KNeighborsRegressor
           X_train y_train X_validation y_validation;
     r ← score (check_feature_process X_train n_feature) RandomForestRegressor
           X_train y_train X_validation y_validation;
     Some [Header n_feature; Report KNeighborsRegressor k;
           Report RandomForestRegressor r]) /\
  (forall e, order_blind e ->
     score (check_feature_process X_train n_feature) e
       X_train y_train X_validation y_validation =
     score (preprocess X_train) e X_train y_train X_validation y_validation) /\
  (forall pre est e o o',
     transformers s !! pre = Some (preprocess X_train, o) ->
     estimators s !! est = Some (e, o') ->
     prints (compare_models pre X_train y_train X_validation y_validation est) s
       ((fun z => [Report e z]) <$>
          score (preprocess X_train) e
            X_train y_train X_validation y_validation)).
Proof.
  intros Hcat Hnum Hin Hinv Hwf Hwfv Hk Hr.
  pose proof (check_feature_process_absent X_train n_feature Hcat Hnum) as Hspec.
  split_and!.
  - done.
  - rewrite <-(ablation_step_absent _ _ _ _ _ Hcat Hnum Hin Hinv).
    by eapply check_feature_prints.
  - intros e Hblind. rewrite Hspec. unfold preprocess.
    by apply score_numeric_order.
  - intros pre est e o o' Hpre Hest. unfold prints, score.
    rewrite (compare_models_run _ _ _ _ _ _ _ _ _ _ _ Hpre Hest).
    destruct (evaluation _ e _ _ _ _) as [r|]; [|done]. simpl.
    split; [done|]. by eapply keeps_estimators_evaluated.
Qed.

End AbsentFeature.

(** ** The scores *)

Lemma round_half_even_nonneg x : (0 <= x)%R -> 0 <= round_half_even x.
Proof.
  intros Hx. pose proof (Rfloor_spec x) as [_ Hup].
  assert (-1 < Rfloor x) as Hfloor.
  { apply lt_IZR. lra. }
  unfold round_half_even. repeat case_decide; try lia.
  destruct (Z.even (Rfloor x)); lia.
Qed.

Section Scores.
Context `{Regressors}.

Lemma evaluation_nonneg spec e X y Xv yv r :
  evaluation spec e X y Xv yv = Some r -> 0 <= r.2.
Proof.
  intros (? & ? & ? & MSE & _ & _ & _ & _ & _ & _ & ->)%evaluation_Some.
  apply round_half_even_nonneg, sqrt_pos.
Qed.

Lemma scores_nonneg spec es X y Xv yv lines :
  scores spec es X y Xv yv = Some lines -> Forall scored_from_zero lines.
Proof.
  revert lines. induction es as [|e es IH]; intros lines.
  - unfold scores. csimpl. by intros [= <-].
  - rewrite scores_cons.
    destruct (evaluation _ _ _ _ _ _) as [r|] eqn:Hr; [|done].
    cbn [mbind option_bind].
    destruct (scores spec es X y Xv yv) as [l|]; [|done].
    cbn [mbind option_bind]. intros [= <-]. constructor; [|by apply IH].
    by eapply evaluation_nonneg.
Qed.

Lemma ablation_nonneg fs X y Xv yv lines :
  ablation fs X y Xv yv = Some lines -> Forall scored_from_zero lines.
Proof.
  revert lines. induction fs as [|f fs IH]; intros lines.
  - unfold ablation. csimpl. by intros [= <-].
  - rewrite ablation_cons.
    destruct (ablation_step X y Xv yv f) as [l|] eqn:Hstep; [|done].
    cbn [mbind option_bind].
    destruct (ablation fs X y Xv yv) as [ls|]; [|done].
    cbn [mbind option_bind]. intros [= <-].
    apply Forall_app. split; [|by apply IH].
    unfold ablation_step in Hstep.
    destruct (drop_columns [f] X) as [Xd|]; [|done].
    destruct (drop_columns [f] Xv) as [Xvd|]; [|done].
    cbn [mbind option_bind] in Hstep.
    destruct (scores _ _ _ _ _ _) as [l'|] eqn:Hl; [|done].
    injection Hstep as <-. constructor; [done|]. by eapply scores_nonneg.
Qed.

(** X15. Every score that a run prints is a whole number that is not
    negative. *)
Theorem run_scores_nonnegative to_datetime training_set validation_set
    test_set toPredict_2022 s o s' :
  run to_datetime training_set validation_set test_set toPredict_2022 s =
    Some (o, s') ->
  exists lines,
    stdout s' = stdout s ++ lines /\ Forall scored_from_zero lines.
Proof.
  intros (lines & Hwords & Hout)%run_Some_in_words.
  exists lines. split; [done|].
  apply notebook_in_words_Some in Hwords
    as (training & validation & test & future & X_train & y_train
        & X_validation & y_validation & X_test & y_test & X_toPredict
        & y_toPredict & first & compared & ablated & last
        & _ & _ & _ & _ & _ & _ & _ & _ & Hfirst & Hcompared & Hablated
        & Hlast & ->).
  constructor; [|repeat (apply Forall_app; split)].
  - unfold baseline_line in Hfirst.
    destruct (dummy_fit _ _); [|done]. cbn [mbind option_bind] in Hfirst.
    destruct (mean_squared_error _ _); [|done]. injection Hfirst as <-.
    apply round_half_even_nonneg, sqrt_pos.
  - by eapply scores_nonneg.
  - by eapply ablation_nonneg.
  - apply final_cells_Some in Hlast
      as (? & ? & ? & knr & rfr & best & ? & ?
          & _ & _ & _ & Hknr & Hrfr & Hbest & _ & _ & _ & ->).
    repeat constructor; by eapply evaluation_nonneg.
Qed.

(** X16. When the dummy regressor of the library is the mean predictor, the
    baseline cell prints the score that the comparison cell prints for
    the dummy regressor. *)
Theorem baseline_is_dummy_score X_train y_train X_validation y_validation r s :
  (forall Xt ys m, fit DummyRegressor Xt ys = Some m ->
     exists mu, dummy_fit (length Xt) ys = Some mu /\
       forall Xe, predict m Xe = Some (dummy_predict mu (length Xe))) ->
  wf_frame X_train -> wf_frame X_validation ->
  evaluation (preprocess X_train) DummyRegressor
    X_train y_train X_validation y_validation = Some r ->
  exists s',
    baseline X_train y_train X_validation y_validation s = Some (tt, s') /\
    stdout s' = stdout s ++ [Report DummyRegressor r.2].
Proof.
  intros Hdummy Hwf Hwfv
    (Xt & Xe & y_pred & MSE & Hfit & HXt & Hm & HXe & Hpred & Hmse & Hr)
      %evaluation_Some.
  destruct (Hdummy _ _ _ Hm) as (mu & Hmu & Hmean).
  rewrite Hmean in Hpred. injection Hpred as <-.
  rewrite (ct_transform_length _ _ _ Hwf HXt) in Hmu.
  rewrite (ct_transform_length _ _ _ Hwfv HXe) in Hmse.
  unfold baseline. rewrite bind_run, lift_run, Hmu.
  rewrite bind_run, lift_run, Hmse. unfold print. rewrite Hr.
  by eexists.
Qed.

End Scores.

(** ** The whole run on the example tables *)

Example handleNullValues_hour_seven_scored :
  handleNullValues to_datetime_fixed hour_seven_scored =
  Some hour_seven_scored_filled.
Proof. reflexivity. Qed.

Example handleNullValues_hour_seven_future :
  handleNullValues to_datetime_fixed hour_seven_future = Some hour_seven.
Proof. reflexivity. Qed.

Lemma baseline_line_example :
  baseline_line three_days_X three_days_y hour_seven_X mean_y =
  Some (Report DummyRegressor 0).
Proof.
  unfold baseline_line, dummy_fit. simpl.
  rewrite mean_three_days_y. unfold dummy_predict, mean_squared_error. simpl.
  replace (Rmean [((25 - 25) * (25 - 25))%R]) with 0%R
    by (unfold Rmean; simpl; lra).
  by rewrite sqrt_0, (round_half_even_IZR 0).
Qed.

Lemma scores_example spec es :
  ct_handle_unknown spec = HU_ignore ->
  ct_categorical spec ++ ct_numeric spec ⊆ column_names three_days_X ->
  scores (H := mean_regressors) spec es
    three_days_X three_days_y hour_seven_X mean_y =
  Some ((fun e => Report e 0) <$> es).
Proof.
  intros Hhu Hcols. induction es as [|e es IH]; [done|].
  rewrite scores_cons.
  destruct (example_evaluation spec e Hhu Hcols) as [params ->].
  cbn [mbind option_bind]. by rewrite IH.
Qed.

(** The mean predictor does not depend on the order of the feature
    columns. *)
Lemma has_nan_permute_columns width order (X : matrix) :
  order ≡ₚ seq 0 width ->
  Forall (fun row => length row = width) X ->
  has_nan (permute_columns order X) = has_nan X.
Proof.
  intros Horder Hwidth.
  destruct (has_nan X) eqn:Hnan.
  - destruct (has_nan (permute_columns order X)) eqn:Hnan'; [done|].
    apply has_nan_false in Hnan'.
    assert (has_nan X = false); [|congruence].
    apply has_nan_false. unfold permute_columns in Hnan'.
    rewrite Forall_fmap in Hnan'.
    rewrite Forall_forall in Hwidth, Hnan'. apply Forall_forall.
    intros row Hrow. specialize (Hnan' row Hrow). simpl in Hnan'.
    by rewrite take_cells_all in Hnan' by (by rewrite Hwidth).
  - apply has_nan_false in Hnan. apply has_nan_false.
    unfold permute_columns. rewrite Forall_fmap.
    rewrite Forall_forall in Hwidth, Hnan. apply Forall_forall.
    intros row Hrow. simpl.
    rewrite take_cells_all by (by rewrite Hwidth). by apply Hnan.
Qed.

Lemma mean_regressors_order_blind e : order_blind (H := mean_regressors) e.
Proof.
  intros width order Xt ys Xe Horder Hwidth Hwidthv.
  cbn [fit predict mean_regressors]. unfold mean_fit, mean_predict.
  rewrite (has_nan_permute_columns width order Xt Horder Hwidth).
  rewrite (has_nan_permute_columns width order Xe Horder Hwidthv).
  assert (forall X : matrix, length (permute_columns order X) = length X)
    as Hlen by (intros X; unfold permute_columns; by rewrite length_fmap).
  by rewrite !Hlen.
Qed.

(** A name that is in neither list and is not a column: the comparison
    cell prints its eight scores, the step of the ablation loop
    raises. *)
Lemma check_feature_absent_column_raises :
  ("Vindstyrke" ∉ ["Hour"; "isWeekday"; "Month"]) /\
  ("Vindstyrke" ∉ ["Lufttemperatur"; "Globalstraling"; "Solskinstid"]) /\
  (fun r => stdout r.2) <$>
    compare_all (H := mean_regressors) three_days_X three_days_y
      hour_seven_X mean_y two_estimators =
    Some ((fun e => Report e 0) <$> regression_models) /\
  check_feature (H := mean_regressors) three_days_X three_days_y
    hour_seven_X mean_y [0; 1]%nat "Vindstyrke" two_estimators = None.
Proof.
  split_and!.
  - by apply (bool_decide_unpack _).
  - by apply (bool_decide_unpack _).
  - rewrite compare_all_stdout.
    by rewrite scores_example by (done || by apply (bool_decide_unpack _)).
  - reflexivity.
Qed.

Lemma wind_evaluation e :
  score (H := mean_regressors) (preprocess three_days_wind_X) e
    three_days_wind_X three_days_y hour_seven_wind_X mean_y = Some 0.
Proof.
  unfold score.
  destruct (ct_fit_is_Some (preprocess three_days_wind_X) three_days_wind_X)
    as [params Hp]; [by apply (bool_decide_unpack _)|done|].
  rewrite (mean_evaluation _ e _ _ params); try done;
    try (by repeat constructor);
    try (apply complete_columns_all); by apply (bool_decide_unpack _).
Qed.

(** With a column [Vindstyrke] in both tables the step of the ablation
    loop prints the header and the two scores of the full-feature
    run. *)
Lemma check_feature_absent_feature_witness :
  prints (check_feature (H := mean_regressors) three_days_wind_X three_days_y
            hour_seven_wind_X mean_y [0; 1]%nat "Vindstyrke") two_estimators
    (Some [Header "Vindstyrke"; Report KNeighborsRegressor 0;
           Report RandomForestRegressor 0]) /\
  score (H := mean_regressors) (preprocess three_days_wind_X)
    KNeighborsRegressor three_days_wind_X three_days_y hour_seven_wind_X mean_y =
    Some 0.
Proof.
  destruct (check_feature_absent_feature (H := mean_regressors)
              "Vindstyrke" three_days_wind_X three_days_y hour_seven_wind_X mean_y
              0%nat 1%nat two_estimators None None)
    as (_ & Hstep & Hsame & _);
    [by apply (bool_decide_unpack _)..|by repeat constructor
    |by repeat constructor|reflexivity|reflexivity|].
  rewrite !Hsame in Hstep by apply mean_regressors_order_blind.
  rewrite !wind_evaluation in Hstep.
  exact (conj Hstep (wind_evaluation KNeighborsRegressor)).
Defined.

Lemma ablation_step_example f :
  f ∈ features_to_test ->
  ablation_step (H := mean_regressors)
    three_days_X three_days_y hour_seven_X mean_y f =
  Some [Header f; Report KNeighborsRegressor 0; Report RandomForestRegressor 0].
Proof.
  intros Hf.
  assert (features_to_test ⊆ column_names three_days_X) as Hcols
    by (by apply (bool_decide_unpack _)).
  assert (features_to_test ⊆ column_names hour_seven_X) as Hcolsv
    by (by apply (bool_decide_unpack _)).
  assert (exists Xd, drop_columns [f] three_days_X = Some Xd) as [Xd Hd].
  { eexists. apply drop_columns_Some. split; [|done].
    intros ? ->%list_elem_of_singleton. by apply Hcols. }
  assert (exists Xvd, drop_columns [f] hour_seven_X = Some Xvd) as [Xvd Hdv].
  { eexists. apply drop_columns_Some. split; [|done].
    intros ? ->%list_elem_of_singleton. by apply Hcolsv. }
  unfold ablation_step. rewrite Hd, Hdv. cbn [mbind option_bind].
  rewrite !scores_cons.
  rewrite !(evaluation_drop [f] _ _ three_days_X Xd _ hour_seven_X Xvd _ Hd Hdv).
  2,3: intros n [_ Hn]%check_feature_process_elem_of
         ->%list_elem_of_singleton; done.
  destruct (example_evaluation (check_feature_process Xd f)
              KNeighborsRegressor) as [p1 ->]; [done| |].
  { intros n [Hn _]%check_feature_process_elem_of. by apply Hcols. }
  destruct (example_evaluation (check_feature_process Xd f)
              RandomForestRegressor) as [p2 ->]; [done| |].
  { intros n [Hn _]%check_feature_process_elem_of. by apply Hcols. }
  reflexivity.
Qed.

Lemma ablation_example fs :
  fs ⊆ features_to_test ->
  ablation (H := mean_regressors) fs
    three_days_X three_days_y hour_seven_X mean_y =
  Some (concat ((fun f => [Header f; Report KNeighborsRegressor 0;
                           Report RandomForestRegressor 0]) <$> fs)).
Proof.
  induction fs as [|f fs IH]; intros Hfs; [done|].
  rewrite ablation_cons, ablation_step_example by (apply Hfs; by left).
  cbn [mbind option_bind]. rewrite IH; [done|].
  intros n Hn. apply Hfs. by right.
Qed.

Lemma final_cells_example :
  exists params,
    final_cells (H := mean_regressors) three_days_X three_days_y
      hour_seven_X mean_y hour_seven_X mean_y hour_seven_X hour_seven =
    Some (Outputs (H := mean_regressors)
            ((preprocess_selected_features three_days_reduced_X, Some params),
                   (KNeighborsRegressor, Some (KNeighborsRegressor, 25%R)))
                  hour_seven_predicted,
          [Report KNeighborsRegressor 0; Report RandomForestRegressor 0;
           Report KNeighborsRegressor 0]).
Proof.
  destruct final_steps_example
    as (params & Xp & Hd & Hdv & Heval & Hspec & HXp & Hpred).
  exists params. unfold final_cells.
  rewrite Hd, Hdv. cbn [mbind option_bind]. rewrite !Heval.
  cbn [mbind option_bind fst snd]. rewrite HXp. cbn [mbind option_bind].
  rewrite Hpred. cbn [mbind option_bind]. rewrite overwrite_hour_seven.
  reflexivity.
Qed.

Lemma notebook_in_words_example :
  exists params,
    notebook_in_words (H := mean_regressors) to_datetime_fixed
      three_days hour_seven_scored hour_seven_scored hour_seven_future =
    Some (Outputs (H := mean_regressors)
            ((preprocess_selected_features three_days_reduced_X, Some params),
                   (KNeighborsRegressor, Some (KNeighborsRegressor, 25%R)))
                  hour_seven_predicted,
          Report DummyRegressor 0 ::
          ((fun e => Report e 0) <$> regression_models) ++
          concat ((fun f => [Header f; Report KNeighborsRegressor 0;
                             Report RandomForestRegressor 0])
                    <$> features_to_test) ++
          [Report KNeighborsRegressor 0; Report RandomForestRegressor 0;
           Report KNeighborsRegressor 0]).
Proof.
  destruct final_cells_example as [params Hlast]. exists params.
  unfold notebook_in_words.
  rewrite handleNullValues_three_days, handleNullValues_hour_seven_scored,
    handleNullValues_hour_seven_future.
  cbn [mbind option_bind].
  replace (splitSet three_days_filled) with (Some (three_days_X, three_days_y))
    by reflexivity.
  replace (splitSet hour_seven_scored_filled)
    with (Some (hour_seven_X, mean_y)) by reflexivity.
  replace (splitSet hour_seven)
    with (Some (hour_seven_X, Series "Volum" Float64 [None])) by reflexivity.
  cbn [mbind option_bind].
  rewrite baseline_line_example. cbn [mbind option_bind].
  rewrite scores_example by (done || by apply (bool_decide_unpack _)).
  cbn [mbind option_bind].
  rewrite ablation_example by done. cbn [mbind option_bind].
  rewrite Hlast. reflexivity.
Qed.

Lemma run_example :
  exists params s',
    run (H := mean_regressors) to_datetime_fixed
      three_days hour_seven_scored hour_seven_scored hour_seven_future
      empty_notebook =
    Some (Outputs (H := mean_regressors)
            ((preprocess_selected_features three_days_reduced_X, Some params),
                   (KNeighborsRegressor, Some (KNeighborsRegressor, 25%R)))
                  hour_seven_predicted, s').
Proof.
  destruct notebook_in_words_example as [params Hwords]. exists params.
  pose proof (run_stdout (H := mean_regressors) to_datetime_fixed
                three_days hour_seven_scored hour_seven_scored hour_seven_future
                empty_notebook) as Hsame.
  rewrite Hwords in Hsame.
  destruct (run _ _ _ _ _ _) as [[o s']|]; [|done].
  injection Hsame as -> _. by exists s'.
Qed.

(** On the example tables the run prints the thirty lines. *)
Lemma run_prints_labels_witness :
  exists o s' lines,
    run (H := mean_regressors) to_datetime_fixed
      three_days hour_seven_scored hour_seven_scored hour_seven_future
      empty_notebook = Some (o, s') /\
    stdout s' = lines /\ length lines = 30%nat.
Proof.
  destruct run_example as (params & s' & Hrun).
  destruct (run_prints_labels (H := mean_regressors) _ _ _ _ _ _ _ _ Hrun)
    as (lines & Hout & Hlen & _).
  eexists _, s', lines. split; [exact Hrun|]. split; [exact Hout|exact Hlen].
Defined.

(** The example tables are readable. *)
Lemma run_requires_witness :
  readable to_datetime_fixed ("Volum" :: features_to_test) three_days /\
  readable to_datetime_fixed ("Volum" :: features_to_test) hour_seven_scored /\
  readable to_datetime_fixed
    ["Volum"; "Hour"; "isWeekday"; "Month"; "Lufttemperatur"]
    hour_seven_future.
Proof.
  destruct run_example as (params & s' & Hrun).
  destruct (run_requires (H := mean_regressors) _ _ _ _ _ _ _ _ Hrun)
    as (Htr & Hva & _ & Hfu).
  exact (conj Htr (conj Hva Hfu)).
Defined.

(** On the example tables the column [Volum] written holds whole
    numbers. *)
Lemma run_writes_whole_numbers_witness :
  exists column,
    cols hour_seven_predicted !! 6%nat = Some column /\
    name column = "Volum" /\ dtype_of column = Float64 /\
    length (values column) = 1%nat /\
    Forall whole_number (values column).
Proof.
  destruct run_example as (params & s' & Hrun).
  destruct (run_writes_whole_numbers (H := mean_regressors)
              _ _ _ _ _ _ _ _ Hrun) as (future & Hfuture & _ & _ & Hcolumns).
  rewrite handleNullValues_hour_seven_future in Hfuture.
  injection Hfuture as <-.
  destruct (Hcolumns 6%nat _ eq_refl)
    as (column & Hcolumn & Hname & Hdtype & Hlen & Hwhole).
  exists column.
  exact (conj Hcolumn (conj Hname (conj Hdtype (conj Hlen Hwhole)))).
Defined.

(** On the example tables no score printed is negative. *)
Lemma run_scores_nonnegative_witness :
  exists o s',
    run (H := mean_regressors) to_datetime_fixed
      three_days hour_seven_scored hour_seven_scored hour_seven_future
      empty_notebook = Some (o, s') /\
    Forall scored_from_zero (stdout s').
Proof.
  destruct run_example as (params & s' & Hrun).
  destruct (run_scores_nonnegative (H := mean_regressors)
              _ _ _ _ _ _ _ _ Hrun) as (lines & Hout & Hlines).
  eexists _, s'. split; [exact Hrun|]. rewrite Hout. exact Hlines.
Defined.

(** With the mean predictor the baseline cell prints the score 0 of the
    example, as the comparison does. *)
Lemma baseline_is_dummy_score_witness :
  exists s',
    baseline (H := mean_regressors) three_days_X three_days_y hour_seven_X mean_y
      empty_notebook = Some (tt, s') /\
    stdout s' = [Report DummyRegressor 0].
Proof.
  destruct (example_evaluation (preprocess three_days_X) DummyRegressor)
    as [params Heval]; [done|by apply (bool_decide_unpack _)|].
  apply (baseline_is_dummy_score (H := mean_regressors)
           three_days_X three_days_y hour_seven_X mean_y
           (params, (DummyRegressor, 25%R), 0) empty_notebook).
  - intros Xt ys m Hm. simpl in Hm. unfold mean_fit in Hm. simpl in Hm.
    destruct (dummy_fit (length Xt) ys) as [mu|]; [|done].
    injection Hm as <-. by exists mu.
  - repeat constructor.
  - repeat constructor.
  - exact Heval.
Defined.

(** The step of the ablation loop for the sunshine column on the
    example tables. *)
Lemma check_feature_drop_is_redundant_witness :
  check_feature (H := mean_regressors) three_days_X three_days_y
    hour_seven_X mean_y [0; 1]%nat "Solskinstid" two_estimators =
  full_feature_run three_days_X three_days_y
    hour_seven_X mean_y [0; 1]%nat "Solskinstid" two_estimators.
Proof.
  apply (check_feature_drop_is_redundant (H := mean_regressors));
    by apply (bool_decide_unpack _).
Defined.

(** ** Where the outputs come from *)

Section Outputs.
Context `{Regressors}.

Lemma final_cells_outputs X_train y_train X_validation y_validation
    X_test y_test X_toPredict toPredict_2022 o last :
  final_cells X_train y_train X_validation y_validation X_test y_test
    X_toPredict toPredict_2022 = Some (o, last) ->
  exists X_tr params Xt m Xp y_pred predictions,
    drop_columns bad_features X_train = Some X_tr /\
    ct_fit (preprocess_selected_features X_tr) X_tr = Some params /\
    ct_transform params X_tr = Some Xt /\
    fit KNeighborsRegressor Xt (values y_train) = Some m /\
    ct_transform params X_toPredict = Some Xp /\
    predict m Xp = Some y_pred /\
    overwrite_target toPredict_2022 y_pred = Some predictions /\
    o = Outputs ((preprocess_selected_features X_tr, Some params),
                 (KNeighborsRegressor, Some m)) predictions.
Proof.
  unfold final_cells. intros Hrun.
  destruct (drop_columns bad_features X_train) as [X_tr|]; [|done].
  destruct (drop_columns bad_features X_validation) as [X_v|]; [|done].
  cbn [mbind option_bind] in Hrun.
  destruct (evaluation _ KNeighborsRegressor X_tr y_train X_v y_validation)
    as [knr|]; [|done].
  cbn [mbind option_bind] in Hrun.
  destruct (evaluation _ RandomForestRegressor _ _ _ _) as [rfr|]; [|done].
  cbn [mbind option_bind] in Hrun.
  destruct (drop_columns bad_features X_test) as [X_te|]; [|done].
  cbn [mbind option_bind] in Hrun.
  destruct (evaluation _ KNeighborsRegressor X_tr y_train X_te y_test)
    as [best|] eqn:Hbest; [|done].
  cbn [mbind option_bind] in Hrun.
  destruct (ct_transform best.1.1 X_toPredict) as [Xp|] eqn:HXp; [|done].
  cbn [mbind option_bind] in Hrun.
  destruct (predict best.1.2 Xp) as [y_pred|] eqn:Hpred; [|done].
  cbn [mbind option_bind] in Hrun.
  destruct (overwrite_target toPredict_2022 y_pred) as [predictions|] eqn:Hout;
    [|done].
  cbn [mbind option_bind] in Hrun. injection Hrun as <- <-.
  apply evaluation_Some in Hbest
    as (Xt & ? & ? & ? & Hfit & HXt & Hm & _).
  by exists X_tr, best.1.1, Xt, best.1.2, Xp, y_pred, predictions.
Qed.

Lemma run_outputs_in_words to_datetime training_set validation_set test_set
    toPredict_2022 s o s' :
  run to_datetime training_set validation_set test_set toPredict_2022 s =
    Some (o, s') ->
  outputs_in_words to_datetime training_set toPredict_2022 = Some o.
Proof.
  intros (lines & Hwords & _)%run_Some_in_words.
  apply notebook_in_words_Some in Hwords
    as (training & validation & test & future & X_train & y_train
        & X_validation & y_validation & X_test & y_test & X_toPredict
        & y_toPredict & first & compared & ablated & last
        & Htr & _ & _ & Hfu & Hstr & _ & _ & Hsfu & _ & _ & _ & Hlast & _).
  apply final_cells_outputs in Hlast
    as (X_tr & params & Xt & m & Xp & y_pred & predictions
        & Hd & Hfit & HXt & Hm & HXp & Hpred & Hout & ->).
  unfold outputs_in_words.
  rewrite Htr, Hfu. cbn [mbind option_bind].
  rewrite Hstr, Hsfu. cbn [mbind option_bind].
  rewrite Hd. cbn [mbind option_bind].
  rewrite Hfit. cbn [mbind option_bind].
  rewrite HXt. cbn [mbind option_bind].
  rewrite Hm. cbn [mbind option_bind].
  rewrite HXp. cbn [mbind option_bind].
  rewrite Hpred. cbn [mbind option_bind].
  by rewrite Hout.
Qed.

(** X17. The saved model and the predictions written come from the training
    table and the future table alone: the validation and the test table
    decide what is printed and whether the run raises, not the outputs.
    Two runs on the same training and future tables that do not raise
    give the same outputs. *)
Theorem run_outputs_from_training_and_future to_datetime training_set
    validation_set test_set toPredict_2022 s o s' :
  run to_datetime training_set validation_set test_set toPredict_2022 s =
    Some (o, s') ->
  outputs_in_words to_datetime training_set toPredict_2022 = Some o /\
  forall validation_set' test_set' s2 o' s2',
    run to_datetime training_set validation_set' test_set' toPredict_2022 s2 =
      Some (o', s2') ->
    o' = o.
Proof.
  intros Hrun. pose proof (run_outputs_in_words _ _ _ _ _ _ _ _ Hrun) as Ho.
  split; [done|].
  intros validation_set' test_set' s2 o' s2' Hrun'.
  apply run_outputs_in_words in Hrun'. congruence.
Qed.

End Outputs.

(** On the example tables the outputs are those of the training and the
    future table. *)
Lemma run_outputs_from_training_and_future_witness :
  exists params,
    outputs_in_words (H := mean_regressors) to_datetime_fixed
      three_days hour_seven_future =
    Some (Outputs (H := mean_regressors)
            ((preprocess_selected_features three_days_reduced_X, Some params),
                   (KNeighborsRegressor, Some (KNeighborsRegressor, 25%R)))
                  hour_seven_predicted).
Proof.
  destruct run_example as (params & s' & Hrun). exists params.
  exact (proj1 (run_outputs_from_training_and_future (H := mean_regressors)
                  _ _ _ _ _ _ _ _ Hrun)).
Defined.

(** ** The target column of the future table *)

Lemma names_same_but_target (l l' : list series) :
  Forall2 same_but_target l l' -> name <$> l' = name <$> l.
Proof.
  induction 1 as [|s s' l l' [Hname _] _ IH]; [done|].
  csimpl. by rewrite Hname, IH.
Qed.

Lemma same_but_target_fill keys s s' :
  same_but_target s s' ->
  same_but_target
    (astype_series categorical_columns (ffill_series keys s))
    (astype_series categorical_columns (ffill_series keys s')).
Proof.
  intros [Hname Hsame]. split.
  - by rewrite !name_astype_series.
  - rewrite name_astype_series. cbn [ffill_series name].
    intros Hne. by rewrite (Hsame Hne).
Qed.

Lemma filter_same_but_target (l l' : list series) :
  Forall2 same_but_target l l' ->
  filter (fun s => name s ∉ ["Volum"]) l' =
  filter (fun s => name s ∉ ["Volum"]) l.
Proof.
  induction 1 as [|s s' l l' [Hname Hsame] _ IH]; [done|].
  rewrite !filter_cons, Hname, IH. case_decide as Hs; [|done].
  rewrite Hsame; [done|]. intros Heq. apply Hs. rewrite Heq.
  by apply list_elem_of_singleton.
Qed.

Lemma replace_same_but_target dt vals (l l' : list series) :
  Forall2 same_but_target l l' ->
  replace_column "Volum" dt vals <$> l' = replace_column "Volum" dt vals <$> l.
Proof.
  induction 1 as [|s s' l l' [Hname Hsame] _ IH]; [done|].
  csimpl. rewrite IH. f_equal. unfold replace_column. rewrite Hname.
  case_bool_decide as Hs; [done|]. by apply Hsame.
Qed.

Lemma same_but_target_no_target (l l' : list series) :
  Forall2 same_but_target l l' -> "Volum" ∉ name <$> l -> l' = l.
Proof.
  induction 1 as [|s s' l l' [Hname Hsame] _ IH]; [done|].
  csimpl. intros [Hne Hnot]%not_elem_of_cons.
  rewrite IH by done. f_equal. apply Hsame. by intros Heq.
Qed.

Lemma overwrite_same_but_target f f' y_pred :
  index f' = index f ->
  Forall2 same_but_target (cols f) (cols f') ->
  overwrite_target f' y_pred = overwrite_target f y_pred.
Proof.
  intros Hidx Hcols. unfold overwrite_target, has_col, column_names.
  rewrite (names_same_but_target _ _ Hcols), Hidx.
  case_bool_decide as Hin.
  - by rewrite (replace_same_but_target _ _ _ _ Hcols).
  - f_equal. destruct f as [idx l], f' as [idx' l']. cbn [index cols] in *.
    subst idx'. f_equal. by apply same_but_target_no_target.
Qed.

Lemma splitSet_same_but_target f f' :
  index f' = index f ->
  Forall2 same_but_target (cols f) (cols f') ->
  fst <$> splitSet f' = fst <$> splitSet f.
Proof.
  intros Hidx Hcols.
  pose proof (names_same_but_target _ _ Hcols) as Hnames.
  destruct (decide ("Volum" ∈ column_names f)) as [Hin|Hout].
  - assert ("Volum" ∈ column_names f') as Hin'
      by (unfold column_names; by rewrite Hnames).
    destruct (splitSet f) as [[X y]|] eqn:Hs;
      [|by apply splitSet_None_iff in Hs].
    destruct (splitSet f') as [[X' y']|] eqn:Hs';
      [|by apply splitSet_None_iff in Hs'].
    apply splitSet_Some in Hs as [[_ ->]%drop_columns_Some _].
    apply splitSet_Some in Hs' as [[_ ->]%drop_columns_Some _].
    csimpl. by rewrite Hidx, (filter_same_but_target _ _ Hcols).
  - assert ("Volum" ∉ column_names f') as Hout'
      by (unfold column_names; by rewrite Hnames).
    apply splitSet_None_iff in Hout, Hout'. by rewrite Hout, Hout'.
Qed.

Section FutureTarget.
Context `{Regressors}.
Variable to_datetime : string -> option Z.

Lemma handleNullValues_same_but_target t t' :
  dato_tid t' = dato_tid t ->
  Forall2 same_but_target (fields t) (fields t') ->
  match handleNullValues to_datetime t, handleNullValues to_datetime t' with
  | Some out, Some out' =>
      index out' = index out /\ Forall2 same_but_target (cols out) (cols out')
  | None, None => True
  | _, _ => False
  end.
Proof.
  intros Hidx Hcols. rewrite !handleNullValues_timestamps.
  unfold timestamps. rewrite Hidx.
  destruct (dato_tid t ≫= _) as [idx|]; [|done].
  cbn [mbind option_bind].
  destruct (groupby_hour_ffill_columnwise idx) as (idx' & g & _ & Hname & Hg).
  rewrite !Hg. unfold astype_object, has_col, column_names. cbn [index cols].
  assert (Forall2 same_but_target (g <$> fields t) (g <$> fields t'))
    as Hfilled.
  { apply Forall2_fmap. eapply Forall2_impl; [done|].
    intros s s' [Hn Hsame]. split; [by rewrite !Hname|].
    rewrite Hname. intros Hne. by rewrite (Hsame Hne). }
  rewrite (names_same_but_target _ _ Hfilled).
  destruct (forallb _ _); [|done]. split; [done|].
  apply Forall2_fmap. eapply Forall2_impl; [done|].
  intros s s' [Hn Hsame]. split.
  - by rewrite !name_astype_series.
  - rewrite name_astype_series. intros Hne. by rewrite (Hsame Hne).
Qed.

Lemma final_cells_same_future X_train y_train X_validation y_validation
    X_test y_test X_toPredict future future' :
  (forall y_pred,
     overwrite_target future' y_pred = overwrite_target future y_pred) ->
  final_cells X_train y_train X_validation y_validation X_test y_test
    X_toPredict future' =
  final_cells X_train y_train X_validation y_validation X_test y_test
    X_toPredict future.
Proof.
  intros Hsame. unfold final_cells.
  destruct (drop_columns bad_features X_train) as [X_tr|]; [|done].
  destruct (drop_columns bad_features X_validation) as [X_v|]; [|done].
  cbn [mbind option_bind].
  destruct (evaluation _ KNeighborsRegressor X_tr y_train X_v y_validation)
    as [knr|]; [|done].
  cbn [mbind option_bind].
  destruct (evaluation _ RandomForestRegressor _ _ _ _) as [rfr|]; [|done].
  cbn [mbind option_bind].
  destruct (drop_columns bad_features X_test) as [X_te|]; [|done].
  cbn [mbind option_bind].
  destruct (evaluation _ KNeighborsRegressor X_tr y_train X_te y_test)
    as [best|]; [|done].
  cbn [mbind option_bind].
  destruct (ct_transform best.1.1 X_toPredict) as [Xp|]; [|done].
  cbn [mbind option_bind].
  destruct (predict best.1.2 Xp) as [y_pred|]; [|done].
  cbn [mbind option_bind]. by rewrite Hsame.
Qed.

(** X18. The values that the future table holds in its column [Volum] never
    matter: two future tables with the same timestamps and the same
    columns but for the content of [Volum] give the same outputs and the
    same printed lines, and raise for the same reasons. *)
Theorem run_ignores_future_target training_set validation_set test_set
    toPredict_2022 toPredict_2022' s :
  dato_tid toPredict_2022' = dato_tid toPredict_2022 ->
  Forall2 same_but_target (fields toPredict_2022) (fields toPredict_2022') ->
  (fun '(o, s') => (o, stdout s')) <$>
    run to_datetime training_set validation_set test_set toPredict_2022' s =
  (fun '(o, s') => (o, stdout s')) <$>
    run to_datetime training_set validation_set test_set toPredict_2022 s.
Proof.
  intros Hidx Hcols. rewrite !run_stdout. f_equal.
  unfold notebook_in_words.
  destruct (handleNullValues to_datetime training_set) as [training|]; [|done].
  cbn [mbind option_bind].
  destruct (handleNullValues to_datetime validation_set) as [validation|];
    [|done].
  cbn [mbind option_bind].
  destruct (handleNullValues to_datetime test_set) as [test|]; [|done].
  cbn [mbind option_bind].
  pose proof (handleNullValues_same_but_target _ _ Hidx Hcols) as Hfuture.
  destruct (handleNullValues to_datetime toPredict_2022) as [future|],
    (handleNullValues to_datetime toPredict_2022') as [future'|]; try done.
  destruct Hfuture as [Hidx' Hcols']. cbn [mbind option_bind].
  destruct (splitSet training) as [[X_train y_train]|]; [|done].
  cbn [mbind option_bind].
  destruct (splitSet validation) as [[X_validation y_validation]|]; [|done].
  cbn [mbind option_bind].
  destruct (splitSet test) as [[X_test y_test]|]; [|done].
  cbn [mbind option_bind].
  pose proof (splitSet_same_but_target _ _ Hidx' Hcols') as Hsplit.
  destruct (splitSet future) as [[X_toPredict y_toPredict]|],
    (splitSet future') as [[X_toPredict' y_toPredict']|]; try done.
  injection Hsplit as ->. cbn [mbind option_bind].
  by rewrite (final_cells_same_future _ _ _ _ _ _ _ future future')
    by (intros; by apply overwrite_same_but_target).
Qed.

End FutureTarget.

(** The run on the example tables with a guess in the place of the
    unknown target. *)
Lemma run_ignores_future_target_witness :
  (fun '(o, s') => (o, stdout s')) <$>
    run (H := mean_regressors) to_datetime_fixed
      three_days hour_seven_scored hour_seven_scored hour_seven_guessed
      empty_notebook =
  (fun '(o, s') => (o, stdout s')) <$>
    run (H := mean_regressors) to_datetime_fixed
      three_days hour_seven_scored hour_seven_scored hour_seven_future
      empty_notebook.
Proof.
  apply (run_ignores_future_target (H := mean_regressors)); [reflexivity|].
  repeat constructor; intros Hne; by destruct Hne.
Defined.

(** ** The targets that a run needs *)

Section CompleteTargets.
Variable to_datetime : string -> option Z.

(** A column of an imputed table whose rows all have a timestamp: the
    rows of the forward fill of the column read, each once. *)
Lemma filled_column_rows n t idx out y target :
  wf_loaded t ->
  timestamps to_datetime t = Some idx -> NaT ∉ idx ->
  handleNullValues to_datetime t = Some out ->
  get_col n out = Some y ->
  get_col n (Frame idx (fields t)) = Some target ->
  length (values target) = length idx /\
  values y ≡ₚ ffill_groups (hour <$> idx) (values target) ∅.
Proof.
  intros Hwf Htimes Hnat Hrun Hy Htarget.
  destruct (handleNullValues_rows _ _ _ _ Hwf Htimes Hnat Hrun)
    as (rows & Hrows & _ & Hindex & Hcols).
  pose proof (wf_loaded_frame _ _ _ Hwf Htimes) as Hwf'.
  unfold wf_frame in Hwf'. cbn [index cols] in Hwf'.
  rewrite Forall_forall in Hwf'.
  pose proof (get_col_Some _ _ _ Htarget) as [_ Hin]. cbn [cols] in Hin.
  split; [by apply Hwf'|].
  set (fill := fun s => astype_series categorical_columns
                          (take_series rows (ffill_series (hour <$> idx) s)))
    in *.
  assert (y = fill target) as ->.
  { destruct out as [idx' l]. cbn [cols index] in *. subst l.
    rewrite (get_col_fmap fill _ idx' idx), Htarget in Hy
      by (intros; unfold fill; by rewrite name_astype_series).
    by injection Hy. }
  unfold fill. rewrite values_astype_series.
  cbn [take_series values ffill_series].
  apply take_cells_all.
  rewrite length_ffill_groups by (rewrite length_fmap; symmetry; by apply Hwf').
  by rewrite Hwf'.
Qed.

Lemma filled_target_complete t out X y :
  wf_loaded t ->
  handleNullValues to_datetime t = Some out ->
  splitSet out = Some (X, y) ->
  Forall is_Some (values y) ->
  target_can_be_filled to_datetime t.
Proof.
  intros Hwf Hrun [_ Hy]%splitSet_Some Hall labels idx target Hlabels Hidx
    Htarget i ti Hi.
  assert (timestamps to_datetime t = Some idx) as Htimes.
  { unfold timestamps. by rewrite Hlabels. }
  assert (NaT ∉ idx) as Hnat.
  { eapply handleNullValues_complete_column; [done..| |done].
    by apply get_col_Some in Hy as [_ ?]. }
  destruct (filled_column_rows _ _ _ _ _ _ Hwf Htimes Hnat Hrun Hy Htarget)
    as [Hlen Hvals].
  rewrite Hvals in Hall.
  assert (length (hour <$> idx) = length (values target)) as Hlen'
    by (by rewrite length_fmap).
  destruct (lookup_lt_is_Some_2 (values target) i) as [x Hx].
  { rewrite Hlen. by eapply lookup_lt_Some. }
  pose proof (ffill_groups_spec _ _ _ _ Hlen' Hx) as Hcell.
  destruct x as [v|].
  - exists i, ti, v. by split_and!.
  - rewrite Forall_lookup in Hall. destruct (Hall _ _ Hcell) as [v Hv].
    apply nearest_preceding_Some in Hv as (j & Hji & Hk & Hvj & _);
      [|done|rewrite length_fmap; by eapply lookup_lt_Some].
    rewrite !list_lookup_fmap, Hi in Hk.
    destruct (idx !! j) as [tj|] eqn:Hj; [|done]. injection Hk as Hk.
    exists j, tj, v. split_and!; [lia|done..].
Qed.

End CompleteTargets.

Section TargetsOfRun.
Context `{Regressors}.

Lemma run_targets to_datetime training_set validation_set test_set
    toPredict_2022 s o s' :
  run to_datetime training_set validation_set test_set toPredict_2022 s =
    Some (o, s') ->
  wf_loaded training_set -> wf_loaded validation_set -> wf_loaded test_set ->
  target_can_be_filled to_datetime training_set /\
  target_can_be_filled to_datetime validation_set /\
  target_can_be_filled to_datetime test_set.
Proof.
  intros (lines & Hwords & _)%run_Some_in_words Hwf Hwfv Hwft.
  apply notebook_in_words_Some in Hwords
    as (training & validation & test & future & X_train & y_train
        & X_validation & y_validation & X_test & y_test & X_toPredict
        & y_toPredict & first & compared & ablated & last
        & Htr & Hva & Hte & _ & Hstr & Hsva & Hste & _
        & Hfirst & _ & _ & Hlast & _).
  unfold baseline_line, dummy_fit, mean_squared_error in Hfirst.
  destruct (mapM (fmap to_float) (values y_train)) as [ys|] eqn:Hys; [|done].
  cbn [mbind option_bind] in Hfirst. case_decide; [|done].
  cbn [mbind option_bind] in Hfirst.
  destruct (mapM (fmap to_float) (values y_validation)) as [yv|] eqn:Hyv;
    [|done].
  apply final_cells_Some in Hlast
    as (? & ? & ? & ? & ? & best & ? & ?
        & _ & _ & _ & _ & _ & Hbest & _).
  apply evaluation_Some in Hbest
    as (? & ? & ? & ? & _ & _ & _ & _ & _ & Hmse & _).
  unfold mean_squared_error in Hmse.
  destruct (mapM (fmap to_float) (values y_test)) as [yt|] eqn:Hyt; [|done].
  split_and!; eapply filled_target_complete; try done;
    by eapply to_float_targets.
Qed.

(** X19. A run that does not raise had, in its training, validation and test
    table, a target that the fill completes: every row has a row of the
    same hour of the day, at or before it, with a [Volum] present.  A
    table whose first row of some hour has no [Volum] makes the run
    raise. *)
Theorem run_requires_targets to_datetime training_set validation_set test_set
    toPredict_2022 s o s' :
  run to_datetime training_set validation_set test_set toPredict_2022 s =
    Some (o, s') ->
  wf_loaded training_set -> wf_loaded validation_set -> wf_loaded test_set ->
  target_can_be_filled to_datetime training_set /\
  target_can_be_filled to_datetime validation_set /\
  target_can_be_filled to_datetime test_set.
Proof. apply run_targets. Qed.

End TargetsOfRun.

(** On the example tables every row has its [Volum]. *)
Lemma run_requires_targets_witness :
  target_can_be_filled to_datetime_fixed three_days /\
  target_can_be_filled to_datetime_fixed hour_seven_scored.
Proof.
  destruct run_example as (params & s' & Hrun).
  destruct (run_requires_targets (H := mean_regressors) _ _ _ _ _ _ _ _ Hrun)
    as (Htr & Hva & _); [intros labels [= <-]; repeat constructor..|].
  exact (conj Htr Hva).
Defined.

(** ** The shape of the design matrix *)

Lemma ohe_row_Some hu cats c r :
  ohe_row hu cats c = Some r -> r = indicator cats c.
Proof.
  unfold ohe_row. destruct (known_category cats c); [by intros [= <-]|].
  destruct hu; [done|by intros [= <-]].
Qed.

Lemma ohe_transform_Some hu cats vals b :
  ohe_transform hu cats vals = Some b -> b = indicator cats <$> vals.
Proof.
  unfold ohe_transform. intros Hm%mapM_Some_1.
  induction Hm as [|c r vals b Hr _ IH]; [done|].
  csimpl. by rewrite IH, (ohe_row_Some _ _ _ _ Hr).
Qed.

Lemma length_categorical_row hu i (zs : list (list cell * list cell))
    (blocks : list matrix) :
  Forall2 (fun z b => ohe_transform hu z.1 z.2 = Some b) zs blocks ->
  Forall (fun z => i < length z.2)%nat zs ->
  length (concat (row_at i <$> blocks)) = length (concat (zs.*1)).
Proof.
  induction 1 as [|[cats vals] b zs blocks Hb _ IH]; [done|].
  intros [Hi Hzs]%Forall_cons. csimpl.
  apply ohe_transform_Some in Hb as ->.
  apply lookup_lt_is_Some_2 in Hi as [x Hx].
  rewrite (row_at_indicator _ _ _ _ Hx), !length_app, length_indicator.
  f_equal. by apply IH.
Qed.

Lemma length_numeric_row i (sp : list scaler_params) (num : list (list cell)) :
  Forall (fun vals => i < length vals)%nat num ->
  length (concat (row_at i <$> zip_with scaler_transform sp num)) =
  length (zip_with scaler_transform sp num).
Proof.
  intros Hnum. revert sp.
  induction Hnum as [|vals num Hi _ IH]; intros [|p sp]; try done.
  csimpl. apply lookup_lt_is_Some_2 in Hi as [x Hx].
  unfold row_at at 1, scaler_transform at 1.
  rewrite list_lookup_fmap, Hx. csimpl. f_equal. apply IH.
Qed.

Lemma ct_transform_rows spec Xfit p X M :
  ct_fit spec Xfit = Some p ->
  wf_frame X ->
  ct_transform p X = Some M ->
  length M = length (index X) /\
  Forall (fun row => length row =
            (length (concat (categories_ p)) + length (ct_numeric spec))%nat) M.
Proof.
  intros Hfit Hwf HM.
  split; [by eapply ct_transform_length|].
  pose proof (ct_transform_length _ _ _ Hwf HM) as HlenM.
  pose proof (ct_fit_spec _ _ _ Hfit) as Hspec.
  unfold ct_fit in Hfit.
  destruct (select_columns (ct_categorical spec) Xfit) as [cat_fit|]
    eqn:Hcat_fit; [|done].
  destruct (select_columns (ct_numeric spec) Xfit) as [num_fit|]
    eqn:Hnum_fit; [|done].
  cbn [mbind option_bind] in Hfit. case_decide; [done|].
  injection Hfit as Hp.
  assert (length (categories_ p) = length (ct_categorical spec)) as Hcats.
  { rewrite <-Hp. cbn [categories_]. rewrite length_fmap. symmetry.
    by eapply length_mapM. }
  assert (length (scalers_ p) = length (ct_numeric spec)) as Hscalers.
  { rewrite <-Hp. cbn [scalers_]. rewrite length_fmap. symmetry.
    by eapply length_mapM. }
  unfold ct_transform in HM. rewrite Hspec in HM.
  destruct (select_columns (ct_categorical spec) X) as [cat|] eqn:Hcat;
    [|done].
  destruct (select_columns (ct_numeric spec) X) as [num|] eqn:Hnum; [|done].
  cbn [mbind option_bind] in HM. case_decide; [done|].
  destruct (mapM _ (zip (categories_ p) cat)) as [cat_blocks|] eqn:Hblocks;
    [|done].
  cbn [mbind option_bind] in HM. injection HM as HM.
  pose proof (select_columns_length _ _ _ Hwf Hcat) as Hcat_len.
  pose proof (select_columns_length _ _ _ Hwf Hnum) as Hnum_len.
  pose proof (length_mapM _ _ _ Hcat) as Hcat_n.
  pose proof (length_mapM _ _ _ Hnum) as Hnum_n.
  apply mapM_Some_1 in Hblocks.
  assert (Forall2 (fun z b =>
            ohe_transform (ct_handle_unknown spec) z.1 z.2 = Some b)
            (zip (categories_ p) cat) cat_blocks) as Hblocks'.
  { eapply Forall2_impl; [exact Hblocks|]. by intros [cats vals] b. }
  assert (Forall (fun b : matrix => length b = length (index X))
            (cat_blocks ++ zip_with scaler_transform (scalers_ p) num))
    as Hlen.
  { apply Forall_app. split.
    - apply Forall_lookup. intros j b Hb.
      destruct (Forall2_lookup_r _ _ _ _ _ Hblocks' Hb) as ([cats vals] & Hz & Hzb).
      apply ohe_transform_Some in Hzb as ->. rewrite length_fmap.
      apply lookup_zip_with_Some in Hz as (? & ? & [= <- <-] & _ & Hvals).
      rewrite Forall_lookup in Hcat_len. by apply (Hcat_len j).
    - apply Forall_lookup. intros j b Hb.
      apply lookup_zip_with_Some in Hb as (sp & vals & -> & _ & Hvals).
      unfold scaler_transform. rewrite length_fmap.
      rewrite Forall_lookup in Hnum_len. by apply (Hnum_len j). }
  apply Forall_lookup. intros i row Hrow.
  assert (i < length (index X))%nat as Hi
    by (rewrite <-HlenM; by eapply lookup_lt_Some).
  rewrite <-HM, (hstack_lookup _ _ _ Hi Hlen) in Hrow. injection Hrow as <-.
  rewrite fmap_app, concat_app, length_app.
  rewrite (length_categorical_row _ _ _ _ Hblocks').
  - rewrite length_numeric_row.
    + rewrite fst_zip by lia. rewrite length_zip_with. lia.
    + eapply Forall_impl; [exact Hnum_len|]. simpl. intros ? ->. done.
  - apply Forall_lookup. intros j [cats vals] Hz.
    apply lookup_zip_with_Some in Hz as (? & ? & [= <- <-] & _ & Hvals).
    rewrite Forall_lookup in Hcat_len. cbn [snd].
    rewrite (Hcat_len j _ Hvals). done.
Qed.

(** X20. Every design matrix of a fitted transformer has one row per sample,
    and every row has one column per category of each categorical
    feature and one per numeric feature: the matrices of the training,
    the validation, the test and the future data of one fit have the
    same width. *)
Theorem ct_transform_shape spec X_fit p X M :
  ct_fit spec X_fit = Some p ->
  wf_frame X ->
  ct_transform p X = Some M ->
  length M = length (index X) /\
  Forall (fun row => length row =
            (length (concat (categories_ p)) + length (ct_numeric spec))%nat) M.
Proof. apply ct_transform_rows. Qed.

(** The design matrices of the example tables have six rows and one
    row, and the same width. *)
Lemma ct_transform_shape_witness :
  exists p Xt Xv,
    ct_fit (preprocess three_days_X) three_days_X = Some p /\
    ct_transform p three_days_X = Some Xt /\
    ct_transform p hour_seven_X = Some Xv /\
    length Xt = 6%nat /\ length Xv = 1%nat /\
    Forall (fun row => length row =
              (length (concat (categories_ p)) + 3)%nat) Xt /\
    Forall (fun row => length row =
              (length (concat (categories_ p)) + 3)%nat) Xv.
Proof.
  destruct three_days_preprocessed as (p & Xt & Xv & Hp & HXt & _ & HXv & _).
  exists p, Xt, Xv.
  assert (wf_frame three_days_X) as Hwf by repeat constructor.
  assert (wf_frame hour_seven_X) as Hwfv by repeat constructor.
  destruct (ct_transform_shape _ _ _ _ _ Hp Hwf HXt) as [Hlt Hwt].
  destruct (ct_transform_shape _ _ _ _ _ Hp Hwfv HXv) as [Hlv Hwv].
  exact (conj Hp (conj HXt (conj HXv (conj Hlt (conj Hlv (conj Hwt Hwv)))))).
Defined.

(** ** The objects after the comparison *)

Section SharedTransformer.
Context `{Regressors}.

Lemma for_each_fitted (body : nat -> NB unit) pre X y Xv yv params ids :
  (forall est s spec o1 e o2,
     transformers s !! pre = Some (spec, o1) ->
     estimators s !! est = Some (e, o2) ->
     body est s = (r ← evaluation spec e X y Xv yv;
                   Some (tt, evaluated s (pre, est) spec e r))) ->
  forall es s spec o1 s',
    ct_fit spec X = Some params ->
    transformers s !! pre = Some (spec, o1) ->
    Forall2 (fun id e => exists o2, estimators s !! id = Some (e, o2)) ids es ->
    NoDup ids ->
    for_each ids body s = Some (tt, s') ->
    (forall id, id ∉ ids -> estimators s' !! id = estimators s !! id) /\
    (forall k id e, ids !! k = Some id -> es !! k = Some e ->
       exists Xt m,
         ct_transform params X = Some Xt /\
         fit e Xt (values y) = Some m /\
         estimators s' !! id = Some (e, Some m)) /\
    (o1 = Some params \/ ids <> [] ->
     transformers s' !! pre = Some (spec, Some params)).
Proof.
  intros Hbody. induction ids as [|id ids IH];
    intros es s spec o1 s' Hfit Hpre Hids Hnd Hrun.
  - rewrite for_each_nil in Hrun. injection Hrun as <-.
    split_and!; [done|by intros [|k] ??|]. by intros [->|?].
  - apply Forall2_cons_inv_l in Hids as (e & es' & [o2 Hest] & Hids & ->).
    apply NoDup_cons in Hnd as [Hid Hnd].
    rewrite for_each_cons, (Hbody _ _ _ _ _ _ Hpre Hest) in Hrun.
    destruct (evaluation spec e X y Xv yv) as [r|] eqn:Hr; [|done].
    cbn [mbind option_bind] in Hrun.
    apply evaluation_Some in Hr
      as (Xt & ? & ? & ? & Hfit' & HXt & Hm & _).
    assert (r.1.1 = params) as Hparams by congruence.
    rewrite Hparams in HXt.
    pose proof (keeps_estimators_evaluated s pre id spec e o2 r Hest) as Hkeep.
    destruct (IH es' (evaluated s (pre, id) spec e r) spec (Some r.1.1) s')
      as (Hframe & Hfitted & Htr); [done| | |done..|].
    { unfold evaluated. cbn [transformers fst]. apply lookup_insert_eq. }
    { eapply Forall2_impl; [done|]. intros id' e' [o' Hid'].
      by apply (Hkeep id' e' o'). }
    split_and!.
    + intros id0 [Hne Hnot]%not_elem_of_cons. rewrite (Hframe _ Hnot).
      unfold evaluated. cbn [estimators snd]. by apply lookup_insert_ne.
    + intros [|k] id0 e0 Hk He; simplify_eq/=.
      * exists Xt, r.1.2. split_and!; [done..|].
        rewrite (Hframe _ Hid). apply lookup_insert_eq.
      * by apply (Hfitted k).
    + intros _. apply Htr. left. by rewrite Hparams.
Qed.

Lemma compare_all_fitted X_train y_train X_validation y_validation s s' :
  compare_all X_train y_train X_validation y_validation s = Some (tt, s') ->
  exists params,
    ct_fit (preprocess X_train) X_train = Some params /\
    transformers s' !! next_id s = Some (preprocess X_train, Some params) /\
    forall k e, regression_models !! k = Some e ->
      exists Xt m,
        ct_transform params X_train = Some Xt /\
        fit e Xt (values y_train) = Some m /\
        estimators s' !! (S (next_id s) + k)%nat = Some (e, Some m) /\
        forall X,
          pipeline_predict (next_id s, (S (next_id s) + k)%nat) X s' =
          (Xe ← ct_transform params X; y_pred ← predict m Xe;
           Some (y_pred, s')).
Proof.
  unfold compare_all. rewrite bind_run. unfold new_transformer at 1.
  set (s1 := Notebook _ _ _ _). rewrite bind_run.
  destruct (new_estimators_run regression_models s1)
    as (s2 & -> & Htr & Hout & _ & Hids).
  intros Hrun.
  assert (transformers s2 !! next_id s = Some (preprocess X_train, None))
    as Hpre by (rewrite Htr; apply lookup_insert_eq).
  assert (exists params, ct_fit (preprocess X_train) X_train = Some params)
    as [params Hfit].
  { pose proof (for_each_prints
                  (compare_models (next_id s) X_train y_train
                     X_validation y_validation)
                  (next_id s) X_train y_train X_validation y_validation
                  _ _ s2 _ _
                  ltac:(intros; by eapply compare_models_run) Hpre Hids)
      as Hprints.
    unfold prints in Hprints. rewrite Hrun in Hprints.
    unfold regression_models in Hprints. rewrite scores_cons in Hprints.
    destruct (evaluation _ DummyRegressor _ _ _ _) as [r|] eqn:Hr; [|done].
    apply evaluation_Some in Hr as (? & ? & ? & ? & Hfit & _).
    by eexists. }
  destruct (for_each_fitted _ (next_id s) X_train y_train X_validation
              y_validation params _
              ltac:(intros; by eapply compare_models_run)
              _ _ _ _ _ Hfit Hpre Hids (NoDup_seq _ _) Hrun)
    as (_ & Hfitted & Htrans).
  exists params. split_and!; [done| |].
  - apply Htrans. by right.
  - intros k e Hk.
    destruct (Hfitted k (S (next_id s) + k)%nat e) as (Xt & m & HXt & Hm & Hest);
      [|done|].
    { apply lookup_seq. split; [done|]. by eapply lookup_lt_Some. }
    exists Xt, m. split_and!; [done..|].
    intros X. eapply pipeline_predict_run; [|exact Hest].
    apply Htrans. by right.
Qed.

(** X21. The eight pipelines of the comparison share one transformer object,
    which every fit overwrites.  After the cell that object holds the
    fit on the training features, and every estimator object holds its
    own fit on the training data transformed by it: each of the eight
    pipelines still predicts as the pipeline that was scored. *)
Theorem compare_all_leaves_fitted X_train y_train X_validation y_validation
    s s' :
  compare_all X_train y_train X_validation y_validation s = Some (tt, s') ->
  exists params,
    ct_fit (preprocess X_train) X_train = Some params /\
    transformers s' !! next_id s = Some (preprocess X_train, Some params) /\
    forall k e, regression_models !! k = Some e ->
      exists Xt m,
        ct_transform params X_train = Some Xt /\
        fit e Xt (values y_train) = Some m /\
        estimators s' !! (S (next_id s) + k)%nat = Some (e, Some m) /\
        forall X,
          pipeline_predict (next_id s, (S (next_id s) + k)%nat) X s' =
          (Xe ← ct_transform params X; y_pred ← predict m Xe;
           Some (y_pred, s')).
Proof. apply compare_all_fitted. Qed.

End SharedTransformer.

Lemma compare_all_example :
  exists s',
    compare_all (H := mean_regressors) three_days_X three_days_y
      hour_seven_X mean_y empty_notebook = Some (tt, s').
Proof.
  pose proof (compare_all_stdout (H := mean_regressors) three_days_X three_days_y
                hour_seven_X mean_y empty_notebook) as Hsame.
  rewrite scores_example in Hsame by (done || by apply (bool_decide_unpack _)).
  destruct (compare_all _ _ _ _ _) as [[[] s']|]; [|done]. by exists s'.
Qed.

(** After the comparison on the example tables the transformer object
    and the object of the nearest neighbours are fitted. *)
Lemma compare_all_leaves_fitted_witness :
  exists s' params,
    compare_all (H := mean_regressors) three_days_X three_days_y
      hour_seven_X mean_y empty_notebook = Some (tt, s') /\
    transformers s' !! 0%nat = Some (preprocess three_days_X, Some params) /\
    exists m, estimators s' !! 7%nat = Some (KNeighborsRegressor, Some m).
Proof.
  destruct compare_all_example as [s' Hrun].
  destruct (compare_all_leaves_fitted (H := mean_regressors) _ _ _ _ _ _ Hrun)
    as (params & _ & Hpre & Hfitted).
  destruct (Hfitted 6%nat KNeighborsRegressor eq_refl)
    as (Xt & m & _ & _ & Hest & _).
  exists s', params. split; [exact Hrun|]. split; [exact Hpre|].
  exists m. exact Hest.
Defined.

(** ** The categories of the one-hot encoder *)

Lemma value_eqb_true v w : value_eqb v w = true <-> to_float v = to_float w.
Proof.
  destruct v as [a|x], w as [b|y]; simpl; rewrite ?bool_decide_eq_true; try done.
  rewrite Z.eqb_eq. split; [by intros ->|apply eq_IZR].
Qed.

Lemma value_leb_true v w : value_leb v w = true <-> (to_float v <= to_float w)%R.
Proof.
  destruct v as [a|x], w as [b|y]; simpl; rewrite ?bool_decide_eq_true; try done.
  rewrite Z.leb_le. split; [apply IZR_le|apply le_IZR].
Qed.

Lemma cell_eqb_true c d : cell_eqb c d = true <-> cell_key c = cell_key d.
Proof.
  destruct c as [v|], d as [w|]; simpl; try done.
  rewrite value_eqb_true. split; [by intros ->|by intros [= ->]].
Qed.

Lemma cell_eqb_false c d : cell_eqb c d = false <-> cell_key c <> cell_key d.
Proof.
  rewrite <-cell_eqb_true. by destruct (cell_eqb c d).
Qed.

Lemma cell_leb_false c d :
  cell_leb c d = false -> key_lt (cell_key d) (cell_key c).
Proof.
  destruct c as [v|], d as [w|]; simpl; try done.
  intros Hle. destruct (decide (to_float v <= to_float w)%R) as [Hvw|Hvw].
  - apply value_leb_true in Hvw. congruence.
  - lra.
Qed.

Lemma cell_leb_true_ne c d :
  cell_leb c d = true -> cell_eqb c d = false ->
  key_lt (cell_key c) (cell_key d).
Proof.
  destruct c as [v|], d as [w|]; simpl; try done.
  intros Hle%value_leb_true Hne.
  destruct (decide (to_float v = to_float w)) as [Heq|Heq].
  - apply value_eqb_true in Heq. congruence.
  - lra.
Qed.

Lemma key_lt_trans a b c : key_lt a b -> key_lt b c -> key_lt a c.
Proof. destruct a, b, c; simpl; try done. lra. Qed.

Lemma key_lt_irrefl a : ~ key_lt a a.
Proof. intros Hlt. destruct a; simpl in Hlt; [lra|done]. Qed.

Lemma insert_category_above a c cats :
  key_lt a (cell_key c) ->
  Forall (fun d => key_lt a (cell_key d)) cats ->
  Forall (fun d => key_lt a (cell_key d)) (insert_category c cats).
Proof.
  intros Hc Hcats. induction Hcats as [|d cats Hd Hcats IH]; simpl.
  - by constructor.
  - destruct (cell_eqb c d); [by constructor|].
    destruct (cell_leb c d); by repeat constructor.
Qed.

Lemma insert_category_sorted c cats :
  StronglySorted (fun d e => key_lt (cell_key d) (cell_key e)) cats ->
  StronglySorted (fun d e => key_lt (cell_key d) (cell_key e))
    (insert_category c cats).
Proof.
  induction 1 as [|d cats Hsorted IH Hd]; simpl.
  - repeat constructor.
  - destruct (cell_eqb c d) eqn:Heq; [by constructor|].
    destruct (cell_leb c d) eqn:Hle.
    + pose proof (cell_leb_true_ne _ _ Hle Heq) as Hcd.
      constructor; [by constructor|]. constructor; [done|].
      eapply Forall_impl; [exact Hd|]. intros e He.
      by eapply key_lt_trans.
    + constructor; [done|].
      apply insert_category_above; [|done]. by apply cell_leb_false.
Qed.

Lemma insert_category_known c cats :
  (exists d, d ∈ insert_category c cats /\ cell_key d = cell_key c) /\
  (forall d, d ∈ cats -> d ∈ insert_category c cats).
Proof.
  induction cats as [|d cats [(d' & Hd' & Hkey) IH]]; simpl.
  - split; [|by intros d ?%elem_of_nil]. exists c. split; [by left|done].
  - destruct (cell_eqb c d) eqn:Heq.
    + split; [|done]. exists d. split; [by left|].
      symmetry. by apply cell_eqb_true.
    + destruct (cell_leb c d).
      * split; [|by right]. exists c. split; [by left|done].
      * split.
        -- exists d'. split; [by right|done].
        -- intros e [->|He]%elem_of_cons; [by left|]. right. by apply IH.
Qed.

Lemma ohe_fit_sorted vals :
  StronglySorted (fun d e => key_lt (cell_key d) (cell_key e)) (ohe_fit vals).
Proof.
  unfold ohe_fit. induction vals as [|c vals IH]; simpl; [constructor|].
  by apply insert_category_sorted.
Qed.

Lemma ohe_fit_known vals c :
  c ∈ vals -> exists d, d ∈ ohe_fit vals /\ cell_key d = cell_key c.
Proof.
  unfold ohe_fit. induction vals as [|c' vals IH]; simpl; [by intros ?%elem_of_nil|].
  intros [->|Hc]%elem_of_cons.
  - apply insert_category_known.
  - destruct (IH Hc) as (d & Hd & Hkey). exists d. split; [|done].
    by apply insert_category_known.
Qed.

Lemma indicator_zeros cats c :
  Forall (fun d => cell_key d <> cell_key c) cats ->
  indicator cats c = replicate (length cats) (Some 0%R).
Proof.
  unfold indicator. induction 1 as [|d cats Hd _ IH]; [done|].
  csimpl. rewrite IH. f_equal.
  rewrite (proj2 (cell_eqb_false c d)); [done|]. by intros Heq.
Qed.

Lemma indicator_one_hot cats c d :
  StronglySorted (fun d e => key_lt (cell_key d) (cell_key e)) cats ->
  d ∈ cats -> cell_key d = cell_key c ->
  exists before after,
    (before + 1 + after = length cats)%nat /\
    indicator cats c =
    (replicate before (Some 0%R) ++ [Some 1%R] ++
     replicate after (Some 0%R))%list.
Proof.
  intros Hsorted Hd Hkey.
  apply list_elem_of_split in Hd as (l1 & l2 & ->).
  exists (length l1), (length l2). split.
  { rewrite length_app. simpl. lia. }
  apply StronglySorted_app in Hsorted as (Hcross & _ & Hl2).
  apply StronglySorted_cons in Hl2 as [Hafter _].
  assert (Forall (fun e => cell_key e <> cell_key c) l1) as Hne1.
  { apply Forall_forall. intros e He Heq.
    pose proof (Hcross e d He ltac:(by left)) as Hlt. cbv beta in Hlt.
    rewrite Heq, Hkey in Hlt. by eapply key_lt_irrefl. }
  assert (Forall (fun e => cell_key e <> cell_key c) l2) as Hne2.
  { eapply Forall_impl; [exact Hafter|]. intros e He Heq. cbv beta in He.
    rewrite Heq, Hkey in He. by eapply key_lt_irrefl. }
  unfold indicator. rewrite fmap_app, fmap_cons.
  fold (indicator l1 c) (indicator l2 c).
  rewrite !indicator_zeros by done. do 2 f_equal.
  rewrite (proj2 (cell_eqb_true c d)); [done|]. by symmetry.
Qed.

(** X22. A cell whose value was among the values of the fit is encoded with
    exactly one 1, whatever the handling of unknown values: the
    categories of a fit are distinct, so no value matches two of them.
    Every training sample has exactly one 1 in the block of each
    categorical feature. *)
Theorem ohe_row_one_hot hu vals c :
  c ∈ vals ->
  exists before after,
    (before + 1 + after = length (ohe_fit vals))%nat /\
    ohe_row hu (ohe_fit vals) c =
    Some (replicate before (Some 0%R) ++ [Some 1%R] ++
          replicate after (Some 0%R))%list.
Proof.
  intros Hc. destruct (ohe_fit_known _ _ Hc) as (d & Hd & Hkey).
  destruct (indicator_one_hot _ c d (ohe_fit_sorted vals) Hd Hkey)
    as (before & after & Hlen & Hind).
  exists before, after. split; [done|].
  unfold ohe_row. rewrite <-Hind.
  assert (known_category (ohe_fit vals) c = true) as ->; [|done].
  unfold known_category. apply existsb_exists. exists d.
  split; [by apply list_elem_of_In|]. apply cell_eqb_true. by symmetry.
Qed.

(** The hour 5 among the hours 5, 6, 5, 6, 5, 6 of the example. *)
Lemma ohe_row_one_hot_witness :
  exists before after,
    (before + 1 + after)%nat = length (ohe_fit (ints [5; 6; 5; 6; 5; 6])) /\
    ohe_row HU_ignore (ohe_fit (ints [5; 6; 5; 6; 5; 6])) (Some (VInt 5)) =
    Some (replicate before (Some 0%R) ++ [Some 1%R] ++
          replicate after (Some 0%R))%list.
Proof.
  apply (ohe_row_one_hot HU_ignore (ints [5; 6; 5; 6; 5; 6]) (Some (VInt 5))).
  by left.
Defined.

(** ** The standard scaler *)

Lemma Rsum_shift_scale m s (xs : list R) :
  Rsum ((fun x => (x - m) / s)%R <$> xs) =
  ((Rsum xs - INR (length xs) * m) / s)%R.
Proof.
  induction xs as [|x xs IH].
  - simpl. unfold Rdiv. ring.
  - csimpl. unfold Rsum in *. simpl foldr. rewrite IH.
    destruct (length xs); simpl; unfold Rdiv; ring.
Qed.

Lemma Rsum_squares_scale m s (xs : list R) :
  s <> 0%R ->
  Rsum ((fun z => z * z)%R <$> ((fun x => (x - m) / s)%R <$> xs)) =
  (Rsum ((fun x => (x - m) * (x - m))%R <$> xs) / (s * s))%R.
Proof.
  intros Hs. induction xs as [|x xs IH].
  - simpl. unfold Rdiv. ring.
  - csimpl. unfold Rsum in *. simpl foldr. rewrite IH. by field.
Qed.

Lemma Rsum_squares_nonneg m (xs : list R) :
  (0 <= Rsum ((fun x => (x - m) * (x - m))%R <$> xs))%R.
Proof.
  induction xs as [|x xs IH]; [simpl; lra|].
  csimpl. unfold Rsum in *. simpl foldr.
  pose proof (Rle_0_sqr (x - m)) as Hsq. unfold Rsqr in Hsq. lra.
Qed.

Lemma standardize_present m s (vals : list cell) :
  omap (standardize (ScalerParams (Some m) (Some s))) vals =
  (fun x => (x - m) / s)%R <$> omap (fmap to_float) vals.
Proof.
  induction vals as [|[v|] vals IH]; [done|..]; csimpl; by rewrite IH.
Qed.

(** X23. A column standardised by the scaler fitted on it: its present
    values come out with mean 0 and, unless they are all equal, with
    variance 1; its missing values stay missing. *)
Theorem scaler_standardizes (vals : list cell) :
  omap (fmap to_float) vals <> [] ->
  length (omap (standardize (scaler_fit vals)) vals) =
    length (omap (fmap to_float) vals) /\
  Rmean (omap (standardize (scaler_fit vals)) vals) = 0%R /\
  (Rmean ((fun x => (x - Rmean (omap (fmap to_float) vals)) *
                    (x - Rmean (omap (fmap to_float) vals)))%R
            <$> omap (fmap to_float) vals) <> 0%R ->
   Rmean ((fun z => z * z)%R <$> omap (standardize (scaler_fit vals)) vals) =
   1%R).
Proof.
  intros Hne. unfold scaler_fit.
  set (xs := omap (fmap to_float) vals) in *.
  set (m := Rmean xs).
  set (var := Rmean ((fun x => (x - m) * (x - m))%R <$> xs)).
  set (s := if decide (var = 0%R) then 1%R else sqrt var).
  assert (match xs with
          | [] => ScalerParams None None
          | _ :: _ => ScalerParams (Some m) (Some s)
          end = ScalerParams (Some m) (Some s)) as ->
    by (by destruct xs).
  rewrite standardize_present. fold xs.
  assert (INR (length xs) <> 0%R) as Hn.
  { apply not_0_INR. by destruct xs. }
  assert (0 <= var)%R as Hvar.
  { unfold var, Rmean. rewrite length_fmap.
    apply Rmult_le_pos; [apply Rsum_squares_nonneg|].
    apply Rlt_le, Rinv_0_lt_compat.
    destruct (Rtotal_order 0 (INR (length xs))) as [?|[?|Hlt]]; [done|by subst|].
    pose proof (pos_INR (length xs)). lra. }
  assert (s <> 0%R) as Hs.
  { unfold s. case_decide as Hzero; [lra|].
    intros Hsqrt. apply Hzero. apply sqrt_eq_0 in Hsqrt; done. }
  split_and!.
  - by rewrite length_fmap.
  - unfold Rmean. rewrite length_fmap, Rsum_shift_scale.
    unfold m, Rmean. by field.
  - intros Hzero. unfold Rmean.
    rewrite !length_fmap, (Rsum_squares_scale _ _ _ Hs).
    unfold s. rewrite decide_False by done.
    rewrite sqrt_sqrt by done.
    fold (Rmean ((fun x => (x - m) * (x - m))%R <$> xs)) in Hzero.
    fold var in Hzero.
    replace (Rsum ((fun x => (x - m) * (x - m))%R <$> xs))
      with (var * INR (length xs))%R.
    + by field.
    + unfold var, Rmean. rewrite length_fmap. by field.
Qed.

(** The temperatures of the example come out with mean 0. *)
Lemma scaler_standardizes_witness :
  Rmean (omap (standardize (scaler_fit (floats [7; 8; 7; 9; 6; 10])))
           (floats [7; 8; 7; 9; 6; 10])) = 0%R.
Proof.
  apply (scaler_standardizes (floats [7; 8; 7; 9; 6; 10])). discriminate.
Defined.

(** ** When the run does not raise *)

Lemma fillable_target_filled idx (vals : list cell) :
  length idx = length vals ->
  (forall i ti, idx !! i = Some ti ->
     exists j tj v, (j <= i)%nat /\ idx !! j = Some tj /\
       hour tj = hour ti /\ vals !! j = Some (Some v)) ->
  Forall is_Some (ffill_groups (hour <$> idx) vals ∅).
Proof.
  intros Hlen Hfill. apply Forall_lookup. intros i c Hc.
  assert (length (hour <$> idx) = length vals) as Hlen'
    by (by rewrite length_fmap).
  assert (i < length vals)%nat as Hi.
  { rewrite <-(length_ffill_groups (hour <$> idx) vals ∅) by done.
    by eapply lookup_lt_Some. }
  destruct (lookup_lt_is_Some_2 _ _ Hi) as [x Hx].
  rewrite (ffill_groups_spec _ _ _ _ Hlen' Hx) in Hc. injection Hc as <-.
  destruct x as [v|]; [by eexists|].
  destruct (nearest_preceding _ _ _) as [v|] eqn:Hnear; [by eexists|].
  exfalso.
  destruct (lookup_lt_is_Some_2 idx i) as [ti Hti]; [lia|].
  destruct (Hfill i ti Hti) as (j & tj & v & Hji & Hj & Hh & Hv).
  assert (j <> i) by (intros ->; congruence).
  assert (i < length (hour <$> idx))%nat as Hik by lia.
  apply (proj1 (nearest_preceding_None _ _ _ Hik) Hnear j v); [lia| |done].
  rewrite !list_lookup_fmap, Hti, Hj. simpl. by rewrite Hh.
Qed.

Lemma mse_is_Some (y_true : list cell) (y_pred : list R) :
  Forall is_Some y_true -> length y_true = length y_pred -> y_pred <> [] ->
  is_Some (mean_squared_error y_true y_pred).
Proof.
  intros Hall Hlen Hne. unfold mean_squared_error.
  destruct (mapM_is_Some_2 (fmap to_float) y_true) as [ys Hys].
  { eapply Forall_impl; [exact Hall|]. intros c [v ->]. by eexists. }
  rewrite Hys. cbn [mbind option_bind].
  apply length_mapM in Hys. rewrite decide_True; [by eexists|].
  split; [lia|]. rewrite <-Hys, Hlen. by destruct y_pred.
Qed.

Section Prepared.
Variable to_datetime : string -> option Z.

(** A well-formed readable table goes through [handleNullValues] and
    [splitSet]; a column that can be filled comes out without a missing
    value. *)
Lemma prepared_table names t :
  wf_loaded t ->
  readable to_datetime ("Volum" :: names) t ->
  categorical_columns ⊆ names ->
  "Volum" ∉ names ->
  exists labels out X y,
    dato_tid t = Some labels /\
    handleNullValues to_datetime t = Some out /\
    splitSet out = Some (X, y) /\
    wf_frame X /\
    length (index X) = length labels /\
    length (index X) <> 0%nat /\
    names ⊆ column_names X /\
    "Volum" ∈ column_names out /\
    length (index out) = length (index X) /\
    length (values y) = length (index X) /\
    (target_can_be_filled to_datetime t -> Forall is_Some (values y)) /\
    (forall n s, n <> "Volum" -> column_can_be_filled to_datetime n t ->
       get_col n X = Some s -> Forall is_Some (values s)).
Proof.
  intros Hwf (labels & Hlabels & Hall & Hnames & Hrows) Hcats Hvol.
  destruct (has_timestamp_timestamps _ _ _ Hlabels Hall) as (idx & Htimes & Hnat).
  destruct (handleNullValues_is_Some to_datetime t idx Htimes) as [out Hrun].
  { intros n Hn. apply Hnames. right. by apply Hcats. }
  destruct (splitSet_filled to_datetime t out Hwf Hrun)
    as (X & y & Hsplit & Hidx & HwfX & Hlen & _ & _ & _ & Hy & _).
  { apply Hnames. by left. }
  pose proof (handleNullValues_Some _ _ _ Hrun)
    as (idx' & Htimes' & _ & _ & Hlenout & Hcols).
  assert (idx' = idx) as -> by congruence.
  destruct (timestamps_Some _ _ _ Htimes) as (labels' & Hlabels' & Hmap & Hlen').
  assert (labels' = labels) as -> by congruence.
  assert (forall n s col,
            get_col n out = Some s ->
            get_col n (Frame idx (fields t)) = Some col ->
            (forall i ti, idx !! i = Some ti ->
               exists j tj v, (j <= i)%nat /\ idx !! j = Some tj /\
                 hour tj = hour ti /\ values col !! j = Some (Some v)) ->
            Forall is_Some (values s)) as Hfilled.
  { intros n s col Hs Hcol Hfill.
    destruct (filled_column_rows _ _ _ _ _ _ _ Hwf Htimes Hnat Hrun Hs Hcol)
      as [Hlencol ->].
    by apply fillable_target_filled. }
  exists labels, out, X, y. split_and!; try done.
  - by rewrite Hidx, Hlenout.
  - rewrite Hidx, Hlenout, Hlen'. by destruct labels.
  - intros n Hn. apply splitSet_Some in Hsplit as [[_ ->]%drop_columns_Some _].
    unfold column_names. cbn [cols].
    assert (n ∈ column_names out) as Hin
      by (rewrite Hcols; apply Hnames; by right).
    apply list_elem_of_fmap in Hin as (s0 & -> & Hs0).
    apply list_elem_of_fmap_2, list_elem_of_filter. split; [|done].
    intros Heq%list_elem_of_singleton. apply Hvol. by rewrite <-Heq.
  - rewrite Hcols. apply Hnames. by left.
  - by rewrite Hidx.
  - intros Hfill.
    destruct (get_col_is_Some "Volum" (Frame idx (fields t))) as [target Htarget].
    { apply Hnames. by left. }
    apply (Hfilled "Volum" y target Hy Htarget).
    by apply (Hfill labels idx target).
  - intros n s Hne Hfill Hs.
    apply splitSet_Some in Hsplit as [Hdrop _].
    rewrite (get_col_drop_columns _ _ _ _ Hdrop) in Hs
      by (by intros ?%list_elem_of_singleton).
    destruct (get_col_is_Some n (Frame idx (fields t))) as [col Hcol].
    { unfold column_names. cbn [cols]. rewrite <-Hcols.
      apply get_col_Some in Hs as [<- Hs]. by apply list_elem_of_fmap_2. }
    apply (Hfilled n s col Hs Hcol). by apply (Hfill labels idx col).
Qed.

End Prepared.

Section RunSucceeds.
Context `{Regressors}.

(** The estimators of the library fit on every design matrix of five
    rows at least, without a missing number, with one target for every
    row, none missing; fitted on five rows at least, they predict one
    number for every row of a design matrix of the same width without a
    missing number. *)
Hypothesis fit_total : forall e Xt ys width,
  (5 <= length Xt)%nat ->
  Forall (fun row => length row = width) Xt -> has_nan Xt = false ->
  length ys = length Xt -> Forall is_Some ys ->
  is_Some (fit e Xt ys).
Hypothesis predict_total : forall e Xt ys m Xe width,
  fit e Xt ys = Some m -> (5 <= length Xt)%nat ->
  Forall (fun row => length row = width) Xt ->
  Forall (fun row => length row = width) Xe -> has_nan Xe = false ->
  exists y_pred, predict m Xe = Some y_pred /\ length y_pred = length Xe.

Lemma evaluation_scorable spec e X y Xv yv :
  ct_handle_unknown spec = HU_ignore ->
  ct_categorical spec ++ ct_numeric spec ⊆ features_to_test ->
  scorable X y -> scorable Xv yv ->
  (5 <= length (index X))%nat ->
  complete_columns (ct_numeric spec) X ->
  complete_columns (ct_numeric spec) Xv ->
  is_Some (evaluation spec e X y Xv yv).
Proof.
  intros Hhu Hspec (Hwf & Hrows & Hcols & Hlen & Hall)
    (Hwfv & Hrowsv & Hcolsv & Hlenv & Hallv) Hfive Hnum Hnumv.
  destruct (ct_fit_is_Some spec X) as [params Hp];
    [by intros n Hn; apply Hcols, Hspec|done|].
  pose proof (ct_fit_spec _ _ _ Hp) as Hs.
  destruct (ct_transform_is_Some params X) as [Xt HXt];
    [by rewrite Hs|rewrite Hs; by intros n Hn; apply Hcols, Hspec|done|].
  destruct (ct_transform_is_Some params Xv) as [Xe HXe];
    [by rewrite Hs|rewrite Hs; by intros n Hn; apply Hcolsv, Hspec|done|].
  destruct (ct_transform_rows _ _ _ _ _ Hp Hwf HXt) as [Hlt Hwidth].
  destruct (ct_transform_rows _ _ _ _ _ Hp Hwfv HXe) as [Hle Hwidthv].
  assert (has_nan Xt = false) as Hnan.
  { apply (design_no_nan spec X X); try done.
    by rewrite <-(ct_transform_in_words spec X params X). }
  assert (has_nan Xe = false) as Hnanv.
  { apply (design_no_nan spec X Xv); try done.
    by rewrite <-(ct_transform_in_words spec X params Xv). }
  destruct (fit_total e Xt (values y) _ ltac:(lia) Hwidth Hnan) as [m Hm];
    [lia|done|].
  destruct (predict_total e Xt (values y) m Xe _ Hm ltac:(lia) Hwidth Hwidthv Hnanv)
    as (y_pred & Hpred & Hlp).
  destruct (mse_is_Some (values yv) y_pred) as [MSE Hmse];
    [done|lia|by destruct y_pred, Xe|].
  unfold evaluation. rewrite Hp. cbn [mbind option_bind].
  rewrite HXt. cbn [mbind option_bind]. rewrite Hm. cbn [mbind option_bind].
  rewrite HXe. cbn [mbind option_bind]. rewrite Hpred.
  cbn [mbind option_bind]. rewrite Hmse. by eexists.
Qed.

Lemma scores_scorable spec es X y Xv yv :
  ct_handle_unknown spec = HU_ignore ->
  ct_categorical spec ++ ct_numeric spec ⊆ features_to_test ->
  scorable X y -> scorable Xv yv ->
  (5 <= length (index X))%nat ->
  complete_columns (ct_numeric spec) X ->
  complete_columns (ct_numeric spec) Xv ->
  is_Some (scores spec es X y Xv yv).
Proof.
  intros Hhu Hspec HX HXv Hfive Hnum Hnumv.
  induction es as [|e es [l IH]]; [by eexists|].
  rewrite scores_cons.
  destruct (evaluation_scorable spec e X y Xv yv) as [r ->]; [done..|].
  cbn [mbind option_bind]. rewrite IH. by eexists.
Qed.

Lemma drop_is_Some labels X :
  labels ⊆ column_names X -> is_Some (drop_columns labels X).
Proof. intros Hsub. eexists. by apply drop_columns_Some. Qed.

Lemma complete_columns_subseteq names names' X :
  names' ⊆ names -> complete_columns names X -> complete_columns names' X.
Proof. intros Hsub Hall n s Hn. apply Hall. by apply Hsub. Qed.

Lemma ablation_scorable fs X y Xv yv :
  fs ⊆ features_to_test ->
  scorable X y -> scorable Xv yv ->
  (5 <= length (index X))%nat ->
  complete_columns features_to_test X ->
  complete_columns features_to_test Xv ->
  is_Some (ablation fs X y Xv yv).
Proof.
  intros Hfs HX HXv Hfive Hnum Hnumv.
  pose proof HX as (_ & _ & Hcols & _). pose proof HXv as (_ & _ & Hcolsv & _).
  induction fs as [|f fs IH]; [by eexists|].
  destruct IH as [rest Hrest]; [intros n Hn; apply Hfs; by right|].
  assert (f ∈ features_to_test) as Hf by (apply Hfs; by left).
  destruct (drop_is_Some [f] X) as [Xd Hd].
  { intros ? ->%list_elem_of_singleton. by apply Hcols. }
  destruct (drop_is_Some [f] Xv) as [Xvd Hdv].
  { intros ? ->%list_elem_of_singleton. by apply Hcolsv. }
  rewrite ablation_cons. unfold ablation_step.
  rewrite Hd, Hdv. cbn [mbind option_bind]. rewrite !scores_cons.
  rewrite !(evaluation_drop [f] _ _ X Xd _ Xv Xvd _ Hd Hdv).
  2,3: intros n [_ Hn]%check_feature_process_elem_of
         ->%list_elem_of_singleton; done.
  assert (ct_numeric (check_feature_process Xd f) ⊆ features_to_test) as Hsub.
  { intros n Hn.
    apply (proj1 (check_feature_process_elem_of Xd f n)), elem_of_app.
    by right. }
  destruct (evaluation_scorable (check_feature_process Xd f)
              KNeighborsRegressor X y Xv yv) as [r1 ->];
    [done| |done|done|done|by eapply complete_columns_subseteq..|].
  { by intros n [Hn _]%check_feature_process_elem_of. }
  destruct (evaluation_scorable (check_feature_process Xd f)
              RandomForestRegressor X y Xv yv) as [r2 ->];
    [done| |done|done|done|by eapply complete_columns_subseteq..|].
  { by intros n [Hn _]%check_feature_process_elem_of. }
  cbn [mbind option_bind scores mapM mret option_ret]. rewrite Hrest.
  by eexists.
Qed.

Lemma final_cells_scorable X y Xv yv Xt yt Xp future :
  scorable X y -> scorable Xv yv -> scorable Xt yt ->
  (5 <= length (index X))%nat ->
  complete_columns ["Lufttemperatur"] X ->
  complete_columns ["Lufttemperatur"] Xv ->
  complete_columns ["Lufttemperatur"] Xt ->
  complete_columns ["Lufttemperatur"] Xp ->
  wf_frame Xp -> length (index Xp) <> 0%nat ->
  ["Hour"; "isWeekday"; "Month"; "Lufttemperatur"] ⊆ column_names Xp ->
  length (index future) = length (index Xp) ->
  is_Some (final_cells X y Xv yv Xt yt Xp future).
Proof.
  intros HX HXv HXt Hfive Hnum Hnumv Hnumt Hnump Hwfp Hrowsp Hcolsp Hlenp.
  pose proof HX as (Hwf & _ & Hcols & _).
  pose proof HXv as (_ & _ & Hcolsv & _).
  pose proof HXt as (_ & _ & Hcolst & _).
  assert (bad_features ⊆ features_to_test) as Hbad
    by (by apply (bool_decide_unpack _)).
  destruct (drop_is_Some bad_features X) as [X_tr Hd];
    [by intros n Hn; apply Hcols, Hbad|].
  destruct (drop_is_Some bad_features Xv) as [X_v Hdv];
    [by intros n Hn; apply Hcolsv, Hbad|].
  destruct (drop_is_Some bad_features Xt) as [X_te Hdt];
    [by intros n Hn; apply Hcolst, Hbad|].
  set (spec := preprocess_selected_features X_tr).
  assert (ct_categorical spec ++ ct_numeric spec ⊆ features_to_test) as Hspec
    by (by apply (bool_decide_unpack _)).
  unfold final_cells. rewrite Hd, Hdv. cbn [mbind option_bind]. fold spec.
  rewrite !(evaluation_drop bad_features spec _ X X_tr _ Xv X_v _ Hd Hdv)
    by apply bad_features_not_selected.
  destruct (evaluation_scorable spec KNeighborsRegressor X y Xv yv)
    as [knr ->]; [done..|].
  destruct (evaluation_scorable spec RandomForestRegressor X y Xv yv)
    as [rfr ->]; [done..|].
  cbn [mbind option_bind]. rewrite Hdt. cbn [mbind option_bind].
  rewrite (evaluation_drop bad_features spec _ X X_tr _ Xt X_te _ Hd Hdt)
    by apply bad_features_not_selected.
  destruct (evaluation_scorable spec KNeighborsRegressor X y Xt yt)
    as [best Hbest]; [done..|].
  rewrite Hbest. cbn [mbind option_bind].
  apply evaluation_Some in Hbest as (Xt' & ? & ? & ? & Hfit & HXt' & Hm & _).
  pose proof (ct_fit_spec _ _ _ Hfit) as Hfitspec.
  destruct (ct_transform_is_Some best.1.1 Xp) as [M HM];
    [by rewrite Hfitspec|by rewrite Hfitspec|done|].
  rewrite HM. cbn [mbind option_bind].
  destruct (ct_transform_rows _ _ _ _ _ Hfit Hwf HXt') as [Hlt Hwidth].
  destruct (ct_transform_rows _ _ _ _ _ Hfit Hwfp HM) as [Hlm Hwidthp].
  assert (has_nan M = false) as Hnan.
  { apply (design_no_nan spec X Xp); try done.
    by rewrite <-(ct_transform_in_words spec X best.1.1 Xp). }
  destruct (predict_total KNeighborsRegressor Xt' (values y) best.1.2 M _ Hm
              ltac:(lia) Hwidth Hwidthp Hnan) as (y_pred & -> & Hlp).
  cbn [mbind option_bind].
  unfold overwrite_target. destruct (has_col "Volum" future); [|by eexists].
  rewrite decide_True by lia. by eexists.
Qed.

Lemma notebook_in_words_is_Some to_datetime training_set validation_set
    test_set toPredict_2022 :
  wf_loaded training_set -> wf_loaded validation_set ->
  wf_loaded test_set -> wf_loaded toPredict_2022 ->
  readable to_datetime ("Volum" :: features_to_test) training_set ->
  readable to_datetime ("Volum" :: features_to_test) validation_set ->
  readable to_datetime ("Volum" :: features_to_test) test_set ->
  readable to_datetime
    ["Volum"; "Hour"; "isWeekday"; "Month"; "Lufttemperatur"] toPredict_2022 ->
  (forall labels, dato_tid training_set = Some labels ->
     (5 <= length labels)%nat) ->
  target_can_be_filled to_datetime training_set ->
  target_can_be_filled to_datetime validation_set ->
  target_can_be_filled to_datetime test_set ->
  (forall n, n ∈ features_to_test ->
     column_can_be_filled to_datetime n training_set /\
     column_can_be_filled to_datetime n validation_set) ->
  column_can_be_filled to_datetime "Lufttemperatur" test_set ->
  column_can_be_filled to_datetime "Lufttemperatur" toPredict_2022 ->
  is_Some (notebook_in_words to_datetime training_set validation_set test_set
             toPredict_2022).
Proof.
  intros Hwf Hwfv Hwft Hwff Hr Hrv Hrt Hrf Hfive Hfill Hfillv Hfillt
    Hfeatures Hfeaturet Hfeaturef.
  assert (categorical_columns ⊆ features_to_test) as Hcats
    by (by apply (bool_decide_unpack _)).
  assert ("Volum" ∉ features_to_test) as Hvol
    by (by apply (bool_decide_unpack _)).
  destruct (prepared_table to_datetime _ _ Hwf Hr Hcats Hvol)
    as (labels & training & X_train & y_train & Hlabels & Htr & Hstr & ? & Hrows
        & ? & ? & _ & _ & ? & Hy & Hcol).
  destruct (prepared_table to_datetime _ _ Hwfv Hrv Hcats Hvol)
    as (? & validation & X_validation & y_validation & _ & Hva & Hsva & ? & _
        & ? & ? & _ & _ & ? & Hyv & Hcolv).
  destruct (prepared_table to_datetime _ _ Hwft Hrt Hcats Hvol)
    as (? & test & X_test & y_test & _ & Hte & Hste & ? & _ & ? & ? & _ & _ & ?
        & Hyt & Hcolt).
  destruct (prepared_table to_datetime
              ["Hour"; "isWeekday"; "Month"; "Lufttemperatur"] _ Hwff Hrf)
    as (? & future & X_toPredict & y_toPredict & _ & Hfu & Hsfu & ? & _ & ? & ?
        & _ & Hlenf & _ & _ & Hcolf).
  { by apply (bool_decide_unpack _). }
  { by apply (bool_decide_unpack _). }
  assert (scorable X_train y_train) as HX by (split_and!; auto).
  assert (scorable X_validation y_validation) as HXv by (split_and!; auto).
  assert (scorable X_test y_test) as HXt by (split_and!; auto).
  assert (5 <= length (index X_train))%nat as Hfive'.
  { rewrite Hrows. by apply Hfive. }
  assert (forall n, n ∈ features_to_test -> n <> "Volum") as Hne.
  { intros n Hn ->. by apply Hvol. }
  assert (complete_columns features_to_test X_train) as Hnum.
  { intros n s Hn. apply Hcol; [by apply Hne|]. by apply Hfeatures. }
  assert (complete_columns features_to_test X_validation) as Hnumv.
  { intros n s Hn. apply Hcolv; [by apply Hne|]. by apply Hfeatures. }
  assert (forall X, complete_columns features_to_test X ->
            complete_columns ["Lufttemperatur"] X) as Hone.
  { intros X. apply complete_columns_subseteq.
    by apply (bool_decide_unpack _). }
  assert (complete_columns ["Lufttemperatur"] X_test) as Hnumt.
  { intros n s ->%list_elem_of_singleton. by apply Hcolt. }
  assert (complete_columns ["Lufttemperatur"] X_toPredict) as Hnumf.
  { intros n s ->%list_elem_of_singleton. by apply Hcolf. }
  unfold notebook_in_words.
  rewrite Htr, Hva, Hte, Hfu. cbn [mbind option_bind].
  rewrite Hstr, Hsva, Hste, Hsfu. cbn [mbind option_bind].
  pose proof HX as (_ & Hrows' & _ & Hlen & Hall).
  pose proof HXv as (_ & Hrowsv & _ & Hlenv & Hallv).
  assert (is_Some (baseline_line X_train y_train X_validation y_validation))
    as [first ->].
  { unfold baseline_line, dummy_fit.
    destruct (mapM_is_Some_2 (fmap to_float) (values y_train)) as [ys Hys].
    { eapply Forall_impl; [exact Hall|]. intros c [v ->]. by eexists. }
    rewrite Hys. cbn [mbind option_bind].
    apply length_mapM in Hys. rewrite decide_True by (split; lia).
    cbn [mbind option_bind].
    destruct (mse_is_Some (values y_validation)
                (dummy_predict (Rmean ys) (length (index X_validation))))
      as [MSE ->]; [done|by unfold dummy_predict; rewrite length_replicate| |].
    { unfold dummy_predict. by destruct (length (index X_validation)). }
    by eexists. }
  cbn [mbind option_bind].
  destruct (scores_scorable (preprocess X_train) regression_models
              X_train y_train X_validation y_validation) as [compared ->];
    [done|by apply (bool_decide_unpack _)|done|done|done
    |eapply complete_columns_subseteq; [|done]; by apply (bool_decide_unpack _)
    |eapply complete_columns_subseteq; [|done]; by apply (bool_decide_unpack _)|].
  cbn [mbind option_bind].
  destruct (ablation_scorable features_to_test
              X_train y_train X_validation y_validation) as [ablated ->];
    [done..|].
  cbn [mbind option_bind].
  destruct (final_cells_scorable X_train y_train X_validation y_validation
              X_test y_test X_toPredict future) as [[o last] ->];
    [done|done|done|done|by apply Hone|by apply Hone|done..|].
  by eexists.
Qed.

(** X24. With estimators that fit on every design matrix of five rows at
    least, without a missing number, with complete targets, and that
    then predict one number per sample of a design matrix without a
    missing number, the run does not raise on well-formed tables that
    are readable, when the training table has five rows at least, the
    targets of the training, the validation and the test table can be
    filled, and so can the six features of the training and the
    validation table and the temperature of the test and the future
    table. *)
Theorem run_succeeds to_datetime training_set validation_set test_set
    toPredict_2022 s :
  wf_loaded training_set -> wf_loaded validation_set ->
  wf_loaded test_set -> wf_loaded toPredict_2022 ->
  readable to_datetime ("Volum" :: features_to_test) training_set ->
  readable to_datetime ("Volum" :: features_to_test) validation_set ->
  readable to_datetime ("Volum" :: features_to_test) test_set ->
  readable to_datetime
    ["Volum"; "Hour"; "isWeekday"; "Month"; "Lufttemperatur"] toPredict_2022 ->
  (forall labels, dato_tid training_set = Some labels ->
     (5 <= length labels)%nat) ->
  target_can_be_filled to_datetime training_set ->
  target_can_be_filled to_datetime validation_set ->
  target_can_be_filled to_datetime test_set ->
  (forall n, n ∈ features_to_test ->
     column_can_be_filled to_datetime n training_set /\
     column_can_be_filled to_datetime n validation_set) ->
  column_can_be_filled to_datetime "Lufttemperatur" test_set ->
  column_can_be_filled to_datetime "Lufttemperatur" toPredict_2022 ->
  is_Some (run to_datetime training_set validation_set test_set
             toPredict_2022 s).
Proof.
  intros Hwf Hwfv Hwft Hwff Hr Hrv Hrt Hrf Hfive Hfill Hfillv Hfillt
    Hfeatures Hfeaturet Hfeaturef.
  destruct (notebook_in_words_is_Some to_datetime training_set
              validation_set test_set toPredict_2022) as [x Hx]; [done..|].
  pose proof (run_stdout to_datetime training_set validation_set test_set
                toPredict_2022 s) as Hsame.
  rewrite Hx in Hsame.
  destruct (run _ _ _ _ _ _) as [r|]; [by eexists|done].
Qed.

End RunSucceeds.

Lemma mean_fit_total e (Xt : matrix) (ys : list cell) width :
  (5 <= length Xt)%nat ->
  Forall (fun row => length row = width) Xt -> has_nan Xt = false ->
  length ys = length Xt -> Forall is_Some ys ->
  is_Some (fit (Regressors := mean_regressors) e Xt ys).
Proof.
  intros Hfive _ Hnan Hlen Hall. simpl. unfold mean_fit, dummy_fit.
  rewrite Hnan, andb_false_r.
  destruct (mapM_is_Some_2 (fmap to_float) ys) as [ys' Hys].
  { eapply Forall_impl; [exact Hall|]. intros c [v ->]. by eexists. }
  rewrite Hys. cbn [mbind option_bind]. apply length_mapM in Hys.
  rewrite decide_True; [by eexists|]. split; lia.
Qed.

Lemma mean_predict_total e (Xt : matrix) (ys : list cell) m (Xe : matrix) width :
  fit (Regressors := mean_regressors) e Xt ys = Some m ->
  (5 <= length Xt)%nat ->
  Forall (fun row => length row = width) Xt ->
  Forall (fun row => length row = width) Xe -> has_nan Xe = false ->
  exists y_pred,
    predict (Regressors := mean_regressors) m Xe = Some y_pred /\
    length y_pred = length Xe.
Proof.
  intros _ _ _ _ Hnan. simpl. unfold mean_predict.
  rewrite Hnan, andb_false_r. eexists. split; [reflexivity|].
  unfold dummy_predict. apply length_replicate.
Qed.

Lemma present_column_can_be_filled to_datetime n t :
  wf_loaded t ->
  (forall s, s ∈ fields t -> name s = n -> Forall is_Some (values s)) ->
  column_can_be_filled to_datetime n t.
Proof.
  intros Hwf Hpresent labels idx target Hlabels Hidx Htarget i ti Hi.
  apply get_col_Some in Htarget as [Hname Hin]. cbn [cols] in Hin.
  pose proof (Hpresent _ Hin Hname) as Hall.
  assert (i < length (values target))%nat as Hlt.
  { specialize (Hwf labels Hlabels). rewrite Forall_forall in Hwf.
    rewrite (Hwf _ Hin), (length_mapM _ _ _ Hidx). by eapply lookup_lt_Some. }
  destruct (lookup_lt_is_Some_2 _ _ Hlt) as [x Hx].
  rewrite Forall_lookup in Hall. destruct (Hall _ _ Hx) as [v ->].
  by exists i, ti, v.
Qed.

Lemma filled_column_can_be_filled to_datetime n t idx :
  wf_loaded t ->
  timestamps to_datetime t = Some idx ->
  (forall s, s ∈ fields t -> name s = n ->
     Forall is_Some (ffill_groups (hour <$> idx) (values s) ∅)) ->
  column_can_be_filled to_datetime n t.
Proof.
  intros Hwf Htimes Hfilled labels idx' target Hlabels Hidx Htarget i ti Hi.
  assert (idx' = idx) as ->.
  { unfold timestamps in Htimes. rewrite Hlabels in Htimes. simpl in Htimes.
    congruence. }
  apply get_col_Some in Htarget as [Hname Hin]. cbn [cols] in Hin.
  pose proof (Hfilled _ Hin Hname) as Hall.
  assert (length (values target) = length idx) as Hlen.
  { specialize (Hwf labels Hlabels). rewrite Forall_forall in Hwf.
    by rewrite (Hwf _ Hin), (length_mapM _ _ _ Hidx). }
  assert (length (hour <$> idx) = length (values target)) as Hlen'
    by (by rewrite length_fmap).
  destruct (lookup_lt_is_Some_2 (values target) i) as [x Hx].
  { rewrite Hlen. by eapply lookup_lt_Some. }
  pose proof (ffill_groups_spec _ _ _ _ Hlen' Hx) as Hcell.
  destruct x as [v|].
  - exists i, ti, v. by split_and!.
  - rewrite Forall_lookup in Hall. destruct (Hall _ _ Hcell) as [v Hv].
    apply nearest_preceding_Some in Hv as (j & Hji & Hk & Hvj & _);
      [|done|rewrite length_fmap; by eapply lookup_lt_Some].
    rewrite !list_lookup_fmap, Hi in Hk.
    destruct (idx !! j) as [tj|] eqn:Hj; [|done]. injection Hk as Hk.
    exists j, tj, v. split_and!; [lia|done..].
Qed.

Lemma filled_target_can_be_filled to_datetime t idx :
  wf_loaded t ->
  timestamps to_datetime t = Some idx ->
  (forall s, s ∈ fields t -> name s = "Volum" ->
     Forall is_Some (ffill_groups (hour <$> idx) (values s) ∅)) ->
  target_can_be_filled to_datetime t.
Proof. apply filled_column_can_be_filled. Qed.

(** The run on the example tables with the mean predictor does not
    raise. *)
Lemma run_succeeds_witness :
  is_Some (run (H := mean_regressors) to_datetime_fixed
             three_days hour_seven_scored hour_seven_scored hour_seven_future
             empty_notebook).
Proof.
  assert (wf_loaded three_days) as Hwf
    by (intros labels [= <-]; repeat constructor).
  assert (wf_loaded hour_seven_scored) as Hwfv
    by (intros labels [= <-]; repeat constructor).
  assert (wf_loaded hour_seven_future) as Hwff
    by (intros labels [= <-]; repeat constructor).
  assert (forall n t idx,
            wf_loaded t ->
            timestamps to_datetime_fixed t = Some idx ->
            Forall (fun s => name s = n ->
                      Forall is_Some (ffill_groups (hour <$> idx) (values s) ∅))
              (fields t) ->
            column_can_be_filled to_datetime_fixed n t) as Hfill.
  { intros n t idx Ht Htimes Hfilled.
    apply (filled_column_can_be_filled _ _ _ idx Ht Htimes).
    rewrite Forall_forall in Hfilled. exact Hfilled. }
  assert (forall names (labels : list string) t,
            dato_tid t = texts labels ->
            Forall (has_timestamp to_datetime_fixed) (Some <$> labels) ->
            names ⊆ name <$> fields t -> labels <> [] ->
            readable to_datetime_fixed names t) as Hreadable.
  { intros names labels t Hlabels Hall Hsub Hne.
    exists (Some <$> labels). split_and!; [done..|]. by destruct labels. }
  apply (run_succeeds (H := mean_regressors)
           mean_fit_total mean_predict_total to_datetime_fixed
           three_days hour_seven_scored hour_seven_scored
           hour_seven_future empty_notebook Hwf Hwfv Hwfv Hwff).
  - eapply Hreadable; [reflexivity| |by apply (bool_decide_unpack _)|done].
    repeat constructor; eexists _, _; (split_and!; [reflexivity..|done]).
  - eapply Hreadable; [reflexivity| |by apply (bool_decide_unpack _)|done].
    repeat constructor; eexists _, _; (split_and!; [reflexivity..|done]).
  - eapply Hreadable; [reflexivity| |by apply (bool_decide_unpack _)|done].
    repeat constructor; eexists _, _; (split_and!; [reflexivity..|done]).
  - eapply Hreadable; [reflexivity| |by apply (bool_decide_unpack _)|done].
    repeat constructor; eexists _, _; (split_and!; [reflexivity..|done]).
  - intros labels [= <-]. simpl. lia.
  - eapply (Hfill "Volum"); [done|reflexivity|by apply (bool_decide_unpack _)].
  - eapply (Hfill "Volum"); [done|reflexivity|by apply (bool_decide_unpack _)].
  - eapply (Hfill "Volum"); [done|reflexivity|by apply (bool_decide_unpack _)].
  - intros n Hn. apply list_elem_of_In in Hn. simpl in Hn.
    destruct Hn as [<-|[<-|[<-|[<-|[<-|[<-|[]]]]]]];
      (split; (eapply Hfill;
                 [done|reflexivity|by apply (bool_decide_unpack _)])).
  - eapply Hfill; [done|reflexivity|by apply (bool_decide_unpack _)].
  - eapply Hfill; [done|reflexivity|by apply (bool_decide_unpack _)].
Defined.

(** ** Where every fit gets its data *)

Lemma wf_drop_columns labels f X :
  wf_frame f -> drop_columns labels f = Some X -> wf_frame X.
Proof.
  intros Hwf [_ ->]%drop_columns_Some. unfold wf_frame in *. cbn [index cols].
  rewrite Forall_forall in Hwf. apply Forall_forall.
  intros s [_ Hs]%list_elem_of_filter. by apply Hwf.
Qed.

Lemma columns_of_refl X : columns_of X X.
Proof. by split. Qed.

Lemma columns_of_drop_columns labels X Xd :
  drop_columns labels X = Some Xd -> columns_of X Xd.
Proof.
  intros [_ ->]%drop_columns_Some. split; [done|]. cbn [cols].
  by intros s [_ Hs]%list_elem_of_filter.
Qed.

(** The parameters of a fitted transformer in plain words. *)
Lemma ct_fit_in_words spec X p :
  ct_fit spec X = Some p ->
  exists cat_fit num_fit,
    select_columns (ct_categorical spec) X = Some cat_fit /\
    select_columns (ct_numeric spec) X = Some num_fit /\
    p = CtParams spec (ohe_fit <$> cat_fit) (scaler_in_words <$> num_fit).
Proof.
  unfold ct_fit.
  destruct (select_columns (ct_categorical spec) X) as [cat_fit|]; [|done].
  destruct (select_columns (ct_numeric spec) X) as [num_fit|]; [|done].
  cbn [mbind option_bind]. case_decide; [done|]. intros [= <-].
  exists cat_fit, num_fit. split_and!; [done..|]. f_equal.
  apply list_fmap_ext. intros ? vals _. apply scaler_fit_in_words.
Qed.

Section FittedOnTraining.
Context `{Regressors}.

Lemma evaluation_on_training spec e X_train y_train X_fit X_eval X_eval' y_eval
    held_out r :
  ct_handle_unknown spec = HU_ignore ->
  wf_frame X_fit -> wf_frame X_eval' ->
  columns_of X_train X_fit -> columns_of X_eval X_eval' ->
  (X_eval, y_eval) ∈ held_out ->
  evaluation spec e X_fit y_train X_eval' y_eval = Some r ->
  scored_on_training X_train y_train held_out (Report e r.2).
Proof.
  intros Hhu Hwf Hwfv Hcols Hcolsv Hin
    (Xt & Xe & y_pred & targets & Hfit & HXt & Hm & HXe & Hpred & Htargets
     & Hlen & _ & Hscore)%evaluation_Some_iff.
  rewrite (ct_transform_in_words spec X_fit _ _ Hhu Hfit Hwf) in HXt.
  rewrite (ct_transform_in_words spec X_fit _ _ Hhu Hfit Hwfv) in HXe.
  exists X_eval, y_eval, targets, y_pred. split_and!; [done..|].
  right. by exists spec, X_fit, X_eval', Xt, r.1.2, Xe.
Qed.

Lemma scores_on_training spec es X_train y_train X_fit X_eval X_eval' y_eval
    held_out lines :
  ct_handle_unknown spec = HU_ignore ->
  wf_frame X_fit -> wf_frame X_eval' ->
  columns_of X_train X_fit -> columns_of X_eval X_eval' ->
  (X_eval, y_eval) ∈ held_out ->
  scores spec es X_fit y_train X_eval' y_eval = Some lines ->
  Forall (scored_on_training X_train y_train held_out) lines.
Proof.
  intros Hhu Hwf Hwfv Hcols Hcolsv Hin. revert lines.
  induction es as [|e es IH]; intros lines.
  - unfold scores. csimpl. by intros [= <-].
  - rewrite scores_cons.
    destruct (evaluation _ _ _ _ _ _) as [r|] eqn:Hr; [|done].
    cbn [mbind option_bind].
    destruct (scores spec es _ _ _ _) as [l|]; [|done].
    cbn [mbind option_bind]. intros [= <-]. constructor; [|by apply IH].
    by apply (evaluation_on_training spec e X_train y_train X_fit X_eval
                X_eval' y_eval).
Qed.

Lemma ablation_on_training fs X_train y_train X_validation y_validation
    held_out lines :
  wf_frame X_train -> wf_frame X_validation ->
  (X_validation, y_validation) ∈ held_out ->
  ablation fs X_train y_train X_validation y_validation = Some lines ->
  Forall (scored_on_training X_train y_train held_out) lines.
Proof.
  intros Hwf Hwfv Hin. revert lines.
  induction fs as [|f fs IH]; intros lines.
  - unfold ablation. csimpl. by intros [= <-].
  - rewrite ablation_cons.
    destruct (ablation_step _ _ _ _ f) as [l|] eqn:Hstep; [|done].
    cbn [mbind option_bind].
    destruct (ablation fs _ _ _ _) as [ls|]; [|done].
    cbn [mbind option_bind]. intros [= <-].
    apply Forall_app. split; [|by apply IH].
    unfold ablation_step in Hstep.
    destruct (drop_columns [f] X_train) as [Xd|] eqn:Hd; [|done].
    destruct (drop_columns [f] X_validation) as [Xvd|] eqn:Hdv; [|done].
    cbn [mbind option_bind] in Hstep.
    destruct (scores _ _ _ _ _ _) as [l'|] eqn:Hl; [|done].
    injection Hstep as <-. constructor; [done|].
    eapply (scores_on_training (check_feature_process Xd f) _
              X_train y_train Xd X_validation Xvd);
      [reflexivity|exact (wf_drop_columns _ _ _ Hwf Hd)
      |exact (wf_drop_columns _ _ _ Hwfv Hdv)
      |exact (columns_of_drop_columns _ _ _ Hd)
      |exact (columns_of_drop_columns _ _ _ Hdv)|done|done].
Qed.

Lemma baseline_on_training X_train y_train X_validation y_validation held_out
    first :
  (X_validation, y_validation) ∈ held_out ->
  baseline_line X_train y_train X_validation y_validation = Some first ->
  scored_on_training X_train y_train held_out first.
Proof.
  intros Hin. unfold baseline_line, dummy_fit.
  destruct (mapM (fmap to_float) (values y_train)) as [ys|] eqn:Hys; [|done].
  cbn [mbind option_bind]. case_decide; [|done]. cbn [mbind option_bind].
  destruct (mean_squared_error _ _) as [MSE|] eqn:Hmse; [|done].
  intros [= <-].
  apply mean_squared_error_in_words in Hmse
    as (targets & Htargets & Hlen & _ & ->).
  exists X_validation, y_validation, targets,
    (dummy_predict (Rmean ys) (length (index X_validation))).
  split_and!; [done..|]. left. exists ys. split_and!; [done..|].
  unfold dummy_predict in *. rewrite length_replicate in Hlen.
  by rewrite Hlen.
Qed.

(** C6. In a run that does not raise, every line printed is a score
    computed from a fit on the training data alone: the baseline is the
    mean of the training targets, and every other score is that of an
    estimator fitted on the design matrix and the targets of the
    training data (without the columns that the cell drops), for the
    design matrix that the held-out features get from the training
    data.  The design matrices are those in plain words: the one-hot
    categories are the distinct values of the training column, and a
    numeric cell is standardised with the mean and the deviation of the
    training column, whichever table the cell is from.  The pipeline
    saved holds these parameters and the estimator fitted on the
    training data, and the predictions written are its predictions for
    the future features, transformed with those parameters. *)
Theorem fitted_on_training_data_only to_datetime training_set validation_set
    test_set toPredict_2022 s o s' :
  wf_loaded training_set -> wf_loaded validation_set ->
  wf_loaded test_set -> wf_loaded toPredict_2022 ->
  run to_datetime training_set validation_set test_set toPredict_2022 s =
    Some (o, s') ->
  exists training validation test future
         X_train y_train X_validation y_validation
         X_test y_test X_toPredict y_toPredict lines,
    handleNullValues to_datetime training_set = Some training /\
    handleNullValues to_datetime validation_set = Some validation /\
    handleNullValues to_datetime test_set = Some test /\
    handleNullValues to_datetime toPredict_2022 = Some future /\
    splitSet training = Some (X_train, y_train) /\
    splitSet validation = Some (X_validation, y_validation) /\
    splitSet test = Some (X_test, y_test) /\
    splitSet future = Some (X_toPredict, y_toPredict) /\
    stdout s' = stdout s ++ lines /\
    Forall (scored_on_training X_train y_train
              [(X_validation, y_validation); (X_test, y_test)]) lines /\
    saved_from_training X_train y_train X_toPredict future o.
Proof.
  intros Hwf Hwfv Hwft Hwff (lines & Hwords & Hout)%run_Some_in_words.
  apply notebook_in_words_Some in Hwords
    as (training & validation & test & future & X_train & y_train
        & X_validation & y_validation & X_test & y_test & X_toPredict
        & y_toPredict & first & compared & ablated & last
        & Htr & Hva & Hte & Hfu & Hstr & Hsva & Hste & Hsfu
        & Hfirst & Hcompared & Hablated & Hlast & ->).
  assert (forall t out X y,
            wf_loaded t -> handleNullValues to_datetime t = Some out ->
            splitSet out = Some (X, y) -> wf_frame X) as Hsplit.
  { intros t out X y Ht Hrun [Hdrop _]%splitSet_Some.
    eapply wf_drop_columns; [|done]. by eapply handleNullValues_wf. }
  pose proof (Hsplit _ _ _ _ Hwf Htr Hstr) as HwfX.
  pose proof (Hsplit _ _ _ _ Hwfv Hva Hsva) as HwfXv.
  pose proof (Hsplit _ _ _ _ Hwft Hte Hste) as HwfXt.
  pose proof (Hsplit _ _ _ _ Hwff Hfu Hsfu) as HwfXp.
  set (held_out := [(X_validation, y_validation); (X_test, y_test)]).
  assert ((X_validation, y_validation) ∈ held_out) as Hin by (by left).
  assert ((X_test, y_test) ∈ held_out) as Hint by (right; by left).
  pose proof (final_cells_Some _ _ _ _ _ _ _ _ _ _ Hlast)
    as (X_tr & X_v & X_te & knr & rfr & best & Xp & y_pred
        & Hd & Hdv & Hdt & Hknr & Hrfr & Hbest & HXp & Hpred & Hwrite & ->).
  assert (model_pkl o =
            ((preprocess_selected_features X_tr, Some best.1.1),
             (KNeighborsRegressor, Some best.1.2))) as Hpkl.
  { unfold final_cells in Hlast. rewrite Hd, Hdv in Hlast.
    cbn [mbind option_bind] in Hlast. rewrite Hknr, Hrfr in Hlast.
    cbn [mbind option_bind] in Hlast. rewrite Hdt in Hlast.
    cbn [mbind option_bind] in Hlast. rewrite Hbest in Hlast.
    cbn [mbind option_bind] in Hlast. rewrite HXp in Hlast.
    cbn [mbind option_bind] in Hlast. rewrite Hpred in Hlast.
    cbn [mbind option_bind] in Hlast.
    destruct (overwrite_target future y_pred); [|done].
    cbn [mbind option_bind] in Hlast. by injection Hlast as <-. }
  exists training, validation, test, future, X_train, y_train,
    X_validation, y_validation, X_test, y_test, X_toPredict, y_toPredict,
    (first :: compared ++ ablated ++
       [Report KNeighborsRegressor knr.2; Report RandomForestRegressor rfr.2;
        Report KNeighborsRegressor best.2]).
  split_and!; try done.
  - constructor; [exact (baseline_on_training _ _ _ _ _ _ Hin Hfirst)|].
    repeat (apply Forall_app; split).
    + eapply (scores_on_training (preprocess X_train) _ X_train y_train
                X_train X_validation X_validation); [reflexivity|done|done|apply columns_of_refl
                |apply columns_of_refl|done|done].
    + exact (ablation_on_training _ _ _ _ _ _ _ HwfX HwfXv Hin Hablated).
    + repeat constructor.
      * eapply (evaluation_on_training (preprocess_selected_features X_tr) _
                  X_train y_train X_tr X_validation X_v);
          [reflexivity|exact (wf_drop_columns _ _ _ HwfX Hd)
          |exact (wf_drop_columns _ _ _ HwfXv Hdv)
          |exact (columns_of_drop_columns _ _ _ Hd)
          |exact (columns_of_drop_columns _ _ _ Hdv)|done|done].
      * eapply (evaluation_on_training (preprocess_selected_features X_tr) _
                  X_train y_train X_tr X_validation X_v);
          [reflexivity|exact (wf_drop_columns _ _ _ HwfX Hd)
          |exact (wf_drop_columns _ _ _ HwfXv Hdv)
          |exact (columns_of_drop_columns _ _ _ Hd)
          |exact (columns_of_drop_columns _ _ _ Hdv)|done|done].
      * eapply (evaluation_on_training (preprocess_selected_features X_tr) _
                  X_train y_train X_tr X_test X_te);
          [reflexivity|exact (wf_drop_columns _ _ _ HwfX Hd)
          |exact (wf_drop_columns _ _ _ HwfXt Hdt)
          |exact (columns_of_drop_columns _ _ _ Hd)
          |exact (columns_of_drop_columns _ _ _ Hdt)|done|done].
  - apply evaluation_Some_iff in Hbest
      as (Xt & Xe & y_test_pred & targets & Hfit & HXt & Hm & _).
    destruct (ct_fit_in_words _ _ _ Hfit) as (cat_fit & num_fit & Hcat & Hnum & Hp).
    pose proof (wf_drop_columns _ _ _ HwfX Hd) as HwfXtr.
    rewrite (ct_transform_in_words (preprocess_selected_features X_tr) X_tr
               _ _ eq_refl Hfit HwfXtr) in HXt.
    rewrite (ct_transform_in_words (preprocess_selected_features X_tr) X_tr
               _ _ eq_refl Hfit HwfXp) in HXp.
    exists (preprocess_selected_features X_tr), X_tr, cat_fit, num_fit,
      best.1.1, Xt, best.1.2, Xp, y_pred.
    split_and!; try done.
    + exact (columns_of_drop_columns _ _ _ Hd).
Qed.

End FittedOnTraining.

(** On the example tables every line printed is a score from a fit on
    [three_days_X] and [three_days_y], and the pipeline saved is the fit
    on them. *)
Lemma fitted_on_training_data_only_witness :
  exists o s',
    run (H := mean_regressors) to_datetime_fixed
      three_days hour_seven_scored hour_seven_scored hour_seven_future
      empty_notebook = Some (o, s') /\
    Forall (scored_on_training (H := mean_regressors) three_days_X three_days_y
              [(hour_seven_X, mean_y); (hour_seven_X, mean_y)]) (stdout s') /\
    saved_from_training (H := mean_regressors) three_days_X three_days_y
      hour_seven_X hour_seven o.
Proof.
  destruct run_example as (params & s' & Hrun).
  assert (wf_loaded three_days) as Hwf
    by (intros labels [= <-]; repeat constructor).
  assert (wf_loaded hour_seven_scored) as Hwfv
    by (intros labels [= <-]; repeat constructor).
  assert (wf_loaded hour_seven_future) as Hwff
    by (intros labels [= <-]; repeat constructor).
  destruct (fitted_on_training_data_only (H := mean_regressors)
              _ _ _ _ _ _ _ _ Hwf Hwfv Hwfv Hwff Hrun)
    as (training & validation & test & future & X_train & y_train
        & X_validation & y_validation & X_test & y_test & X_toPredict
        & y_toPredict & lines & Htr & Hva & Hte & Hfu & Hstr & Hsva & Hste
        & Hsfu & Hout & Hlines & Hsaved).
  rewrite handleNullValues_three_days in Htr. injection Htr as <-.
  rewrite handleNullValues_hour_seven_scored in Hva. injection Hva as <-.
  rewrite handleNullValues_hour_seven_scored in Hte. injection Hte as <-.
  rewrite handleNullValues_hour_seven_future in Hfu. injection Hfu as <-.
  injection Hstr as <- <-. injection Hsva as <- <-.
  injection Hste as <- <-. injection Hsfu as <- _.
  eexists _, s'. split; [exact Hrun|]. rewrite Hout.
  exact (conj Hlines Hsaved).
Defined.
